(* ===== verification/_CoqProject ===== *)
-Q . S2P
Prelude.v
Goroutines.v
GoFloat.v
GoRuntime.v
Hashing.v
Types.v
Conditions.v
Evaluator.v
Examples.v
EvaluatorFacts.v
ConditionFacts.v
World.v
Diagnostics.v
ErrorBoundary.v
Transport.v
Store.v
IdLists.v
Polling.v
Logger.v
InitResponse.v
Client.v
Statsig.v
WorldExamples.v
ClientExamples.v
TransportFacts.v
StoreFacts.v
IdListFacts.v
PollingFacts.v
LoggerFacts.v
InitResponseFacts.v
ClientFacts.v
SdkFacts.v
