(* ===== verification/Prelude.v ===== *)
(** * The Statsig server SDK for Go: a verification development

    The SDK under src/ (package statsig) evaluates feature gates, dynamic
    configs, experiments and layers for a user.  It downloads the rules
    ("config specs") and the ID lists of segments from a server, keeps them
    fresh in two polling goroutines, evaluates them locally, and logs every
    evaluation as an exposure event.  This development translates its
    implementation into executable Rocq definitions, file by file, and proves
    what makes each part correct.

    ** The program and its files

    - Goroutines: programs as trees of atomic steps, pools of them under every
      interleaving, and the isolation of programs that keep to an entry of
      their own.
    - GoFloat, GoRuntime: the Go language and standard library as far as the
      SDK uses them: int64 and uint64 with their wrap-around, float64 as
      SpecFloat's binary64 with strconv's reading and fmt's shortest printing,
      interface{} values and their texts, the functions of strings, strconv,
      time (with the parser of RFC 3339) and reflect.
    - Hashing: util.go, with an executable SHA-256 and base64.
    - Types: types.go, evaluation_details.go and the structs of the specs.
    - Conditions, Evaluator: evaluator.go.  The mutual recursion of eval,
      evalGate, evalRule, evalCondition and evalDelegate is written in open
      recursion and closed by the Fixpoint [eval].  The evaluator reads the
      store through the class [SpecStore].
    - World: the state of the running SDK (one record [World] with the
      components' structs, the goroutines started and a trace of effects), the
      monad [M] over it, and the class [Outside] of what the outside answers.
    - Diagnostics: diagnostics.go, output_logger.go, global_state.go,
      statsig_metadata.go.  ErrorBoundary: error_boundary.go.  Transport:
      transport.go.
    - Store, IdLists, Polling: store.go: config specs, the ID lists, and
      construction with the polling loops.  [store] is the instance of
      [SpecStore] that the running evaluator uses.
    - Logger: logger.go.  InitResponse: client_initialize_response.go.
      Client: client.go.  Statsig: statsig.go, and the running SDK as a step
      relation: calls of the application, and turns and ends of goroutines.
    - Examples, WorldExamples, ClientExamples: the concrete runtime, stores,
      network and worlds on which theorems are applied.
    - the files named Facts: the theorems, one file for each group below.

    ** How the code is read

    A Go function without effects is a function; where it can panic, it returns
    an [outcome]: a value, a panic with its value, or no fuel.  A Go function
    with effects is a computation of the state monad [GoM World] with the same
    outcomes; the state changes made before a panic stay, and [recovering] is
    a deferred recover.  A map is a gmap, the sync.Map of an ID list a gset; a nil
    map or pointer is None where the code tells it from an empty one.  Ranging
    over a map takes an order from the outside, which may be any.  Each question
    to the outside advances [w_tick], so two readings of the clock may differ.  Within
    one evaluation the clock is read once.

    ** Fuel

    [eval] takes fuel because Go bounds the recursion by a depth that is
    passed down: a call deeper than [maxRecursiveDepth] = 300 panics.
    [eval_fuel] is 302, one call for each depth from 0 to 301, and
    evaluation_terminates shows that an evaluation never runs out of it,
    whatever the specs.  The retries of a request are structural in the
    number of retries.  A polling loop is modelled by its iteration, which says
    whether the loop goes on.

    ** What the theorems show

    - EvaluatorFacts: evaluation terminates; the first rule that passes or needs
      the server decides; a rule is the conjunction of its conditions; a result
      that needs the server never passes; gates that always need each other panic and
      ranked specs stay within the depth; exposures of gate conditions; the delegation
      of a passing rule; overrides.
    - ConditionFacts: exact whole percentages and a rounding error at 1.1
      percent; negated operators; membership; numbers whose texts differ; the
      order of versions; days.
    - TransportFacts: the attempts, pauses and answers of a retried request.
    - StoreFacts: installed specs are what the accessors answer; a sync is all
      or nothing.  PollingFacts: what a new store serves, and from where.
    - IdListFacts: the download goroutines of one sync do not disturb each other
      under any interleaving of their steps; a list follows its file; a sync is safe.
    - LoggerFacts: no event is lost, duplicated or reordered on its way to
      the goroutines that send; what a flush does; sampling by key.
    - InitResponseFacts: the response of the client SDKs, entry by entry, from the
      evaluations of the specs; its exposures are distinct; the values of
      experiments in layers.
    - ClientFacts: the outcome of a gate check with its one request or its one
      exposure; no API method panics; overrides; LogImmediate.
    - SdkFacts: an invariant of every reachable state of the running SDK, the
      first and the second initialisation, shutdown, and the package functions
      with and without an instance.

    ** Parameters

    The class [GoRuntime] holds the pure functions of code outside src/ or of
    tables of the standard library: Unicode case and spaces of strings that are
    not ASCII, the regexp engine, the local time zone, the conversion to int64 of
    floats that do not fit, which Go leaves to the machine, the IP country lookup
    and the user agent parser.  The class [Outside] holds what is not a function of
    its arguments alone: clock, random numbers, map order, UUIDs, HTTP,
    encoding/json of requests and responses, and the application's data adapter,
    whose methods may panic.  Raw JSON values inside specs (default and return values) are decoded
    values, or invalid.

    ** What is not modelled

    Locks and memory: an operation of a component is atomic, and goroutines
    interleave between operations.  The goroutine of a download is written once
    over a monad: a sync runs the downloads one after the other, and downloads_commute
    shows that their steps in any other order give each list the same contents.  Timers:
    the ticker and the polling sleeps are the choice of the step relation, and a
    tick may still be delivered after the ticker was stopped.  The world holds the components of one client: a client
    that is dropped because its start timed out keeps its goroutines and
    shares them.  The example data adapters, compareMetadata and the tests
    are left out.  A failure of uuid generation is not modelled.  The
    callbacks of the application are effects of the trace; their own panics
    are not modelled.

    ** What could follow

    Interleavings of an evaluation with a store swap between its reads; the
    outcome of config, experiment and layer checks as for gates; the request
    bodies as JSON text with a parser and a round trip. *)
From stdpp Require Export base tactics option list gmap strings pretty sorting.
From Stdlib Require Export ZArith Lia Ascii.
From Stdlib Require Export SpecFloat.

#[global] Open Scope Z_scope.
#[global] Set Default Goal Selector "!".

Declare Scope go_scope.
Delimit Scope go_scope with go.

(** ** Panics and outcomes

    A Go panic carries an [interface{}] value.  The code of the SDK only
    distinguishes errors, strings and everything else ([toError] of
    util.go, [LogError] of output_logger.go). *)

Inductive goPanic :=
| PanicError (msg : string)
| PanicString (s : string)
| PanicOther.

(** Runtime panics raised by the language itself. *)
Definition nil_dereference : goPanic :=
  PanicError "runtime error: invalid memory address or nil pointer dereference".
Definition nil_map_write : goPanic :=
  PanicError "assignment to entry in nil map".

(** The result of running Go code: a value, a panic, or exhausted
    recursion budget of the model ([OutOfFuel] is never the result of a
    whole evaluation, see [Evaluator]). *)
Inductive outcome (A : Type) :=
| Ret (a : A)
| Panic (e : goPanic)
| OutOfFuel.
Arguments Ret {A} a.
Arguments Panic {A} e.
Arguments OutOfFuel {A}.

#[export] Instance outcome_ret : MRet outcome := fun A a => Ret a.
#[export] Instance outcome_bind : MBind outcome := fun A B f m =>
  match m with
  | Ret a => f a
  | Panic e => Panic e
  | OutOfFuel => OutOfFuel
  end.
#[export] Instance outcome_fmap : FMap outcome := fun A B f m =>
  match m with
  | Ret a => Ret (f a)
  | Panic e => Panic e
  | OutOfFuel => OutOfFuel
  end.

#[export] Instance goPanic_eq_dec : EqDecision goPanic.
Proof. solve_decision. Defined.
#[export] Instance outcome_eq_dec `{EqDecision A} : EqDecision (outcome A).
Proof. solve_decision. Defined.

Section outcome_laws.
Context {A B C : Type}.

Lemma outcome_bind_ret_l (a : A) (f : A → outcome B) : (mret a ≫= f) = f a.
Proof. done. Qed.

Lemma outcome_bind_ret_r (m : outcome A) : (m ≫= mret) = m.
Proof. by destruct m. Qed.

Lemma outcome_bind_assoc (m : outcome A) (f : A → outcome B) (g : B → outcome C) :
  ((m ≫= f) ≫= g) = (m ≫= (fun a => f a ≫= g)).
Proof. by destruct m. Qed.

Lemma outcome_bind_Ret_inv (m : outcome A) (f : A → outcome B) b :
  (m ≫= f) = Ret b → ∃ a, m = Ret a ∧ f a = Ret b.
Proof. destruct m; simpl; naive_solver. Qed.

Lemma outcome_bind_defined (m : outcome A) (f : A → outcome B) :
  m ≠ OutOfFuel → (∀ a, f a ≠ OutOfFuel) → (m ≫= f) ≠ OutOfFuel.
Proof. destruct m; simpl; naive_solver. Qed.

(** Definedness order: [OutOfFuel] is below everything. *)
Definition outcome_le (m n : outcome A) : Prop := m = OutOfFuel ∨ m = n.
End outcome_laws.

#[export] Instance outcome_le_preorder A : PreOrder (@outcome_le A).
Proof. split; [by right|]. intros x y z [->| ->] ?; [by left|done]. Qed.

Lemma outcome_le_bind {A B} (m n : outcome A) (f g : A → outcome B) :
  outcome_le m n → (∀ a, outcome_le (f a) (g a)) →
  outcome_le (m ≫= f) (n ≫= g).
Proof. intros [->| ->] Hf; [by left|]. destruct n; [apply Hf|by right|by right]. Qed.

Lemma outcome_le_defined {A} (m n : outcome A) :
  outcome_le m n → m ≠ OutOfFuel → n = m.
Proof. intros [->| ->]; done. Qed.

(** ** The state monad of the stateful components

    State survives a panic, as the heap does in Go; [recover] turns a
    panic into a value. *)

Definition GoM (S A : Type) : Type := S → outcome A * S.

#[export] Instance gom_ret S : MRet (GoM S) := fun A a s => (Ret a, s).
#[export] Instance gom_bind S : MBind (GoM S) := fun A B f m s =>
  match m s with
  | (Ret a, s') => f a s'
  | (Panic e, s') => (Panic e, s')
  | (OutOfFuel, s') => (OutOfFuel, s')
  end.
#[export] Instance gom_fmap S : FMap (GoM S) := fun A B f m s =>
  match m s with
  | (Ret a, s') => (Ret (f a), s')
  | (Panic e, s') => (Panic e, s')
  | (OutOfFuel, s') => (OutOfFuel, s')
  end.

Section gom_operations.
Context {S : Type}.

Definition gets {A} (f : S → A) : GoM S A := fun s => (Ret (f s), s).
Definition modify (f : S → S) : GoM S () := fun s => (Ret (), f s).
Definition go_panic {A} (e : goPanic) : GoM S A := fun s => (Panic e, s).
Definition lift_outcome {A} (m : outcome A) : GoM S A := fun s => (m, s).

(** [defer func() { if err := recover(); err != nil { h(err) } }()] around [m]. *)
Definition recovering {A} (m : GoM S A) (h : goPanic → GoM S A) : GoM S A :=
  fun s => match m s with
           | (Panic e, s') => h e s'
           | r => r
           end.

Definition when (b : bool) (m : GoM S ()) : GoM S () :=
  if b then m else mret ().
End gom_operations.

(** A loop over a list, in any monad. *)
Fixpoint for_each {T : Type → Type} `{!MRet T, !MBind T} {A} (l : list A) (f : A → T unit) : T unit :=
  match l with
  | [] => mret ()
  | x :: l => f x ≫= fun _ => for_each l f
  end.

Section gom_laws.
Context {S : Type}.

Lemma gom_bind_ret_l {A B} (a : A) (f : A → GoM S B) s :
  (mret a ≫= f) s = f a s.
Proof. done. Qed.

Lemma gom_bind_assoc {A B C} (m : GoM S A) (f : A → GoM S B) (g : B → GoM S C) s :
  ((m ≫= f) ≫= g) s = (m ≫= (fun a => f a ≫= g)) s.
Proof. unfold mbind, gom_bind. by destruct (m s) as [[]]. Qed.

Lemma gom_bind_Ret {A B} (m : GoM S A) (f : A → GoM S B) s a s' :
  m s = (Ret a, s') → (m ≫= f) s = f a s'.
Proof. unfold mbind, gom_bind. by intros ->. Qed.

Lemma gom_bind_Ret_inv {A B} (m : GoM S A) (f : A → GoM S B) s b s' :
  (m ≫= f) s = (Ret b, s') → ∃ a s1, m s = (Ret a, s1) ∧ f a s1 = (Ret b, s').
Proof. unfold mbind, gom_bind. destruct (m s) as [[a|e|] s1]; [eauto|done..]. Qed.

Lemma for_each_app {A} (l k : list A) (f : A → GoM S ()) s :
  for_each (l ++ k) f s = (for_each l f ≫= fun _ => for_each k f) s.
Proof.
  revert s; induction l as [|x l IH]; intros s; [done|]. simpl.
  unfold mbind, gom_bind. destruct (f x s) as [[[]| |] s']; done.
Qed.
End gom_laws.

(** An invariant of the state kept by a computation, whatever its outcome. *)
Definition preserves {S A} (I : S → Prop) (m : GoM S A) : Prop :=
  ∀ s, I s → I (m s).2.

Create HintDb preserve.

Section preserves.
Context {S : Type} (I : S → Prop).

Lemma preserves_ret {A} (a : A) : preserves I (mret a).
Proof. by intros s. Qed.
Lemma preserves_gets {A} (f : S → A) : preserves I (gets f).
Proof. by intros s. Qed.
Lemma preserves_panic {A} e : preserves I (go_panic (A:=A) e).
Proof. by intros s. Qed.
Lemma preserves_lift {A} (m : outcome A) : preserves I (lift_outcome m).
Proof. by intros s. Qed.
Lemma preserves_bind {A B} (m : GoM S A) (f : A → GoM S B) :
  preserves I m → (∀ a, preserves I (f a)) → preserves I (m ≫= f).
Proof.
  intros Hm Hf s Hs. specialize (Hm s Hs). unfold mbind, gom_bind.
  destruct (m s) as [[a|e|] s'] eqn:E; simpl in *; auto. by apply Hf.
Qed.
Lemma preserves_recovering {A} (m : GoM S A) h :
  preserves I m → (∀ e, preserves I (h e)) → preserves I (recovering m h).
Proof.
  intros Hm Hh s Hs. specialize (Hm s Hs). unfold recovering.
  destruct (m s) as [[a|e|] s'] eqn:E; simpl in *; auto. by apply Hh.
Qed.
Lemma preserves_when b m : preserves I m → preserves I (when b m).
Proof. destruct b; [done|]. intros _. apply preserves_ret. Qed.
Lemma preserves_for_each {A} (l : list A) f :
  (∀ x, preserves I (f x)) → preserves I (for_each l f).
Proof.
  intros Hf. induction l as [|x l IH]; simpl; [apply preserves_ret|].
  by apply preserves_bind.
Qed.
End preserves.

#[export] Hint Resolve preserves_ret preserves_gets preserves_panic preserves_lift
  preserves_bind preserves_recovering preserves_when preserves_for_each : preserve.

(** A part [f] of the state that a computation leaves alone. *)
Definition keeps {S A B} (f : S → B) (m : GoM S A) : Prop := ∀ s, f (m s).2 = f s.

(** A computation that returns from every state, and one that never exhausts
    the recursion budget. *)
Definition total {S A} (m : GoM S A) : Prop := ∀ s, ∃ a, (m s).1 = Ret a.
Definition fueled {S A} (m : GoM S A) : Prop := ∀ s, (m s).1 ≠ OutOfFuel.

Section keeps.
Context {S : Type}.

Lemma keeps_preserves {A B} (f : S → B) (m : GoM S A) :
  keeps f m ↔ ∀ x, preserves (fun s => f s = x) m.
Proof. split; [intros H x s <-; apply H|intros H s; by apply (H (f s))]. Qed.

Lemma keeps_ret {A B} (f : S → B) (a : A) : keeps f (mret a).
Proof. by intros s. Qed.
Lemma keeps_gets {A B} (f : S → B) (g : S → A) : keeps f (gets g).
Proof. by intros s. Qed.
Lemma keeps_panic {A B} (f : S → B) e : keeps f (go_panic (A:=A) e).
Proof. by intros s. Qed.
Lemma keeps_lift {A B} (f : S → B) (m : outcome A) : keeps f (lift_outcome m).
Proof. by intros s. Qed.
Lemma keeps_modify {B} (f : S → B) g : (∀ s, f (g s) = f s) → keeps f (modify g).
Proof. intros H s. apply H. Qed.
Lemma keeps_bind {A C B} (f : S → B) (m : GoM S A) (k : A → GoM S C) :
  keeps f m → (∀ a, keeps f (k a)) → keeps f (m ≫= k).
Proof.
  intros Hm Hk s. specialize (Hm s). unfold mbind, gom_bind.
  destruct (m s) as [[a|e|] s'] eqn:E; simpl in *; auto. by rewrite Hk.
Qed.
Lemma keeps_recovering {A B} (f : S → B) (m : GoM S A) h :
  keeps f m → (∀ e, keeps f (h e)) → keeps f (recovering m h).
Proof.
  intros Hm Hh s. specialize (Hm s). unfold recovering.
  destruct (m s) as [[a|e|] s'] eqn:E; simpl in *; auto. by rewrite Hh.
Qed.
Lemma keeps_when {B} (f : S → B) b m : keeps f m → keeps f (when b m).
Proof. destruct b; [done|]. intros _. apply keeps_ret. Qed.
Lemma keeps_for_each {A B} (f : S → B) (l : list A) k :
  (∀ x, keeps f (k x)) → keeps f (for_each l k).
Proof.
  intros Hk. induction l as [|x l IH]; simpl; [apply keeps_ret|]. by apply keeps_bind.
Qed.

(** A part determined by parts left alone is left alone. *)
Lemma keeps_weaken {A B C} (g : S → C) (f : S → B) (m : GoM S A) :
  keeps g m → (∀ s s', g s = g s' → f s = f s') → keeps f m.
Proof. intros Hm Hfg s. apply Hfg, Hm. Qed.

Lemma total_ret {A} (a : A) : total (S:=S) (mret a).
Proof. intros s. by exists a. Qed.
Lemma total_gets {A} (g : S → A) : total (gets g).
Proof. intros s. by eexists. Qed.
Lemma total_modify (g : S → S) : total (modify g).
Proof. intros s. by eexists. Qed.
Lemma total_bind {A C} (m : GoM S A) (k : A → GoM S C) :
  total m → (∀ a, total (k a)) → total (m ≫= k).
Proof.
  intros Hm Hk s. destruct (Hm s) as [a Ha]. unfold mbind, gom_bind.
  destruct (m s) as [r s']; simpl in Ha; subst r. apply Hk.
Qed.
Lemma total_when b m : total (S:=S) m → total (when b m).
Proof. destruct b; [done|]. intros _. apply total_ret. Qed.
Lemma total_for_each {A} (l : list A) (k : A → GoM S ()) :
  (∀ x, total (k x)) → total (for_each l k).
Proof.
  intros Hk. induction l as [|x l IH]; simpl; [apply total_ret|]. by apply total_bind.
Qed.
Lemma total_recovering {A} (m : GoM S A) h :
  fueled m → (∀ e, total (h e)) → total (recovering m h).
Proof.
  intros Hm Hh s. specialize (Hm s). unfold recovering.
  destruct (m s) as [[a|e|] s'] eqn:E; simpl in *; [by eexists|apply Hh|done].
Qed.
Lemma total_run {A} (m : GoM S A) s : total m → ∃ a, m s = (Ret a, (m s).2).
Proof. intros Hm. destruct (Hm s) as [a Ha]. exists a. rewrite <- Ha. by destruct (m s). Qed.

Lemma run_bind {A C} (m : GoM S A) (k : A → GoM S C) s a :
  (m s).1 = Ret a → (m ≫= k) s = k a (m s).2.
Proof. unfold mbind, gom_bind. destruct (m s) as [r s']. simpl. by intros ->. Qed.
Lemma run_bind_panic {A C} (m : GoM S A) (k : A → GoM S C) s e :
  (m s).1 = Panic e → (m ≫= k) s = (Panic e, (m s).2).
Proof. unfold mbind, gom_bind. destruct (m s) as [r s']. simpl. by intros ->. Qed.
Lemma run_unit {C} (m : GoM S ()) (k : () → GoM S C) s :
  total m → (m ≫= k) s = k () (m s).2.
Proof. intros Hm. destruct (Hm s) as [[] Ha]. by apply run_bind. Qed.

Lemma fueled_total {A} (m : GoM S A) : total m → fueled m.
Proof. intros Hm s. destruct (Hm s) as [a ->]. done. Qed.
Lemma fueled_panic {A} e : fueled (S:=S) (go_panic (A:=A) e).
Proof. by intros s. Qed.
Lemma fueled_lift {A} (m : outcome A) : m ≠ OutOfFuel → fueled (S:=S) (lift_outcome m).
Proof. by intros H s. Qed.
Lemma fueled_bind {A C} (m : GoM S A) (k : A → GoM S C) :
  fueled m → (∀ a, fueled (k a)) → fueled (m ≫= k).
Proof.
  intros Hm Hk s. specialize (Hm s). unfold mbind, gom_bind.
  destruct (m s) as [[a|e|] s'] eqn:E; simpl in *; [apply Hk|done|done].
Qed.
Lemma fueled_for_each {A} (l : list A) (k : A → GoM S ()) :
  (∀ x, fueled (k x)) → fueled (for_each l k).
Proof.
  intros Hk. induction l as [|x l IH]; simpl; [apply fueled_total, total_ret|]. by apply fueled_bind.
Qed.
End keeps.

Create HintDb total.
#[export] Hint Extern 1 (keeps _ (modify _)) => apply keeps_modify; reflexivity : preserve.
#[export] Hint Resolve keeps_ret keeps_gets keeps_panic keeps_lift keeps_bind
  keeps_recovering keeps_when keeps_for_each : preserve.
#[export] Hint Resolve total_ret total_gets total_modify total_bind total_when total_for_each
  total_recovering fueled_total : total.

(** Walk through a computation, one construct at a time; the leaves are left to
    the databases. *)
Ltac walk_keeps :=
  repeat first
    [ progress intros | solve [eauto 2 with preserve nocore]
    | simple apply keeps_bind | simple apply keeps_when | simple apply keeps_for_each | simple apply keeps_recovering
    | case_match ].
Ltac walk_total :=
  repeat first
    [ progress intros | solve [eauto 2 with total nocore]
    | simple apply total_bind | simple apply total_when | simple apply total_for_each | case_match ].

(** A computation that, from a state satisfying [I], returns in one. *)
Definition safe {S A} (I : S → Prop) (m : GoM S A) : Prop :=
  ∀ s, I s → ∃ a, (m s).1 = Ret a ∧ I (m s).2.

Section safe.
Context {S : Type} (I : S → Prop).

Lemma safe_total {A} (m : GoM S A) : total m → preserves I m → safe I m.
Proof. intros Ht Hp s Hs. destruct (Ht s) as [a Ha]. exists a. split; [done|by apply Hp]. Qed.
Lemma safe_keeps {A B} (f : S → B) (m : GoM S A) :
  total m → keeps f m → (∀ s s', f s = f s' → I s → I s') → safe I m.
Proof. intros Ht Hk HI. apply safe_total; [done|]. intros s Hs. by apply (HI s). Qed.
Lemma safe_bind {A B} (m : GoM S A) (k : A → GoM S B) :
  safe I m → (∀ a, safe I (k a)) → safe I (m ≫= k).
Proof.
  intros Hm Hk s Hs. destruct (Hm s Hs) as (a & Ha & HI). rewrite (run_bind _ _ _ a) by done.
  by apply Hk.
Qed.
Lemma safe_when b (m : GoM S ()) : safe I m → safe I (when b m).
Proof. destruct b; [done|]. intros _. apply safe_total; [apply total_ret|apply preserves_ret]. Qed.
Lemma safe_for_each {A} (l : list A) (k : A → GoM S ()) :
  (∀ x, x ∈ l → safe I (k x)) → safe I (for_each l k).
Proof.
  induction l as [|x l IH]; intros Hk; simpl.
  - apply safe_total; [apply total_ret|apply preserves_ret].
  - apply safe_bind; [apply Hk; left|]. intros _. apply IH. intros y Hy. apply Hk. by right.
Qed.
Lemma safe_run {A} (m : GoM S A) s : safe I m → I s → ∃ a s', m s = (Ret a, s') ∧ I s'.
Proof.
  intros Hm Hs. destruct (Hm s Hs) as (a & Ha & HI). exists a, (m s).2. split; [|done].
  rewrite <- Ha. by destruct (m s).
Qed.
End safe.

(** A total step that leaves [f] alone, run from a given state. *)
Lemma run_keeping {S A B C} (f : S → B) (m : GoM S A) (k : A → GoM S C) s :
  total m → keeps f m → ∃ a s', (m ≫= k) s = k a s' ∧ f s' = f s.
Proof.
  intros Ht Hk. destruct (total_run m s Ht) as [a Ha]. exists a, (m s).2.
  split; [apply run_bind; by rewrite Ha|apply Hk].
Qed.

(** Runs the first step of the goal's computation with [run_keeping]; what the
    databases cannot show is left. *)
Ltac run_step f a s' Hs' :=
  lazymatch goal with |- context [(?m ≫= ?k) ?s] =>
    let Hrun := fresh in
    destruct (run_keeping f m k s) as (a & s' & Hrun & Hs');
    [try solve [eauto 2 with total nocore]|try solve [eauto 2 with preserve nocore]
    |rewrite Hrun; clear Hrun]
  end.

(** ** Tactics *)

(** Inverts a computation that returned. *)
Ltac outcome_inv :=
  repeat match goal with
  | H : Ret _ = Ret _ |- _ => injection H as H; try subst
  | H : Ret _ = Panic _ |- _ => discriminate H
  | H : Panic _ = Ret _ |- _ => discriminate H
  | H : OutOfFuel = Ret _ |- _ => discriminate H
  | H : Ret _ = OutOfFuel |- _ => discriminate H
  | H : Panic _ = OutOfFuel |- _ => discriminate H
  | H : mret _ = Ret _ |- _ => unfold mret, outcome_ret in H
  | H : (_ ≫= _) = Ret _ |- _ =>
      apply outcome_bind_Ret_inv in H; destruct H as (? & ? & H)
  end.

(** Case analysis on every [match] and [if] of the goal or the hypotheses. *)
Ltac split_cases := repeat (case_match; simplify_eq/=).

(** ** Machine integers *)

Definition two63 : Z := 9223372036854775808.
Definition two64 : Z := 18446744073709551616.

(** Conversion to int64 and uint64: two's complement wrap-around. *)
Definition wrap_u64 (z : Z) : Z := z mod two64.
Definition wrap_i64 (z : Z) : Z := (z + two63) mod two64 - two63.

Definition in_i64 (z : Z) : Prop := - two63 ≤ z < two63.
Definition in_u64 (z : Z) : Prop := 0 ≤ z < two64.

Lemma wrap_i64_range z : in_i64 (wrap_i64 z).
Proof. unfold wrap_i64, in_i64, two63, two64. pose proof (Z.mod_pos_bound (z + 9223372036854775808) 18446744073709551616). lia. Qed.
Lemma wrap_i64_id z : in_i64 z → wrap_i64 z = z.
Proof. unfold wrap_i64, in_i64, two63, two64. intros. rewrite Z.mod_small; lia. Qed.
Lemma wrap_u64_range z : in_u64 (wrap_u64 z).
Proof. unfold wrap_u64, in_u64, two64. apply Z.mod_pos_bound. lia. Qed.
Lemma wrap_u64_id z : in_u64 z → wrap_u64 z = z.
Proof. unfold wrap_u64, in_u64. intros. rewrite Z.mod_small; lia. Qed.

#[export] Hint Resolve wrap_i64_range wrap_u64_range : core.

(** Go's integer division truncates toward zero. *)
Definition go_quot (a b : Z) : Z := Z.quot a b.

(** ** Lists *)

Section list_lemmas.
Context {A B : Type}.

(** Fold an iteration [for k, v := range pairs { m[k] = v }] over a map. *)
Definition insert_all `{Countable K} (l : list (K * A)) (m : gmap K A) : gmap K A :=
  foldl (fun m kv => <[kv.1 := kv.2]> m) m l.

Lemma insert_all_snoc `{Countable K} (l : list (K * A)) k v m :
  insert_all (l ++ [(k, v)]) m = <[k := v]> (insert_all l m).
Proof. unfold insert_all. by rewrite foldl_app. Qed.

(** The last assignment to a key wins. *)
Lemma insert_all_lookup `{Countable K} (l : list (K * A)) m k :
  insert_all l m !! k =
  match list_find (fun kv => kv.1 = k) (reverse l) with
  | Some (_, kv) => Some kv.2
  | None => m !! k
  end.
Proof.
  induction l as [|[k' v] l IH] using rev_ind; [done|].
  rewrite insert_all_snoc, reverse_snoc. simpl.
  destruct (decide (k' = k)) as [->|Hne].
  - by rewrite lookup_insert_eq.
  - rewrite lookup_insert_ne, IH by done.
    by destruct (list_find _ (reverse l)) as [[]|].
Qed.

Lemma insert_all_lookup_None `{Countable K} (l : list (K * A)) m k :
  k ∉ l.*1 → insert_all l m !! k = m !! k.
Proof.
  rewrite insert_all_lookup. intros Hk.
  destruct (list_find _ _) as [[i kv]|] eqn:E; [|done].
  apply list_find_Some in E as (Hl & <- & _). exfalso. apply Hk.
  apply list_elem_of_fmap. exists kv. split; [done|].
  apply elem_of_reverse. by eapply list_elem_of_lookup_2.
Qed.

Lemma insert_all_lookup_Some `{Countable K} (l : list (K * A)) m k v :
  NoDup l.*1 → (k, v) ∈ l → insert_all l m !! k = Some v.
Proof.
  revert m. induction l as [|[k' v'] l IH]; intros m Hnd Hin; [by apply elem_of_nil in Hin|].
  apply NoDup_cons in Hnd as [Hk Hnd]. simpl in *.
  apply elem_of_cons in Hin as [[= <- <-]|Hin]; [|by apply IH].
  change (insert_all l (<[k:=v]> m) !! k = Some v).
  rewrite insert_all_lookup_None by done. apply lookup_insert_eq.
Qed.

(** Iteration order is irrelevant when the keys are distinct. *)
Lemma insert_all_permutation `{Countable K} (l k : list (K * A)) m :
  NoDup l.*1 → l ≡ₚ k → insert_all l m = insert_all k m.
Proof.
  intros Hnd Hp. apply map_eq. intros i.
  destruct (decide (i ∈ l.*1)) as [Hi|Hi].
  - apply list_elem_of_fmap in Hi as ([i' v] & -> & Hin). simpl.
    rewrite (insert_all_lookup_Some l m i' v) by done.
    rewrite (insert_all_lookup_Some k m i' v); [done| |].
    + by rewrite <- Hp.
    + by rewrite <- Hp.
  - rewrite !insert_all_lookup_None; [done| |done]. by rewrite <- Hp.
Qed.
End list_lemmas.
