(* ===== verification/Goroutines.v ===== *)
(** * Goroutines as sequences of atomic steps

    A program [prog] is a tree of atomic steps, each a computation of the
    state monad; the programs of a pool take their steps in any order.  The
    lemma [isolation] says what a pool does to a state that is divided into
    entries when every program keeps to an entry of its own. *)
From S2P Require Import Prelude.

Inductive prog (S A : Type) :=
| Done (a : A)
| Act (X : Type) (m : GoM S X) (k : X → prog S A).
Arguments Done {S A}.
Arguments Act {S A X}.

#[export] Instance prog_ret S : MRet (prog S) := fun A a => Done a.
#[export] Instance prog_bind S : MBind (prog S) := fun A B f =>
  fix bind (p : prog S A) : prog S B :=
    match p with
    | Done a => f a
    | Act m k => Act m (fun x => bind (k x))
    end.
Definition atomic {S A} (m : GoM S A) : prog S A := Act m Done.

(** A program that runs without interruption. *)
Fixpoint run_alone {S A} (p : prog S A) : GoM S A :=
  match p with
  | Done a => mret a
  | Act m k => m ≫= fun x => run_alone (k x)
  end.

Lemma run_alone_bind {S A B} (p : prog S A) (k : A → prog S B) s :
  run_alone (p ≫= k) s = (run_alone p ≫= fun a => run_alone (k a)) s.
Proof.
  revert s. induction p as [a|X m k' IH]; intros s; [done|].
  change (Act m k' ≫= k) with (Act m (fun x => k' x ≫= k)). simpl.
  unfold mbind at 1 3 4, gom_bind. destruct (m s) as [[x|e|] s1]; [|done|done]. apply IH.
Qed.

(** Two computations that agree on every state, and what follows them. *)
Lemma gom_bind_ext {S A B} (m m' : GoM S A) (k k' : A → GoM S B) s :
  m s = m' s → (∀ a s, k a s = k' a s) → (m ≫= k) s = (m' ≫= k') s.
Proof. intros Hm Hk. unfold mbind, gom_bind. rewrite Hm. destruct (m' s) as [[a|e|] s1]; auto. Qed.

(** ** Pools *)

(** The step of the goroutine at a position. *)
Inductive acts {S} (i : nat) : S * list (prog S ()) → S * list (prog S ()) → Prop :=
| acts_intro {X} (m : GoM S X) k ps s x s' :
    ps !! i = Some (Act m k) → m s = (Ret x, s') → acts i (s, ps) (s', <[i := k x]> ps).
Definition pool_step {S} (c c' : S * list (prog S ())) : Prop := ∃ i, acts i c c'.

Section isolation.
Context {S K E : Type} `{!EqDecision K} (inv : S → Prop) (entry : K → S → E).

(** From every good state the program runs without a panic, keeps the state
    good, and changes no entry but [n]. *)
Fixpoint confined {A} (n : K) (p : prog S A) : Prop :=
  match p with
  | Done _ => True
  | Act m k => ∀ s, inv s → ∃ x s', m s = (Ret x, s') ∧ inv s' ∧
      (∀ n', n' ≠ n → entry n' s' = entry n' s) ∧ confined n (k x)
  end.

(** Running from an entry [e] the program may leave [e'], whatever happens to
    the rest of the state in between. *)
Fixpoint leads {A} (n : K) (p : prog S A) (e e' : E) : Prop :=
  match p with
  | Done _ => e' = e
  | Act m k => ∃ s x s', inv s ∧ entry n s = e ∧ m s = (Ret x, s') ∧ leads n (k x) (entry n s') e'
  end.

Lemma confined_bind {A B} n (p : prog S A) (k : A → prog S B) :
  confined n p → (∀ a, confined n (k a)) → confined n (p ≫= k).
Proof.
  intros Hp Hk. induction p as [a|X m k' IH]; [apply Hk|]. intros s Hs.
  destruct (Hp s Hs) as (x & s' & Hm & Hs' & Hothers & Hx). exists x, s'. split; [done|].
  split; [done|]. split; [done|]. by apply IH.
Qed.
Lemma confined_for_each {X} n (l : list X) (f : X → prog S ()) :
  (∀ x, confined n (f x)) → confined n (for_each l f).
Proof. intros Hf. induction l as [|x l IH]; [done|]. simpl. by apply confined_bind. Qed.

Lemma progress n (p : prog S ()) ps i s :
  inv s → confined n p → ps !! i = Some p → p = Done () ∨ ∃ c, acts i (s, ps) c.
Proof.
  intros Hs Hp Hi. destruct p as [[]|X m k]; [by left|right].
  destruct (Hp s Hs) as (x & s' & Hm & _). exists (s', <[i := k x]> ps). by eapply acts_intro.
Qed.

(** One step of a pool of confined programs. *)
Lemma pool_step_isolated names ps s ps' s' :
  NoDup names → Forall2 confined names ps → inv s → pool_step (s, ps) (s', ps') →
  inv s' ∧ Forall2 confined names ps' ∧
  (∀ n, n ∉ names → entry n s' = entry n s) ∧
  ∀ j n p p', names !! j = Some n → ps !! j = Some p → ps' !! j = Some p' →
    ∀ e', leads n p' (entry n s') e' → leads n p (entry n s) e'.
Proof.
  intros Hnd Hall Hs [i Hact]. inversion Hact as [X m k ps0 s0 x s0' Hi Hm]; simplify_eq.
  destruct (Forall2_lookup_r _ _ _ _ _ Hall Hi) as (n & Hn & Hconf).
  destruct (Hconf s Hs) as (x' & s'' & Hm' & Hs' & Hothers & Hx). rewrite Hm in Hm'. simplify_eq.
  split; [done|]. split; [|split].
  - rewrite <- (list_insert_id names i n) by done. by apply Forall2_insert.
  - intros n' Hn'. apply Hothers. intros ->. apply Hn'. by eapply list_elem_of_lookup_2.
  - intros j n' p p' Hj Hp Hp' e' He. destruct (decide (i = j)) as [->|Hne].
    + rewrite list_lookup_insert_eq in Hp' by (by eapply lookup_lt_Some). simplify_eq. by exists s, x', s''.
    + rewrite list_lookup_insert_ne in Hp' by done. simplify_eq. rewrite Hothers in He; [done|].
      intros ->. apply Hne. by apply (NoDup_lookup names i j n).
Qed.

Lemma isolation names ps s ps' s' :
  NoDup names → Forall2 confined names ps → inv s → rtc pool_step (s, ps) (s', ps') →
  inv s' ∧ Forall2 confined names ps' ∧
  (∀ n, n ∉ names → entry n s' = entry n s) ∧
  ∀ j n p p', names !! j = Some n → ps !! j = Some p → ps' !! j = Some p' →
    ∀ e', leads n p' (entry n s') e' → leads n p (entry n s) e'.
Proof.
  intros Hnd Hall Hs Hsteps. remember (s, ps) as c eqn:Hc. remember (s', ps') as c' eqn:Hc'.
  revert s ps s' ps' Hc Hc' Hall Hs.
  induction Hsteps as [c|c [s1 ps1] c' Hstep Hsteps IH]; intros s ps s' ps' -> Hc' Hall Hs.
  { simplify_eq. repeat (split; [done|]). intros. by simplify_eq. }
  destruct (pool_step_isolated _ _ _ _ _ Hnd Hall Hs Hstep) as (Hs1 & Hall1 & Hothers1 & Hleads1).
  destruct (IH s1 ps1 s' ps' eq_refl Hc' Hall1 Hs1) as (Hs' & Hall' & Hothers & Hleads).
  split; [done|]. split; [done|]. split.
  - intros n Hn. by rewrite Hothers, Hothers1.
  - intros j n p p' Hj Hp Hp' e' He.
    destruct (Forall2_lookup_l _ _ _ _ _ Hall1 Hj) as (p1 & Hp1 & _). by eapply Hleads1, Hleads.
Qed.

(** A step that leaves the entry alone. *)
Lemma leads_quiet {A X} n (m : GoM S X) (k : X → prog S A) e e' :
  (∀ s, entry n (m s).2 = entry n s) → leads n (Act m k) e e' → ∃ x, leads n (k x) e e'.
Proof.
  intros Hm (s & x & s' & _ & <- & Hrun & Hk). exists x. specialize (Hm s). rewrite Hrun in Hm.
  simpl in Hm. by rewrite Hm in Hk.
Qed.
End isolation.
