(* ===== verification/GoFloat.v ===== *)
(** * Bytes and float64 of Go, with the texts of strconv

    A float64 is a value of SpecFloat's binary64.  [strconv_ParseFloat] reads
    the decimal and hexadecimal literals of package strconv and rounds their
    exact value once, to nearest and ties to even; [format_float] writes the
    shortest decimal that reads back as the same float, as %v of package fmt
    does. *)
From S2P Require Import Prelude.

(** ** Bytes *)

Definition byte_code (c : ascii) : Z := Z.of_N (N_of_ascii c).
Definition byte_of_code (z : Z) : ascii := ascii_of_N (Z.to_N z).

Lemma byte_code_range c : 0 ≤ byte_code c < 256.
Proof. unfold byte_code. pose proof (N_ascii_bounded c). lia. Qed.
Lemma byte_of_code_code c : byte_of_code (byte_code c) = c.
Proof. unfold byte_of_code, byte_code. rewrite N2Z.id. apply ascii_N_embedding. Qed.
Lemma byte_code_of_code z : 0 ≤ z < 256 → byte_code (byte_of_code z) = z.
Proof. intros. unfold byte_of_code, byte_code. rewrite N_ascii_embedding; lia. Qed.

Fixpoint string_forallb (p : ascii → bool) (s : string) : bool :=
  match s with
  | EmptyString => true
  | String c s => p c && string_forallb p s
  end.

Fixpoint string_map (f : ascii → ascii) (s : string) : string :=
  match s with
  | EmptyString => EmptyString
  | String c s => String (f c) (string_map f s)
  end.

Definition lower_byte (c : ascii) : ascii :=
  if (65 <=? byte_code c) && (byte_code c <=? 90) then byte_of_code (byte_code c + 32) else c.

Definition digit_value (c : ascii) : option Z :=
  if (48 <=? byte_code c) && (byte_code c <=? 57) then Some (byte_code c - 48) else None.
Definition is_digit (c : ascii) : bool := bool_decide (is_Some (digit_value c)).

(** strconv.FormatInt(z, 10), and %d, %v of an integer. *)
Definition format_int (z : Z) : string := pretty z.

Lemma string_forallb_app p a b : string_forallb p (a +:+ b) = string_forallb p a && string_forallb p b.
Proof. induction a as [|c a IH]; [done|]. simpl. by rewrite IH, andb_assoc. Qed.

(** ** float64 and float32 values *)

(** A float32 is held as the float64 it converts to. *)
Abbreviation f64 := spec_float.
Definition f64_prec : Z := 53.
Definition f64_emax : Z := 1024.
Definition f32_prec : Z := 24.
Definition f32_emax : Z := 128.

(** float64(z) of an integer: round to nearest, ties to even. *)
Definition f64_of_Z (z : Z) : f64 := binary_normalize f64_prec f64_emax z 0 false.
Definition f64_mul (x y : f64) : f64 := SFmul f64_prec f64_emax x y.
Definition f64_lt (x y : f64) : bool := SFltb x y.
Definition f64_le (x y : f64) : bool := SFleb x y.
Definition f64_eq (x y : f64) : bool := SFeqb x y.

(** The integer part of a finite float64, truncated toward zero. *)
Definition f64_trunc (f : f64) : option Z :=
  match f with
  | S754_zero _ => Some 0
  | S754_finite s m e =>
      let a := if 0 <=? e then Z.pos m * 2 ^ e else Z.pos m / 2 ^ (- e) in
      Some (if s then - a else a)
  | S754_infinity _ | S754_nan => None
  end.

(** ** strconv.ParseFloat *)

Definition is_finite (f : f64) : bool :=
  match f with S754_infinity _ | S754_nan => false | _ => true end.

(** [mantissa * 10 ^ exp], rounded once. *)
Definition round_decimal (prec emax : Z) (neg : bool) (mantissa exp : Z) : f64 :=
  match mantissa with
  | Z.pos m =>
      if 0 <=? exp then binary_normalize prec emax (if neg then - (mantissa * 10 ^ exp) else mantissa * 10 ^ exp) 0 neg
      else SFdiv prec emax (S754_finite neg m 0) (S754_finite false (Z.to_pos (10 ^ (- exp))) 0)
  | _ => S754_zero neg
  end.
(** [mantissa * 2 ^ exp], rounded once. *)
Definition round_binary (prec emax : Z) (neg : bool) (mantissa exp : Z) : f64 :=
  binary_normalize prec emax (if neg then - mantissa else mantissa) exp neg.

(** The value of a digit in base 16. *)
Definition hex_value (c : ascii) : option Z :=
  let l := lower_byte c in
  if (97 <=? byte_code l) && (byte_code l <=? 102) then Some (byte_code l - 87) else digit_value c.

(** The mantissa of [readFloat]: what follows it, whether there was a digit,
    the digits as an integer, their number after the point, and the number of digits
    from the first that is not zero, which places the point. *)
Record mantissaRead := mkMantissa {
  mr_rest : string; mr_digits : bool; mr_value : Z; mr_after_dot : Z; mr_sawdot : bool; mr_count : Z;
}.
Fixpoint read_mantissa (hex : bool) (s : string) (r : mantissaRead) : mantissaRead :=
  let stop := mkMantissa s (mr_digits r) (mr_value r) (mr_after_dot r) (mr_sawdot r) (mr_count r) in
  match s with
  | EmptyString => stop
  | String c s' =>
      if Ascii.eqb c "_" then read_mantissa hex s' r
      else if Ascii.eqb c "." then
        if mr_sawdot r then stop
        else read_mantissa hex s'
               (mkMantissa s' (mr_digits r) (mr_value r) (mr_after_dot r) true (mr_count r))
      else
        match (if hex then hex_value c else digit_value c) with
        | Some d =>
            let value := (if hex then 16 else 10) * mr_value r + d in
            read_mantissa hex s'
              (mkMantissa s' true value (mr_after_dot r + (if mr_sawdot r then 1 else 0)) (mr_sawdot r)
                 (if value =? 0 then 0 else mr_count r + 1))
        | None => stop
        end
  end.

(** The digits of the exponent, at most five of which count. *)
Fixpoint read_exponent (s : string) (e : Z) : string * Z :=
  match s with
  | EmptyString => (s, e)
  | String c s' =>
      if Ascii.eqb c "_" then read_exponent s' e
      else match digit_value c with
           | Some d => read_exponent s' (if e <? 10000 then e * 10 + d else e)
           | None => (s, e)
           end
  end.

(** [underscoreOK] after the sign; [saw] is the class of the last byte. *)
Inductive sawByte := SawStart | SawDigit | SawUnderscore | SawOther.
Fixpoint underscores_separate (hex : bool) (s : string) (saw : sawByte) : bool :=
  match s with
  | EmptyString => match saw with SawUnderscore => false | _ => true end
  | String c s =>
      if (if hex then bool_decide (is_Some (hex_value c)) else is_digit c)
      then underscores_separate hex s SawDigit
      else if Ascii.eqb c "_" then
        match saw with SawDigit => underscores_separate hex s SawUnderscore | _ => false end
      else match saw with SawUnderscore => false | _ => underscores_separate hex s SawOther end
  end.

(** The rest after a base prefix [0x]. *)
Definition hex_prefix (s : string) : option string :=
  match s with
  | String "0" (String x (String c r)) => if Ascii.eqb (lower_byte x) "x" then Some (String c r) else None
  | _ => None
  end.

Definition split_sign (s : string) : bool * bool * string :=
  match s with
  | String "+" r => (true, false, r)
  | String "-" r => (true, true, r)
  | _ => (false, false, s)
  end.

(** [special]: infinities with any sign, NaN without one. *)
Definition special_float (s : string) : option f64 :=
  let '(signed, neg, r) := split_sign s in
  let l := string_map lower_byte r in
  if String.eqb l "inf" || String.eqb l "infinity" then Some (S754_infinity neg)
  else if negb signed && String.eqb l "nan" then Some S754_nan
  else None.

(** [readFloat] on a whole string: sign, base, mantissa and exponent. *)
Definition read_float (s : string) : option (bool * bool * mantissaRead * Z) :=
  let '(_, neg, unsigned) := split_sign s in
  let '(hex, body) := match hex_prefix unsigned with Some r => (true, r) | None => (false, unsigned) end in
  let r := read_mantissa hex body (mkMantissa body false 0 0 false 0) in
  if negb (mr_digits r) then None
  else
    let ends :=
      match mr_rest r with
      | String c after =>
          if Ascii.eqb (lower_byte c) (if hex then "p" else "e") then
            let '(_, eneg, digits) := split_sign after in
            match digits with
            | String d _ =>
                if is_digit d then
                  let '(rest, e) := read_exponent digits 0 in Some (rest, if eneg then - e else e)
                else None
            | EmptyString => None
            end
          else None
      | EmptyString => if hex then None else Some ("", 0)
      end in
    match ends with
    | Some ("", e) =>
        if underscores_separate hex body (if hex then SawDigit else SawStart)
        then Some (neg, hex, r, e) else None
    | _ => None
    end.

(** strconv.ParseFloat(s, 64); None on an error, a value out of range included. *)
Definition strconv_ParseFloat (s : string) : option f64 :=
  match special_float s with
  | Some f => Some f
  | None =>
      match read_float s with
      | None => None
      | Some (neg, hex, r, e) =>
          let f :=
            if hex then round_binary f64_prec f64_emax neg (mr_value r) (e - 4 * mr_after_dot r)
            else
              let dp := mr_count r - mr_after_dot r + e in
              if 310 <? dp then (if mr_value r =? 0 then S754_zero neg else S754_infinity neg)
              else if dp <? -330 then S754_zero neg
              else round_decimal f64_prec f64_emax neg (mr_value r) (e - mr_after_dot r) in
          if is_finite f then Some f else None
      end
  end.

(** ** %v of a float *)

(** A positive float as a fraction. *)
Definition fraction_of (m e : Z) : Z * Z := if 0 <=? e then (m * 2 ^ e, 1) else (m, 2 ^ (- e)).
Definition pow10_times (k : Z) (n d : Z) : Z * Z := if 0 <=? k then (n * 10 ^ k, d) else (n, d * 10 ^ (- k)).
(** n/d < 10^k. *)
Definition below_pow10 (n d k : Z) : bool := let '(n, d) := pow10_times (- k) n d in n <? d.

(** The place of the decimal point: the first power of ten above the
    value, searched from an estimate below it. *)
Fixpoint point_search (fuel : nat) (n d k : Z) : Z :=
  match fuel with
  | O => k
  | S fuel => if below_pow10 n d k then k else point_search fuel n d (k + 1)
  end.
Definition decimal_point (n d : Z) : Z :=
  point_search 10 n d ((Z.log2 n - Z.log2 d - 1) * 30103 / 100000).

Definition same_value (f g : f64) : bool :=
  match f, g with
  | S754_finite s m e, S754_finite s' m' e' =>
      let '(n, d) := fraction_of (Z.pos m) e in let '(n', d') := fraction_of (Z.pos m') e' in
      Bool.eqb s s' && (n * d' =? n' * d)
  | _, _ => false
  end.

(** The shortest decimal [digits * 10 ^ (dp - count)] that reads back as the
    float, the nearest of the shortest: tried for each number of digits. *)
Fixpoint shortest_digits (fuel : nat) (prec emax : Z) (m e : Z) (n d dp : Z) (count : Z) : Z * Z :=
  let '(sn, sd) := pow10_times (count - dp) n d in
  let down := sn / sd in
  let ok digits := same_value (round_decimal prec emax false digits (dp - count)) (S754_finite false (Z.to_pos m) e) in
  let low_ok := ok down in
  let high_ok := ok (down + 1) in
  let nearest := if 2 * (sn - down * sd) <? sd then down else down + 1 in
  match fuel with
  | O => (nearest, count)
  | S fuel =>
      if low_ok && high_ok then (nearest, count)
      else if low_ok then (down, count)
      else if high_ok then (down + 1, count)
      else shortest_digits fuel prec emax m e n d dp (count + 1)
  end.

Fixpoint strip_zeros (s : string) : string :=
  match s with
  | EmptyString => EmptyString
  | String c s =>
      match strip_zeros s with
      | EmptyString => if Ascii.eqb c "0" then EmptyString else String c EmptyString
      | s => String c s
      end
  end.
Fixpoint zeros (n : nat) : string := match n with O => "" | S n => String "0" (zeros n) end.

(** %e with two digits of exponent at least, and %f. *)
Definition format_exponent (exp : Z) : string :=
  let digits := format_int (Z.abs exp) in
  ((if (exp <? 0)%Z then "-" else "+") +:+ (if (Z.abs exp <? 10)%Z then "0" else "") +:+ digits)%string.
Definition format_e (digits : string) (exp : Z) : string :=
  (match digits with
   | String c EmptyString => String c ""
   | String c rest => String c (String "." rest)
   | EmptyString => ""
   end +:+ "e" +:+ format_exponent exp)%string.
Definition format_f (digits : string) (dp : Z) : string :=
  let count := Z.of_nat (String.length digits) in
  (if (dp <=? 0)%Z then "0." +:+ zeros (Z.to_nat (- dp)) +:+ digits
   else if (count <=? dp)%Z then digits +:+ zeros (Z.to_nat (dp - count)%Z)
   else String.substring 0 (Z.to_nat dp) digits +:+ "." +:+
        String.substring (Z.to_nat dp) (String.length digits - Z.to_nat dp)%nat digits)%string.

(** The 'g' format with the shortest precision: the exponent form below 1e-4
    and from 1e6 on. *)
Definition format_g (digits : string) (dp : Z) : string :=
  if (dp - 1 <? -4) || (6 <=? dp - 1) then format_e digits (dp - 1) else format_f digits dp.

Definition format_float (prec emax : Z) (f : f64) : string :=
  match f with
  | S754_nan => "NaN"
  | S754_infinity neg => if neg then "-Inf" else "+Inf"
  | S754_zero neg => if neg then "-0" else "0"
  | S754_finite neg m e =>
      let '(n, d) := fraction_of (Z.pos m) e in
      let dp := decimal_point n d in
      let '(digits, count) := shortest_digits 17 prec emax (Z.pos m) e n d dp 1 in
      let dp := if digits =? 10 ^ count then dp + 1 else dp in
      ((if neg then "-" else "") +:+ format_g (strip_zeros (format_int digits)) dp)%string
  end.
Definition format_f64 (f : f64) : string := format_float f64_prec f64_emax f.
Definition format_f32 (f : f64) : string := format_float f32_prec f32_emax f.

(** ** Laws of the texts *)

(** The bytes of a printed number. *)
Definition number_byte (c : ascii) : bool := is_digit c || Ascii.eqb c "-" || Ascii.eqb c "+" || Ascii.eqb c "." || Ascii.eqb c "e".
Definition not_e (c : ascii) : bool := negb (Ascii.eqb c "e").
Definition int_byte (c : ascii) : bool := number_byte c && not_e c.

Lemma string_forallb_weaken (p q : ascii → bool) s :
  (∀ c, p c = true → q c = true) → string_forallb p s = true → string_forallb q s = true.
Proof.
  intros Hpq. induction s as [|c s IH]; [done|]. simpl. intros [Hc Hs]%andb_true_iff.
  by rewrite (Hpq c), IH.
Qed.

Lemma pretty_N_char_int n : int_byte (pretty_N_char n) = true.
Proof. unfold pretty_N_char. by repeat case_match. Qed.
Lemma pretty_N_go_int n s :
  string_forallb int_byte s = true → string_forallb int_byte (pretty_N_go n s) = true.
Proof.
  revert s. induction (N.lt_wf_0 n) as [n _ IH]; intros s Hs.
  destruct (decide (n = 0)%N) as [->|Hn]; [by rewrite pretty_N_go_0|].
  rewrite pretty_N_go_step by lia. apply IH; [by apply N.div_lt; lia|].
  simpl. by rewrite pretty_N_char_int, Hs.
Qed.
Lemma format_int_bytes z : string_forallb int_byte (format_int z) = true.
Proof.
  unfold format_int, pretty, pretty_Z, pretty, pretty_N.
  destruct z; repeat case_decide; try done.
  - by apply pretty_N_go_int.
  - rewrite string_forallb_app. simpl. by apply pretty_N_go_int.
Qed.

Lemma strip_zeros_bytes p s : string_forallb p s = true → string_forallb p (strip_zeros s) = true.
Proof.
  induction s as [|c s IH]; [done|]. simpl. intros [Hc Hs]%andb_true_iff.
  specialize (IH Hs). destruct (strip_zeros s); [case_match; simpl; by rewrite ?Hc|].
  simpl in *. by rewrite Hc.
Qed.

Lemma format_e_bytes digits exp :
  string_forallb int_byte digits = true →
  string_forallb number_byte (format_e digits exp) = true ∧
  string_forallb not_e (format_e digits exp) = false.
Proof.
  intros Hd. assert (Hw : ∀ s, string_forallb int_byte s = true → string_forallb number_byte s = true).
  { intros s. apply string_forallb_weaken. by intros c [? _]%andb_true_iff. }
  unfold format_e, format_exponent. split.
  - rewrite !string_forallb_app, (Hw (format_int _)) by apply format_int_bytes.
    apply Hw in Hd. destruct digits as [|c [|c' rest]]; simpl in *; repeat case_match; simpl; try done.
    all: by rewrite ?andb_true_r in *; rewrite ?Hd.
  - rewrite !string_forallb_app. simpl. by rewrite andb_false_r.
Qed.

(** The point of a value of a million and more is past the sixth digit. *)
Lemma below_pow10_small n d k : 0 < d → 10 ^ 6 * d ≤ n → k ≤ 6 → below_pow10 n d k = false.
Proof.
  intros Hd Hn Hk. unfold below_pow10, pow10_times. destruct (Z.leb_spec 0 (- k)) as [Hneg|Hpos].
  - apply Z.ltb_ge. assert (0 < 10 ^ (- k)) by (apply Z.pow_pos_nonneg; lia). nia.
  - rewrite Z.opp_involutive. apply Z.ltb_ge.
    assert (10 ^ k ≤ 10 ^ 6) by (apply Z.pow_le_mono_r; lia). nia.
Qed.
Lemma point_search_large fuel n d k :
  0 < d → 10 ^ 6 * d ≤ n → 7 ≤ k + Z.of_nat fuel → 7 ≤ point_search fuel n d k.
Proof.
  intros Hd Hn. revert k. induction fuel as [|fuel IH]; intros k Hk; [simpl in *; lia|].
  cbn [point_search]. destruct (below_pow10 n d k) eqn:Hb; [|apply IH; lia].
  destruct (decide (k ≤ 6)); [|lia]. by rewrite below_pow10_small in Hb.
Qed.
Lemma decimal_point_large n d : 0 < d → 10 ^ 6 * d ≤ n → 7 ≤ decimal_point n d.
Proof.
  intros Hd Hn. apply point_search_large; [done..|].
  assert (Z.log2 d ≤ Z.log2 n) by (apply Z.log2_le_mono; lia).
  assert (-1 ≤ (Z.log2 n - Z.log2 d - 1) * 30103 / 100000) by (apply Z.div_le_lower_bound; lia). lia.
Qed.

(** A float of a million and more in magnitude. *)
Definition at_least_a_million (f : f64) : Prop :=
  match f with
  | S754_finite _ m e => 10 ^ 6 * (fraction_of (Z.pos m) e).2 ≤ (fraction_of (Z.pos m) e).1
  | _ => False
  end.
Lemma format_large_bytes f : at_least_a_million f →
  string_forallb number_byte (format_f64 f) = true ∧ string_forallb not_e (format_f64 f) = false.
Proof.
  destruct f as [| | |neg m e]; try done. intros Hlarge. unfold format_f64, format_float.
  simpl in Hlarge. destruct (fraction_of (Z.pos m) e) as [n d] eqn:Hf. simpl in Hlarge.
  assert (Hd : 0 < d).
  { unfold fraction_of in Hf. destruct (Z.leb_spec 0 e); simplify_eq; [done|]. apply Z.pow_pos_nonneg; lia. }
  pose proof (decimal_point_large n d Hd Hlarge) as Hdp.
  destruct (shortest_digits _ _ _ _ _ _ _ _ _) as [digits count].
  set (dp := if digits =? 10 ^ count then _ else _).
  assert (Hdp' : 7 ≤ dp) by (subst dp; destruct (digits =? _); lia).
  unfold format_g. destruct (Z.leb_spec 6 (dp - 1)); [|lia]. rewrite orb_true_r.
  destruct (format_e_bytes (strip_zeros (format_int digits)) (dp - 1)) as [H1 H2].
  { apply strip_zeros_bytes, format_int_bytes. }
  rewrite !string_forallb_app, H1, H2. by destruct neg.
Qed.

Lemma number_byte_lower c : number_byte c = true → lower_byte c = c ∧ byte_code c < 128.
Proof.
  intros Hc. assert (Hr : (48 ≤ byte_code c ≤ 57) ∨ c = "-"%char ∨ c = "+"%char ∨ c = "."%char ∨ c = "e"%char).
  { unfold number_byte, is_digit, digit_value in Hc. rewrite !orb_true_iff, !Ascii.eqb_eq in Hc.
    destruct Hc as [[[[Hc| ->]| ->]| ->]| ->]; auto. left.
    destruct (_ && _) eqn:E; [|done]. apply andb_true_iff in E as [?%Z.leb_le ?%Z.leb_le]. lia. }
  destruct Hr as [Hr|[->|[->|[->| ->]]]]; [|done..]. split; [|lia].
  unfold lower_byte. destruct (Z.leb_spec 65 (byte_code c)); [lia|done].
Qed.

(** ** The texts on examples *)

(** Reading a text and writing the float again. *)
Definition reprint (s : string) : string :=
  match strconv_ParseFloat s with Some f => format_f64 f | None => "error" end.
Example reprints :
  map reprint ["1"; "0.1"; "1.1"; "100000"; "1000000"; "123456789"; "1e21"; "1e22"; "5e-324"; "2e-324";
    "1.7976931348623157e308"; "1.8e308"; "9007199254740993"; "0.0001"; "0.00001"; "-0"; "-2.50";
    "0x1p-2"; "0x1.8p1"; "1_000"; "1__0"; "inf"; "nan"; "."; "1e"; "1e+"; ".5"; "5."; "1e400"; ""] =
  ["1"; "0.1"; "1.1"; "100000"; "1e+06"; "1.23456789e+08"; "1e+21"; "1e+22"; "5e-324"; "0";
   "1.7976931348623157e+308"; "error"; "9.007199254740992e+15"; "0.0001"; "1e-05"; "-0"; "-2.5";
   "0.25"; "3"; "1000"; "error"; "+Inf"; "NaN"; "error"; "error"; "error"; "0.5"; "5"; "error"; "error"].
Proof. vm_compute. reflexivity. Qed.
