(* ===== verification/GoRuntime.v ===== *)
(** * The Go language and standard library, as far as the SDK uses them

    Strings are byte strings; [strings], [strconv], [fmt], [time] and
    [reflect.DeepEqual] are modelled by executable definitions.  float64
    is the IEEE 754 binary64 format of the Standard Library's [SpecFloat].
    The class [GoRuntime] collects what has no definition here: Unicode
    tables, the regular-expression engine, the local time zone, the
    conversion of floats out of the range of int64, which Go leaves open, and
    the two third-party packages of evaluator.go. *)
From S2P Require Import Prelude.
From S2P Require Import GoFloat.

(** ** Interface values *)

(** The dynamic values of an [interface{}] that the SDK meets: what
    encoding/json produces, the numeric types [getNumericValue] and
    [getTime] distinguish, and any other Go type a caller may put in a
    user's custom attributes ([VOther]; its flag says whether its reflect
    kind is String, [ty] is its type name and [repr] its [%v] form). *)
Inductive GoValue :=
| VNil
| VBool (b : bool)
| VInt (z : Z)
| VInt32 (z : Z)
| VInt64 (z : Z)
| VUint64 (z : Z)
| VFloat32 (f : f64)
| VFloat64 (f : f64)
| VString (s : string)
| VSlice (l : list GoValue)
| VMap (m : gmap string GoValue)
| VOther (string_kind : bool) (ty repr : string).

Abbreviation GoMap := (gmap string GoValue).

(** ** time.Time

    [t_sec] counts seconds since January 1 of year 1 UTC, as the package
    does; the zone only matters for calendar dates. *)
Inductive goLocation := LocUTC | LocLocal | LocFixed (offset : Z).
Record goTime := mkTime { t_sec : Z; t_nsec : Z; t_loc : goLocation }.

(** ** The parsed user agent of the third-party package uap-go *)
Record uaOs := mkUaOs
  { os_Family : string; os_Major : string; os_Minor : string;
    os_Patch : string; os_PatchMinor : string }.
Record uaUserAgent := mkUaUserAgent
  { ua_Family : string; ua_Major : string; ua_Minor : string; ua_Patch : string }.
Record uaClient := mkUaClient { ua_Os : uaOs; ua_UserAgent : uaUserAgent }.

(** ** What is not defined here *)
Class GoRuntime := {
  rt_unicode_lower : string → string;   (* strings.ToLower of a string with a byte ≥ 0x80 *)
  rt_unicode_trim : string → string;    (* strings.TrimFunc(s, unicode.IsSpace) *)
  rt_regexp_match : string → string → bool; (* regexp.MatchString; false on an error *)
  rt_local_offset : Z → Z;              (* offset of the local zone at a Unix time *)
  rt_float_to_int64 : f64 → Z;          (* int64(f) out of the range of int64 *)
  rt_lookup_ip : string → option string; (* countrylookup.LookupIp *)
  rt_ua_parse : string → uaClient;      (* uaparser.Parse *)
}.

(** ** Bytes and strings *)

Definition is_ascii (c : ascii) : bool := byte_code c <? 128.

Section strings.
Context `{GoRuntime}.

(** strings.ToLower: the ASCII path of the library, Unicode otherwise. *)
Definition strings_ToLower (s : string) : string :=
  if string_forallb is_ascii s then string_map lower_byte s else rt_unicode_lower s.

Definition is_space (c : ascii) : bool :=
  (* '\t' '\n' '\v' '\f' '\r' ' ' *)
  ((9 <=? byte_code c) && (byte_code c <=? 13)) || (byte_code c =? 32).

(** The scan from the left of strings.TrimSpace: the rest of the string and
    whether the scan met a non-ASCII byte. *)
Fixpoint trim_left (s : string) : string * bool :=
  match s with
  | EmptyString => (EmptyString, false)
  | String c r =>
      if negb (is_ascii c) then (s, true)
      else if is_space c then trim_left r else (s, false)
  end.

Definition string_rev (s : string) : string :=
  String.string_of_list_ascii (reverse (String.list_ascii_of_string s)).

Definition strings_TrimSpace (s : string) : string :=
  let '(s1, uni) := trim_left s in
  if uni then rt_unicode_trim s1 else
  let '(s2, uni) := trim_left (string_rev s1) in
  if uni then rt_unicode_trim (string_rev s2) else string_rev s2.
End strings.

(** strings.Split with a one-byte separator. *)
Fixpoint strings_Split (s : string) (sep : ascii) : list string :=
  match s with
  | EmptyString => [EmptyString]
  | String c s =>
      if Ascii.eqb c sep then EmptyString :: strings_Split s sep
      else match strings_Split s sep with
           | [] => [String c EmptyString]
           | p :: ps => String c p :: ps
           end
  end.

(** strings.Join. *)
Fixpoint strings_Join (l : list string) (sep : string) : string :=
  match l with
  | [] => EmptyString
  | [s] => s
  | s :: l => (s +:+ sep +:+ strings_Join l sep)%string
  end.

Definition strings_HasPrefix (s p : string) : bool := String.prefix p s.

Fixpoint strings_HasSuffix (s suf : string) : bool :=
  String.eqb s suf ||
  match s with
  | EmptyString => false
  | String _ s => strings_HasSuffix s suf
  end.

Fixpoint strings_Contains (s sub : string) : bool :=
  String.prefix sub s ||
  match s with
  | EmptyString => false
  | String _ s => strings_Contains s sub
  end.

(** strings.TrimSuffix(s, "/") for a one-byte suffix. *)
Fixpoint strings_TrimSuffix (s : string) (suf : ascii) : string :=
  match s with
  | EmptyString => EmptyString
  | String c EmptyString => if Ascii.eqb c suf then EmptyString else s
  | String c r => String c (strings_TrimSuffix r suf)
  end.

Definition cr : ascii := "013"%char.
Definition lf : ascii := "010"%char.

(** strings.ReplaceAll(s, "\r\n", "\n"). *)
Fixpoint replace_crlf (s : string) : string :=
  match s with
  | EmptyString => EmptyString
  | String c r =>
      match r with
      | String d r' =>
          if Ascii.eqb c cr && Ascii.eqb d lf then String lf (replace_crlf r')
          else String c (replace_crlf r)
      | EmptyString => String c EmptyString
      end
  end.

Lemma strings_Split_nonempty s sep : strings_Split s sep ≠ [].
Proof. destruct s; simpl; repeat case_match; done. Qed.

Lemma strings_Split_Join s sep :
  strings_Join (strings_Split s sep) (String sep EmptyString) = s.
Proof.
  induction s as [|c s IH]; [done|]. simpl.
  pose proof (strings_Split_nonempty s sep) as Hne.
  destruct (Ascii.eqb_spec c sep) as [->|_];
    destruct (strings_Split s sep) as [|p ps]; try done; simpl in *.
  - by rewrite IH.
  - rewrite <- IH. by destruct ps.
Qed.

(** A part of a split never contains the separator. *)
Definition free_of (sep : ascii) (s : string) : Prop :=
  string_forallb (fun c => negb (Ascii.eqb c sep)) s = true.

Lemma strings_Split_free s sep : Forall (free_of sep) (strings_Split s sep).
Proof.
  induction s as [|c s IH]; simpl; [by repeat constructor|].
  destruct (Ascii.eqb c sep) eqn:E; [by constructor|].
  destruct (strings_Split s sep) as [|p ps].
  - repeat constructor. unfold free_of; simpl. by rewrite E.
  - apply Forall_cons in IH as [??]. constructor; [|done].
    unfold free_of; simpl. by rewrite E.
Qed.

Lemma strings_Split_of_free sep s : free_of sep s → strings_Split s sep = [s].
Proof.
  unfold free_of. induction s as [|c s IH]; simpl; [done|].
  intros [Hc Hs]%andb_true_iff. apply negb_true_iff in Hc. by rewrite Hc, IH.
Qed.

(** Splitting at the end: the parts of [a + sep + b]. *)
Lemma strings_Split_app sep a b :
  free_of sep a →
  strings_Split (a +:+ String sep b) sep = a :: strings_Split b sep.
Proof.
  unfold free_of. induction a as [|c a IH]; simpl.
  - by rewrite Ascii.eqb_refl.
  - intros [Hc Hs]%andb_true_iff. apply negb_true_iff in Hc. by rewrite Hc, IH.
Qed.

Lemma strings_Split_app_any sep a b :
  strings_Split (a +:+ String sep b) sep = strings_Split a sep ++ strings_Split b sep.
Proof.
  induction a as [|c a IH]; simpl; [by rewrite Ascii.eqb_refl|]. rewrite IH.
  destruct (Ascii.eqb c sep); [done|].
  pose proof (strings_Split_nonempty a sep). by destruct (strings_Split a sep).
Qed.

Lemma replace_crlf_cons c d r :
  replace_crlf (String c (String d r)) =
  if Ascii.eqb c cr && Ascii.eqb d lf then String lf (replace_crlf r)
  else String c (replace_crlf (String d r)).
Proof. done. Qed.

(** A newline ends the part of the text [replace_crlf] looks at. *)
Lemma replace_crlf_app_aux n a b : (String.length a ≤ n)%nat →
  ∃ a', replace_crlf (a +:+ String lf b) = (a' +:+ String lf (replace_crlf b))%string ∧
        replace_crlf (a +:+ String lf "") = (a' +:+ String lf "")%string.
Proof.
  revert a. induction n as [|n IH]; intros a Hn.
  { destruct a; simpl in Hn; [|lia]. exists "". by destruct b. }
  destruct a as [|c a]; [exists ""; by destruct b|]. simpl in Hn.
  destruct a as [|d a].
  - simpl. destruct (Ascii.eqb_spec c cr) as [->|Hc]; simpl.
    + by exists "".
    + exists (String c ""). by destruct b.
  - destruct (Ascii.eqb c cr && Ascii.eqb d lf) eqn:E.
    + apply andb_true_iff in E as [Hc Hd].
      destruct (IH a) as (a' & H1 & H2); [simpl in Hn; lia|].
      exists (String lf a'). simpl in *. rewrite Hc, Hd. simpl. by rewrite H1, H2.
    + destruct (IH (String d a)) as (a' & H1 & H2); [simpl in *; lia|].
      exists (String c a').
      change (String c (String d a) +:+ String lf b)%string
        with (String c (String d (a +:+ String lf b))).
      change (String c (String d a) +:+ String lf "")%string
        with (String c (String d (a +:+ String lf ""))).
      rewrite !replace_crlf_cons, E. split; [exact (f_equal (String c) H1)|exact (f_equal (String c) H2)].
Qed.

Lemma strings_Split_Join_free sep l :
  l ≠ [] → Forall (free_of sep) l →
  strings_Split (strings_Join l (String sep EmptyString)) sep = l.
Proof.
  induction l as [|a l IH]; intros Hne Hl; [done|].
  apply Forall_cons in Hl as [Ha Hl].
  destruct l as [|b l]; [by apply strings_Split_of_free|].
  change (strings_Join (a :: b :: l) (String sep EmptyString))
    with (a +:+ String sep (strings_Join (b :: l) (String sep EmptyString))).
  rewrite strings_Split_app by done. by rewrite IH.
Qed.

(** ** strconv *)

Inductive parseResult :=
| ParseOk (n : Z)
| ParseRange (n : Z)    (* ErrRange; [n] is the nearest representable value *)
| ParseSyntax.          (* ErrSyntax; the returned value is 0 *)

(** The digit loop of strconv.ParseUint(s, 10, 64). *)
Fixpoint parse_uint_loop (s : string) (n : Z) : parseResult :=
  match s with
  | EmptyString => ParseOk n
  | String c s =>
      match digit_value c with
      | None => ParseSyntax
      | Some d =>
          if two64 <=? n * 10 + d then ParseRange (two64 - 1)
          else parse_uint_loop s (n * 10 + d)
      end
  end.

Definition strconv_ParseUint (s : string) : parseResult :=
  if String.eqb s "" then ParseSyntax else parse_uint_loop s 0.

(** strconv.ParseInt(s, 10, 64). *)
Definition strconv_ParseInt (s : string) : parseResult :=
  let '(neg, digits) :=
    match s with
    | String "+" r => (false, r)
    | String "-" r => (true, r)
    | _ => (false, s)
    end in
  match strconv_ParseUint digits with
  | ParseSyntax => ParseSyntax
  | ParseOk un | ParseRange un =>
      if negb neg && (two63 <=? un) then ParseRange (two63 - 1)
      else if neg && (two63 <? un) then ParseRange (- two63)
      else ParseOk (if neg then - un else un)
  end.

(** The value half of [n, _ := strconv.ParseInt(s, 10, 64)]. *)
Definition parse_value (r : parseResult) : Z :=
  match r with ParseOk n | ParseRange n => n | ParseSyntax => 0 end.

(** strconv.Atoi: None on an error. *)
Definition strconv_Atoi (s : string) : option Z :=
  match strconv_ParseInt s with ParseOk n => Some n | _ => None end.

Definition strconv_FormatBool (b : bool) : string := if b then "true" else "false".

Lemma parse_uint_loop_range s n :
  in_u64 n → in_u64 (parse_value (parse_uint_loop s n)).
Proof.
  revert n; induction s as [|c s IH]; intros n Hn; simpl; [done|].
  unfold digit_value. destruct (_ && _) eqn:E; [|by split].
  apply andb_true_iff in E as [E1%Z.leb_le E2%Z.leb_le].
  destruct (Z.leb_spec two64 (n * 10 + (byte_code c - 48))); simpl; [by split|].
  apply IH. unfold in_u64 in *. lia.
Qed.

Lemma strconv_ParseInt_range s : in_i64 (parse_value (strconv_ParseInt s)).
Proof.
  unfold strconv_ParseInt. set (nd := match s with EmptyString => _ | _ => _ end).
  destruct nd as [neg digits]. unfold strconv_ParseUint.
  destruct (String.eqb digits ""); [by split|].
  pose proof (parse_uint_loop_range digits 0 ltac:(by split)) as Hr.
  destruct (parse_uint_loop digits 0) as [un|un|]; [| |by split];
    unfold in_u64, in_i64, two63, two64 in *; simpl in Hr; simpl;
    destruct neg; simpl; repeat case_match; simpl; lia.
Qed.

(** ** float64 to int64, and the texts of package fmt *)

Section conversions.
Context `{GoRuntime}.

(** int64(f): truncation in range; out of range the Go specification leaves
    the result to the implementation. *)
Definition f64_to_int64 (f : f64) : Z :=
  match f64_trunc f with
  | Some z => if (- two63 <=? z) && (z <? two63) then z else rt_float_to_int64 f
  | None => rt_float_to_int64 f
  end.

End conversions.

(** The entries of a map in the order package fmt prints them. *)
Definition entry_le {A} (a b : string * A) : Prop := Is_true (String.leb a.1 b.1).
#[export] Instance entry_le_dec {A} : RelDecision (@entry_le A).
Proof. intros a b. unfold entry_le. apply _. Defined.
Definition print_entries (entries : list (string * string)) : string :=
  ("map[" +:+ strings_Join (map (fun e => e.1 +:+ ":" +:+ e.2) (merge_sort entry_le entries)) " " +:+ "]")%string.

(** fmt.Sprintf("%v", v). *)
Fixpoint sprint_v (v : GoValue) : string :=
  match v with
  | VNil => "<nil>"
  | VBool b => strconv_FormatBool b
  | VInt z | VInt32 z | VInt64 z | VUint64 z => format_int z
  | VFloat32 f => format_f32 f
  | VFloat64 f => format_f64 f
  | VString s => s
  | VSlice l => ("[" +:+ strings_Join (map sprint_v l) " " +:+ "]")%string
  | VMap m => print_entries (map_fold (fun key v entries => (key, sprint_v v) :: entries) [] m)
  | VOther _ _ repr => repr
  end.

(** fmt.Sprintf("%s", v): a value that is no string is reported as a bad verb
    with its type; inside a slice or a map a nil is printed as such. *)
Definition bad_verb (type text : string) : string := ("%!s(" +:+ type +:+ "=" +:+ text +:+ ")")%string.
Fixpoint sprint_s_elem (v : GoValue) : string :=
  match v with
  | VNil => "<nil>"
  | VBool _ => bad_verb "bool" (sprint_v v)
  | VInt _ => bad_verb "int" (sprint_v v)
  | VInt32 _ => bad_verb "int32" (sprint_v v)
  | VInt64 _ => bad_verb "int64" (sprint_v v)
  | VUint64 _ => bad_verb "uint64" (sprint_v v)
  | VFloat32 _ => bad_verb "float32" (sprint_v v)
  | VFloat64 _ => bad_verb "float64" (sprint_v v)
  | VString s => s
  | VSlice l => ("[" +:+ strings_Join (map sprint_s_elem l) " " +:+ "]")%string
  | VMap m => print_entries (map_fold (fun key v entries => (key, sprint_s_elem v) :: entries) [] m)
  | VOther string_kind ty repr => if string_kind then repr else bad_verb ty repr
  end.
Definition sprint_s (v : GoValue) : string :=
  match v with VNil => "%!s(<nil>)" | _ => sprint_s_elem v end.

(** [v == nil] and [v == s] for an interface value [v]. *)
Definition is_nil (v : GoValue) : bool := match v with VNil => true | _ => false end.
Definition eq_string (v : GoValue) (s : string) : bool :=
  match v with VString s' => String.eqb s' s | _ => false end.

(** reflect.TypeOf(v).Kind() == reflect.String, for a non-nil [v]. *)
Definition is_string_kind (v : GoValue) : bool :=
  match v with VString _ => true | VOther k _ _ => k | _ => false end.

(** reflect.DeepEqual on interface values. *)
Fixpoint deep_equal (a b : GoValue) : bool :=
  match a, b with
  | VNil, VNil => true
  | VBool x, VBool y => Bool.eqb x y
  | VInt x, VInt y | VInt32 x, VInt32 y | VInt64 x, VInt64 y | VUint64 x, VUint64 y => x =? y
  | VFloat32 x, VFloat32 y | VFloat64 x, VFloat64 y => f64_eq x y
  | VString x, VString y => String.eqb x y
  | VSlice l, VSlice k =>
      (fix go (l k : list GoValue) : bool :=
         match l, k with
         | [], [] => true
         | x :: l, y :: k => deep_equal x y && go l k
         | _, _ => false
         end) l k
  | VMap m, VMap n =>
      bool_decide (dom m = dom n) &&
      map_fold (fun key v acc =>
                  match n !! key with
                  | Some w => deep_equal v w && acc
                  | None => false
                  end) true m
  | VOther k t r, VOther k' t' r' => Bool.eqb k k' && String.eqb t t' && String.eqb r r'
  | _, _ => false
  end.

(** ** time *)

Definition unixToInternal : Z := 62135596800.
(** From Unix seconds to seconds since the year -292277022399, an unsigned
    count in the package. *)
Definition unixToAbsolute : Z := 9223372028715321600.

Definition time_zero : goTime := mkTime 0 0 LocUTC.
(** time.Unix(sec, 0). *)
Definition time_Unix (sec : Z) : goTime := mkTime (wrap_i64 (sec + unixToInternal)) 0 LocLocal.
Definition time_unix (t : goTime) : Z := wrap_i64 (t_sec t - unixToInternal).

Definition time_Before (t u : goTime) : bool :=
  (t_sec t <? t_sec u) || ((t_sec t =? t_sec u) && (t_nsec t <? t_nsec u)).
Definition time_After (t u : goTime) : bool := time_Before u t.

(** The proleptic Gregorian calendar: day number (day 0 is 1970-01-01) to
    year, month and day of the month, and back. *)
Record civil := mkCivil { c_year : Z; c_month : Z; c_day : Z }.
#[export] Instance civil_eq_dec : EqDecision civil.
Proof. solve_decision. Defined.

Definition civil_from_days (days : Z) : civil :=
  let z := days + 719468 in
  let era := z / 146097 in
  let doe := z mod 146097 in
  let yoe := (doe - doe / 1460 + doe / 36524 - doe / 146096) / 365 in
  let doy := doe - (365 * yoe + yoe / 4 - yoe / 100) in
  let mp := (5 * doy + 2) / 153 in
  let m := if mp <? 10 then mp + 3 else mp - 9 in
  mkCivil (yoe + era * 400 + (if m <=? 2 then 1 else 0)) m (doy - (153 * mp + 2) / 5 + 1).

Definition days_from_civil (c : civil) : Z :=
  let y := if c_month c <=? 2 then c_year c - 1 else c_year c in
  let era := y / 400 in
  let yoe := y mod 400 in
  let doy := (153 * (if 2 <? c_month c then c_month c - 3 else c_month c + 9) + 2) / 5
             + c_day c - 1 in
  era * 146097 + (yoe * 365 + yoe / 4 - yoe / 100 + doy) - 719468.

Section time.
Context `{GoRuntime}.

Definition zone_offset (loc : goLocation) (unix : Z) : Z :=
  match loc with
  | LocUTC => 0
  | LocLocal => rt_local_offset unix
  | LocFixed off => off
  end.

(** The day of a time in its own zone, from the unsigned absolute seconds. *)
Definition time_day (t : goTime) : Z :=
  wrap_u64 (time_unix t + zone_offset (t_loc t) (time_unix t) + unixToAbsolute) / 86400
  - unixToAbsolute / 86400.
Definition time_Date (t : goTime) : civil := civil_from_days (time_day t).
Definition time_Year (t : goTime) : Z := c_year (time_Date t).
End time.

(** ** time.Parse(time.RFC3339, s)

    The general parser of package time on the layout of RFC 3339, whose fast
    path accepts a subset with the same result: an hour of one or two digits,
    a fraction of the second after a point or a comma of which nine digits
    count, and an offset up to 24 hours and 60 minutes. *)

(** [getnum]: a number of two digits, or of one when not [fixed]. *)
Definition getnum (fixed : bool) (s : string) : option (Z * string) :=
  match s with
  | EmptyString => None
  | String c r =>
      match digit_value c with
      | None => None
      | Some a =>
          match r with
          | String c' r' =>
              match digit_value c' with
              | Some b => Some (a * 10 + b, r')
              | None => if fixed then None else Some (a, r)
              end
          | EmptyString => if fixed then None else Some (a, r)
          end
      end
  end.
Definition in_range (lo hi : Z) (r : option (Z * string)) : option (Z * string) :=
  p ← r; if (lo <=? p.1) && (p.1 <=? hi) then Some p else None.
(** [skip] of a literal byte. *)
Definition skip_byte (c : ascii) (s : string) : option string :=
  match s with
  | String d r => if Ascii.eqb c d then Some r else None
  | EmptyString => None
  end.

(** [parseNanoseconds]: the digits after the separator, of which nine count;
    [scale] is the weight of the next one. *)
Fixpoint fraction_digits (s : string) (scale nsec : Z) : Z * string :=
  match s with
  | String c r =>
      match digit_value c with
      | Some d => fraction_digits r (scale / 10) (nsec + d * scale)
      | None => (nsec, s)
      end
  | EmptyString => (nsec, s)
  end.
Definition parse_fraction (s : string) : Z * string :=
  match s with
  | String sep (String c _ as r) =>
      if (Ascii.eqb sep "." || Ascii.eqb sep ",") && is_digit c then fraction_digits r 100000000 0
      else (0, s)
  | _ => (0, s)
  end.

(** The zone: None is Z, otherwise the offset in seconds. *)
Definition parse_zone (s : string) : option (option Z * string) :=
  match s with
  | EmptyString => None
  | String sign r =>
      if Ascii.eqb sign "Z" then Some (None, r)
      else
        '(hr, r) ← in_range 0 24 (getnum true r);
        r ← skip_byte ":" r;
        '(mm, r) ← in_range 0 60 (getnum true r);
        let offset := (hr * 60 + mm) * 60 in
        if Ascii.eqb sign "+" then Some (Some offset, r)
        else if Ascii.eqb sign "-" then Some (Some (- offset), r)
        else None
  end.

Definition is_leap (year : Z) : bool :=
  (year mod 4 =? 0) && (negb (year mod 100 =? 0) || (year mod 400 =? 0)).
Definition days_in (year month : Z) : Z :=
  if month =? 2 then (if is_leap year then 29 else 28)
  else if (month =? 4) || (month =? 6) || (month =? 9) || (month =? 11) then 30 else 31.

(** time.Date(year, month, day, hour, min, sec, nsec, UTC) for a valid date. *)
Definition time_of_civil (c : civil) (hour min sec nsec : Z) (loc : goLocation) : goTime :=
  mkTime (days_from_civil c * 86400 + hour * 3600 + min * 60 + sec + unixToInternal) nsec loc.

Definition parse_date (s : string) : option (civil * string) :=
  '(century, s) ← getnum true s; '(years, s) ← getnum true s;
  s ← skip_byte "-" s; '(month, s) ← in_range 1 12 (getnum true s);
  s ← skip_byte "-" s; '(day, s) ← getnum true s;
  let year := century * 100 + years in
  if (1 <=? day) && (day <=? days_in year month) then Some (mkCivil year month day, s) else None.

Definition time_ParseRFC3339 `{GoRuntime} (s : string) : option goTime :=
  '(date, s) ← parse_date s;
  s ← skip_byte "T" s; '(hour, s) ← in_range 0 23 (getnum false s);
  s ← skip_byte ":" s; '(min, s) ← in_range 0 59 (getnum true s);
  s ← skip_byte ":" s; '(sec, s) ← in_range 0 59 (getnum true s);
  let '(nsec, s) := parse_fraction s in
  '(zone, rest) ← parse_zone s;
  if negb (String.eqb rest "") then None
  else
    let utc := time_of_civil date hour min sec nsec LocUTC in
    match zone with
    | None => Some utc
    | Some offset =>
        let sec := t_sec utc - offset in
        let loc := if rt_local_offset (sec - unixToInternal) =? offset then LocLocal else LocFixed offset in
        Some (mkTime sec nsec loc)
    end.

(** One cycle of 400 years: the year and day of the year of each of its days. *)
Lemma cycle_day_bounds doe : 0 ≤ doe < 146097 →
  let yoe := (doe - doe / 1460 + doe / 36524 - doe / 146096) / 365 in
  let doy := doe - (365 * yoe + yoe / 4 - yoe / 100) in
  0 ≤ yoe ≤ 399 ∧ 0 ≤ doy ≤ 365.
Proof.
  intros Hdoe yoe doy. split; [subst yoe|subst doy yoe];
    Z.to_euclidean_division_equations; lia.
Qed.

Lemma days_from_civil_from_days d : days_from_civil (civil_from_days d) = d.
Proof.
  unfold civil_from_days, days_from_civil.
  set (z := d + 719468).
  pose proof (Z.div_mod z 146097 ltac:(lia)) as Hz.
  pose proof (Z.mod_pos_bound z 146097 ltac:(lia)) as Hdoe.
  set (doe := z mod 146097) in *. set (era := z / 146097) in *.
  pose proof (cycle_day_bounds doe Hdoe) as Hok. cbv zeta in Hok.
  set (yoe := (doe - doe / 1460 + doe / 36524 - doe / 146096) / 365) in *.
  set (doy := doe - (365 * yoe + yoe / 4 - yoe / 100)) in *.
  set (mp := (5 * doy + 2) / 153) in *.
  destruct Hok as [Hy Hd].
  assert (Hm : 0 ≤ mp ≤ 11) by (subst mp; Z.to_euclidean_division_equations; lia). simpl.
  set (m := if mp <? 10 then mp + 3 else mp - 9).
  assert (Hmp : (if 2 <? m then m - 3 else m + 9) = mp).
  { subst m. destruct (Z.ltb_spec mp 10).
    - destruct (Z.ltb_spec 2 (mp + 3)); lia.
    - destruct (Z.ltb_spec 2 (mp - 9)); lia. }
  assert (Hyear : (if m <=? 2 then yoe + era * 400 + (if m <=? 2 then 1 else 0) - 1
     else yoe + era * 400 + (if m <=? 2 then 1 else 0)) = era * 400 + yoe).
  { destruct (m <=? 2); lia. }
  rewrite Hyear, Hmp.
  rewrite (Z.div_add_l era 400 yoe), (Z.div_small yoe 400) by lia.
  rewrite (Z.add_comm (era * 400) yoe), Z.mod_add, (Z.mod_small yoe 400) by lia.
  subst doy. lia.
Qed.

Lemma civil_from_days_inj d d' : civil_from_days d = civil_from_days d' → d = d'.
Proof. intros Heq. by rewrite <- (days_from_civil_from_days d), Heq, days_from_civil_from_days. Qed.

(** Computations on concrete data are left to [vm_compute]. *)
#[global] Arguments wrap_i64 : simpl never.
#[global] Arguments wrap_u64 : simpl never.
#[global] Arguments civil_from_days : simpl never.
#[global] Arguments days_from_civil : simpl never.
#[global] Arguments time_Date {_} _ : simpl never.
#[global] Arguments time_Unix : simpl never.
#[global] Arguments f64_of_Z : simpl never.
#[global] Arguments f64_mul : simpl never.
#[global] Arguments f64_to_int64 {_} _ : simpl never.
#[global] Arguments strings_ToLower {_} _ : simpl never.
