(* ===== verification/Hashing.v ===== *)
(** * util.go: hashing and small helpers

    [getHash] and the two encodings the SDK derives from it are executable:
    SHA-256 (FIPS 180-4) over byte lists, the first eight bytes as a
    big-endian uint64, and standard base64.  The remaining helpers of
    util.go follow. *)
From S2P Require Import Prelude GoFloat GoRuntime.

(** Bytes as integers. *)
Definition bytes_of_string (s : string) : list Z := map byte_code (String.list_ascii_of_string s).
Definition is_byte (z : Z) : Prop := 0 ≤ z < 256.

Lemma bytes_of_string_bytes s : Forall is_byte (bytes_of_string s).
Proof.
  unfold bytes_of_string. apply Forall_fmap, Forall_forall. intros c _.
  apply byte_code_range.
Qed.

(** ** crypto/sha256 *)
Module Sha256.
Definition mask32 : Z := 0xffffffff.
Definition add32 (a b : Z) : Z := Z.land (a + b) mask32.
Definition rotr (n x : Z) : Z :=
  Z.lor (Z.shiftr x n) (Z.land (Z.shiftl x (32 - n)) mask32).
Definition ch (x y z : Z) : Z := Z.lxor (Z.land x y) (Z.land (Z.lxor x mask32) z).
Definition maj (x y z : Z) : Z := Z.lxor (Z.lxor (Z.land x y) (Z.land x z)) (Z.land y z).
Definition Sigma0 (x : Z) : Z := Z.lxor (Z.lxor (rotr 2 x) (rotr 13 x)) (rotr 22 x).
Definition Sigma1 (x : Z) : Z := Z.lxor (Z.lxor (rotr 6 x) (rotr 11 x)) (rotr 25 x).
Definition sigma0 (x : Z) : Z := Z.lxor (Z.lxor (rotr 7 x) (rotr 18 x)) (Z.shiftr x 3).
Definition sigma1 (x : Z) : Z := Z.lxor (Z.lxor (rotr 17 x) (rotr 19 x)) (Z.shiftr x 10).

(** The constants of the standard: the fractional parts, to 32 bits, of the
    cube roots of the first 64 primes and of the square roots of the first 8. *)
Definition primes : list Z :=
  take 64 (filter (fun n => forallb (fun d => negb (n mod Z.of_nat d =? 0))
                              (seq 2 (Z.to_nat n - 2)))
             (map Z.of_nat (seq 2 320))).
Fixpoint cube_root (bits : nat) (x root : Z) : Z :=
  match bits with
  | O => root
  | S bits =>
      let root' := root + 2 ^ Z.of_nat bits in
      cube_root bits x (if root' ^ 3 <=? x then root' else root)
  end.
Definition K : list Z :=
  Eval vm_compute in map (fun p => cube_root 36 (p * 2 ^ 96) 0 mod 2 ^ 32) primes.

Record digest := mkDigest { da : Z; db : Z; dc : Z; dd : Z; de : Z; df : Z; dg : Z; dh : Z }.

Definition init : digest :=
  Eval vm_compute in
  match map (fun p => Z.sqrt (p * 2 ^ 64) mod 2 ^ 32) (take 8 primes) with
  | [a; b; c; d; e; f; g; h] => mkDigest a b c d e f g h
  | _ => mkDigest 0 0 0 0 0 0 0 0
  end.

(** The message schedule, kept as the last sixteen words in reverse. *)
Definition next_w (w : list Z) : Z :=
  add32 (add32 (sigma1 (nth 1 w 0)) (nth 6 w 0)) (add32 (sigma0 (nth 14 w 0)) (nth 15 w 0)).

Definition round (s : digest) (k w : Z) : digest :=
  let t1 := add32 (add32 (dh s) (Sigma1 (de s)))
                  (add32 (ch (de s) (df s) (dg s)) (add32 k w)) in
  let t2 := add32 (Sigma0 (da s)) (maj (da s) (db s) (dc s)) in
  mkDigest (add32 t1 t2) (da s) (db s) (dc s) (add32 (dd s) t1) (de s) (df s) (dg s).

(** The first sixteen rounds consume the block, the others the schedule. *)
Fixpoint rounds (ks block w : list Z) (s : digest) : digest :=
  match ks with
  | [] => s
  | k :: ks =>
      match block with
      | b :: block => rounds ks block (b :: w) (round s k b)
      | [] => let x := next_w w in rounds ks [] (x :: take 15 w) (round s k x)
      end
  end.

Definition compress (s : digest) (block : list Z) : digest :=
  let t := rounds K block [] s in
  mkDigest (add32 (da s) (da t)) (add32 (db s) (db t)) (add32 (dc s) (dc t))
           (add32 (dd s) (dd t)) (add32 (de s) (de t)) (add32 (df s) (df t))
           (add32 (dg s) (dg t)) (add32 (dh s) (dh t)).

Definition be_bytes (n : nat) (x : Z) : list Z :=
  map (fun i => Z.shiftr x (8 * Z.of_nat i) mod 256) (reverse (seq 0 n)).
Definition be_word (l : list Z) : Z := foldl (fun acc b => acc * 256 + b) 0 l.

Definition pad (m : list Z) : list Z :=
  m ++ [128] ++ replicate (Z.to_nat ((55 - Z.of_nat (length m)) mod 64)) 0
    ++ be_bytes 8 (8 * Z.of_nat (length m)).

(** Consumes the padded message, one block of [n] words of four bytes at a time. *)
Fixpoint words (n : nat) (l : list Z) : list Z * list Z :=
  match n, l with
  | S n, a :: b :: c :: d :: l =>
      let '(ws, rest) := words n l in (be_word [a; b; c; d] :: ws, rest)
  | _, _ => ([], l)
  end.

Fixpoint blocks (n : nat) (l : list Z) (s : digest) : digest :=
  match n with
  | O => s
  | S n => let '(ws, rest) := words 16 l in blocks n rest (compress s ws)
  end.

Definition sum (m : list Z) : list Z :=
  let p := pad m in
  let s := blocks (length p / 64) p init in
  flat_map (be_bytes 4) [da s; db s; dc s; dd s; de s; df s; dg s; dh s].

Lemma be_bytes_length n x : length (be_bytes n x) = n.
Proof. unfold be_bytes. rewrite length_map, length_reverse, length_seq. done. Qed.

Lemma be_bytes_bytes n x : Forall is_byte (be_bytes n x).
Proof.
  unfold be_bytes. apply Forall_fmap, Forall_forall. intros i _.
  unfold is_byte, compose. apply Z.mod_pos_bound. lia.
Qed.

Lemma pad_blocks m : Z.of_nat (length (pad m)) mod 64 = 0.
Proof.
  unfold pad. rewrite !length_app, be_bytes_length, length_replicate. simpl length.
  rewrite !Nat2Z.inj_add, Z2Nat.id by (apply Z.mod_pos_bound; lia).
  set (n := Z.of_nat (length m)).
  replace (n + (Z.of_nat 1 + ((55 - n) mod 64 + Z.of_nat 8)))
    with (n + 9 + (55 - n) mod 64) by lia.
  rewrite Z.add_mod_idemp_r by lia. by replace (n + 9 + (55 - n)) with 64 by lia.
Qed.

Lemma sum_length m : length (sum m) = 32%nat.
Proof. done. Qed.

Lemma sum_bytes m : Forall is_byte (sum m).
Proof.
  unfold sum. generalize (blocks (length (pad m) / 64) (pad m) init). intros s.
  unfold flat_map. rewrite !Forall_app. repeat split; try apply be_bytes_bytes. constructor.
Qed.

(** FIPS 180-4 test vectors. *)
Example sum_abc : be_word (sum (bytes_of_string "abc")) =
  0xba7816bf8f01cfea414140de5dae2223b00361a396177a9cb410ff61f20015ad.
Proof. vm_compute. reflexivity. Qed.
Example sum_two_blocks :
  be_word (sum (bytes_of_string "abcdbcdecdefdefgefghfghighijhijkijkljklmklmnlmnomnopnopq")) =
  0x248d6a61d20638b8e5c026930c3e6039a33ce45964ff2167f6ecedd419db06c1.
Proof. vm_compute. reflexivity. Qed.
Example sum_empty : be_word (sum []) =
  0xe3b0c44298fc1c149afbf4c8996fb92427ae41e4649b934ca495991b7852b855.
Proof. vm_compute. reflexivity. Qed.
End Sha256.

(** ** encoding/base64, StdEncoding *)
Module Base64.
Definition alphabet : string :=
  "ABCDEFGHIJKLMNOPQRSTUVWXYZabcdefghijklmnopqrstuvwxyz0123456789+/".
Definition enc (i : Z) : ascii := default "="%char (String.get (Z.to_nat i) alphabet).

Fixpoint encode (l : list Z) : string :=
  match l with
  | a :: b :: c :: l =>
      String (enc (a / 4)) (String (enc ((a mod 4) * 16 + b / 16))
      (String (enc ((b mod 16) * 4 + c / 64)) (String (enc (c mod 64)) (encode l))))
  | [a; b] =>
      String (enc (a / 4)) (String (enc ((a mod 4) * 16 + b / 16))
      (String (enc ((b mod 16) * 4)) "="))
  | [a] => String (enc (a / 4)) (String (enc ((a mod 4) * 16)) "==")
  | [] => EmptyString
  end.

(** The inverse of the alphabet and of the encoding: the specification. *)
Fixpoint index (c : ascii) (s : string) (i : Z) : option Z :=
  match s with
  | EmptyString => None
  | String d s => if Ascii.eqb c d then Some i else index c s (i + 1)
  end.
Definition dec (c : ascii) : option Z := index c alphabet 0.

Fixpoint decode (s : string) : option (list Z) :=
  match s with
  | EmptyString => Some []
  | String c1 (String c2 (String c3 (String c4 s))) =>
      i ← dec c1; j ← dec c2;
      if Ascii.eqb c3 "=" then Some [i * 4 + j / 16]
      else k ← dec c3;
           if Ascii.eqb c4 "=" then Some [i * 4 + j / 16; (j mod 16) * 16 + k / 4]
           else m ← dec c4; r ← decode s;
                Some (i * 4 + j / 16 :: (j mod 16) * 16 + k / 4 :: (k mod 4) * 64 + m :: r)
  | _ => None
  end.

Lemma alphabet_ok :
  forallb (fun i => bool_decide (dec (enc (Z.of_nat i)) = Some (Z.of_nat i))
                    && negb (Ascii.eqb (enc (Z.of_nat i)) "=")) (seq 0 64) = true.
Proof. vm_compute. reflexivity. Qed.

Lemma enc_index i : 0 ≤ i < 64 → dec (enc i) = Some i ∧ Ascii.eqb (enc i) "=" = false.
Proof.
  intros Hi. pose proof alphabet_ok as H. rewrite forallb_forall in H.
  specialize (H (Z.to_nat i)). rewrite Z2Nat.id in H by lia.
  rewrite andb_true_iff, negb_true_iff in H.
  destruct H as [H1%bool_decide_eq_true H2]; [|done].
  apply in_seq. lia.
Qed.

Lemma dec_enc i : 0 ≤ i < 64 → dec (enc i) = Some i.
Proof. apply enc_index. Qed.
Lemma enc_not_pad i : 0 ≤ i < 64 → Ascii.eqb (enc i) "=" = false.
Proof. apply enc_index. Qed.

Lemma sextets a b : is_byte a → is_byte b →
  0 ≤ a / 4 < 64 ∧ 0 ≤ a mod 64 < 64 ∧ 0 ≤ (a mod 4) * 16 < 64 ∧ 0 ≤ (a mod 16) * 4 < 64 ∧
  0 ≤ (a mod 4) * 16 + b / 16 < 64 ∧ 0 ≤ (a mod 16) * 4 + b / 64 < 64.
Proof. unfold is_byte. intros. Z.to_euclidean_division_equations. lia. Qed.

Lemma encode_three a b c l :
  encode (a :: b :: c :: l) =
  String (enc (a / 4)) (String (enc ((a mod 4) * 16 + b / 16))
    (String (enc ((b mod 16) * 4 + c / 64)) (String (enc (c mod 64)) (encode l)))).
Proof. done. Qed.

Lemma three_ind (P : list Z → Prop) :
  P [] → (∀ a, P [a]) → (∀ a b, P [a; b]) →
  (∀ a b c l, P l → P (a :: b :: c :: l)) → ∀ l, P l.
Proof.
  intros H0 H1 H2 H3 l. induction l as [l IH] using (induction_ltof1 _ (@length Z)).
  unfold ltof in IH. destruct l as [|a [|b [|c l]]]; auto.
  apply H3, IH. simpl. lia.
Qed.

#[local] Arguments dec : simpl never.
#[local] Arguments enc : simpl never.

Lemma decode_one a : is_byte a → decode (encode [a]) = Some [a].
Proof.
  intros Ha. pose proof (sextets a a Ha Ha) as Hs. simpl.
  rewrite !dec_enc by lia. simpl. unfold is_byte in Ha.
  do 2 f_equal. Z.to_euclidean_division_equations. lia.
Qed.

Lemma decode_two a b : is_byte a → is_byte b → decode (encode [a; b]) = Some [a; b].
Proof.
  intros Ha Hb. pose proof (sextets a b Ha Hb). pose proof (sextets b b Hb Hb). simpl.
  rewrite !dec_enc by lia. simpl. rewrite enc_not_pad by lia.
  unfold is_byte in *. f_equal. f_equal; [|f_equal];
    Z.to_euclidean_division_equations; lia.
Qed.

Lemma decode_three a b c l : is_byte a → is_byte b → is_byte c →
  decode (encode (a :: b :: c :: l)) = (fun r => a :: b :: c :: r) <$> decode (encode l).
Proof.
  intros Ha Hb Hc. pose proof (sextets a b Ha Hb). pose proof (sextets b c Hb Hc).
  pose proof (sextets c c Hc Hc). rewrite encode_three. simpl.
  rewrite !dec_enc by lia. simpl. rewrite !enc_not_pad by lia.
  destruct (decode (encode l)) as [r|]; [|done]. simpl. unfold is_byte in *.
  f_equal. f_equal; [|f_equal; [|f_equal]]; Z.to_euclidean_division_equations; lia.
Qed.

Lemma decode_encode l : Forall is_byte l → decode (encode l) = Some l.
Proof.
  induction l as [|a|a b|a b c l IH] using three_ind; [done|..]; rewrite !Forall_cons.
  - intros [? _]. by apply decode_one.
  - intros (? & ? & _). by apply decode_two.
  - intros (? & ? & ? & Hl). by rewrite decode_three, (IH Hl).
Qed.

Lemma encode_length l : String.length (encode l) = (4 * ((length l + 2) / 3))%nat.
Proof.
  induction l as [|a|a b|a b c l IH] using three_ind; [done..|].
  rewrite encode_three.
  replace (length (a :: b :: c :: l) + 2)%nat with (length l + 2 + 1 * 3)%nat by (simpl; lia).
  rewrite Nat.div_add by lia. cbn [String.length]. rewrite IH. lia.
Qed.
End Base64.

(** ** util.go *)

(** [defaultString]. *)
Definition defaultString (v d : string) : string := if String.eqb v "" then d else v.

(** [getHash]: the SHA-256 digest of the key's bytes. *)
Definition getHash (key : string) : list Z := Sha256.sum (bytes_of_string key).

(** [getHashUint64Encoding]: binary.BigEndian.Uint64 reads the first eight bytes. *)
Definition getHashUint64Encoding (key : string) : Z := Sha256.be_word (take 8 (getHash key)).

(** [getHashBase64StringEncoding]. *)
Definition getHashBase64StringEncoding (configName : string) : string :=
  Base64.encode (getHash configName).

(** [safeGetFirst]. *)
Definition safeGetFirst (slice : list string) : string := default "" (head slice).

(** [toError]: the message of the error a recovered panic value becomes. *)
Definition toError (err : goPanic) : string :=
  match err with
  | PanicError msg => msg
  | PanicString s => s
  | PanicOther => ""
  end.

(** [getUnixMilli] of a clock reading in nanoseconds. *)
Definition getUnixMilli (unixNano : Z) : Z := go_quot unixNano 1000000.

Lemma getHash_length key : length (getHash key) = 32%nat.
Proof. apply Sha256.sum_length. Qed.
Lemma getHash_bytes key : Forall is_byte (getHash key).
Proof. apply Sha256.sum_bytes. Qed.

Lemma be_word_bound l : Forall is_byte l → 0 ≤ Sha256.be_word l < 256 ^ Z.of_nat (length l).
Proof.
  induction l as [|b l IH] using rev_ind; intros Hl; [done|].
  apply Forall_app in Hl as [Hl Hb]. apply Forall_cons in Hb as [Hb _]. specialize (IH Hl).
  unfold Sha256.be_word in *. rewrite foldl_app, length_app. cbn [foldl length].
  rewrite Nat2Z.inj_add, Z.pow_add_r, Z.pow_1_r by lia.
  unfold is_byte in Hb. lia.
Qed.

Lemma getHashUint64Encoding_range key : in_u64 (getHashUint64Encoding key).
Proof.
  unfold getHashUint64Encoding.
  pose proof (be_word_bound (take 8 (getHash key)) ltac:(apply Forall_take, getHash_bytes)) as H.
  rewrite length_take, getHash_length in H. exact H.
Qed.

#[export] Hint Resolve getHashUint64Encoding_range getHash_bytes : core.

#[global] Arguments getHash : simpl never.
#[global] Arguments getHashUint64Encoding : simpl never.
#[global] Arguments getHashBase64StringEncoding : simpl never.
