(* ===== verification/Types.v ===== *)
(** * types.go, evaluation_details.go, and the structs of store.go, evaluator.go and statsig.go

    The data the SDK passes around, the config and layer objects returned
    to the caller with their typed getters, and the options. *)
From S2P Require Import Prelude GoFloat GoRuntime Hashing.

(** ** Users and events (types.go) *)

Record User := mkUser {
  UserID : string;
  Email : string;
  IpAddress : string;
  UserAgent : string;
  Country : string;
  Locale : string;
  AppVersion : string;
  Custom : GoMap;
  PrivateAttributes : GoMap;
  StatsigEnvironment : gmap string string;
  CustomIDs : gmap string string;
}.

(** The zero value of the struct with an ID. *)
Definition user_with_id (id : string) : User :=
  mkUser id "" "" "" "" "" "" ∅ ∅ ∅ ∅.

Definition set_PrivateAttributes (m : GoMap) (u : User) : User :=
  mkUser (UserID u) (Email u) (IpAddress u) (UserAgent u) (Country u) (Locale u)
    (AppVersion u) (Custom u) m (StatsigEnvironment u) (CustomIDs u).
Definition set_StatsigEnvironment (m : gmap string string) (u : User) : User :=
  mkUser (UserID u) (Email u) (IpAddress u) (UserAgent u) (Country u) (Locale u)
    (AppVersion u) (Custom u) (PrivateAttributes u) m (CustomIDs u).

Record Event := mkEvent {
  ev_EventName : string;
  ev_User : User;
  ev_Value : string;
  ev_Metadata : gmap string string;
  ev_Time : Z;
}.

(** ** Dynamic configs and layers (types.go)

    A nil map is told apart from an empty one: [cb_Value = None] is the nil
    map.  [F] is the type of the closures [LogExposure] may point to. *)

Record configBase (F : Type) := mkConfigBase {
  cb_Name : string;
  cb_Value : option GoMap;
  cb_RuleID : string;
  cb_LogExposure : option F;
}.
Arguments mkConfigBase {F}.
Arguments cb_Name {F}.
Arguments cb_Value {F}.
Arguments cb_RuleID {F}.
Arguments cb_LogExposure {F}.

(** A [DynamicConfig] never carries a closure. *)
Definition DynamicConfig : Type := configBase Empty_set.
Definition zero_DynamicConfig : DynamicConfig := mkConfigBase "" None "" None.

Definition NewConfig (name : string) (value : option GoMap) (ruleID : string) : DynamicConfig :=
  mkConfigBase name (Some (default ∅ value)) ruleID None.

Definition NewLayer {F} (name : string) (value : option GoMap) (ruleID : string)
    (logExposure : option F) : configBase F :=
  mkConfigBase name (Some (default ∅ value)) ruleID logExposure.

(** A call of the exposure closure: the closure and its two arguments. *)
Record exposureCall (F : Type) := mkExposureCall {
  ec_closure : F;
  ec_config : configBase F;
  ec_parameter : string;
}.
Arguments mkExposureCall {F}.
Arguments ec_closure {F}.
Arguments ec_config {F}.
Arguments ec_parameter {F}.

Section getters.
Context {F : Type}.
Implicit Type d : configBase F.

(** [logExposure]: the closure calls it makes. *)
Definition logExposure (c : option (configBase F)) (parameterName : string) :
    list (exposureCall F) :=
  match c with
  | None => []
  | Some c =>
      match cb_LogExposure c with
      | None => []
      | Some l => [mkExposureCall l c parameterName]
      end
  end.

(** A typed getter of types.go: look the key up, select the dynamic type,
    log the exposure and return the value; otherwise the fallback, without
    an exposure. *)
Definition getter {T} (select : GoValue → option T) d (key : string) (fallback : T) :
    T * list (exposureCall F) :=
  match default ∅ (cb_Value d) !! key ≫= select with
  | Some v => (v, logExposure (Some d) key)
  | None => (fallback, [])
  end.

Definition as_string (v : GoValue) : option string :=
  match v with VString s => Some s | _ => None end.
Definition as_float64 (v : GoValue) : option f64 :=
  match v with VFloat64 f => Some f | _ => None end.
Definition as_bool (v : GoValue) : option bool :=
  match v with VBool b => Some b | _ => None end.
Definition as_slice (v : GoValue) : option (list GoValue) :=
  match v with VSlice l => Some l | _ => None end.
Definition as_map (v : GoValue) : option GoMap :=
  match v with VMap m => Some m | _ => None end.

Definition GetString := getter as_string.
Definition GetNumber := getter as_float64.
Definition GetBool := getter as_bool.
Definition GetSlice := getter as_slice.
Definition GetMap := getter as_map.

(** A getter logs an exposure exactly when it returns a stored value of the
    requested type and the object has a closure. *)
Lemma getter_spec {T} (select : GoValue → option T) d key fallback :
  getter select d key fallback =
  match default ∅ (cb_Value d) !! key ≫= select with
  | Some v => (v, logExposure (Some d) key)
  | None => (fallback, [])
  end.
Proof. done. Qed.

Lemma getter_calls_at_most_one {T} (select : GoValue → option T) d key fallback :
  (length (getter select d key fallback).2 ≤ 1)%nat.
Proof. unfold getter, logExposure. split_cases; simpl; lia. Qed.
End getters.

(** ** Raw JSON

    [json.RawMessage] holds the text of a JSON value, or nothing when the
    field was absent.  The model keeps the value the text denotes. *)

Inductive RawMessage :=
| RawAbsent
| RawJson (v : GoValue).

(** [json.Unmarshal(raw, &m)] into a nil [map[string]interface{}]: the map
    and whether there was an error.  A JSON null leaves the map nil. *)
Definition unmarshal_map (raw : RawMessage) : option GoMap * bool :=
  match raw with
  | RawJson (VMap m) => (Some m, false)
  | RawJson VNil => (None, false)
  | RawJson _ | RawAbsent => (None, true)
  end.

(** The idiom [err := json.Unmarshal(raw, &m); if err != nil { m = make(...) }]. *)
Definition unmarshal_or_empty (raw : RawMessage) : option GoMap :=
  let '(m, err) := unmarshal_map raw in if (err : bool) then Some ∅ else m.

(** ** Config specs (store.go) *)

Record configCondition := mkCondition {
  cond_Type : string;
  cond_Operator : string;
  cond_Field : string;
  cond_TargetValue : GoValue;
  cond_AdditionalValues : GoMap;
  cond_IDType : string;
}.

Record configRule := mkRule {
  rule_Name : string;
  rule_ID : string;
  rule_Salt : string;
  rule_PassPercentage : f64;
  rule_Conditions : list configCondition;
  rule_ReturnValue : RawMessage;
  rule_IDType : string;
  rule_ConfigDelegate : string;
  rule_IsExperimentGroup : option bool;
}.

Record configSpec := mkSpec {
  spec_Name : string;
  spec_Type : string;
  spec_Salt : string;
  spec_Enabled : bool;
  spec_Rules : list configRule;
  spec_DefaultValue : RawMessage;
  spec_IDType : string;
  spec_ExplicitParameters : list string;
  spec_Entity : string;
  spec_IsActive : option bool;
  spec_HasSharedParams : option bool;
  spec_TargetAppIDs : list string;
}.

(** The zero value of the struct: what a lookup of an absent key returns. *)
Definition zero_spec : configSpec :=
  mkSpec "" "" "" false [] RawAbsent "" [] "" None None [].

(** [hasTargetAppID]. *)
Fixpoint hasTargetAppID_loop (ids : list string) (appId : string) : bool :=
  match ids with
  | [] => false
  | e :: ids => if String.eqb e appId then true else hasTargetAppID_loop ids appId
  end.
Definition hasTargetAppID (c : configSpec) (appId : string) : bool :=
  if String.eqb appId "" then true else hasTargetAppID_loop (spec_TargetAppIDs c) appId.

Record downloadConfigSpecResponse := mkSpecs {
  HasUpdates : bool;
  Time : Z;
  FeatureGates : list configSpec;
  DynamicConfigs : list configSpec;
  LayerConfigs : list configSpec;
  Layers : gmap string (list string);
  IDLists : gmap string bool;
  DiagnosticsSampleRates : gmap string Z;
  SDKKeysToAppID : gmap string string;
}.

(** An ID list.  [idl_ids = None] is the nil pointer [ids] of a list that
    was never downloaded; the keys of the sync.Map are a set, as every value
    stored is [true]. *)
Record idList := mkIDList {
  idl_Name : string;
  idl_Size : Z;
  idl_CreationTime : Z;
  idl_URL : string;
  idl_FileID : string;
  idl_ids : option (gset string);
}.

(** ** Evaluation details (evaluation_details.go) *)

Inductive evaluationReason :=
| reasonNetwork | reasonBootstrap | reasonLocalOverride
| reasonUnrecognized | reasonUninitialized | reasonDataAdapter.
#[export] Instance evaluationReason_eq_dec : EqDecision evaluationReason.
Proof. solve_decision. Defined.

Definition reason_string (r : evaluationReason) : string :=
  match r with
  | reasonNetwork => "Network"
  | reasonBootstrap => "Bootstrap"
  | reasonLocalOverride => "LocalOverride"
  | reasonUnrecognized => "Unrecognized"
  | reasonUninitialized => "Uninitialized"
  | reasonDataAdapter => "DataAdapter"
  end.

Record evaluationDetails := mkDetails {
  det_reason : evaluationReason;
  det_configSyncTime : Z;
  det_initTime : Z;
  det_serverTime : Z;
}.

(** [newEvaluationDetails] at the clock reading [now] (Unix nanoseconds). *)
Definition newEvaluationDetails (now : Z) (reason : evaluationReason)
    (configSyncTime initTime : Z) : evaluationDetails :=
  mkDetails reason configSyncTime initTime (getUnixMilli now).

(** ** Evaluation results (evaluator.go) *)

Abbreviation exposure := (gmap string string).

Record evalResult := mkResult {
  Pass : bool;
  ConfigValue : DynamicConfig;
  FetchFromServer : bool;
  Id : string;
  SecondaryExposures : list exposure;
  UndelegatedSecondaryExposures : list exposure;
  ConfigDelegate : string;
  ExplicitParameters : gmap string bool;
  EvaluationDetails : option evaluationDetails;
  IsExperimentGroup : option bool;
}.

(** [new(evalResult)]. *)
Definition zero_result : evalResult :=
  mkResult false zero_DynamicConfig false "" [] [] "" ∅ None None.

(** ** Options (statsig.go) *)

Record OutputLoggerOptions := mkOutputLoggerOptions {
  LogCallback : bool;            (* whether a callback is set *)
  EnableDebug : bool;
  olo_DisableInitDiagnostics : bool;
  olo_DisableSyncDiagnostics : bool;
}.

Record StatsigLoggerOptions := mkStatsigLoggerOptions {
  slo_DisableInitDiagnostics : bool;
  slo_DisableSyncDiagnostics : bool;
  slo_DisableApiDiagnostics : bool;
}.

Record Environment := mkEnvironment { Tier : string; Params : gmap string string }.

Record Options := mkOptions {
  API : string;
  opt_Environment : Environment;
  LocalMode : bool;
  ConfigSyncInterval : Z;        (* time.Duration in nanoseconds *)
  IDListSyncInterval : Z;
  LoggingInterval : Z;
  LoggingMaxBufferSize : Z;
  BootstrapValues : string;
  HasRulesUpdatedCallback : bool; (* whether a callback is set *)
  InitTimeout : Z;
  HasDataAdapter : bool;         (* whether a data adapter is set *)
  opt_OutputLoggerOptions : OutputLoggerOptions;
  opt_StatsigLoggerOptions : StatsigLoggerOptions;
}.

Definition default_options : Options :=
  mkOptions "" (mkEnvironment "" ∅) false 0 0 0 0 "" false 0 false
    (mkOutputLoggerOptions false false false false) (mkStatsigLoggerOptions false false false).

(** ** Facts *)

Lemma hasTargetAppID_loop_elem ids appId : hasTargetAppID_loop ids appId = true ↔ appId ∈ ids.
Proof.
  induction ids as [|e ids IH]; simpl; [by split; [done|intros ?%elem_of_nil]|].
  rewrite elem_of_cons. destruct (String.eqb_spec e appId) as [->|Hne]; [naive_solver|].
  rewrite IH. naive_solver.
Qed.

Lemma NewConfig_value_not_nil name value ruleID : is_Some (cb_Value (NewConfig name value ruleID)).
Proof. by eexists. Qed.
