(* ===== verification/Conditions.v ===== *)
(** * evaluator.go, lines 305-326 and 510-769: reading a user and comparing values

    The pure helpers of the evaluator: the unit ID and the pass percentage,
    the fields a condition reads from the user, and the comparisons behind
    the operators. *)
From S2P Require Import Prelude GoFloat GoRuntime Hashing Types.

Section conditions.
Context `{GoRuntime}.

(** ** Units and buckets *)

(** [getUnitID]. *)
Definition getUnitID (user : User) (idType : string) : string :=
  if negb (String.eqb idType "") && negb (String.eqb (strings_ToLower idType) "userid") then
    match CustomIDs user !! idType with
    | Some val => val
    | None =>
        match CustomIDs user !! strings_ToLower idType with
        | Some val => val
        | None => ""
        end
    end
  else UserID user.

(** The bucket of [evalPassPercent]: [hash % 10000]. *)
Definition passBucket (user : User) (rule : configRule) (spec : configSpec) : Z :=
  let ruleSalt := if String.eqb (rule_Salt rule) "" then rule_ID rule else rule_Salt rule in
  let hash := getHashUint64Encoding
    (spec_Salt spec +:+ "." +:+ ruleSalt +:+ "." +:+ getUnitID user (rule_IDType rule))%string in
  hash mod 10000.

(** [float64(bucket) < percentage * 100]. *)
Definition passThreshold (bucket : Z) (percentage : f64) : bool :=
  f64_lt (f64_of_Z bucket) (f64_mul percentage (f64_of_Z 100)).

(** [evalPassPercent]. *)
Definition evalPassPercent (user : User) (rule : configRule) (spec : configSpec) : bool :=
  passThreshold (passBucket user rule spec) (rule_PassPercentage rule).

(** ** Fields of the user *)

(** [getFromUser]. *)
Definition getFromUser (user : User) (field : string) : GoValue :=
  let lower := strings_ToLower field in
  let value :=
    if bool_decide (lower ∈ ["userid"; "user_id"]) then VString (UserID user)
    else if bool_decide (lower ∈ ["email"]) then VString (Email user)
    else if bool_decide (lower ∈ ["ip"; "ipaddress"; "ip_address"]) then VString (IpAddress user)
    else if bool_decide (lower ∈ ["useragent"; "user_agent"]) then
      if negb (String.eqb (UserAgent user) "") then VString (UserAgent user) else VNil
    else if bool_decide (lower ∈ ["country"]) then VString (Country user)
    else if bool_decide (lower ∈ ["locale"]) then VString (Locale user)
    else if bool_decide (lower ∈ ["appversion"; "app_version"]) then VString (AppVersion user)
    else VNil in
  if eq_string value "" || is_nil value then
    match Custom user !! field with
    | Some customValue => customValue
    | None =>
        match Custom user !! lower with
        | Some customValue => customValue
        | None =>
            match PrivateAttributes user !! field with
            | Some privateValue => privateValue
            | None =>
                match PrivateAttributes user !! lower with
                | Some privateValue => privateValue
                | None => value
                end
            end
        end
    end
  else value.

(** [getFromEnvironment]: the lower-cased key overrides the exact one. *)
Definition getFromEnvironment (user : User) (field : string) : string :=
  let value := default "" (StatsigEnvironment user !! field) in
  default value (StatsigEnvironment user !! strings_ToLower field).

(** [removeEmptyStrings]. *)
Fixpoint removeEmptyStrings (s : list string) : list string :=
  match s with
  | [] => []
  | str :: s =>
      if negb (String.eqb str "") then str :: removeEmptyStrings s else removeEmptyStrings s
  end.

(** [getFromUserAgent]. *)
Definition getFromUserAgent (user : User) (field : string) : string :=
  match getFromUser user "useragent" with
  | VString uaStr =>
      let client := rt_ua_parse uaStr in
      let os := ua_Os client in
      let ua := ua_UserAgent client in
      let lower := strings_ToLower field in
      if bool_decide (lower ∈ ["os_name"; "osname"]) then os_Family os
      else if bool_decide (lower ∈ ["os_version"; "osversion"]) then
        strings_Join (removeEmptyStrings [os_Major os; os_Minor os; os_Patch os; os_PatchMinor os]) "."
      else if bool_decide (lower ∈ ["browser_name"; "browsername"]) then ua_Family ua
      else if bool_decide (lower ∈ ["browser_version"; "browserversion"]) then
        strings_Join (removeEmptyStrings [ua_Major ua; ua_Minor ua; ua_Patch ua]) "."
      else ""
  | _ => ""
  end.

(** [getFromIP]. *)
Definition getFromIP (user : User) (field : string) : string :=
  if negb (String.eqb (strings_ToLower field) "country") then ""
  else match getFromUser user "ip" with
       | VString ipStr => default "" (rt_lookup_ip ipStr)
       | _ => ""
       end.

(** ** Comparisons *)

(** [getNumericValue]. *)
Definition getNumericValue (a : GoValue) : option f64 :=
  match a with
  | VInt z | VInt32 z | VInt64 z | VUint64 z => Some (f64_of_Z z)
  | VFloat32 f | VFloat64 f => Some f
  | VString s => strconv_ParseFloat s
  | _ => None
  end.

(** [toString]. *)
Definition toString (a : GoValue) : string :=
  match a with VString s => s | _ => "" end.

(** [compareNumbers]. *)
Definition compareNumbers (a b : GoValue) (fn : f64 → f64 → bool) : bool :=
  match getNumericValue a, getNumericValue b with
  | Some numA, Some numB => fn numA numB
  | _, _ => false
  end.

(** The text of a non-nil value in [compareStrings]. *)
Definition compare_text (v : GoValue) : string :=
  if is_string_kind v then toString v else sprint_v v.

(** [compareStrings]. *)
Definition compareStrings (s1 s2 : GoValue) (ignoreCase : bool) (fn : string → string → bool) : bool :=
  if is_nil s1 || is_nil s2 then false
  else
    let str1 := compare_text s1 in
    let str2 := compare_text s2 in
    if ignoreCase then fn (strings_ToLower str1) (strings_ToLower str2) else fn str1 str2.

(** [maxInt]. *)
Definition maxInt (x y : Z) : Z := if y <? x then x else y.

(** One part of a version, "0" past the end. *)
Definition version_part (parts : list string) (i : Z) : string :=
  if Z.of_nat (length parts) <=? i then "0" else nth (Z.to_nat i) parts "".

(** The loop of [compareVersionsHelper], from index [i], [n] steps before
    the loop condition fails. *)
Fixpoint compareVersions_loop (n : nat) (i : Z) (v1Parts v2Parts : list string) : Z :=
  match n with
  | O => 0
  | S n =>
      let n1 := parse_value (strconv_ParseInt (version_part v1Parts i)) in
      let n2 := parse_value (strconv_ParseInt (version_part v2Parts i)) in
      if n1 <? n2 then -1
      else if n2 <? n1 then 1
      else compareVersions_loop n (i + 1) v1Parts v2Parts
  end.

(** [compareVersionsHelper]. *)
Definition compareVersionsHelper (v1 v2 : string) : Z :=
  let v1Parts := strings_Split v1 "." in
  let v2Parts := strings_Split v2 "." in
  let bound := maxInt (Z.of_nat (length v1Parts)) (Z.of_nat (length v2Parts)) in
  compareVersions_loop (Z.to_nat bound) 0 v1Parts v2Parts.

(** [compareVersions]. *)
Definition compareVersions (a b : GoValue) (fn : string → string → bool) : bool :=
  match a, b with
  | VString strA, VString strB =>
      let v1 := default "" (head (strings_Split strA "-")) in
      let v2 := default "" (head (strings_Split strB "-")) in
      if String.eqb v1 "" || String.eqb v2 "" then false else fn v1 v2
  | _, _ => false
  end.

(** [arrayAny]. *)
Fixpoint arrayAny_loop (array : list GoValue) (val : GoValue) (fn : GoValue → GoValue → bool) : bool :=
  match array with
  | [] => false
  | arrVal :: array => if fn val arrVal then true else arrayAny_loop array val fn
  end.
Definition arrayAny (arr val : GoValue) (fn : GoValue → GoValue → bool) : bool :=
  match arr with
  | VSlice array => arrayAny_loop array val fn
  | _ => false
  end.

(** [getUnixTimestamp]. *)
Definition getUnixTimestamp (v : GoValue) : Z :=
  match v with
  | VFloat64 f => f64_to_int64 f
  | VInt64 z | VInt32 z | VInt z => z
  | _ => 0
  end.

(** The seconds-or-milliseconds heuristic of [getTime] on a timestamp: a
    date more than a hundred years ahead is read as milliseconds. *)
Definition time_of_timestamp (now : Z) (ts : Z) : goTime :=
  let t_sec := time_Unix ts in
  if time_Year (time_Unix (now / 1000000000)) + 100 <? time_Year t_sec
  then time_Unix (go_quot ts 1000) else t_sec.

(** [getTime] at the clock reading [now] (Unix nanoseconds). *)
Definition getTime (now : Z) (a : GoValue) : goTime :=
  match a with
  | VFloat64 _ | VInt64 _ | VInt32 _ | VInt _ => time_of_timestamp now (getUnixTimestamp a)
  | VString v =>
      match time_ParseRFC3339 v with
      | Some t => t
      | None =>
          match strconv_ParseInt v with
          | ParseOk vInt => time_of_timestamp now vInt
          | _ => time_zero
          end
      end
  | _ => time_zero
  end.

(** ** The pass percentage *)

Lemma passBucket_range user rule spec : 0 ≤ passBucket user rule spec < 10000.
Proof. unfold passBucket. apply Z.mod_pos_bound. lia. Qed.

(** ** Arrays *)

Lemma arrayAny_loop_existsb l v fn : arrayAny_loop l v fn = existsb (fn v) l.
Proof. induction l as [|x l IH]; [done|]. simpl. rewrite <- IH. by destruct (fn v x). Qed.

Lemma arrayAny_true arr v fn :
  arrayAny arr v fn = true ↔ ∃ l x, arr = VSlice l ∧ x ∈ l ∧ fn v x = true.
Proof.
  unfold arrayAny. destruct arr; try (split; [done|naive_solver]).
  rewrite arrayAny_loop_existsb, existsb_exists. setoid_rewrite <- list_elem_of_In.
  naive_solver.
Qed.

(** ** Versions *)

(** The reference order: versions are infinite sequences of numbers, zero
    past the end, compared lexicographically over the first [n] places. *)
Definition version_number (v : string) (i : nat) : Z :=
  parse_value (strconv_ParseInt (nth i (strings_Split v ".") "0")).
Fixpoint lex_compare (n : nat) (f g : nat → Z) : Z :=
  match n with
  | O => 0
  | S n =>
      match f O ?= g O with
      | Lt => -1
      | Gt => 1
      | Eq => lex_compare n (fun i => f (S i)) (fun i => g (S i))
      end
  end.

Lemma version_part_nth parts (i : nat) : version_part parts (Z.of_nat i) = nth i parts "0".
Proof.
  unfold version_part. destruct (Z.leb_spec (Z.of_nat (length parts)) (Z.of_nat i)).
  - rewrite nth_overflow; [done|lia].
  - rewrite Nat2Z.id. apply nth_indep. lia.
Qed.

Lemma lex_compare_ext n f f' g g' :
  (∀ i, f i = f' i) → (∀ i, g i = g' i) → lex_compare n f g = lex_compare n f' g'.
Proof.
  revert f f' g g'. induction n as [|n IH]; intros f f' g g' Hf Hg; [done|]. simpl.
  rewrite Hf, Hg. case_match; [|done..]. apply IH; intros; [apply Hf|apply Hg].
Qed.

Lemma compareVersions_loop_lex n i p q :
  compareVersions_loop n (Z.of_nat i) p q =
  lex_compare n (fun j => parse_value (strconv_ParseInt (nth (i + j) p "0")))
                (fun j => parse_value (strconv_ParseInt (nth (i + j) q "0"))).
Proof.
  revert i. induction n as [|n IH]; intros i; [done|].
  cbn [compareVersions_loop lex_compare].
  rewrite !version_part_nth, Nat.add_0_r.
  set (a := parse_value (strconv_ParseInt (nth i p "0"))).
  set (b := parse_value (strconv_ParseInt (nth i q "0"))).
  replace (Z.of_nat i + 1) with (Z.of_nat (S i)) by lia. rewrite IH.
  destruct (Z.compare_spec a b), (Z.ltb_spec a b), (Z.ltb_spec b a); try lia.
  apply lex_compare_ext; intros j; by rewrite Nat.add_succ_r.
Qed.

(** Places where both sequences agree do not matter at the end. *)
Lemma lex_compare_stable n m f g :
  (n ≤ m)%nat → (∀ i, (n ≤ i)%nat → f i = g i) → lex_compare m f g = lex_compare n f g.
Proof.
  revert m f g. induction n as [|n IH]; intros m f g Hle Heq.
  - clear Hle. revert f g Heq. induction m as [|m IHm]; intros f g Heq; [done|]. simpl.
    rewrite Heq, Z.compare_refl by lia. apply IHm. intros. apply Heq. lia.
  - destruct m as [|m]; [lia|]. simpl. case_match; [|done..].
    apply IH; [lia|]. intros. apply Heq. lia.
Qed.

Lemma lex_compare_refl n f : lex_compare n f f = 0.
Proof. revert f. induction n as [|n IH]; intros f; [done|]. simpl. by rewrite Z.compare_refl, IH. Qed.

Lemma lex_compare_antisym n f g : lex_compare n g f = - lex_compare n f g.
Proof.
  revert f g. induction n as [|n IH]; intros f g; [done|]. simpl.
  rewrite (Z.compare_antisym (f O) (g O)). destruct (f O ?= g O); simpl; [apply IH|done..].
Qed.

Lemma lex_compare_trans n f g h :
  lex_compare n f g ≤ 0 → lex_compare n g h ≤ 0 → lex_compare n f h ≤ 0.
Proof.
  revert f g h. induction n as [|n IH]; intros f g h; [done|]. simpl.
  destruct (Z.compare_spec (f O) (g O)), (Z.compare_spec (g O) (h O)),
    (Z.compare_spec (f O) (h O)); try lia. apply IH.
Qed.

Lemma lex_compare_zero n f g :
  lex_compare n f g = 0 ↔ ∀ i, (i < n)%nat → f i = g i.
Proof.
  revert f g. induction n as [|n IH]; intros f g; simpl; [split; [lia|done]|].
  destruct (Z.compare_spec (f O) (g O)) as [E|E|E].
  - rewrite IH. split.
    + intros Heq [|i] Hi; [done|]. apply Heq. lia.
    + intros Heq i Hi. apply Heq. lia.
  - split; [lia|]. intros Heq. specialize (Heq O). lia.
  - split; [lia|]. intros Heq. specialize (Heq O). lia.
Qed.

(** The number of parts of a version. *)
Definition version_length (v : string) : nat := length (strings_Split v ".").

Lemma version_number_beyond v i : (version_length v ≤ i)%nat → version_number v i = 0.
Proof. intros Hi. unfold version_number. by rewrite nth_overflow. Qed.

Lemma compareVersionsHelper_lex v w n :
  (version_length v ≤ n)%nat → (version_length w ≤ n)%nat →
  compareVersionsHelper v w = lex_compare n (version_number v) (version_number w).
Proof.
  intros Hv Hw. unfold compareVersionsHelper, maxInt.
  set (m := Nat.max (version_length v) (version_length w)).
  replace (Z.to_nat _) with m.
  2: { unfold m, version_length. destruct (Z.ltb_spec (Z.of_nat (length (strings_Split w ".")))
         (Z.of_nat (length (strings_Split v ".")))); lia. }
  rewrite (compareVersions_loop_lex m 0).
  symmetry. apply lex_compare_stable; [unfold m; lia|].
  intros i Hi. pose proof (version_number_beyond v i) as H1.
  pose proof (version_number_beyond w i) as H2. unfold version_number in H1, H2.
  simpl. rewrite H1, H2 by (unfold m in Hi; lia). done.
Qed.
End conditions.

#[global] Arguments getTime {_} _ _ : simpl never.
#[global] Arguments compareVersionsHelper : simpl never.
