(* ===== verification/Evaluator.v ===== *)
(** * evaluator.go: gates, configs and layers

    The evaluator reads the config specs through the interface [SpecStore]
    (implemented by [Store]) and its own override maps.  The functions
    [evalGate], [eval], [evalRule], [evalCondition] and [evalDelegate] call
    each other with a growing depth; each is translated on its own, taking
    [evalF] for the recursive calls of [eval], and [eval] ties the knot on
    fuel.  The depth limit of the code bounds the fuel it needs. *)
From S2P Require Import Prelude GoFloat GoRuntime Hashing Types Conditions.

(** ** What the evaluator needs from the store *)

Class SpecStore (S : Type) := {
  getGate : S → string → option configSpec;
  getDynamicConfig : S → string → option configSpec;
  getLayerConfig : S → string → option configSpec;
  getExperimentLayer : S → string → option string;
  getAppIDForSDKKey : S → string → option string;
  getIDList : S → string → option idList;
  initReason : S → evaluationReason;
  lastSyncTime : S → Z;
  initialSyncTime : S → Z;
}.

(** ** The evaluator's own state *)

Record overrides := mkOverrides {
  gateOverrides : gmap string bool;
  configOverrides : gmap string (option GoMap);
  layerOverrides : gmap string (option GoMap);
}.
Definition no_overrides : overrides := mkOverrides ∅ ∅ ∅.

(** [OverrideGate], [OverrideConfig], [OverrideLayer]. *)
Definition OverrideGate (gate : string) (val : bool) (e : overrides) : overrides :=
  mkOverrides (<[gate := val]> (gateOverrides e)) (configOverrides e) (layerOverrides e).
Definition OverrideConfig (config : string) (val : option GoMap) (e : overrides) : overrides :=
  mkOverrides (gateOverrides e) (<[config := val]> (configOverrides e)) (layerOverrides e).
Definition OverrideLayer (layer : string) (val : option GoMap) (e : overrides) : overrides :=
  mkOverrides (gateOverrides e) (configOverrides e) (<[layer := val]> (layerOverrides e)).

(** [getGateOverride], [getConfigOverride], [getLayerOverride]. *)
Definition getGateOverride (e : overrides) (name : string) : option bool := gateOverrides e !! name.
Definition getConfigOverride (e : overrides) (name : string) : option (option GoMap) :=
  configOverrides e !! name.
Definition getLayerOverride (e : overrides) (name : string) : option (option GoMap) :=
  layerOverrides e !! name.

(** ** The two switches of [evalCondition] *)

Inductive condType :=
| CtPublic | CtFailGate | CtPassGate | CtIpBased | CtUaBased | CtUserField
| CtEnvironmentField | CtCurrentTime | CtUserBucket | CtUnitId | CtUnknown.

Inductive condOperator :=
| OpGt | OpGte | OpLt | OpLte
| OpVersionGt | OpVersionGte | OpVersionLt | OpVersionLte | OpVersionEq | OpVersionNeq
| OpAny | OpNone | OpAnyCaseSensitive | OpNoneCaseSensitive
| OpStrStartsWithAny | OpStrEndsWithAny | OpStrContainsAny | OpStrContainsNone | OpStrMatches
| OpEq | OpNeq | OpBefore | OpAfter | OpOn | OpInSegmentList | OpNotInSegmentList | OpUnknown.

#[export] Instance condType_eq_dec : EqDecision condType.
Proof. solve_decision. Defined.
#[export] Instance condOperator_eq_dec : EqDecision condOperator.
Proof. solve_decision. Defined.

Fixpoint switch_on {A} (key : string) (cases : list (string * A)) (dflt : A) : A :=
  match cases with
  | [] => dflt
  | (k, a) :: cases => if String.eqb key k then a else switch_on key cases dflt
  end.

Definition condType_of (name : string) : condType :=
  switch_on name
    [("public", CtPublic); ("fail_gate", CtFailGate); ("pass_gate", CtPassGate);
     ("ip_based", CtIpBased); ("ua_based", CtUaBased); ("user_field", CtUserField);
     ("environment_field", CtEnvironmentField); ("current_time", CtCurrentTime);
     ("user_bucket", CtUserBucket); ("unit_id", CtUnitId)] CtUnknown.

Definition condOperator_of (op : string) : condOperator :=
  switch_on op
    [("gt", OpGt); ("gte", OpGte); ("lt", OpLt); ("lte", OpLte);
     ("version_gt", OpVersionGt); ("version_gte", OpVersionGte); ("version_lt", OpVersionLt);
     ("version_lte", OpVersionLte); ("version_eq", OpVersionEq); ("version_neq", OpVersionNeq);
     ("any", OpAny); ("none", OpNone); ("any_case_sensitive", OpAnyCaseSensitive);
     ("none_case_sensitive", OpNoneCaseSensitive);
     ("str_starts_with_any", OpStrStartsWithAny); ("str_ends_with_any", OpStrEndsWithAny);
     ("str_contains_any", OpStrContainsAny); ("str_contains_none", OpStrContainsNone);
     ("str_matches", OpStrMatches); ("eq", OpEq); ("neq", OpNeq);
     ("before", OpBefore); ("after", OpAfter); ("on", OpOn);
     ("in_segment_list", OpInSegmentList); ("not_in_segment_list", OpNotInSegmentList)] OpUnknown.

(** ** Results *)

(** [&evalResult{Pass: pass, FetchFromServer: fetch}]. *)
Definition condition_result (pass fetch : bool) : evalResult :=
  mkResult pass zero_DynamicConfig fetch "" [] [] "" ∅ None None.
Definition exposure_result (pass : bool) (exposures : list exposure) : evalResult :=
  mkResult pass zero_DynamicConfig false "" exposures [] "" ∅ None None.

Definition set_delegate (delegate : string) (secondary undelegated : list exposure)
    (params : gmap string bool) (r : evalResult) : evalResult :=
  mkResult (Pass r) (ConfigValue r) (FetchFromServer r) (Id r) secondary undelegated
    delegate params (EvaluationDetails r) (IsExperimentGroup r).

Definition gate_exposure (gate : string) (value : bool) (ruleID : string) : exposure :=
  <["gate" := gate]> (<["gateValue" := strconv_FormatBool value]> (<["ruleID" := ruleID]> ∅)).

Definition dynamicConfigType : string := "dynamic_config".
Definition maxRecursiveDepth : nat := 300.
Definition depth_exceeded : goPanic := PanicError "Statsig Evaluation Depth Exceeded".

Section evaluator.
Context `{GoRuntime} {S : Type} `{SpecStore S}.
(** The store and overrides read by one evaluation, the clock reading (Unix
    nanoseconds) it sees, and the user. *)
Context (s : S) (ov : overrides) (now : Z) (user : User).

(** [createEvaluationDetails]. *)
Definition createEvaluationDetails (reason : evaluationReason) : evaluationDetails :=
  newEvaluationDetails now reason (lastSyncTime s) (initialSyncTime s).

(** ** Conditions *)

(** The value a condition compares: the first switch of [evalCondition],
    for the types that fall through to the second. *)
Definition conditionValue (ct : condType) (cond : configCondition) : GoValue :=
  match ct with
  | CtIpBased =>
      let value := getFromUser user (cond_Field cond) in
      if is_nil value || eq_string value "" then VString (getFromIP user (cond_Field cond))
      else value
  | CtUaBased =>
      let value := getFromUser user (cond_Field cond) in
      if is_nil value || eq_string value "" then VString (getFromUserAgent user (cond_Field cond))
      else value
  | CtUserField => getFromUser user (cond_Field cond)
  | CtEnvironmentField => VString (getFromEnvironment user (cond_Field cond))
  | CtCurrentTime => VInt64 (now / 1000000000)
  | CtUserBucket =>
      match cond_AdditionalValues cond !! "salt" with
      | Some salt =>
          VInt64 (wrap_i64 (getHashUint64Encoding
            (sprint_s salt +:+ "." +:+ getUnitID user (cond_IDType cond))%string mod 1000))
      | None => VNil
      end
  | CtUnitId => VString (getUnitID user (cond_IDType cond))
  | _ => VNil
  end.

(** The membership test of [in_segment_list]: [reflect.TypeOf] of a nil
    interface has no methods to call, and a list that was never downloaded
    has a nil [ids]. *)
Definition inSegmentList (target value : GoValue) : outcome bool :=
  match target with
  | VNil => Panic nil_dereference
  | VString name =>
      match value with
      | VNil => Panic nil_dereference
      | VString v =>
          match getIDList s name with
          | None => Ret false
          | Some list =>
              match idl_ids list with
              | None => Panic nil_dereference
              | Some ids =>
                  Ret (bool_decide (String.substring 0 8 (getHashBase64StringEncoding v) ∈ ids))
              end
          end
      | _ => Ret false
      end
  | _ => Ret false
  end.

(** The equality of [eq] and [neq]. *)
Definition strictEqual (target value : GoValue) : bool :=
  if is_nil target then is_nil value || eq_string value "" else deep_equal value target.

(** The second switch of [evalCondition]: [pass] and [server]. *)
Definition evalOperator (op : condOperator) (target value : GoValue) : outcome (bool * bool) :=
  let done (pass : bool) := Ret (pass, false) in
  match op with
  | OpGt => done (compareNumbers value target (fun x y => f64_lt y x))
  | OpGte => done (compareNumbers value target (fun x y => f64_le y x))
  | OpLt => done (compareNumbers value target (fun x y => f64_lt x y))
  | OpLte => done (compareNumbers value target (fun x y => f64_le x y))
  | OpVersionGt => done (compareVersions value target (fun x y => 0 <? compareVersionsHelper x y))
  | OpVersionGte => done (compareVersions value target (fun x y => 0 <=? compareVersionsHelper x y))
  | OpVersionLt => done (compareVersions value target (fun x y => compareVersionsHelper x y <? 0))
  | OpVersionLte => done (compareVersions value target (fun x y => compareVersionsHelper x y <=? 0))
  | OpVersionEq => done (compareVersions value target (fun x y => compareVersionsHelper x y =? 0))
  | OpVersionNeq =>
      done (compareVersions value target (fun x y => negb (compareVersionsHelper x y =? 0)))
  | OpAny => done (arrayAny target value (fun x y => compareStrings x y true String.eqb))
  | OpNone => done (negb (arrayAny target value (fun x y => compareStrings x y true String.eqb)))
  | OpAnyCaseSensitive =>
      done (arrayAny target value (fun x y => compareStrings x y false String.eqb))
  | OpNoneCaseSensitive =>
      done (negb (arrayAny target value (fun x y => compareStrings x y false String.eqb)))
  | OpStrStartsWithAny =>
      done (arrayAny target value (fun x y => compareStrings x y true strings_HasPrefix))
  | OpStrEndsWithAny =>
      done (arrayAny target value (fun x y => compareStrings x y true strings_HasSuffix))
  | OpStrContainsAny =>
      done (arrayAny target value (fun x y => compareStrings x y true strings_Contains))
  | OpStrContainsNone =>
      done (negb (arrayAny target value (fun x y => compareStrings x y true strings_Contains)))
  | OpStrMatches =>
      if is_nil target || is_nil value then done (is_nil target && is_nil value)
      else done (rt_regexp_match (toString target) (toString value))
  | OpEq => done (strictEqual target value)
  | OpNeq => done (negb (strictEqual target value))
  | OpBefore => done (time_Before (getTime now value) (getTime now target))
  | OpAfter => done (time_After (getTime now value) (getTime now target))
  | OpOn =>
      done (bool_decide (time_Date (getTime now value) = time_Date (getTime now target)))
  | OpInSegmentList => inlist ← inSegmentList target value; done inlist
  | OpNotInSegmentList => inlist ← inSegmentList target value; done (negb inlist)
  | OpUnknown => Ret (false, true)
  end.

(** ** Gates, rules and specs, over the recursive evaluation [evalF] *)

Section open_recursion.
Context (evalF : configSpec → nat → outcome evalResult).

(** [evalGate]. *)
Definition evalGate (gateName : string) (depth : nat) : outcome evalResult :=
  match getGateOverride ov gateName with
  | Some gateOverride =>
      Ret (mkResult gateOverride zero_DynamicConfig false "override" [] [] "" ∅
             (Some (createEvaluationDetails reasonLocalOverride)) None)
  | None =>
      match getGate s gateName with
      | Some gate => evalF gate (depth + 1)
      | None =>
          Ret (mkResult false zero_DynamicConfig false "" [] [] "" ∅
                 (Some (createEvaluationDetails reasonUnrecognized)) None)
      end
  end.

(** [evalConfig] and [evalLayer] differ in the maps they read. *)
Definition evalNamedConfig (override : option (option GoMap)) (found : option configSpec)
    (configName : string) (depth : nat) : outcome evalResult :=
  match override with
  | Some configOverride =>
      Ret (mkResult true (NewConfig configName configOverride "override") false "override"
             [] [] "" ∅ (Some (createEvaluationDetails reasonLocalOverride)) None)
  | None =>
      match found with
      | Some config => evalF config (depth + 1)
      | None =>
          Ret (mkResult false zero_DynamicConfig false "" [] [] "" ∅
                 (Some (createEvaluationDetails reasonUnrecognized)) None)
      end
  end.
Definition evalConfig (configName : string) (depth : nat) : outcome evalResult :=
  evalNamedConfig (getConfigOverride ov configName) (getDynamicConfig s configName)
    configName depth.
Definition evalLayer (name : string) (depth : nat) : outcome evalResult :=
  evalNamedConfig (getLayerOverride ov name) (getLayerConfig s name) name depth.

(** The [fail_gate] and [pass_gate] case of [evalCondition]. *)
Definition evalGateCondition (pass_gate : bool) (cond : configCondition) (depth : nat) :
    outcome evalResult :=
  match cond_TargetValue cond with
  | VString dependentGateName =>
      result ← evalGate dependentGateName (depth + 1);
      if FetchFromServer result then Ret (condition_result false true)
      else
        let newExposure := gate_exposure dependentGateName (Pass result) (Id result) in
        let allExposures := SecondaryExposures result ++ [newExposure] in
        Ret (exposure_result (if pass_gate then Pass result else negb (Pass result)) allExposures)
  | _ => Ret (condition_result false false)
  end.

(** [evalCondition]. *)
Definition evalCondition (cond : configCondition) (depth : nat) : outcome evalResult :=
  let op := condOperator_of (strings_ToLower (cond_Operator cond)) in
  match condType_of (strings_ToLower (cond_Type cond)) with
  | CtPublic => Ret (condition_result true false)
  | CtFailGate => evalGateCondition false cond depth
  | CtPassGate => evalGateCondition true cond depth
  | CtUnknown => Ret (condition_result false true)
  | ct =>
      '(pass, server) ← evalOperator op (cond_TargetValue cond) (conditionValue ct cond);
      Ret (condition_result pass server)
  end.

(** The loop of [evalRule] over the conditions: every condition is
    evaluated, also after one has failed. *)
Fixpoint evalConditions (conds : list configCondition) (depth : nat)
    (pass fetch : bool) (exposures : list exposure) : outcome evalResult :=
  match conds with
  | [] => Ret (mkResult pass zero_DynamicConfig fetch "" exposures [] "" ∅ None None)
  | cond :: conds =>
      res ← evalCondition cond (depth + 1);
      evalConditions conds depth (pass && Pass res) (fetch || FetchFromServer res)
        (exposures ++ SecondaryExposures res)
  end.

(** [evalRule]. *)
Definition evalRule (rule : configRule) (depth : nat) : outcome evalResult :=
  evalConditions (rule_Conditions rule) depth true false [].

(** [evalDelegate]; None is the nil result. *)
Definition evalDelegate (rule : configRule) (exposures : list exposure) (depth : nat) :
    outcome (option evalResult) :=
  match getDynamicConfig s (rule_ConfigDelegate rule) with
  | None => Ret None
  | Some config =>
      result ← evalF config (depth + 1);
      let explicitParams := foldl (fun m p => <[p := true]> m) ∅ (spec_ExplicitParameters config) in
      Ret (Some (set_delegate (rule_ConfigDelegate rule)
                   (exposures ++ SecondaryExposures result) exposures explicitParams result))
  end.

Definition isDynamicConfig (spec : configSpec) : bool :=
  String.eqb (strings_ToLower (spec_Type spec)) dynamicConfigType.

(** The default value of a dynamic config; nil for a gate. *)
Definition defaultConfigValue (spec : configSpec) : option GoMap :=
  if isDynamicConfig spec then unmarshal_or_empty (spec_DefaultValue spec) else None.

(** The result of a matching rule that delegates to no config. *)
Definition ruleResult (spec : configSpec) (rule : configRule) (exposures : list exposure) :
    evalResult :=
  let evalDetails := createEvaluationDetails (initReason s) in
  let pass := evalPassPercent user rule spec in
  if isDynamicConfig spec then
    let configValue := if pass then unmarshal_or_empty (rule_ReturnValue rule)
                       else defaultConfigValue spec in
    mkResult pass (NewConfig (spec_Name spec) configValue (rule_ID rule)) false (rule_ID rule)
      exposures exposures "" ∅ (Some evalDetails) (rule_IsExperimentGroup rule)
  else
    mkResult pass zero_DynamicConfig false (rule_ID rule) exposures [] "" ∅
      (Some evalDetails) None.

(** The result when no rule matches. *)
Definition defaultResult (spec : configSpec) (defaultRuleID : string) (exposures : list exposure) :
    evalResult :=
  if isDynamicConfig spec then
    mkResult false (NewConfig (spec_Name spec) (defaultConfigValue spec) defaultRuleID) false
      defaultRuleID exposures exposures "" ∅
      (Some (createEvaluationDetails (initReason s))) None
  else
    mkResult false zero_DynamicConfig false defaultRuleID exposures [] "" ∅ None None.

(** The loop of [eval] over the rules, with its early returns. *)
Fixpoint evalRules (spec : configSpec) (rules : list configRule) (depth : nat)
    (exposures : list exposure) : outcome evalResult :=
  match rules with
  | [] => Ret (defaultResult spec "default" exposures)
  | rule :: rules =>
      r ← evalRule rule (depth + 1);
      if FetchFromServer r then Ret r
      else
        let exposures := exposures ++ SecondaryExposures r in
        if Pass r then
          delegatedResult ← evalDelegate rule exposures (depth + 1);
          match delegatedResult with
          | Some delegatedResult => Ret delegatedResult
          | None => Ret (ruleResult spec rule exposures)
          end
        else evalRules spec rules depth exposures
  end.

(** The body of [eval]. *)
Definition evalBody (spec : configSpec) (depth : nat) : outcome evalResult :=
  if (maxRecursiveDepth <? depth)%nat then Panic depth_exceeded
  else if spec_Enabled spec then evalRules spec (spec_Rules spec) depth []
  else Ret (defaultResult spec "disabled" []).
End open_recursion.

(** [eval], on fuel. *)
Fixpoint eval (fuel : nat) (spec : configSpec) (depth : nat) : outcome evalResult :=
  match fuel with
  | O => OutOfFuel
  | Datatypes.S fuel => evalBody (eval fuel) spec depth
  end.

(** Enough fuel for an evaluation that starts at any depth. *)
Definition eval_fuel : nat := maxRecursiveDepth + 2.

(** The entry points [checkGate], [getConfig] and [getLayer]. *)
Definition checkGate (gateName : string) : outcome evalResult := evalGate (eval eval_fuel) gateName 0.
Definition getConfig (configName : string) : outcome evalResult := evalConfig (eval eval_fuel) configName 0.
Definition getLayer (name : string) : outcome evalResult := evalLayer (eval eval_fuel) name 0.
End evaluator.
