(* ===== verification/Examples.v ===== *)
(** * Concrete instances

    A runtime with simple choices for the parameters, a store made of maps,
    and builders of specs: the closed terms on which theorems are applied
    and definitions evaluated. *)
From S2P Require Import Prelude GoFloat GoRuntime Hashing Types Conditions Evaluator.

(** ** A runtime *)

Definition example_ua : uaClient :=
  mkUaClient (mkUaOs "Mac OS X" "10" "15" "" "") (mkUaUserAgent "Chrome" "96" "0" "").

Definition example_runtime : GoRuntime := {|
  rt_unicode_lower := fun s => s;
  rt_unicode_trim := fun s => s;
  rt_regexp_match := fun p s => String.eqb p s;
  rt_local_offset := fun _ => 0;
  rt_float_to_int64 := fun _ => - two63;
  rt_lookup_ip := fun ip => if String.eqb ip "1.2.3.4" then Some "US" else None;
  rt_ua_parse := fun _ => example_ua;
|}.

(** ** A store made of maps *)

Record specMaps := mkSpecMaps {
  sm_gates : gmap string configSpec;
  sm_configs : gmap string configSpec;
  sm_layers : gmap string configSpec;
  sm_lists : gmap string idList;
}.

#[export] Instance specMaps_store : SpecStore specMaps := {|
  getGate s n := sm_gates s !! n;
  getDynamicConfig s n := sm_configs s !! n;
  getLayerConfig s n := sm_layers s !! n;
  getExperimentLayer s n := None;
  getAppIDForSDKKey s n := None;
  getIDList s n := sm_lists s !! n;
  initReason s := reasonNetwork;
  lastSyncTime s := 1631638014811;
  initialSyncTime s := 1631638014811;
|}.

(** ** Builders *)

Definition condition (type op field : string) (target : GoValue) : configCondition :=
  mkCondition type op field target ∅ "userID".
Definition public : configCondition := condition "public" "" "" VNil.
Definition passes_gate (gate : string) : configCondition :=
  condition "pass_gate" "" "" (VString gate).

Definition rule (id : string) (percentage : Z) (conds : list configCondition) : configRule :=
  mkRule id id "" (f64_of_Z percentage) conds (RawJson (VBool true)) "userID" "" None.
Definition delegating_rule (id : string) (delegate : string) (conds : list configCondition) : configRule :=
  mkRule id id "" (f64_of_Z 100) conds (RawJson (VMap ∅)) "userID" delegate None.
Definition value_rule (id : string) (value : GoMap) (conds : list configCondition) : configRule :=
  mkRule id id "" (f64_of_Z 100) conds (RawJson (VMap value)) "userID" "" (Some true).

Definition gate_spec (name : string) (rules : list configRule) : configSpec :=
  mkSpec name "feature_gate" "salt" true rules (RawJson (VBool false)) "userID" [] "feature_gate"
    None None [].
Definition config_spec (name : string) (dflt : GoMap) (rules : list configRule)
    (params : list string) : configSpec :=
  mkSpec name "dynamic_config" "salt" true rules (RawJson (VMap dflt)) "userID" params "experiment"
    (Some true) (Some false) [].

Definition alice : User := user_with_id "alice".

(** A gate open to everyone, a gate that depends on it, a gate that depends
    on itself, and a config that delegates to an experiment. *)
Definition open_gate : configSpec := gate_spec "open" [rule "everyone" 100 [public]].
Definition dependent_gate : configSpec :=
  gate_spec "dependent" [rule "nobody" 100 [condition "user_field" "eq" "userID" (VString "bob")];
                         rule "via_open" 100 [passes_gate "open"]].
Definition cyclic_gate : configSpec := gate_spec "cyclic" [rule "loop" 100 [passes_gate "cyclic"]].
Definition strange_gate : configSpec :=
  gate_spec "strange" [rule "ask" 100 [public; condition "lunar_phase" "eq" "" (VString "full")]].
Definition segment_gate : configSpec :=
  gate_spec "segment" [rule "listed" 100 [condition "unit_id" "in_segment_list" "" (VString "ids")]].

Definition experiment_spec : configSpec :=
  config_spec "experiment" {["size" := VFloat64 (f64_of_Z 10)]}
    [value_rule "test" {["size" := VFloat64 (f64_of_Z 20)]} [public]] ["size"].
Definition layer_spec : configSpec :=
  config_spec "layer" {["size" := VFloat64 (f64_of_Z 1)]}
    [delegating_rule "allocated" "experiment" [passes_gate "open"]] [].

Definition example_store : specMaps := mkSpecMaps
  {["open" := open_gate; "dependent" := dependent_gate; "cyclic" := cyclic_gate;
    "strange" := strange_gate; "segment" := segment_gate]}
  {["experiment" := experiment_spec]}
  {["layer" := layer_spec]}
  {["ids" := mkIDList "ids" 0 0 "" "" None]}.

(** Unix nanoseconds of a clock reading. *)
Definition example_now : Z := 1631638014811000000.

(** The value of a computation that returns. *)
Definition result_of (o : outcome evalResult) : evalResult :=
  match o with Ret r => r | _ => zero_result end.

(** ** The texts of package fmt and the times of RFC 3339 *)

Example printed_values :
  map sprint_v [VNil; VBool true; VInt (-5); VFloat64 (f64_of_Z 1000000); VString "a";
    VSlice [VString "a"; VNil; VFloat64 (f64_of_Z 2)]; VMap {["b" := VInt 1; "a" := VNil; "B" := VMap ∅]}] =
  ["<nil>"; "true"; "-5"; "1e+06"; "a"; "[a <nil> 2]"; "map[B:map[] a:<nil> b:1]"].
Proof. vm_compute. reflexivity. Qed.
Example printed_salts :
  map sprint_s [VNil; VString "salt"; VFloat64 (f64_of_Z 3); VBool false; VSlice [VNil; VString "x"]] =
  ["%!s(<nil>)"; "salt"; "%!s(float64=3)"; "%!s(bool=false)"; "[<nil> x]"].
Proof. vm_compute. reflexivity. Qed.

(** Unix seconds and nanoseconds of a parsed time, with the runtime above,
    whose local zone is UTC. *)
Definition parsed_time (s : string) : option (Z * Z) :=
  let runtime := example_runtime in (fun t => (time_unix t, t_nsec t)) <$> time_ParseRFC3339 s.
Example parsed_times :
  map parsed_time ["1970-01-01T00:00:00Z"; "2021-09-14T16:46:54.5Z"; "2021-09-14T09:46:54-07:00"; "2021-09-14T9:46:54,123456789012Z";
    "2024-02-29T00:00:00Z"; "2023-02-29T00:00:00Z"; "2021-13-01T00:00:00Z"; "2021-09-14 16:46:54Z";
    "2021-09-14T16:46:54"; "2021-09-14T16:46:54Zx"; "2021-9-14T16:46:54Z"; "1631638014"] =
  [Some (0, 0); Some (1631638014, 500000000); Some (1631638014, 0); Some (1631612814, 123456789);
   Some (1709164800, 0); None; None; None; None; None; None; None].
Proof. vm_compute. reflexivity. Qed.
