(* ===== verification/EvaluatorFacts.v ===== *)
(** * Theorems about the evaluator

    Termination and the depth limit, the order in which rules decide, the
    conjunction of conditions, delegation, and the operators. *)
From S2P Require Import Prelude GoFloat GoRuntime Hashing Types Conditions Evaluator Examples.

(** ** Where failures come from *)

Inductive failure := FPanic (e : goPanic) | FFuel.

Definition fail_of {A} (m : outcome A) : option failure :=
  match m with
  | Ret _ => None
  | Panic e => Some (FPanic e)
  | OutOfFuel => Some FFuel
  end.

Lemma fail_of_bind {A B} (m : outcome A) (f : A → outcome B) φ :
  fail_of (m ≫= f) = Some φ ↔
  fail_of m = Some φ ∨ ∃ a, m = Ret a ∧ fail_of (f a) = Some φ.
Proof. destruct m; simpl; naive_solver. Qed.

Section facts.
Context `{GoRuntime} {S : Type} `{SpecStore S}.
Context (s : S) (ov : overrides) (now : Z) (user : User).

Abbreviation evalGate := (evalGate s ov now).
Abbreviation evalGateCondition := (evalGateCondition s ov now).
Abbreviation evalCondition := (evalCondition s ov now user).
Abbreviation evalConditions := (evalConditions s ov now user).
Abbreviation evalRule := (evalRule s ov now user).
Abbreviation evalDelegate := (evalDelegate s).
Abbreviation evalRules := (evalRules s ov now user).
Abbreviation evalBody := (evalBody s ov now user).
Abbreviation eval := (eval s ov now user).
Abbreviation ruleResult := (ruleResult s now user).
Abbreviation defaultResult := (defaultResult s now).

(** The conditions that evaluate another gate. *)
Definition is_gate_condition (cond : configCondition) : Prop :=
  condType_of (strings_ToLower (cond_Type cond)) = CtFailGate ∨
  condType_of (strings_ToLower (cond_Type cond)) = CtPassGate.

(** The specs one evaluation of [spec] may evaluate in turn: the gates its
    conditions name, and the configs its rules delegate to. *)
Inductive depends (spec : configSpec) : configSpec → Prop :=
| depends_gate rule cond name gate :
    rule ∈ spec_Rules spec → cond ∈ rule_Conditions rule →
    is_gate_condition cond → cond_TargetValue cond = VString name →
    getGateOverride ov name = None → getGate s name = Some gate →
    depends spec gate
| depends_delegate rule config :
    rule ∈ spec_Rules spec → getDynamicConfig s (rule_ConfigDelegate rule) = Some config →
    depends spec config.

(** ** Failures *)

Section origins.
Context (evalF : configSpec → nat → outcome evalResult).

Lemma inSegmentList_fail target value φ :
  fail_of (inSegmentList s target value) = Some φ → φ = FPanic nil_dereference.
Proof. unfold inSegmentList. repeat case_match; simpl; naive_solver. Qed.

Lemma evalOperator_fail op target value φ :
  fail_of (evalOperator s now op target value) = Some φ → φ = FPanic nil_dereference.
Proof.
  destruct op; simpl; try done; try (case_match; done);
    intros [Hf|(b & _ & Hf)]%fail_of_bind; try done; by eapply inSegmentList_fail.
Qed.

Lemma evalGateCondition_fail b cond depth φ :
  fail_of (evalGateCondition evalF b cond depth) = Some φ →
  ∃ name gate, cond_TargetValue cond = VString name ∧ getGateOverride ov name = None ∧
    getGate s name = Some gate ∧ fail_of (evalF gate (depth + 2)) = Some φ.
Proof.
  unfold Evaluator.evalGateCondition. destruct (cond_TargetValue cond) as [| | | | | | | |name| | |] eqn:E; try done.
  intros [Hf|(r & _ & Hf)]%fail_of_bind; [|by destruct (FetchFromServer r)].
  unfold Evaluator.evalGate in Hf.
  destruct (getGateOverride ov name) eqn:?; [done|].
  destruct (getGate s name) as [gate|] eqn:?; [|done].
  exists name, gate. by replace (depth + 2)%nat with (depth + 1 + 1)%nat by lia.
Qed.

Lemma evalCondition_fail cond depth φ :
  fail_of (evalCondition evalF cond depth) = Some φ →
  φ = FPanic nil_dereference ∨
  ∃ name gate, is_gate_condition cond ∧ cond_TargetValue cond = VString name ∧
    getGateOverride ov name = None ∧ getGate s name = Some gate ∧
    fail_of (evalF gate (depth + 2)) = Some φ.
Proof.
  unfold Evaluator.evalCondition, is_gate_condition.
  destruct (condType_of _) eqn:Hct; try done;
    first [ intros (name & gate & Hg)%evalGateCondition_fail; right;
            exists name, gate; split; [auto|exact Hg]
          | intros [Hf|([p f] & _ & Hf)]%fail_of_bind; [|done];
            left; by eapply evalOperator_fail ].
Qed.

Lemma evalConditions_fail conds depth p f xs φ :
  fail_of (evalConditions evalF conds depth p f xs) = Some φ →
  ∃ cond, cond ∈ conds ∧ fail_of (evalCondition evalF cond (depth + 1)) = Some φ.
Proof.
  revert p f xs. induction conds as [|cond conds IH]; intros p f xs; simpl; [done|].
  intros [Hf|(r & _ & Hf)]%fail_of_bind.
  - exists cond. split; [apply list_elem_of_here|done].
  - apply IH in Hf as (c & Hc & Hf). exists c. split; [by apply list_elem_of_further|done].
Qed.

Lemma evalDelegate_fail rule xs depth φ :
  fail_of (evalDelegate evalF rule xs depth) = Some φ →
  ∃ config, getDynamicConfig s (rule_ConfigDelegate rule) = Some config ∧
    fail_of (evalF config (depth + 1)) = Some φ.
Proof.
  unfold Evaluator.evalDelegate. destruct (getDynamicConfig s _) as [config|]; [|done].
  intros [Hf|(r & _ & Hf)]%fail_of_bind; [by exists config|done].
Qed.

Lemma evalRules_fail spec rules depth xs φ :
  fail_of (evalRules evalF spec rules depth xs) = Some φ →
  (∃ rule, rule ∈ rules ∧ fail_of (evalRule evalF rule (depth + 1)) = Some φ) ∨
  (∃ rule config, rule ∈ rules ∧ getDynamicConfig s (rule_ConfigDelegate rule) = Some config ∧
     fail_of (evalF config (depth + 2)) = Some φ).
Proof.
  revert xs. induction rules as [|rule rules IH]; intros xs; simpl; [done|].
  intros [Hf|(r & _ & Hf)]%fail_of_bind.
  { left. exists rule. split; [apply list_elem_of_here|done]. }
  destruct (FetchFromServer r); [done|]. destruct (Pass r).
  - apply fail_of_bind in Hf as [Hf|(d & _ & Hf)]; [|by destruct d].
    apply evalDelegate_fail in Hf as (config & Hc & Hf).
    right. exists rule, config. split; [apply list_elem_of_here|split; [done|]].
    by replace (depth + 2)%nat with (depth + 1 + 1)%nat by lia.
  - apply IH in Hf as [(r' & Hr & Hf)|(r' & c & Hr & Hf)];
      [left; exists r'|right; exists r', c]; split; auto; by apply list_elem_of_further.
Qed.

(** A failure of an evaluation is the depth limit at its own level, a nil
    dereference, or the failure of an evaluation it calls. *)
Lemma evalBody_fail spec depth φ :
  fail_of (evalBody evalF spec depth) = Some φ →
  φ = FPanic nil_dereference ∨
  (φ = FPanic depth_exceeded ∧ (maxRecursiveDepth < depth)%nat) ∨
  (depth ≤ maxRecursiveDepth)%nat ∧
  ∃ spec' depth', depends spec spec' ∧ (depth + 2 ≤ depth' ≤ depth + 4)%nat ∧
    fail_of (evalF spec' depth') = Some φ.
Proof.
  unfold Evaluator.evalBody. destruct (Nat.ltb_spec maxRecursiveDepth depth).
  { intros [= <-]. right; left. done. }
  destruct (spec_Enabled spec); [|done].
  intros [(rule & Hr & Hf)|(rule & config & Hr & Hc & Hf)]%evalRules_fail.
  - apply evalConditions_fail in Hf as (cond & Hc & Hf).
    apply evalCondition_fail in Hf as [->|(name & gate & Hg & Ht & Ho & Hgate & Hf)]; [by left|].
    right; right; split; [done|]. exists gate, (depth + 4)%nat. split; [by eapply depends_gate|split; [lia|]].
    by replace (depth + 4)%nat with (depth + 1 + 1 + 2)%nat by lia.
  - right; right; split; [done|]. exists config, (depth + 2)%nat. split; [by eapply depends_delegate|split; [lia|done]].
Qed.
End origins.

(** ** Termination *)

Lemma eval_defined fuel spec depth :
  (eval_fuel ≤ fuel + depth)%nat → (0 < fuel)%nat → fail_of (eval fuel spec depth) ≠ Some FFuel.
Proof.
  unfold eval_fuel. revert spec depth. induction fuel as [|fuel IH]; intros spec depth Hle Hpos; [lia|].
  simpl. intros [Hf|[[Hf _]|(Hd & spec' & depth' & Hc & Hd' & Hf)]]%evalBody_fail; [done..|].
  unfold maxRecursiveDepth in *.
  apply (IH spec' depth'); [lia|lia|done].
Qed.

(** Every panic of an evaluation is one of the two. *)
Lemma eval_panics fuel spec depth e :
  eval fuel spec depth = Panic e → e = nil_dereference ∨ e = depth_exceeded.
Proof.
  revert spec depth. induction fuel as [|fuel IH]; intros spec depth; [done|]. simpl.
  intros Hf. assert (Hf' : fail_of (evalBody (eval fuel) spec depth) = Some (FPanic e)) by by rewrite Hf.
  apply evalBody_fail in Hf' as [[= ->]|[[[= ->] _]|(_ & spec' & depth' & _ & _ & Hf')]]; [auto..|].
  apply (IH spec' depth'). by destruct (eval fuel spec' depth'); simplify_eq/=.
Qed.

(** *** Monotonicity in the fuel *)

Section monotone.
Context (f g : configSpec → nat → outcome evalResult).
Context (Hfg : ∀ spec depth, outcome_le (f spec depth) (g spec depth)).

Lemma evalGateCondition_mono b cond depth :
  outcome_le (evalGateCondition f b cond depth) (evalGateCondition g b cond depth).
Proof.
  unfold Evaluator.evalGateCondition, Evaluator.evalGate. case_match; try by right.
  apply outcome_le_bind; [|by right].
  repeat case_match; (by right) || apply Hfg.
Qed.

Lemma evalCondition_mono cond depth :
  outcome_le (evalCondition f cond depth) (evalCondition g cond depth).
Proof.
  unfold Evaluator.evalCondition. case_match; solve [by right|apply evalGateCondition_mono].
Qed.

Lemma evalConditions_mono conds depth p fe xs :
  outcome_le (evalConditions f conds depth p fe xs) (evalConditions g conds depth p fe xs).
Proof.
  revert p fe xs. induction conds as [|cond conds IH]; intros p fe xs; simpl; [by right|].
  apply outcome_le_bind; [apply evalCondition_mono|]. intros r. apply IH.
Qed.

Lemma evalDelegate_mono rule xs depth :
  outcome_le (evalDelegate f rule xs depth) (evalDelegate g rule xs depth).
Proof.
  unfold Evaluator.evalDelegate. case_match; [|by right].
  apply outcome_le_bind; [apply Hfg|by right].
Qed.

Lemma evalRules_mono spec rules depth xs :
  outcome_le (evalRules f spec rules depth xs) (evalRules g spec rules depth xs).
Proof.
  revert xs. induction rules as [|rule rules IH]; intros xs; simpl; [by right|].
  apply outcome_le_bind; [apply evalConditions_mono|]. intros r.
  repeat case_match; [by right| |apply IH].
  apply outcome_le_bind; [apply evalDelegate_mono|by right].
Qed.

Lemma evalBody_mono spec depth :
  outcome_le (evalBody f spec depth) (evalBody g spec depth).
Proof. unfold Evaluator.evalBody. repeat case_match; [by right|apply evalRules_mono|by right]. Qed.
End monotone.

Lemma eval_mono n m spec depth : (n ≤ m)%nat → outcome_le (eval n spec depth) (eval m spec depth).
Proof.
  revert m spec depth. induction n as [|n IH]; intros m spec depth Hle; [by left|].
  destruct m as [|m]; [lia|]. apply evalBody_mono. intros. apply IH. lia.
Qed.

Lemma eval_fuel_irrelevant n m spec depth :
  (eval_fuel ≤ n + depth)%nat → (eval_fuel ≤ m + depth)%nat → (0 < n)%nat → (0 < m)%nat →
  eval n spec depth = eval m spec depth.
Proof.
  assert (Hwlog : ∀ n m, (n ≤ m)%nat → (eval_fuel ≤ n + depth)%nat → (0 < n)%nat →
    eval m spec depth = eval n spec depth).
  { intros n' m' Hle Hn Hpos. apply outcome_le_defined; [by apply eval_mono|].
    intros Heq. by apply (eval_defined n' spec depth); [| |rewrite Heq]. }
  intros. destruct (Nat.le_ge_cases n m); [symmetry|]; by apply Hwlog.
Qed.

(** ** The depth limit *)

(** The gates and dynamic configs of the store. *)
Definition stored (spec : configSpec) : Prop :=
  (∃ name, getGate s name = Some spec) ∨ (∃ name, getDynamicConfig s name = Some spec).

Lemma depends_stored a b : depends a b → stored b.
Proof. destruct 1; [left|right]; eauto. Qed.

Lemma eval_ranked (rank : configSpec → nat) fuel spec depth :
  (∀ a b, stored a → depends a b → (rank b < rank a)%nat) →
  stored spec → (depth + 4 * rank spec ≤ maxRecursiveDepth)%nat →
  eval fuel spec depth ≠ Panic depth_exceeded.
Proof.
  intros Hrank. revert spec depth.
  induction fuel as [|fuel IH]; intros spec depth Hst Hd Hf; [done|]. simpl in Hf. assert (Hf' : fail_of (evalBody (eval fuel) spec depth) = Some (FPanic depth_exceeded))
    by by rewrite Hf.
  apply evalBody_fail in Hf' as [?|[[_ ?]|(_ & spec' & depth' & Hdep & Hle & Hf')]]; [done|lia|].
  pose proof (depends_stored _ _ Hdep). apply Hrank in Hdep; [|done].
  apply (IH spec' depth'); [done|lia|].
  by destruct (eval fuel spec' depth'); simplify_eq/=.
Qed.

(** [spec] evaluates the gate [gate] first of all. *)
Definition evaluates_first (spec gate : configSpec) : Prop :=
  spec_Enabled spec = true ∧
  ∃ rule rules cond conds name,
    spec_Rules spec = rule :: rules ∧ rule_Conditions rule = cond :: conds ∧
    is_gate_condition cond ∧ cond_TargetValue cond = VString name ∧
    getGateOverride ov name = None ∧ getGate s name = Some gate.

Lemma evalBody_first_panic evalF spec gate depth e :
  evaluates_first spec gate → (depth ≤ maxRecursiveDepth)%nat →
  evalF gate (depth + 4)%nat = Panic e → evalBody evalF spec depth = Panic e.
Proof.
  intros (Hen & rule & rules & cond & conds & name & Hr & Hc & Hg & Ht & Ho & Hgate) Hd Hf.
  assert (Hcond : evalCondition evalF cond (depth + 1 + 1) = Panic e).
  { unfold Evaluator.evalCondition, Evaluator.evalGateCondition.
    rewrite Ht. unfold Evaluator.evalGate. rewrite Ho, Hgate.
    replace (depth + 1 + 1 + 1 + 1)%nat with (depth + 4)%nat by lia. rewrite Hf.
    by destruct Hg as [-> | ->]. }
  unfold Evaluator.evalBody. destruct (Nat.ltb_spec maxRecursiveDepth depth); [lia|].
  rewrite Hen, Hr. simpl. unfold Evaluator.evalRule. rewrite Hc. simpl. by rewrite Hcond.
Qed.

Lemma eval_cycle (C : configSpec → Prop) fuel spec depth :
  (∀ a, C a → ∃ b, C b ∧ evaluates_first a b) → C spec →
  (eval_fuel ≤ fuel + depth)%nat → (0 < fuel)%nat →
  eval fuel spec depth = Panic depth_exceeded.
Proof.
  unfold eval_fuel. intros HC. revert spec depth.
  induction fuel as [|fuel IH]; intros spec depth Hspec Hle Hpos; [lia|].
  destruct (Nat.ltb_spec maxRecursiveDepth depth) as [Hd|Hd].
  - simpl. unfold Evaluator.evalBody. apply Nat.ltb_lt in Hd. by rewrite Hd.
  - destruct (HC _ Hspec) as (gate & Hgate & Hfirst).
    apply (evalBody_first_panic _ _ gate); [done|done|].
    unfold maxRecursiveDepth in *. apply IH; [done|lia|lia].
Qed.

(** ** Conditions of a rule, rules of a spec *)

Section decisions.
Context (evalF : configSpec → nat → outcome evalResult).

(** The results of the conditions of a rule, in order. *)
Definition condition_results (depth : nat) (conds : list configCondition)
    (xs : list evalResult) : Prop :=
  Forall2 (fun c x => evalCondition evalF c depth = Ret x) conds xs.

Definition conjunction (p f : bool) (es : list exposure) (xs : list evalResult) : evalResult :=
  mkResult (p && forallb Pass xs) zero_DynamicConfig (f || existsb FetchFromServer xs) ""
    (es ++ concat (SecondaryExposures <$> xs)) [] "" ∅ None None.

Lemma conjunction_cons p f es x xs :
  conjunction (p && Pass x) (f || FetchFromServer x) (es ++ SecondaryExposures x) xs =
  conjunction p f es (x :: xs).
Proof. unfold conjunction. simpl. by rewrite andb_assoc, orb_assoc, app_assoc. Qed.

Lemma evalConditions_spec conds depth p f es r :
  evalConditions evalF conds depth p f es = Ret r ↔
  ∃ xs, condition_results (depth + 1) conds xs ∧ r = conjunction p f es xs.
Proof.
  revert p f es. induction conds as [|c conds IH]; intros p f es; simpl.
  - unfold conjunction, condition_results. split.
    + intros [= <-]. exists []. split; [constructor|]. simpl.
      by rewrite andb_true_r, orb_false_r, app_nil_r.
    + intros (xs & Hxs & ->). apply Forall2_nil_inv_l in Hxs as ->. simpl.
      by rewrite andb_true_r, orb_false_r, app_nil_r.
  - split.
    + intros (x & Hx & Hr)%outcome_bind_Ret_inv. apply IH in Hr as (xs & Hxs & ->).
      exists (x :: xs). split; [by constructor|apply conjunction_cons].
    + intros (xs & Hxs & ->). apply Forall2_cons_inv_l in Hxs as (x & xs' & Hx & Hxs & ->).
      rewrite Hx. simpl. apply IH. exists xs'. split; [done|by rewrite conjunction_cons].
Qed.

(** A rule that neither decides nor asks the server. *)
Definition skipped (depth : nat) (rule : configRule) (x : evalResult) : Prop :=
  evalRule evalF rule (depth + 1) = Ret x ∧ FetchFromServer x = false ∧ Pass x = false.

(** The result of the rule that ends the loop, after the exposures [es]. *)
Definition decides (spec : configSpec) (depth : nat) (rule : configRule) (es : list exposure)
    (r : evalResult) : Prop :=
  ∃ x, evalRule evalF rule (depth + 1) = Ret x ∧
    if FetchFromServer x then r = x
    else Pass x = true ∧
      ∃ d, evalDelegate evalF rule (es ++ SecondaryExposures x) (depth + 1) = Ret d ∧
           r = default (ruleResult spec rule (es ++ SecondaryExposures x)) d.

Definition skipped_exposures (xs : list evalResult) : list exposure :=
  concat (SecondaryExposures <$> xs).

(** The loop over the rules, rule by rule. *)
Inductive rules_decide (spec : configSpec) (depth : nat) :
    list configRule → list exposure → evalResult → Prop :=
| rules_exhausted es : rules_decide spec depth [] es (defaultResult spec "default" es)
| rules_decided rule rules es r :
    decides spec depth rule es r → rules_decide spec depth (rule :: rules) es r
| rules_skipped rule rules es x r :
    skipped depth rule x → rules_decide spec depth rules (es ++ SecondaryExposures x) r →
    rules_decide spec depth (rule :: rules) es r.

Lemma evalRules_decide spec rules depth es r :
  evalRules evalF spec rules depth es = Ret r ↔ rules_decide spec depth rules es r.
Proof.
  revert es. induction rules as [|rule rules IH]; intros es; simpl.
  { split; [intros [= <-]; constructor|by inversion 1]. }
  split.
  - intros (x & Hx & Hr)%outcome_bind_Ret_inv.
    destruct (FetchFromServer x) eqn:Hfe.
    { injection Hr as <-. apply rules_decided. exists x. by rewrite Hfe. }
    destruct (Pass x) eqn:Hp; [|by eapply rules_skipped; [|apply IH]].
    apply outcome_bind_Ret_inv in Hr as (d & Hd & Hr).
    apply rules_decided. exists x. rewrite Hfe. split; [done|split; [done|]].
    exists d. split; [done|]. by destruct d; injection Hr as <-.
  - inversion_clear 1 as [|? ? ? ? (x & Hx & Hd)|? ? ? x ? (Hx & Hfe & Hp) Hr];
      rewrite Hx; simpl.
    + destruct (FetchFromServer x); [by subst|]. destruct Hd as (-> & d & Hd & ->).
      rewrite Hd. simpl. by destruct d.
    + rewrite Hfe, Hp. by apply IH.
Qed.

Lemma rules_decide_spec spec rules depth es r :
  rules_decide spec depth rules es r ↔
  (∃ xs, Forall2 (skipped depth) rules xs ∧
     r = defaultResult spec "default" (es ++ skipped_exposures xs)) ∨
  (∃ pre rule post xs, rules = pre ++ rule :: post ∧ Forall2 (skipped depth) pre xs ∧
     decides spec depth rule (es ++ skipped_exposures xs) r).
Proof.
  unfold skipped_exposures. split.
  - induction 1 as [es|rule rules es r Hd|rule rules es x r Hx _ IH].
    + left. exists []. split; [constructor|]. simpl. by rewrite app_nil_r.
    + right. exists [], rule, rules, []. simpl. by rewrite app_nil_r.
    + destruct IH as [(xs & Hxs & ->)|(pre & rule' & post & xs & -> & Hxs & Hd)].
      * left. exists (x :: xs). split; [by constructor|]. simpl. by rewrite app_assoc.
      * right. exists (rule :: pre), rule', post, (x :: xs). simpl. rewrite app_assoc.
        split; [done|split; [by constructor|done]].
  - intros [(xs & Hxs & ->)|(pre & rule & post & xs & -> & Hxs & Hd)].
    + revert es. induction Hxs as [|rule x rules xs Hx Hxs IH]; intros es; simpl.
      * rewrite app_nil_r. constructor.
      * eapply rules_skipped; [done|]. rewrite app_assoc. apply IH.
    + revert es Hd. induction Hxs as [|rule0 x pre xs Hx Hxs IH]; intros es Hd; simpl in *.
      * apply rules_decided. by rewrite app_nil_r in Hd.
      * eapply rules_skipped; [done|]. apply IH. by rewrite <- app_assoc.
Qed.
(** The loop over rules of which the first not skipped passes. *)
Lemma evalRules_passing spec depth pre rule post xs x es :
  Forall2 (skipped depth) pre xs → evalRule evalF rule (depth + 1) = Ret x →
  FetchFromServer x = false → Pass x = true →
  let es' := es ++ skipped_exposures xs ++ SecondaryExposures x in
  evalRules evalF spec (pre ++ rule :: post) depth es =
  (d ← evalDelegate evalF rule es' (depth + 1); Ret (default (ruleResult spec rule es') d)).
Proof.
  intros Hpre Hx Hf Hp. unfold skipped_exposures.
  revert es. induction Hpre as [|rule0 x0 pre xs (Hx0 & Hf0 & Hp0) Hpre IH]; intros es; simpl.
  - rewrite Hx. simpl. rewrite Hf, Hp. by destruct (evalDelegate _ _ _ _) as [[]| |].
  - rewrite Hx0. simpl. rewrite Hf0, Hp0, IH. by rewrite <- !app_assoc.
Qed.
End decisions.

Lemma explicit_parameters (l : list string) p :
  default false (foldl (fun (m : gmap string bool) p => <[p := true]> m) ∅ l !! p) = true ↔ p ∈ l.
Proof.
  assert (Hfold : ∀ l (m : gmap string bool),
    default false (foldl (fun m p => <[p := true]> m) m l !! p) = true ↔
    default false (m !! p) = true ∨ p ∈ l).
  { clear l. induction l as [|q l IH]; intros m; simpl.
    - split; [auto|intros [?|?%elem_of_nil]; done].
    - rewrite IH, elem_of_cons. destruct (decide (q = p)) as [->|Hne].
      + rewrite lookup_insert_eq. naive_solver.
      + rewrite lookup_insert_ne by done. naive_solver. }
  rewrite Hfold, lookup_empty. simpl. naive_solver.
Qed.

(** ** Evaluations that need each other *)

(** Every evaluation of [spec] evaluates the gate [gate]. *)
Definition always_evaluates (spec gate : configSpec) : Prop :=
  spec_Enabled spec = true ∧
  ∃ rule rules cond name,
    spec_Rules spec = rule :: rules ∧ cond ∈ rule_Conditions rule ∧
    is_gate_condition cond ∧ cond_TargetValue cond = VString name ∧
    getGateOverride ov name = None ∧ getGate s name = Some gate.

Lemma evalRule_needs evalF rule depth r cond name gate :
  evalRule evalF rule depth = Ret r → cond ∈ rule_Conditions rule →
  is_gate_condition cond → cond_TargetValue cond = VString name →
  getGateOverride ov name = None → getGate s name = Some gate →
  ∃ x, evalF gate (depth + 3)%nat = Ret x.
Proof.
  unfold Evaluator.evalRule. rewrite evalConditions_spec. intros (xs & Hxs & _) Hc Hg Ht Ho Hgate.
  apply list_elem_of_lookup in Hc as [i Hi].
  destruct (Forall2_lookup_l _ _ _ _ _ Hxs Hi) as (x & _ & Hx).
  assert (Hgc : ∃ b, evalGateCondition evalF b cond (depth + 1) = Ret x).
  { unfold Evaluator.evalCondition in Hx. by destruct Hg as [Hg|Hg]; rewrite Hg in Hx; eexists. }
  destruct Hgc as [b Hgc]. unfold Evaluator.evalGateCondition, Evaluator.evalGate in Hgc.
  rewrite Ht, Ho, Hgate in Hgc. apply outcome_bind_Ret_inv in Hgc as (y & Hy & _).
  exists y. by replace (depth + 3)%nat with (depth + 1 + 1 + 1)%nat by lia.
Qed.

Lemma eval_stuck (C : configSpec → Prop) fuel spec depth r :
  (∀ a, C a → ∃ b, C b ∧ always_evaluates a b) → C spec → eval fuel spec depth ≠ Ret r.
Proof.
  intros HC. revert spec depth r. induction fuel as [|fuel IH]; intros spec depth r Hspec; [done|].
  destruct (HC spec Hspec) as (gate & Hgate & Hen & rule & rules & cond & name & Hrules & Hc & Hg & Ht & Ho & Hget).
  simpl. unfold Evaluator.evalBody. case_match; [done|]. rewrite Hen, Hrules. simpl.
  intros (x & Hx & _)%outcome_bind_Ret_inv.
  destruct (evalRule_needs _ _ _ _ _ _ _ Hx Hc Hg Ht Ho Hget) as [y Hy]. by apply IH in Hy.
Qed.

(** ** A result to be fetched from the server never passes *)

Definition fetch_fails (r : evalResult) : Prop := FetchFromServer r = true → Pass r = false.

Lemma evalOperator_fetch op target value p :
  evalOperator s now op target value = Ret (p, true) → p = false.
Proof.
  unfold evalOperator. intros Hop.
  destruct op; try discriminate Hop; try (by injection Hop); try (case_match; discriminate Hop).
  all: apply outcome_bind_Ret_inv in Hop as (? & _ & Hop); discriminate Hop.
Qed.

Lemma evalCondition_fetch evalF cond depth r :
  evalCondition evalF cond depth = Ret r → fetch_fails r.
Proof.
  unfold Evaluator.evalCondition, Evaluator.evalGateCondition, fetch_fails.
  destruct (condType_of _); try by intros [= <-].
  1,2: destruct (cond_TargetValue cond); try (by intros [= <-]);
       intros (x & _ & Hr)%outcome_bind_Ret_inv;
       destruct (FetchFromServer x); by injection Hr as <-.
  all: intros ([p f] & Hop & Hr)%outcome_bind_Ret_inv; injection Hr as <-; simpl;
       intros ->; by eapply evalOperator_fetch.
Qed.

Lemma evalRule_fetch evalF rule depth r :
  evalRule evalF rule depth = Ret r → fetch_fails r.
Proof.
  unfold Evaluator.evalRule. rewrite evalConditions_spec. intros (xs & Hxs & ->).
  unfold fetch_fails, conjunction. simpl.
  induction Hxs as [|c x conds xs Hx Hxs IH]; simpl; [done|].
  apply evalCondition_fetch in Hx. unfold fetch_fails in Hx.
  destruct (FetchFromServer x); [by rewrite Hx|]. simpl. intros Hf. rewrite IH by done.
  apply andb_false_r.
Qed.

Lemma evalBody_fetch evalF spec depth r :
  (∀ spec depth r, evalF spec depth = Ret r → fetch_fails r) →
  evalBody evalF spec depth = Ret r → fetch_fails r.
Proof.
  intros HF. assert (Hdef : ∀ id es, fetch_fails (defaultResult spec id es)).
  { intros id es. unfold Evaluator.defaultResult. by case_match. }
  unfold Evaluator.evalBody. case_match; [done|]. case_match; [|intros [= <-]; apply Hdef].
  rewrite evalRules_decide. induction 1 as [es|rule rules es r (x & Hx & Hd)|]; [apply Hdef| |done].
  destruct (FetchFromServer x); [by subst; eapply evalRule_fetch|].
  destruct Hd as (_ & d & Hd & ->). unfold Evaluator.evalDelegate in Hd.
  destruct (getDynamicConfig s _) as [config|].
  - apply outcome_bind_Ret_inv in Hd as (y & Hy & Hd). injection Hd as <-.
    apply HF in Hy. done.
  - injection Hd as <-. simpl. unfold Evaluator.ruleResult. by case_match.
Qed.

Lemma eval_fetch fuel spec depth r : eval fuel spec depth = Ret r → fetch_fails r.
Proof.
  revert spec depth r. induction fuel as [|fuel IH]; intros spec depth r; [done|].
  apply evalBody_fetch. exact IH.
Qed.

(** ** The entry points *)

(** The three entry points, as functions of the fuel. *)
Inductive entry := EGate | EConfig | ELayer.
Definition run_entry (e : entry) (fuel : nat) (name : string) : outcome evalResult :=
  match e with
  | EGate => evalGate (eval fuel) name 0
  | EConfig => evalConfig s ov now (eval fuel) name 0
  | ELayer => evalLayer s ov now (eval fuel) name 0
  end.

(** An entry point answers by itself or evaluates one spec at depth one. *)
Lemma run_entry_cases e name :
  (∃ r, FetchFromServer r = false ∧ ∀ fuel, run_entry e fuel name = Ret r) ∨
  (∃ spec, ∀ fuel, run_entry e fuel name = eval fuel spec 1).
Proof.
  destruct e; unfold run_entry, Evaluator.evalGate, Evaluator.evalConfig, Evaluator.evalLayer,
    evalNamedConfig; repeat case_match; eauto;
    left; eexists; split; try (intros; reflexivity); done.
Qed.
(** With the fuel of the entry points the model never runs out of it. *)
Lemma entry_defined e name : run_entry e eval_fuel name ≠ OutOfFuel.
Proof.
  destruct (run_entry_cases e name) as [(r & _ & Hr)|(spec & Hr)]; rewrite Hr; [done|].
  pose proof (eval_defined eval_fuel spec 1) as Hd. intros Hf. rewrite Hf in Hd.
  apply Hd; [unfold eval_fuel; lia..|done].
Qed.
Lemma eval_entry_defined spec : eval eval_fuel spec 0 ≠ OutOfFuel.
Proof.
  pose proof (eval_defined eval_fuel spec 0) as Hd. intros Hf. rewrite Hf in Hd.
  apply Hd; [unfold eval_fuel; lia..|done].
Qed.
End facts.

(** ** The properties *)

Section claims.
Context `{GoRuntime} {S : Type} `{SpecStore S}.

(** C5. Evaluation terminates: on any store, also one whose gates depend on
    each other in a cycle, every amount of fuel from [eval_fuel] on gives one and
    the same outcome, which is a result, the depth-limit panic or a nil
    dereference, and never exhausted fuel. *)
Theorem evaluation_terminates (s : S) ov now user e name :
  ∃ o, (∀ fuel, (eval_fuel ≤ fuel)%nat → run_entry s ov now user e fuel name = o) ∧
    ((∃ r, o = Ret r) ∨ o = Panic depth_exceeded ∨ o = Panic nil_dereference).
Proof.
  destruct (run_entry_cases s ov now user e name) as [(r & _ & Hr)|(spec & Hr)].
  { exists (Ret r). split; [intros; apply Hr|by left; exists r]. }
  exists (eval s ov now user eval_fuel spec 1). split.
  - intros fuel Hf. rewrite Hr. unfold eval_fuel in *.
    apply eval_fuel_irrelevant; unfold eval_fuel; lia.
  - pose proof (eval_defined s ov now user eval_fuel spec 1) as Hd.
    destruct (eval s ov now user eval_fuel spec 1) as [r|p|] eqn:E; [by left; exists r| |].
    + apply eval_panics in E as [-> | ->]; auto.
    + exfalso. apply Hd; [unfold eval_fuel; lia..|done].
Qed.

(** C2. The first rule that decides wins: the evaluation of a spec returns
    [r] exactly when the depth is within the limit and either the spec is
    disabled and [r] is its default with rule ID "disabled", or every rule is
    skipped and [r] is its default with rule ID "default", or the rules before
    some rule are skipped and that rule decides [r]; the exposures of
    the skipped rules come first, in order. *)
Theorem eval_first_decision (s : S) ov now user fuel spec depth r :
  eval s ov now user (Datatypes.S fuel) spec depth = Ret r ↔
  (depth ≤ maxRecursiveDepth)%nat ∧
  (spec_Enabled spec = false ∧ r = defaultResult s now spec "disabled" [] ∨
   spec_Enabled spec = true ∧
   ((∃ xs, Forall2 (skipped s ov now user (eval s ov now user fuel) depth) (spec_Rules spec) xs ∧
       r = defaultResult s now spec "default" (skipped_exposures xs)) ∨
    (∃ pre rule post xs, spec_Rules spec = pre ++ rule :: post ∧
       Forall2 (skipped s ov now user (eval s ov now user fuel) depth) pre xs ∧
       decides s ov now user (eval s ov now user fuel) spec depth rule (skipped_exposures xs) r))).
Proof.
  simpl. unfold evalBody. destruct (Nat.ltb_spec maxRecursiveDepth depth).
  { split; [done|lia]. }
  destruct (spec_Enabled spec).
  - rewrite evalRules_decide, rules_decide_spec. simpl. naive_solver.
  - naive_solver.
Qed.

(** C7. A rule is the conjunction of its conditions, and all of them are
    evaluated: it returns exactly when every condition returns, passes when
    all pass, asks the server when any asks, and carries all their exposures
    in order. *)
Theorem evalRule_conjunction (s : S) ov now user evalF rule depth r :
  evalRule s ov now user evalF rule depth = Ret r ↔
  ∃ xs, Forall2 (fun c x => evalCondition s ov now user evalF c (depth + 1) = Ret x)
          (rule_Conditions rule) xs ∧
    r = mkResult (forallb Pass xs) zero_DynamicConfig (existsb FetchFromServer xs) ""
          (concat (SecondaryExposures <$> xs)) [] "" ∅ None None.
Proof. unfold evalRule. rewrite evalConditions_spec. done. Qed.

(** C15. A result that must be fetched from the server never passes locally,
    whichever entry point produced it. *)
Theorem fetch_never_passes (s : S) ov now user e fuel name r :
  run_entry s ov now user e fuel name = Ret r → FetchFromServer r = true → Pass r = false.
Proof.
  destruct (run_entry_cases s ov now user e name) as [(r' & Hf & Hr)|(spec & Hr)];
    rewrite Hr.
  - intros [= ->]. congruence.
  - intros Hr'. by eapply eval_fetch.
Qed.

(** C18. Gates that cannot be evaluated without each other panic.  If every gate
    of a set is enabled and its first rule has, among its conditions, one on a
    gate of the set that is not overridden, then no check of a gate of the set
    returns: it panics with the depth error, or with a nil dereference that some
    other condition raises first; and it is the depth error when that condition is
    the first of its rule. *)
Theorem cyclic_gates_panic (s : S) ov now user (C : configSpec → Prop) name spec :
  (∀ a, C a → ∃ b, C b ∧ always_evaluates s ov a b) →
  C spec → getGateOverride ov name = None → getGate s name = Some spec →
  (checkGate s ov now user name = Panic depth_exceeded ∨
   checkGate s ov now user name = Panic nil_dereference) ∧
  ((∀ a, C a → ∃ b, C b ∧ evaluates_first s ov a b) →
   checkGate s ov now user name = Panic depth_exceeded).
Proof.
  intros HC Hspec Ho Hg. unfold checkGate, evalGate. rewrite Ho, Hg. split.
  - pose proof (eval_defined s ov now user eval_fuel spec (0 + 1)) as Hd.
    destruct (eval s ov now user eval_fuel spec (0 + 1)) as [r|e|] eqn:E.
    + by apply (eval_stuck s ov now user C) in E.
    + by apply eval_panics in E as [-> | ->]; [right|left].
    + exfalso. apply Hd; [unfold eval_fuel; lia..|done].
  - intros Hfirst. apply (eval_cycle s ov now user C); unfold eval_fuel; simpl; auto; lia.
Qed.

(** C19. The depth limit is never the outcome on a store without deep
    dependencies: if the gates and configs have ranks that decrease along
    dependencies, a gate of rank at most 74 evaluates to a result or a nil
    dereference. *)
Theorem ranked_gates_within_depth (s : S) ov now user (rank : configSpec → nat) name :
  (∀ a b, stored s a → depends s ov a b → (rank b < rank a)%nat) →
  (∀ spec, getGate s name = Some spec → (rank spec ≤ 74)%nat) →
  (∃ r, checkGate s ov now user name = Ret r) ∨
  checkGate s ov now user name = Panic nil_dereference.
Proof.
  intros Hrank Hname. unfold checkGate, evalGate.
  destruct (getGateOverride ov name); [by left; eexists|].
  destruct (getGate s name) as [spec|] eqn:Hg; [|by left; eexists].
  specialize (Hname spec eq_refl).
  pose proof (eval_ranked s ov now user rank eval_fuel spec (0 + 1) Hrank) as Hd.
  pose proof (eval_defined s ov now user eval_fuel spec (0 + 1)) as Ht.
  destruct (eval s ov now user eval_fuel spec (0 + 1)) as [r|p|] eqn:E; [by left; eexists| |].
  - apply eval_panics in E as [-> | ->]; [by right|].
    exfalso. apply Hd; [left; eauto|unfold maxRecursiveDepth; lia|done].
  - exfalso. apply Ht; [unfold eval_fuel; lia..|done].
Qed.

(** C20. A condition on another gate: when the gate evaluates to a local
    result [x], [pass_gate] passes iff [x] passes and [fail_gate] iff it does
    not, and the exposures are those of [x] followed by one that names the
    gate, its value and its rule. *)
Theorem gate_condition_exposes (s : S) ov now user evalF cond gateName depth x (positive : bool) :
  condType_of (strings_ToLower (cond_Type cond)) = (if positive then CtPassGate else CtFailGate) →
  cond_TargetValue cond = VString gateName →
  evalGate s ov now evalF gateName (depth + 1) = Ret x → FetchFromServer x = false →
  ∃ r, evalCondition s ov now user evalF cond depth = Ret r ∧
    Pass r = (if positive then Pass x else negb (Pass x)) ∧ FetchFromServer r = false ∧
    ∃ e, SecondaryExposures r = SecondaryExposures x ++ [e] ∧
      e !! "gate" = Some gateName ∧ e !! "gateValue" = Some (strconv_FormatBool (Pass x)) ∧
      e !! "ruleID" = Some (Id x) ∧ size e = 3%nat.
Proof.
  intros Ht Htv Hx Hf.
  exists (exposure_result (if positive then Pass x else negb (Pass x))
            (SecondaryExposures x ++ [gate_exposure gateName (Pass x) (Id x)])).
  split; [|split; [done|split; [done|by exists (gate_exposure gateName (Pass x) (Id x))]]].
  unfold evalCondition. rewrite Ht. destruct positive; unfold evalGateCondition;
    by rewrite Htv, Hx; simpl; rewrite Hf.
Qed.

(** C12. Delegation.  When the first rule of a spec that is not skipped passes:
    if its delegate is a dynamic config of the store, the evaluation of the spec is
    the evaluation of that config two levels deeper, panics included, with the
    delegate recorded, the exposures of the rules so far as the undelegated ones
    and in front of the config's own, and the config's explicit parameters and no
    others; without such a config it is the result of the rule itself. *)
Theorem delegation (s : S) ov now user fuel spec depth pre rule post xs x :
  (depth ≤ maxRecursiveDepth)%nat → spec_Enabled spec = true → spec_Rules spec = pre ++ rule :: post →
  Forall2 (skipped s ov now user (eval s ov now user fuel) depth) pre xs →
  evalRule s ov now user (eval s ov now user fuel) rule (depth + 1) = Ret x →
  FetchFromServer x = false → Pass x = true →
  let es := skipped_exposures xs ++ SecondaryExposures x in
  let result := eval s ov now user (Datatypes.S fuel) spec depth in
  match getDynamicConfig s (rule_ConfigDelegate rule) with
  | None => result = Ret (ruleResult s now user spec rule es)
  | Some config =>
      match eval s ov now user fuel config (depth + 2) with
      | Ret y => ∃ r, result = Ret r ∧
          Pass r = Pass y ∧ ConfigValue r = ConfigValue y ∧ FetchFromServer r = FetchFromServer y ∧
          Id r = Id y ∧ IsExperimentGroup r = IsExperimentGroup y ∧
          EvaluationDetails r = EvaluationDetails y ∧
          ConfigDelegate r = rule_ConfigDelegate rule ∧
          UndelegatedSecondaryExposures r = es ∧
          SecondaryExposures r = es ++ SecondaryExposures y ∧
          ∀ p, default false (ExplicitParameters r !! p) = true ↔ p ∈ spec_ExplicitParameters config
      | o => result = o
      end
  end.
Proof.
  intros Hd Hen Hrules Hpre Hx Hfetch Hpass es result.
  assert (Hresult : result = (d ← evalDelegate s (eval s ov now user fuel) rule es (depth + 1);
    Ret (default (ruleResult s now user spec rule es) d))).
  { subst result. simpl. unfold evalBody. destruct (Nat.ltb_spec maxRecursiveDepth depth); [lia|].
    rewrite Hen, Hrules.
    exact (evalRules_passing s ov now user (eval s ov now user fuel) spec depth pre rule post xs x []
             Hpre Hx Hfetch Hpass). }
  rewrite Hresult. unfold evalDelegate. destruct (getDynamicConfig s _) as [config|]; [|done].
  replace (depth + 1 + 1)%nat with (depth + 2)%nat by lia.
  destruct (eval s ov now user fuel config (depth + 2)) as [y|e|]; [|done|done]. simpl.
  eexists. do 10 (split; [reflexivity|]). intros p. simpl. apply explicit_parameters.
Qed.

(** C21. Overrides win: after [OverrideGate], the gate evaluates to the
    overriding value whatever the store holds, also where another gate
    depends on it; other gates' overrides are unchanged. The same holds for
    configs and layers. *)
Theorem overrides_win (s : S) ov now user name (b : bool) (v : option GoMap) evalF depth :
  (∃ r, evalGate s (OverrideGate name b ov) now evalF name depth = Ret r ∧
     Pass r = b ∧ Id r = "override" ∧ FetchFromServer r = false ∧
     (det_reason <$> EvaluationDetails r) = Some reasonLocalOverride) ∧
  (∀ other, other ≠ name →
     getGateOverride (OverrideGate name b ov) other = getGateOverride ov other) ∧
  (∃ r, getConfig s (OverrideConfig name v ov) now user name = Ret r ∧
     Pass r = true ∧ ConfigValue r = NewConfig name v "override") ∧
  (∃ r, getLayer s (OverrideLayer name v ov) now user name = Ret r ∧
     Pass r = true ∧ ConfigValue r = NewConfig name v "override").
Proof.
  unfold evalGate, getConfig, getLayer, evalConfig, evalLayer, evalNamedConfig,
    getGateOverride, getConfigOverride, getLayerOverride. simpl.
  rewrite !lookup_insert_eq. split; [by eexists|split; [|split; by eexists]].
  intros other Hne. by rewrite lookup_insert_ne.
Qed.
End claims.

(** ** Witnesses *)
Section witnesses.
#[local] Existing Instance example_runtime.
Abbreviation st := example_store.
Abbreviation ov0 := no_overrides.
Abbreviation tnow := example_now.

Lemma fetch_never_passes_witness :
  ∃ r, checkGate st ov0 tnow alice "strange" = Ret r ∧ FetchFromServer r = true ∧ Pass r = false.
Proof.
  eexists. split; [vm_compute; reflexivity|split; [reflexivity|]].
  eapply (fetch_never_passes st ov0 tnow alice EGate eval_fuel "strange");
    [vm_compute; reflexivity|reflexivity].
Defined.

Lemma cyclic_gates_panic_witness :
  checkGate st ov0 tnow alice "cyclic" = Panic depth_exceeded.
Proof.
  destruct (cyclic_gates_panic st ov0 tnow alice (fun a => a = cyclic_gate) "cyclic" cyclic_gate)
    as [_ Hfirst]; [|reflexivity..|apply Hfirst].
  - intros a ->. exists cyclic_gate. split; [reflexivity|]. split; [reflexivity|].
    do 3 eexists. exists "cyclic". split; [reflexivity|split; [apply list_elem_of_here|]].
    split; [right; reflexivity|split; [reflexivity|split; reflexivity]].
  - intros a ->. exists cyclic_gate. split; [reflexivity|]. split; [reflexivity|].
    do 4 eexists. exists "cyclic". split; [reflexivity|split; [reflexivity|]].
    split; [right; reflexivity|split; [reflexivity|split; reflexivity]].
Defined.

(** The ranks of the acyclic part of the example store. *)
Definition example_store_acyclic : specMaps :=
  mkSpecMaps {["open" := open_gate; "dependent" := dependent_gate]} ∅ ∅ ∅.
Definition example_rank (spec : configSpec) : nat :=
  if decide (spec_Name spec = "dependent") then 1 else 0.

Lemma example_gates name gate :
  getGate example_store_acyclic name = Some gate →
  name = "open" ∧ gate = open_gate ∨ name = "dependent" ∧ gate = dependent_gate.
Proof.
  cbn [getGate specMaps_store sm_gates example_store_acyclic].
  rewrite lookup_insert_Some, lookup_singleton_Some. naive_solver.
Qed.

Lemma example_stored a :
  stored example_store_acyclic a → a = open_gate ∨ a = dependent_gate.
Proof. intros [(name & [[_ ->]|[_ ->]]%example_gates)|(name & [=])]; auto. Qed.

Lemma example_depends a b :
  stored example_store_acyclic a → depends example_store_acyclic ov0 a b →
  (example_rank b < example_rank a)%nat.
Proof.
  intros [-> | ->]%example_stored; destruct 1 as [r c name gate Hr Hc Hg Ht _ Hgate|r config _ [=]];
    simpl in Hr; rewrite ?elem_of_cons in Hr.
  - destruct Hr as [-> | []%elem_of_nil]. apply list_elem_of_singleton in Hc as ->. by destruct Hg.
  - destruct Hr as [-> |[-> | []%elem_of_nil]]; apply list_elem_of_singleton in Hc as ->.
    + by destruct Hg.
    + injection Ht as <-. by apply example_gates in Hgate as [[_ ->]|[? ?]]; [apply Nat.ltb_lt|].
Qed.

Lemma ranked_gates_within_depth_witness :
  (∃ r, checkGate example_store_acyclic ov0 tnow alice "dependent" = Ret r) ∨
  checkGate example_store_acyclic ov0 tnow alice "dependent" = Panic nil_dereference.
Proof.
  apply (ranked_gates_within_depth example_store_acyclic ov0 tnow alice example_rank).
  - exact example_depends.
  - intros spec Hg. injection Hg as <-. apply Nat.leb_le. reflexivity.
Defined.

Lemma gate_condition_exposes_witness :
  ∃ x r, evalGate st ov0 tnow (eval st ov0 tnow alice eval_fuel) "open" (2 + 1) = Ret x ∧
    evalCondition st ov0 tnow alice (eval st ov0 tnow alice eval_fuel)
      (condition "FAIL_GATE" "" "" (VString "open")) 2 = Ret r ∧ Pass r = negb (Pass x).
Proof.
  set (f := eval st ov0 tnow alice eval_fuel).
  set (x := result_of (evalGate st ov0 tnow f "open" (2 + 1))).
  assert (Hx : evalGate st ov0 tnow f "open" (2 + 1) = Ret x) by (vm_compute; reflexivity).
  assert (Hfx : FetchFromServer x = false) by (vm_compute; reflexivity).
  assert (Ht : condType_of (strings_ToLower "FAIL_GATE") = CtFailGate)
    by (vm_compute; reflexivity).
  destruct (gate_condition_exposes st ov0 tnow alice f
    (condition "FAIL_GATE" "" "" (VString "open")) "open" 2 x false Ht eq_refl Hx Hfx)
    as (r & Hr & Hp & _).
  exists x, r. split; [exact Hx|split; [exact Hr|exact Hp]].
Defined.

Lemma delegation_witness :
  let f := eval st ov0 tnow alice eval_fuel in
  ∃ y r, f experiment_spec 3%nat = Ret y ∧
    eval st ov0 tnow alice (Datatypes.S eval_fuel) layer_spec 1 = Ret r ∧
    Pass r = Pass y ∧ ConfigValue r = ConfigValue y ∧ ConfigDelegate r = "experiment" ∧
    length (UndelegatedSecondaryExposures r) = 1%nat.
Proof.
  intros f.
  set (delegating := delegating_rule "allocated" "experiment" [passes_gate "open"]).
  set (x := result_of (evalRule st ov0 tnow alice f delegating (1 + 1))).
  assert (Hx : evalRule st ov0 tnow alice f delegating (1 + 1) = Ret x) by (vm_compute; reflexivity).
  assert (Hfetch : FetchFromServer x = false) by (vm_compute; reflexivity).
  assert (Hpass : Pass x = true) by (vm_compute; reflexivity).
  assert (Hl : length (SecondaryExposures x) = 1%nat) by (vm_compute; reflexivity).
  set (y := result_of (f experiment_spec 3%nat)).
  assert (Hy : f experiment_spec 3%nat = Ret y) by (vm_compute; reflexivity).
  assert (Hd : (1 ≤ maxRecursiveDepth)%nat) by (apply Nat.leb_le; reflexivity).
  pose proof (delegation st ov0 tnow alice eval_fuel layer_spec 1 [] delegating [] [] x Hd
    eq_refl eq_refl (List.Forall2_nil _) Hx Hfetch Hpass) as Hr.
  cbv zeta in Hr.
  change (getDynamicConfig st (rule_ConfigDelegate delegating)) with (Some experiment_spec) in Hr.
  cbv beta iota in Hr. change (1 + 2)%nat with 3%nat in Hr. fold f in Hr. rewrite Hy in Hr.
  destruct Hr as (r & Hr & Hp & Hv & _ & _ & _ & _ & Hdel & Hu & _).
  exists y, r. split; [exact Hy|split; [exact Hr|]]. split; [exact Hp|split; [exact Hv|]].
  split; [exact Hdel|]. rewrite Hu. exact Hl.
Defined.
End witnesses.
