(* ===== verification/ConditionFacts.v ===== *)
(** * Theorems about conditions

    The pass percentage and its buckets, the operators, versions and dates. *)
From S2P Require Import Prelude GoFloat GoRuntime Hashing Types Conditions Evaluator Examples.

(** ** The order of small non-negative floats *)

Definition nonneg (f : f64) : Prop :=
  match f with S754_zero _ | S754_finite false _ _ => True | _ => False end.

Lemma f64_lt_trans x y z :
  nonneg x → nonneg y → nonneg z → f64_lt x y = true → f64_lt y z = true → f64_lt x z = true.
Proof.
  unfold f64_lt, SFltb, SFcompare.
  destruct x as [sx|sx| |[] mx ex], y as [sy|sy| |[] my ey], z as [sz|sz| |[] mz ez]; try done.
  intros _ _ _. change (Pos.compare_cont Eq) with Pos.compare.
  destruct (Z.compare_spec ex ey), (Z.compare_spec ey ez), (Z.compare_spec ex ez);
    try done; try lia; subst; try done.
  destruct (Pos.compare_spec mx my), (Pos.compare_spec my mz), (Pos.compare_spec mx mz); try done; lia.
Qed.

Lemma f64_lt_irrefl x : f64_lt x x = false.
Proof.
  unfold f64_lt, SFltb, SFcompare. destruct x as [s|[]| |[] m e]; try done; rewrite Z.compare_refl;
    change (Pos.compare_cont Eq) with Pos.compare; by rewrite Pos.compare_refl.
Qed.

(** The integers up to 10000, checked one by one. *)
Fixpoint increasing_from (n : nat) (b : Z) : bool :=
  match n with
  | O => true
  | S n => match f64_of_Z b with S754_zero _ | S754_finite false _ _ => true | _ => false end &&
           f64_lt (f64_of_Z b) (f64_of_Z (b + 1)) && increasing_from n (b + 1)
  end.

Lemma increasing_from_sound n b : increasing_from n b = true →
  ∀ x, b ≤ x < b + Z.of_nat n → nonneg (f64_of_Z x) ∧ f64_lt (f64_of_Z x) (f64_of_Z (x + 1)) = true.
Proof.
  revert b. induction n as [|n IH]; intros b Hb x Hx; [lia|]. simpl in Hb.
  apply andb_true_iff in Hb as [[Hb1 Hb2]%andb_true_iff Hb].
  destruct (decide (x = b)) as [->|]; [|apply (IH (b + 1)); [done|lia]].
  split; [|done]. unfold nonneg. by destruct (f64_of_Z b) as [| | |[]].
Qed.

Lemma increasing_10001 : increasing_from (Z.to_nat 10001) 0 = true.
Proof. vm_compute. reflexivity. Qed.

Lemma f64_of_Z_nonneg a : 0 ≤ a ≤ 10000 → nonneg (f64_of_Z a).
Proof. intros. apply (increasing_from_sound _ _ increasing_10001). lia. Qed.

Lemma f64_of_Z_increasing a b : 0 ≤ a < b → b ≤ 10000 → f64_lt (f64_of_Z a) (f64_of_Z b) = true.
Proof.
  intros Hab Hb. replace b with (a + 1 + Z.of_nat (Z.to_nat (b - a - 1))) in * by lia.
  generalize dependent (Z.to_nat (b - a - 1)). intros n. clear b.
  induction n as [|n IH]; intros Hab Hb.
  - replace (a + 1 + Z.of_nat 0) with (a + 1) by lia.
    apply (increasing_from_sound _ _ increasing_10001). lia.
  - apply f64_lt_trans with (f64_of_Z (a + 1 + Z.of_nat n)).
    1-3: apply f64_of_Z_nonneg; lia.
    + apply IH; lia.
    + replace (a + 1 + Z.of_nat (S n)) with (a + 1 + Z.of_nat n + 1) by lia.
      apply (increasing_from_sound _ _ increasing_10001). lia.
Qed.

(** Below a bound that lies just above the integer [a] and not above [a + 1]. *)
Lemma f64_lt_bound a T b :
  nonneg T → 0 ≤ a < 10000 → f64_lt (f64_of_Z a) T = true → f64_lt (f64_of_Z (a + 1)) T = false →
  0 ≤ b ≤ 10000 → f64_lt (f64_of_Z b) T = (b <=? a).
Proof.
  intros HT Ha Hlow Hhigh Hb. destruct (Z.leb_spec b a).
  - destruct (decide (b = a)) as [->|]; [done|].
    apply f64_lt_trans with (f64_of_Z a); try apply f64_of_Z_nonneg; try done; try lia.
    apply f64_of_Z_increasing; lia.
  - destruct (decide (b = a + 1)) as [->|]; [done|].
    destruct (f64_lt (f64_of_Z b) T) eqn:E; [|done].
    rewrite <- Hhigh. symmetry.
    apply f64_lt_trans with (f64_of_Z b); try apply f64_of_Z_nonneg; try done; try lia.
    apply f64_of_Z_increasing; lia.
Qed.

Lemma f64_lt_of_Z a b : 0 ≤ a ≤ 10000 → 0 ≤ b ≤ 10000 →
  f64_lt (f64_of_Z a) (f64_of_Z b) = (a <? b).
Proof.
  intros Ha Hb. destruct (Z.ltb_spec a b).
  - apply f64_of_Z_increasing; lia.
  - destruct (decide (a = b)) as [->|]; [apply f64_lt_irrefl|].
    destruct (f64_lt (f64_of_Z a) (f64_of_Z b)) eqn:E; [|done].
    rewrite <- (f64_lt_irrefl (f64_of_Z a)). symmetry.
    apply f64_lt_trans with (f64_of_Z b); try apply f64_of_Z_nonneg; try done.
    apply f64_of_Z_increasing; lia.
Qed.

(** Whole percentages are exact. *)
Lemma f64_mul_percent :
  forallb (fun k => match f64_mul (f64_of_Z (Z.of_nat k)) (f64_of_Z 100),
                          f64_of_Z (100 * Z.of_nat k) with
                    | S754_zero false, S754_zero false => true
                    | S754_finite false m e, S754_finite false m' e' => (m =? m')%positive && (e =? e')
                    | _, _ => false
                    end) (seq 0 101) = true.
Proof. vm_compute. reflexivity. Qed.

Lemma f64_percent k : 0 ≤ k ≤ 100 →
  f64_mul (f64_of_Z k) (f64_of_Z 100) = f64_of_Z (100 * k).
Proof.
  intros Hk. pose proof f64_mul_percent as H. rewrite forallb_forall in H.
  specialize (H (Z.to_nat k)). rewrite Z2Nat.id in H by lia.
  destruct (f64_mul _ _) as [[]|[]| |[] m e], (f64_of_Z (100 * k)) as [[]|[]| |[] m' e'];
    try (discriminate H; apply in_seq; lia); try done.
  all: rewrite andb_true_iff, Pos.eqb_eq, Z.eqb_eq in H;
    destruct H as [-> ->]; [apply in_seq; lia|done].
Qed.

(** The float nearest to 1.1. *)
Definition one_point_one : f64 := S754_finite false 4953959590107546 (-52).

(** ** Operators *)

(** The operators that negate each other. *)
Definition complement (op : condOperator) : option condOperator :=
  match op with
  | OpAny => Some OpNone
  | OpAnyCaseSensitive => Some OpNoneCaseSensitive
  | OpStrContainsAny => Some OpStrContainsNone
  | OpEq => Some OpNeq
  | OpInSegmentList => Some OpNotInSegmentList
  | _ => None
  end.

Section operators.
Context `{GoRuntime}.

(** Small integers have the same text as an int64 and as a JSON number, and
    the text is its own lower case. *)
Definition small_text_ok (n : nat) : bool :=
  String.eqb (format_f64 (f64_of_Z (Z.of_nat n))) (format_int (Z.of_nat n)) &&
  String.eqb (strings_ToLower (format_int (Z.of_nat n))) (format_int (Z.of_nat n)).

Lemma small_texts : forallb small_text_ok (seq 0 1000) = true.
Proof. vm_compute. reflexivity. Qed.

Lemma small_text n : 0 ≤ n < 1000 →
  format_f64 (f64_of_Z n) = format_int n ∧ strings_ToLower (format_int n) = format_int n.
Proof.
  intros Hn. pose proof small_texts as Hs. rewrite forallb_forall in Hs.
  specialize (Hs (Z.to_nat n)). unfold small_text_ok in Hs. rewrite Z2Nat.id in Hs by lia.
  rewrite andb_true_iff, !String.eqb_eq in Hs. apply Hs. apply in_seq. lia.
Qed.

Lemma compare_bucket n k : 0 ≤ n < 1000 → 0 ≤ k < 1000 →
  compareStrings (VInt64 n) (VFloat64 (f64_of_Z k)) true String.eqb = (n =? k).
Proof.
  intros Hn Hk. unfold compareStrings, compare_text. simpl.
  destruct (small_text n Hn) as [_ Hn2], (small_text k Hk) as [Hk1 Hk2].
  rewrite Hk1, Hk2, Hn2.
  destruct (Z.eqb_spec n k) as [->|Hne]; [apply String.eqb_refl|].
  apply String.eqb_neq. unfold format_int. by intros ?%(inj pretty).
Qed.

Lemma lower_number s : string_forallb number_byte s = true → strings_ToLower s = s.
Proof.
  intros Hs. unfold strings_ToLower.
  assert (string_forallb is_ascii s = true ∧ string_map lower_byte s = s) as [-> ->]; [|done].
  induction s as [|c s IH]; [done|]. simpl in *. apply andb_true_iff in Hs as [Hc Hs].
  destruct (IH Hs) as [-> ->]. destruct (number_byte_lower c Hc) as [-> Hcode].
  split; [|done]. rewrite andb_true_r. by apply Z.ltb_lt.
Qed.
(** An integer never has the text of a JSON number of a million or more. *)
Lemma compare_large v k f : v ∈ [VInt k; VInt32 k; VInt64 k; VUint64 k] → at_least_a_million f →
  compareStrings v (VFloat64 f) true String.eqb = false.
Proof.
  intros Hv Hf. destruct (format_large_bytes f Hf) as [Hb He].
  assert (Hi : string_forallb number_byte (format_int k) = true ∧ string_forallb not_e (format_int k) = true).
  { split; (eapply string_forallb_weaken; [|apply format_int_bytes]); by intros c [??]%andb_true_iff. }
  assert (Hne : String.eqb (format_int k) (format_f64 f) = false).
  { apply String.eqb_neq. intros Heq. destruct Hi as [_ Hi]. rewrite Heq in Hi. congruence. }
  unfold compareStrings, compare_text. rewrite !elem_of_cons, elem_of_nil in Hv.
  destruct Hv as [->|[->|[->|[->|[]]]]]; simpl; rewrite !lower_number by (done || by destruct Hi); done.
Qed.

(** The version an operator compares: the text before a dash. *)
Definition version_prefix (v : string) : string := default "" (head (strings_Split v "-")).
End operators.

(** ** The properties *)

Section claims.
Context `{GoRuntime} {S : Type} `{SpecStore S}.

(** C11. Whole pass percentages are exact: at [k] percent exactly the
    buckets below [100 * k] pass, so 0 lets nobody in, 100 everybody, and a
    larger percentage keeps everyone a smaller one lets in. *)
Theorem whole_percentages_exact user rule spec k :
  0 ≤ k ≤ 100 → rule_PassPercentage rule = f64_of_Z k →
  evalPassPercent user rule spec = (passBucket user rule spec <? 100 * k) ∧
  (k = 0 → evalPassPercent user rule spec = false) ∧
  (k = 100 → evalPassPercent user rule spec = true).
Proof.
  intros Hk Hp. pose proof (passBucket_range user rule spec) as Hb.
  assert (Heq : evalPassPercent user rule spec = (passBucket user rule spec <? 100 * k)).
  { unfold evalPassPercent, passThreshold. rewrite Hp, f64_percent by done.
    apply f64_lt_of_Z; lia. }
  rewrite Heq. split; [done|]. split; intros ->; lia.
Qed.

(** C22. A fractional percentage may let in one bucket too many: 1.1 is
    rounded to binary and 1.1 * 100 to a float above 110, so that bucket 110
    passes and 111 buckets of 10000 are in. *)
Theorem fractional_percentage_rounds_up bucket :
  0 ≤ bucket < 10000 → passThreshold bucket one_point_one = (bucket <=? 110).
Proof.
  intros Hb. unfold passThreshold.
  replace (f64_mul one_point_one (f64_of_Z 100)) with (S754_finite false 7740561859543041 (-46))
    by (vm_compute; reflexivity).
  apply f64_lt_bound; [done|lia|vm_compute; reflexivity..|lia].
Qed.

(** C23. The negated operators negate: [none], [none_case_sensitive],
    [str_contains_none], [neq] and [not_in_segment_list] give the opposite
    of their positive counterpart on every target and value, and panic
    exactly when it does. *)
Theorem negated_operators (s : S) now op op' target value :
  complement op = Some op' →
  evalOperator s now op' target value =
  ((fun r : bool * bool => (negb r.1, r.2)) <$> evalOperator s now op target value).
Proof.
  destruct op; intros [= <-]; try reflexivity. unfold evalOperator.
  by destruct (inSegmentList s target value).
Qed.

(** C24. Membership: on an array target, [any] passes exactly for a
    non-nil value whose text equals, up to case, the text of a non-nil
    element. *)
Theorem any_is_membership (s : S) now l value :
  ∃ p, evalOperator s now OpAny (VSlice l) value = Ret (p, false) ∧
    (p = true ↔ value ≠ VNil ∧ ∃ x, x ∈ l ∧ x ≠ VNil ∧
       strings_ToLower (compare_text value) = strings_ToLower (compare_text x)).
Proof.
  eexists. split; [reflexivity|]. rewrite arrayAny_true. unfold compareStrings. split.
  - intros (l' & x & [= <-] & Hx & Hc).
    destruct (is_nil value) eqn:Hv, (is_nil x) eqn:Hxn; try discriminate Hc.
    apply String.eqb_eq in Hc. split; [by intros ->|]. exists x. split; [done|].
    split; [by intros ->|done].
  - intros (Hv & x & Hx & Hxn & Heq). exists l, x. split; [done|split; [done|]].
    replace (is_nil value) with false by (by destruct value).
    replace (is_nil x) with false by (by destruct x). simpl. by apply String.eqb_eq.
Qed.

(** C25. User buckets: the bucket of a [user_bucket] condition, an int64
    below 1000, is found by [any] among the JSON numbers of its target
    exactly when it is one of them. *)
Theorem user_bucket_any (s : S) now n (ks : list Z) :
  0 ≤ n < 1000 → Forall (fun k => 0 ≤ k < 1000) ks →
  evalOperator s now OpAny (VSlice (map (fun k => VFloat64 (f64_of_Z k)) ks)) (VInt64 n) =
  Ret (bool_decide (n ∈ ks), false).
Proof.
  intros Hn Hks. unfold evalOperator, arrayAny. do 2 f_equal.
  rewrite arrayAny_loop_existsb. induction Hks as [|k ks Hk Hks IH]; [done|].
  simpl. rewrite IH, compare_bucket by done.
  destruct (Z.eqb_spec n k) as [->|Hne]; simpl.
  - symmetry. apply bool_decide_eq_true. apply list_elem_of_here.
  - apply bool_decide_ext. rewrite elem_of_cons. naive_solver.
Qed.

(** C40. A JSON number of a million or more prints with an exponent, and an
    integer without: an int attribute is found by [any] in no list of such numbers,
    not even in one that holds it, and [none] lets it pass. *)
Theorem large_numbers_never_match (s : S) now v k fs :
  v ∈ [VInt k; VInt32 k; VInt64 k; VUint64 k] → Forall at_least_a_million fs →
  evalOperator s now OpAny (VSlice (map VFloat64 fs)) v = Ret (false, false) ∧
  evalOperator s now OpNone (VSlice (map VFloat64 fs)) v = Ret (true, false).
Proof.
  intros Hv Hfs. assert (Hany : arrayAny (VSlice (map VFloat64 fs)) v
    (fun x y => compareStrings x y true String.eqb) = false).
  { unfold arrayAny. rewrite arrayAny_loop_existsb. induction Hfs as [|f fs Hf Hfs IH]; [done|].
    simpl. by rewrite (compare_large v k f). }
  unfold evalOperator. by rewrite Hany.
Qed.

(** C26. Versions are compared as sequences of numbers, zero past the end:
    [compareVersionsHelper] is the lexicographic comparison over any number of
    places that covers both versions, it is 0 exactly when all numbers
    agree, and it is a total preorder. *)
Theorem versions_total_preorder :
  (∀ v w n, (version_length v ≤ n)%nat → (version_length w ≤ n)%nat →
     compareVersionsHelper v w = lex_compare n (version_number v) (version_number w)) ∧
  (∀ v w, compareVersionsHelper v w = 0 ↔ ∀ i, version_number v i = version_number w i) ∧
  (∀ v w, compareVersionsHelper w v = - compareVersionsHelper v w) ∧
  (∀ u v w, compareVersionsHelper u v ≤ 0 → compareVersionsHelper v w ≤ 0 →
     compareVersionsHelper u w ≤ 0).
Proof.
  assert (Hlex := compareVersionsHelper_lex). split; [exact Hlex|split; [|split]].
  - intros v w. set (n := Nat.max (version_length v) (version_length w)).
    rewrite (Hlex v w n) by lia. rewrite lex_compare_zero. split; [|auto].
    intros Heq i. destruct (decide (i < n)%nat); [by apply Heq|].
    rewrite !version_number_beyond by lia. done.
  - intros v w. set (n := Nat.max (version_length v) (version_length w)).
    rewrite (Hlex v w n), (Hlex w v n) by lia. apply lex_compare_antisym.
  - intros u v w. set (n := Nat.max (version_length u) (Nat.max (version_length v) (version_length w))).
    rewrite (Hlex u v n), (Hlex v w n), (Hlex u w n) by lia. apply lex_compare_trans.
Qed.

(** C27. The six version operators agree with one comparison: on two
    strings with a version before the first dash each of them is the test of
    [compareVersionsHelper] on those versions, so that exactly one of less,
    equal and greater holds. *)
Theorem version_operators (s : S) now v w :
  version_prefix v ≠ "" → version_prefix w ≠ "" →
  let c := compareVersionsHelper (version_prefix v) (version_prefix w) in
  evalOperator s now OpVersionLt (VString w) (VString v) = Ret (c <? 0, false) ∧
  evalOperator s now OpVersionEq (VString w) (VString v) = Ret (c =? 0, false) ∧
  evalOperator s now OpVersionGt (VString w) (VString v) = Ret (0 <? c, false) ∧
  evalOperator s now OpVersionLte (VString w) (VString v) = Ret (negb (0 <? c), false) ∧
  evalOperator s now OpVersionGte (VString w) (VString v) = Ret (negb (c <? 0), false) ∧
  evalOperator s now OpVersionNeq (VString w) (VString v) = Ret (negb (c =? 0), false).
Proof.
  intros Hv Hw c.
  assert (Hcmp : ∀ fn, compareVersions (VString v) (VString w) fn =
    fn (version_prefix v) (version_prefix w)).
  { intros fn. unfold compareVersions, version_prefix in *.
    apply String.eqb_neq in Hv, Hw. rewrite Hv, Hw. reflexivity. }
  unfold evalOperator. rewrite !Hcmp. fold c.
  rewrite <- (Z.leb_antisym c 0), <- (Z.leb_antisym 0 c). repeat split; reflexivity.
Qed.

(** C28. [on] compares calendar days: it passes exactly when the two times,
    each in its own zone, fall on the same day. *)
Theorem on_same_day (s : S) now target value :
  ∃ p, evalOperator s now OpOn target value = Ret (p, false) ∧
    (p = true ↔ time_day (getTime now value) = time_day (getTime now target)).
Proof.
  eexists. split; [reflexivity|]. rewrite bool_decide_eq_true. unfold time_Date.
  split; [apply civil_from_days_inj|by intros ->].
Qed.
End claims.

(** ** Witnesses *)
Section witnesses.
#[local] Existing Instance example_runtime.

Lemma whole_percentages_exact_witness :
  evalPassPercent alice (rule "half" 50 []) open_gate =
    (passBucket alice (rule "half" 50 []) open_gate <? 100 * 50).
Proof.
  refine (proj1 (whole_percentages_exact alice (rule "half" 50 []) open_gate 50 _ _)).
  - lia.
  - reflexivity.
Defined.

Lemma fractional_percentage_rounds_up_witness :
  passThreshold 110 one_point_one = true.
Proof. apply (fractional_percentage_rounds_up 110). lia. Defined.

Lemma negated_operators_witness :
  evalOperator example_store example_now OpNeq (VString "a") (VString "b") = Ret (true, false).
Proof.
  rewrite (negated_operators example_store example_now OpEq OpNeq _ _ eq_refl).
  vm_compute. reflexivity.
Defined.

Lemma user_bucket_any_witness :
  evalOperator example_store example_now OpAny
    (VSlice (map (fun k => VFloat64 (f64_of_Z k)) [1; 20; 999])) (VInt64 20) = Ret (true, false).
Proof.
  apply (user_bucket_any example_store example_now 20 [1; 20; 999]); [lia|].
  repeat (apply Forall_cons_2; [lia|]). apply Forall_nil_2.
Defined.

Lemma large_numbers_never_match_witness :
  evalOperator example_store example_now OpAny (VSlice (map VFloat64 [f64_of_Z 1234567])) (VInt 1234567) =
    Ret (false, false) ∧
  evalOperator example_store example_now OpNone (VSlice (map VFloat64 [f64_of_Z 1234567])) (VInt 1234567) =
    Ret (true, false).
Proof.
  apply (large_numbers_never_match example_store example_now (VInt 1234567) 1234567); [left|].
  apply Forall_cons_2; [vm_compute; intros ?; discriminate|apply Forall_nil_2].
Defined.

Lemma version_operators_witness :
  evalOperator example_store example_now OpVersionLt (VString "1.10.0") (VString "1.9-beta") =
  Ret (true, false).
Proof.
  destruct (version_operators example_store example_now "1.9-beta" "1.10.0") as [Hlt _];
    [by vm_compute|by vm_compute|].
  rewrite Hlt. vm_compute. reflexivity.
Defined.
End witnesses.
