(* ===== verification/World.v ===== *)
(** * The state of the running SDK and what lies outside it

    The structs of diagnostics.go, error_boundary.go, transport.go, store.go,
    logger.go and global_state.go that hold state, one [World] record that
    gathers them, the effects the SDK has on the outside, and the class
    [Outside] of what the outside answers: the clock, the network, the data
    adapter, random numbers and encoding/json.

    Every question to the outside consumes one tick of the world, so that two
    readings may differ.  Locks are not part of the state: each operation of a
    component is a computation of one goroutine; the goroutines that are
    started are recorded in [w_goroutines]. *)
From S2P Require Import Prelude GoFloat GoRuntime Hashing Types Evaluator.

(** An error of Go is known by its message. *)
Abbreviation goError := string (only parsing).

(** ** Requests and responses *)

Record statsigMetadata := mkMetadata {
  SDKType : string;
  SDKVersion : string;
  LanguageVersion : string;
}.

Record exposureEvent := mkExposureEvent {
  ee_EventName : string;
  ee_User : User;
  ee_Value : string;
  ee_Metadata : gmap string string;
  ee_SecondaryExposures : list exposure;
  ee_Time : Z;
}.

Inductive DiagnosticsContext := InitializeContext | ConfigSyncContext | ApiCallContext.
#[export] Instance DiagnosticsContext_eq_dec : EqDecision DiagnosticsContext.
Proof. solve_decision. Defined.

Inductive DiagnosticsKey :=
| DownloadConfigSpecsKey | BootstrapKey | GetIDListSourcesKey | GetIDListKey | OverallKey
| DataStoreConfigSpecsKey | CheckGateApiKey | GetConfigApiKey | GetLayerApiKey.
#[export] Instance DiagnosticsKey_eq_dec : EqDecision DiagnosticsKey.
Proof. solve_decision. Defined.

Inductive DiagnosticsStep := NetworkRequestStep | FetchStep | ProcessStep.
#[export] Instance DiagnosticsStep_eq_dec : EqDecision DiagnosticsStep.
Proof. solve_decision. Defined.
Inductive DiagnosticsAction := StartAction | EndAction.
#[export] Instance DiagnosticsAction_eq_dec : EqDecision DiagnosticsAction.
Proof. solve_decision. Defined.

(** [marker] with its embedded [tags]; a nil pointer is None.  [m_context]
    names the [diagnosticsBase] its [diagnostics] field points to. *)
Record marker := mkMarker {
  m_Key : option DiagnosticsKey;
  m_Step : option DiagnosticsStep;
  m_Action : option DiagnosticsAction;
  m_Timestamp : Z;
  m_Success : option bool;
  m_StatusCode : option Z;
  m_SDKRegion : option string;
  m_IDListCount : option Z;
  m_URL : option string;
  m_context : DiagnosticsContext;
}.

(** The elements of the logger's [events], an [interface{}] slice. *)
Inductive loggedEvent :=
| LoggedCustom (evt : Event)
| LoggedExposure (evt : exposureEvent)
| LoggedDiagnostics (context : DiagnosticsContext) (markers : list marker) (time : Z).

(** The values the SDK sends as JSON bodies. *)
Inductive payload :=
| PDownloadConfigs (sinceTime : Z) (metadata : statsigMetadata)
| PGetIDLists (metadata : statsigMetadata)
| PLogEvent (events : list loggedEvent) (metadata : statsigMetadata)
| PCheckGate (gateName : string) (user : User) (metadata : statsigMetadata)
| PGetConfig (configName : string) (user : User) (metadata : statsigMetadata)
| PLogException (exception info : string).

Record httpRequest := mkRequest {
  req_Method : string;
  req_URL : string;
  req_Header : list (string * string);
  req_Body : option payload;
}.

(** [Header] maps canonical names to their values; [Body] is what reading the
    body gives, its text or an error. *)
Record httpResponse := mkResponse {
  StatusCode : Z;
  Header : gmap string (list string);
  Body : string + goError;
}.

(** [client.Do]: a response, or an error with possibly a response. *)
Inductive httpResult :=
| HttpDone (response : httpResponse)
| HttpFailed (response : option httpResponse) (err : goError).

(** [res.Header[key]] and [res.Header.Get(key)] for a canonical key. *)
Definition header_values (res : httpResponse) (key : string) : list string :=
  default [] (Header res !! key).
Definition header_get (res : httpResponse) (key : string) : string :=
  safeGetFirst (header_values res key).

(** The server's description of an ID list, a decoded [idList] without ids. *)
Record serverIDList := mkServerList {
  srv_Size : Z;
  srv_CreationTime : Z;
  srv_URL : string;
  srv_FileID : string;
}.

Record gateResponse := mkGateResponse {
  gr_Name : string; gr_Value : bool; gr_RuleID : string;
}.
Record configResponse := mkConfigResponse {
  cr_Name : string; cr_Value : option GoMap; cr_RuleID : string;
}.

(** ** Effects, in the order they happen *)

Inductive effect :=
| EHttp (req : httpRequest)
| ESleep (duration : Z)
| EStdout (text : string)
| EStdoutValue                       (* fmt.Print of a value that is no string or error *)
| EStderr (text : string)
| ELogCallback (msg : string) (err : option goError)
| ERulesUpdated (rules : string) (time : Z)
| EAdapterInitialize
| EAdapterGet (key : string)
| EAdapterSet (key value : string)
| EAdapterShouldBeUsed (key : string)
| EAdapterShutdown.

(** ** The components' state *)

Record diagnosticsBase := mkDiagnosticsBase {
  db_context : DiagnosticsContext;
  db_markers : list marker;
  db_samplingRates : gmap string Z;
}.
Record diagnostics := mkDiagnostics {
  initDiagnostics : diagnosticsBase;
  syncDiagnostics : diagnosticsBase;
  apiDiagnostics : diagnosticsBase;
}.

Record transport := mkTransport {
  tr_api : string;
  tr_sdkKey : string;
  tr_metadata : statsigMetadata;
  tr_LocalMode : bool;               (* options.LocalMode *)
  tr_sessionID : string;
}.

Record errorBoundary := mkErrorBoundary {
  eb_api : string;
  eb_endpoint : string;
  eb_sdkKey : string;
  eb_seen : gset string;             (* the keys mapped to true *)
}.

Record store := mkStore {
  st_featureGates : gmap string configSpec;
  st_dynamicConfigs : gmap string configSpec;
  st_layerConfigs : gmap string configSpec;
  st_experimentToLayer : gmap string string;
  st_sdkKeysToAppID : gmap string string;
  st_idLists : gmap string idList;
  st_lastSyncTime : Z;
  st_initialSyncTime : Z;
  st_initReason : evaluationReason;
  st_initializedIDLists : bool;
  st_transport : transport;
  st_configSyncInterval : Z;
  st_idListSyncInterval : Z;
  st_shutdown : bool;
  st_rulesUpdatedCallback : bool;    (* whether the callback is set *)
  st_dataAdapter : bool;             (* whether the adapter is set *)
  st_syncFailureCount : Z;
}.

Record logger := mkLogger {
  lg_events : list loggedEvent;
  lg_transport : transport;
  lg_tickStopped : bool;
  lg_maxEvents : Z;
  lg_options : StatsigLoggerOptions;
}.

(** The goroutines the SDK starts. *)
Inductive goroutine :=
| GoSendEvents (events : list loggedEvent)
| GoBackgroundFlush
| GoPollForRulesetChanges
| GoPollForIDListChanges.

Record World := mkWorld {
  w_diagnostics : diagnostics;
  w_errorBoundary : errorBoundary;
  w_store : store;
  w_logger : logger;
  w_overrides : overrides;
  w_outputLogger : option OutputLoggerOptions;   (* global.logger *)
  w_goroutines : list goroutine;
  w_tick : nat;
  w_trace : list effect;
}.

Definition upd_diagnostics f w := mkWorld (f (w_diagnostics w)) (w_errorBoundary w) (w_store w)
  (w_logger w) (w_overrides w) (w_outputLogger w) (w_goroutines w) (w_tick w) (w_trace w).
Definition upd_errorBoundary f w := mkWorld (w_diagnostics w) (f (w_errorBoundary w)) (w_store w)
  (w_logger w) (w_overrides w) (w_outputLogger w) (w_goroutines w) (w_tick w) (w_trace w).
Definition upd_store f w := mkWorld (w_diagnostics w) (w_errorBoundary w) (f (w_store w))
  (w_logger w) (w_overrides w) (w_outputLogger w) (w_goroutines w) (w_tick w) (w_trace w).
Definition upd_logger f w := mkWorld (w_diagnostics w) (w_errorBoundary w) (w_store w)
  (f (w_logger w)) (w_overrides w) (w_outputLogger w) (w_goroutines w) (w_tick w) (w_trace w).
Definition upd_overrides f w := mkWorld (w_diagnostics w) (w_errorBoundary w) (w_store w)
  (w_logger w) (f (w_overrides w)) (w_outputLogger w) (w_goroutines w) (w_tick w) (w_trace w).
Definition upd_outputLogger f w := mkWorld (w_diagnostics w) (w_errorBoundary w) (w_store w)
  (w_logger w) (w_overrides w) (f (w_outputLogger w)) (w_goroutines w) (w_tick w) (w_trace w).
Definition upd_goroutines f w := mkWorld (w_diagnostics w) (w_errorBoundary w) (w_store w)
  (w_logger w) (w_overrides w) (w_outputLogger w) (f (w_goroutines w)) (w_tick w) (w_trace w).
Definition upd_tick f w := mkWorld (w_diagnostics w) (w_errorBoundary w) (w_store w)
  (w_logger w) (w_overrides w) (w_outputLogger w) (w_goroutines w) (f (w_tick w)) (w_trace w).
Definition upd_trace f w := mkWorld (w_diagnostics w) (w_errorBoundary w) (w_store w)
  (w_logger w) (w_overrides w) (w_outputLogger w) (w_goroutines w) (w_tick w) (f (w_trace w)).

Abbreviation M := (GoM World).

(** ** The outside

    What is not code under src/: the clock and its local zone, math/rand,
    the HTTP client, the data adapter and the callbacks of the application,
    uuid and runtime, and the texts encoding/json reads and writes.  An answer
    depends on the tick of the question.

    - [out_order]: the order in which [range] visits the keys of a map, each
      once, is unspecified;
    - [out_rand]: [math.Floor(rand.Float64() * 10_000)];
    - an adapter's methods may panic: [inr] or [Some] is the panic. *)
Class Outside := {
  out_now : nat → Z;                                      (* Unix nanoseconds *)
  out_rfc3339 : Z → string;                               (* Format(time.RFC3339) *)
  out_rand : nat → Z;
  out_order : nat → list string → list string;
  out_order_perm : ∀ i keys, out_order i keys ≡ₚ keys;
  out_uuid : nat → string;
  out_stack : nat → string;
  out_quote : string → string;                            (* strconv.Quote *)
  out_go_version : string;
  out_new_request : string → string → option goError;     (* http.NewRequest *)
  out_http : nat → httpRequest → httpResult;
  out_marshal : payload → option goError;                 (* the error of json.Marshal *)
  out_marshal_specs : downloadConfigSpecResponse → string * option goError;
  out_unmarshal_specs : string → downloadConfigSpecResponse * option goError;
  out_unmarshal_id_lists : string → gmap string serverIDList * option goError;
  out_unmarshal_gate : string → gateResponse * option goError;
  out_unmarshal_config : string → configResponse * option goError;
  out_unmarshal_log : string → option goError;
  out_adapter_initialize : nat → option goPanic;
  out_adapter_get : nat → string → string + goPanic;
  out_adapter_set : nat → string → string → option goPanic;
  out_adapter_should_be_used : nat → string → bool + goPanic;
  out_adapter_shutdown : nat → option goPanic;
}.

Section primitives.
Context `{Outside}.

Definition emit (e : effect) : M () := modify (upd_trace (fun l => l ++ [e])).
Definition next_tick : M nat := fun w => (Ret (w_tick w), upd_tick S w).

(** [time.Now().UnixNano()] and [getUnixMilli]. *)
Definition now_nanos : M Z := out_now <$> next_tick.
Definition now_millis : M Z := getUnixMilli <$> now_nanos.

Definition go (g : goroutine) : M () := modify (upd_goroutines (fun l => l ++ [g])).
Definition sleep (d : Z) : M () := emit (ESleep d).

(** [range m]: the entries of a map in an unspecified order. *)
Definition entries_in_order {A} (m : gmap string A) (order : list string) : list (string * A) :=
  omap (fun k => (fun v => (k, v)) <$> m !! k) order.
Definition range_map {A} (m : gmap string A) : M (list (string * A)) :=
  (fun i => entries_in_order m (out_order i (map_to_list m).*1)) <$> next_tick.

(** [client.Do(req)]. *)
Definition client_Do (req : httpRequest) : M httpResult :=
  emit (EHttp req) ≫= fun _ => i ← next_tick; mret (out_http i req).

(** The methods of the data adapter. *)
Definition panic_if (p : option goPanic) : M () :=
  match p with Some e => go_panic e | None => mret () end.
Definition return_or_panic {A} (r : A + goPanic) : M A :=
  match r with inl a => mret a | inr e => go_panic e end.
Definition adapter_Initialize : M () :=
  emit EAdapterInitialize ≫= fun _ => i ← next_tick; panic_if (out_adapter_initialize i).
Definition adapter_Get (key : string) : M string :=
  emit (EAdapterGet key) ≫= fun _ => i ← next_tick; return_or_panic (out_adapter_get i key).
Definition adapter_Set (key value : string) : M () :=
  emit (EAdapterSet key value) ≫= fun _ => i ← next_tick; panic_if (out_adapter_set i key value).
Definition adapter_ShouldBeUsed (key : string) : M bool :=
  emit (EAdapterShouldBeUsed key) ≫= fun _ =>
  i ← next_tick; return_or_panic (out_adapter_should_be_used i key).
Definition adapter_Shutdown : M () :=
  emit EAdapterShutdown ≫= fun _ => i ← next_tick; panic_if (out_adapter_shutdown i).

(** ** Laws of the primitives *)

Lemma entries_in_order_lookup {A} (m : gmap string A) order k v :
  (k, v) ∈ entries_in_order m order ↔ k ∈ order ∧ m !! k = Some v.
Proof.
  unfold entries_in_order. rewrite list_elem_of_omap. split.
  - intros (k' & Hk' & Heq). destruct (m !! k') eqn:E; simplify_eq/=. done.
  - intros [Hk Hv]. exists k. by rewrite Hv.
Qed.

Lemma entries_keys {A} (m : gmap string A) order :
  (∀ k, k ∈ order → is_Some (m !! k)) → (entries_in_order m order).*1 = order.
Proof.
  induction order as [|k order IH]; intros Hall; [done|].
  unfold entries_in_order. simpl.
  destruct (Hall k) as [v Hv]; [left|]. rewrite Hv. simpl. f_equal.
  apply IH. intros k' Hk'. apply Hall. by right.
Qed.

(** [range] visits every entry of the map exactly once. *)
Lemma range_entries {A} i (m : gmap string A) :
  let l := entries_in_order m (out_order i (map_to_list m).*1) in
  NoDup l.*1 ∧ ∀ k v, (k, v) ∈ l ↔ m !! k = Some v.
Proof.
  assert (Hin : ∀ k, k ∈ out_order i (map_to_list m).*1 ↔ is_Some (m !! k)).
  { intros k. rewrite out_order_perm, list_elem_of_fmap. split.
    - intros ([k' v] & -> & Hkv). apply elem_of_map_to_list in Hkv. by exists v.
    - intros [v Hv]. exists (k, v). split; [done|]. by apply elem_of_map_to_list. }
  split.
  - rewrite entries_keys by (intros k; apply Hin). rewrite out_order_perm. apply NoDup_fst_map_to_list.
  - intros k v. rewrite entries_in_order_lookup. split; [by intros [_ ?]|].
    intros Hv. split; [|done]. apply Hin. by exists v.
Qed.

Lemma total_emit e : total (emit e).
Proof. apply total_modify. Qed.
Lemma total_next_tick : total next_tick.
Proof. intros w. by eexists. Qed.
Lemma total_fmap {A B} (f : A → B) (m : M A) : total m → total (f <$> m).
Proof.
  intros Hm w. destruct (Hm w) as [a Ha]. exists (f a).
  unfold fmap, gom_fmap. destruct (m w) as [r w']; simpl in *; by subst r.
Qed.
Lemma total_go g : total (go g).
Proof. apply total_modify. Qed.
Lemma total_client_Do req : total (client_Do req).
Proof. intros w. by eexists. Qed.
Lemma total_range_map {A} (m : gmap string A) : total (range_map m).
Proof. apply total_fmap, total_next_tick. Qed.
Lemma total_now_nanos : total now_nanos.
Proof. apply total_fmap, total_next_tick. Qed.
Lemma total_now_millis : total now_millis.
Proof. apply total_fmap, total_now_nanos. Qed.
Lemma keeps_fmap {A B C} (f : World → C) (g : A → B) (m : M A) : keeps f m → keeps f (g <$> m).
Proof.
  intros Hm w. specialize (Hm w). unfold fmap, gom_fmap. by destruct (m w) as [[]].
Qed.

(** The primitives change ticks and trace only, [go] aside. *)
Definition core (w : World) :=
  (w_diagnostics w, w_errorBoundary w, w_store w, w_logger w, w_overrides w, w_outputLogger w, w_goroutines w).
Lemma core_emit e : keeps core (emit e).
Proof. by intros []. Qed.
Lemma core_next_tick : keeps core next_tick.
Proof. by intros []. Qed.
Lemma core_panic_if p : keeps core (panic_if p).
Proof. by destruct p. Qed.
Lemma core_return_or_panic {A} (r : A + goPanic) : keeps core (return_or_panic r).
Proof. by destruct r. Qed.
Lemma core_adapter_Initialize : keeps core adapter_Initialize.
Proof. intros w. unfold adapter_Initialize, mbind, gom_bind. simpl. by destruct (out_adapter_initialize _). Qed.
Lemma core_adapter_Get key : keeps core (adapter_Get key).
Proof. intros w. unfold adapter_Get, mbind, gom_bind. simpl. by destruct (out_adapter_get _ _). Qed.
Lemma core_adapter_Set key v : keeps core (adapter_Set key v).
Proof. intros w. unfold adapter_Set, mbind, gom_bind. simpl. by destruct (out_adapter_set _ _ _). Qed.
Lemma core_adapter_ShouldBeUsed key : keeps core (adapter_ShouldBeUsed key).
Proof. intros w. unfold adapter_ShouldBeUsed, mbind, gom_bind. simpl. by destruct (out_adapter_should_be_used _ _). Qed.
Lemma core_adapter_Shutdown : keeps core adapter_Shutdown.
Proof. intros w. unfold adapter_Shutdown, mbind, gom_bind. simpl. by destruct (out_adapter_shutdown _). Qed.
End primitives.

#[export] Hint Resolve total_emit total_next_tick total_fmap total_go total_client_Do
  total_range_map total_now_nanos total_now_millis : total.
#[export] Hint Resolve keeps_fmap : preserve.

(** [keeps f m] from a larger part [g] that [m] is known to leave alone. *)
Ltac keeps_from g lem :=
  lazymatch goal with |- keeps ?f _ =>
    apply (keeps_weaken g); [apply lem|unfold g; try unfold f; simpl; intros; congruence]
  end.
#[export] Hint Extern 2 (keeps _ adapter_Initialize) => (keeps_from (@core) core_adapter_Initialize) : preserve.
#[export] Hint Extern 2 (keeps _ (adapter_Get _)) => (keeps_from (@core) core_adapter_Get) : preserve.
#[export] Hint Extern 2 (keeps _ (adapter_Set _ _)) => (keeps_from (@core) core_adapter_Set) : preserve.
#[export] Hint Extern 2 (keeps _ (adapter_ShouldBeUsed _)) => (keeps_from (@core) core_adapter_ShouldBeUsed) : preserve.
#[export] Hint Extern 2 (keeps _ adapter_Shutdown) => (keeps_from (@core) core_adapter_Shutdown) : preserve.
#[export] Hint Extern 1 (keeps _ (emit _)) => (apply keeps_modify; reflexivity) : preserve.
#[export] Hint Extern 1 (keeps _ (go _)) => (apply keeps_modify; reflexivity) : preserve.
#[export] Hint Extern 1 (keeps _ next_tick) => (intros ?; reflexivity) : preserve.
#[export] Hint Extern 1 (keeps _ (client_Do _)) => (intros ?; reflexivity) : preserve.
#[export] Hint Extern 1 (keeps _ (range_map _)) => (intros ?; reflexivity) : preserve.
#[export] Hint Extern 1 (keeps _ now_nanos) => (intros ?; reflexivity) : preserve.
#[export] Hint Extern 1 (keeps _ now_millis) => (intros ?; reflexivity) : preserve.
