(* ===== verification/Diagnostics.v ===== *)
(** * output_logger.go, global_state.go, diagnostics.go and statsig_metadata.go

    The output logger and its global accessor; the diagnostics markers, their
    builder methods, [mark], sampling and clearing. *)
From S2P Require Import Prelude GoFloat GoRuntime Types Evaluator World.

(** ** The output logger *)

Inductive StatsigProcess := StatsigProcessInitialize | StatsigProcessSync | StatsigProcessNone.
#[export] Instance StatsigProcess_eq_dec : EqDecision StatsigProcess.
Proof. solve_decision. Defined.
Definition process_string (p : StatsigProcess) : string :=
  match p with
  | StatsigProcessInitialize => "Initialize"
  | StatsigProcessSync => "Sync"
  | StatsigProcessNone => ""
  end.

Section output_logger.
Context `{Outside}.

Definition global_Logger : M (option OutputLoggerOptions) := gets w_outputLogger.
Definition InitializeGlobalOutputLogger (options : OutputLoggerOptions) : M () :=
  modify (upd_outputLogger (fun _ => Some options)).

Definition newline : string := String "010"%char "".

(** [OutputLogger.Log]: the callback, or the message and the error on standard output. *)
Definition Log (o : option OutputLoggerOptions) (msg : string) (err : option goError) : M () :=
  if match o with Some options => LogCallback options | None => false end
  then emit (ELogCallback msg err)
  else
    let formatted :=
      match err with
      | Some e => ((if String.eqb msg "" then msg else msg +:+ newline) +:+ e)%string
      | None => msg
      end in
    when (negb (String.eqb formatted "")) (emit (EStdout formatted)).

(** [OutputLogger.LogStep]. *)
Definition LogStep (o : option OutputLoggerOptions) (process : StatsigProcess) (msg : string) : M () :=
  match o with
  | None => mret ()
  | Some options =>
      if negb (EnableDebug options) then mret ()
      else if olo_DisableInitDiagnostics options && bool_decide (process = StatsigProcessInitialize)
      then mret ()
      else if olo_DisableSyncDiagnostics options && bool_decide (process = StatsigProcessSync)
      then mret ()
      else
        timestamp ← out_rfc3339 <$> now_nanos;
        Log o ("[" +:+ timestamp +:+ "][Statsig] " +:+ process_string process +:+ ": " +:+
               msg +:+ newline)%string None
  end.

(** [OutputLogger.LogError] on a recovered value. *)
Definition LogError (o : option OutputLoggerOptions) (err : goPanic) : M () :=
  match err with
  | PanicString s => Log o s None
  | PanicError e => Log o "" (Some e)
  | PanicOther => emit EStdoutValue
  end.

Lemma total_Log o msg err : total (Log o msg err).
Proof. unfold Log. walk_total. Qed.
Lemma total_LogStep o p msg : total (LogStep o p msg).
Proof. unfold LogStep. walk_total. apply total_Log. Qed.
Lemma total_LogError o err : total (LogError o err).
Proof. destruct err; simpl; [apply total_Log|apply total_Log|apply total_emit]. Qed.
Lemma core_Log o msg err : keeps core (Log o msg err).
Proof. unfold Log. walk_keeps. Qed.
Lemma core_LogStep o p msg : keeps core (LogStep o p msg).
Proof. unfold LogStep. walk_keeps. all: apply core_Log. Qed.
Lemma core_LogError o err : keeps core (LogError o err).
Proof. destruct err; simpl; [apply core_Log|apply core_Log|apply core_emit]. Qed.

(** ** Metadata *)

Definition getStatsigMetadata : statsigMetadata :=
  mkMetadata "go-sdk" "1.12.1"
    (String.substring 2 (String.length out_go_version - 2) out_go_version).
End output_logger.

#[export] Hint Resolve total_Log total_LogStep total_LogError : total.

(** ** Markers *)

Definition context_string (c : DiagnosticsContext) : string :=
  match c with
  | InitializeContext => "initialize"
  | ConfigSyncContext => "config_sync"
  | ApiCallContext => "api_call"
  end.
Definition key_string (k : DiagnosticsKey) : string :=
  match k with
  | DownloadConfigSpecsKey => "download_config_specs"
  | BootstrapKey => "bootstrap"
  | GetIDListSourcesKey => "get_id_list_sources"
  | GetIDListKey => "get_id_list"
  | OverallKey => "overall"
  | DataStoreConfigSpecsKey => "data_store_config_specs"
  | CheckGateApiKey => "check_gate"
  | GetConfigApiKey => "get_config"
  | GetLayerApiKey => "get_layer"
  end.

Definition newDiagnostics : diagnostics :=
  mkDiagnostics (mkDiagnosticsBase InitializeContext [] ∅)
    (mkDiagnosticsBase ConfigSyncContext [] ∅) (mkDiagnosticsBase ApiCallContext [] ∅).

(** [&marker{diagnostics: d}]. *)
Definition new_marker (c : DiagnosticsContext) : marker :=
  mkMarker None None None 0 None None None None None c.
Definition initialize : marker := new_marker InitializeContext.
Definition configSync : marker := new_marker ConfigSyncContext.
Definition api : marker := new_marker ApiCallContext.

(** The builder methods.  Each allocates a new value for its field, so the
    copies already appended to [markers] do not change. *)
Definition set_key (k : DiagnosticsKey) (m : marker) : marker :=
  mkMarker (Some k) (m_Step m) (m_Action m) (m_Timestamp m) (m_Success m) (m_StatusCode m)
    (m_SDKRegion m) (m_IDListCount m) (m_URL m) (m_context m).
Definition set_step (s : DiagnosticsStep) (m : marker) : marker :=
  mkMarker (m_Key m) (Some s) (m_Action m) (m_Timestamp m) (m_Success m) (m_StatusCode m)
    (m_SDKRegion m) (m_IDListCount m) (m_URL m) (m_context m).
Definition set_action (a : DiagnosticsAction) (m : marker) : marker :=
  mkMarker (m_Key m) (m_Step m) (Some a) (m_Timestamp m) (m_Success m) (m_StatusCode m)
    (m_SDKRegion m) (m_IDListCount m) (m_URL m) (m_context m).
Definition set_timestamp (t : Z) (m : marker) : marker :=
  mkMarker (m_Key m) (m_Step m) (m_Action m) t (m_Success m) (m_StatusCode m)
    (m_SDKRegion m) (m_IDListCount m) (m_URL m) (m_context m).
Definition success (val : bool) (m : marker) : marker :=
  mkMarker (m_Key m) (m_Step m) (m_Action m) (m_Timestamp m) (Some val) (m_StatusCode m)
    (m_SDKRegion m) (m_IDListCount m) (m_URL m) (m_context m).
Definition statusCode (val : Z) (m : marker) : marker :=
  mkMarker (m_Key m) (m_Step m) (m_Action m) (m_Timestamp m) (m_Success m) (Some val)
    (m_SDKRegion m) (m_IDListCount m) (m_URL m) (m_context m).
Definition sdkRegion (val : string) (m : marker) : marker :=
  mkMarker (m_Key m) (m_Step m) (m_Action m) (m_Timestamp m) (m_Success m) (m_StatusCode m)
    (Some val) (m_IDListCount m) (m_URL m) (m_context m).
Definition idListCount (val : Z) (m : marker) : marker :=
  mkMarker (m_Key m) (m_Step m) (m_Action m) (m_Timestamp m) (m_Success m) (m_StatusCode m)
    (m_SDKRegion m) (Some val) (m_URL m) (m_context m).
Definition url (val : string) (m : marker) : marker :=
  mkMarker (m_Key m) (m_Step m) (m_Action m) (m_Timestamp m) (m_Success m) (m_StatusCode m)
    (m_SDKRegion m) (m_IDListCount m) (Some val) (m_context m).

Definition downloadConfigSpecs := set_key DownloadConfigSpecsKey.
Definition bootstrap := set_key BootstrapKey.
Definition getIdListSources := set_key GetIDListSourcesKey.
Definition getIdList := set_key GetIDListKey.
Definition overall := set_key OverallKey.
Definition dataStoreConfigSpecs := set_key DataStoreConfigSpecsKey.
Definition checkGate_key := set_key CheckGateApiKey.
Definition getConfig_key := set_key GetConfigApiKey.
Definition getLayer_key := set_key GetLayerApiKey.
Definition networkRequest := set_step NetworkRequestStep.
Definition fetch := set_step FetchStep.
Definition process := set_step ProcessStep.
Definition start := set_action StartAction.
Definition end_ := set_action EndAction.

(** [m.f().g()] reads [m ▷ f ▷ g]. *)
Notation "m ▷ f" := (f m) (at level 40, left associativity, only parsing) : go_scope.
#[global] Open Scope go_scope.

(** The [diagnosticsBase] a context names. *)
Definition base_of (c : DiagnosticsContext) (d : diagnostics) : diagnosticsBase :=
  match c with
  | InitializeContext => initDiagnostics d
  | ConfigSyncContext => syncDiagnostics d
  | ApiCallContext => apiDiagnostics d
  end.
Definition upd_base (c : DiagnosticsContext) (f : diagnosticsBase → diagnosticsBase)
    (d : diagnostics) : diagnostics :=
  match c with
  | InitializeContext => mkDiagnostics (f (initDiagnostics d)) (syncDiagnostics d) (apiDiagnostics d)
  | ConfigSyncContext => mkDiagnostics (initDiagnostics d) (f (syncDiagnostics d)) (apiDiagnostics d)
  | ApiCallContext => mkDiagnostics (initDiagnostics d) (syncDiagnostics d) (f (apiDiagnostics d))
  end.
Definition set_markers (ms : list marker) (b : diagnosticsBase) : diagnosticsBase :=
  mkDiagnosticsBase (db_context b) ms (db_samplingRates b).
Definition set_rates (rates : gmap string Z) (b : diagnosticsBase) : diagnosticsBase :=
  mkDiagnosticsBase (db_context b) (db_markers b) rates.

Section diagnostics.
Context `{Outside}.

(** A read through a pointer. *)
Definition deref {A} (p : option A) : outcome A :=
  match p with Some a => Ret a | None => Panic nil_dereference end.

(** [diagnosticsBase.logProcess]. *)
Definition base_logProcess (c : DiagnosticsContext) (msg : string) : M () :=
  let process := match c with
                 | InitializeContext => StatsigProcessInitialize
                 | ConfigSyncContext => StatsigProcessSync
                 | ApiCallContext => StatsigProcessNone
                 end in
  o ← global_Logger; LogStep o process msg.

(** The messages of [marker.logProcess] for a source of specs: its loading
    step, then the process step. *)
Definition source_message (load : DiagnosticsStep) (source : string) (m : marker) : outcome string :=
  step ← deref (m_Step m);
  if decide (step = load) then
    action ← deref (m_Action m);
    match action with
    | StartAction => Ret ("Loading specs from " +:+ source +:+ "...")%string
    | EndAction =>
        ok ← deref (m_Success m);
        Ret (if (ok : bool) then "Done loading specs from " +:+ source
             else "Failed to load specs from " +:+ source)%string
    end
  else if decide (step = ProcessStep) then
    action ← deref (m_Action m);
    match action with
    | StartAction => Ret ("Processing specs from " +:+ source +:+ "...")%string
    | EndAction =>
        ok ← deref (m_Success m);
        Ret (if (ok : bool) then "Done processing specs from " +:+ source
             else "No updates to specs from " +:+ source)%string
    end
  else Ret "".

(** The message of [marker.logProcess]; pointers are read only on the way. *)
Definition marker_message (m : marker) : outcome string :=
  key ← deref (m_Key m);
  match key with
  | OverallKey =>
      action ← deref (m_Action m);
      match action with StartAction => Ret "Starting..." | EndAction => Ret "Done" end
  | DownloadConfigSpecsKey => source_message NetworkRequestStep "network" m
  | DataStoreConfigSpecsKey => source_message FetchStep "adapter" m
  | _ => Ret ""
  end.
Definition logProcess (m : marker) : M () :=
  msg ← lift_outcome (marker_message m); base_logProcess (m_context m) msg.

(** [mark]: stamp the marker, append it to its base and log it. *)
Definition append_marker (m : marker) (b : diagnosticsBase) : diagnosticsBase :=
  set_markers (db_markers b ++ [m]) b.
Definition mark (m : marker) : M () :=
  t ← now_millis;
  let m := set_timestamp t m in
  modify (upd_diagnostics (upd_base (m_context m) (append_marker m))) ≫= fun _ =>
  logProcess m.

(** [sample]: true means the markers are dropped. *)
Definition sample (rate_over_ten_thousand : Z) : M bool :=
  (fun i => out_rand i <? rate_over_ten_thousand) <$> next_tick.

(** The loop of [serializeWithSampling]: one draw per key. *)
Fixpoint sampling_loop (rates : gmap string Z) (ms : list marker) (sampledKeys : gmap string bool)
    (markers : list marker) : M (list marker) :=
  match ms with
  | [] => mret markers
  | m :: ms =>
      key ← lift_outcome (deref (m_Key m));
      let markerKey := key_string key in
      sampledKeys ←
        (match sampledKeys !! markerKey with
         | Some _ => mret sampledKeys
         | None =>
             match rates !! markerKey with
             | None => mret (<[markerKey := false]> sampledKeys)
             | Some sampleRate =>
                 (fun b => <[markerKey := b]> sampledKeys) <$> sample sampleRate
             end
         end);
      sampling_loop rates ms sampledKeys
        (if default false (sampledKeys !! markerKey) then markers else markers ++ [m])
  end.
Definition serializeWithSampling (c : DiagnosticsContext) : M (list marker) :=
  b ← gets (base_of c ∘ w_diagnostics);
  sampling_loop (db_samplingRates b) (db_markers b) ∅ [].

Definition updateSamplingRates (c : DiagnosticsContext) (rates : gmap string Z) : M () :=
  modify (upd_diagnostics (upd_base c (set_rates rates))).
Definition clearMarkers (c : DiagnosticsContext) : M () :=
  modify (upd_diagnostics (upd_base c (set_markers []))).

(** ** Markers that the code builds *)

(** A marker [mark] can log: its key is set, and so is whatever the messages
    of its key read. *)
Definition marker_ok (m : marker) : bool :=
  match marker_message m with Ret _ => true | _ => false end.

Lemma marker_message_timestamp t m : marker_message (set_timestamp t m) = marker_message m.
Proof. done. Qed.

Lemma total_base_logProcess c msg : total (base_logProcess c msg).
Proof. unfold base_logProcess, global_Logger. walk_total. Qed.

Lemma total_logProcess m : marker_ok m = true → total (logProcess m).
Proof.
  unfold marker_ok, logProcess. intros Hm w. unfold mbind, gom_bind, lift_outcome.
  destruct (marker_message m) as [msg| |]; [|done..].
  apply total_base_logProcess.
Qed.

Lemma total_mark m : marker_ok m = true → total (mark m).
Proof.
  intros Hm. unfold mark. apply total_bind; [auto with total|]. intros t.
  apply total_bind; [auto with total|]. intros _. by apply total_logProcess.
Qed.

(** What [mark] leaves alone: everything but the markers. *)
Definition behind_diagnostics (w : World) :=
  (w_errorBoundary w, w_store w, w_logger w, w_overrides w, w_outputLogger w, w_goroutines w).
Lemma behind_core {A} (m : M A) : keeps core m → keeps behind_diagnostics m.
Proof. intros Hm. apply (keeps_weaken core); [done|]. unfold core, behind_diagnostics. congruence. Qed.

Lemma total_sample rate : total (sample rate).
Proof. apply total_fmap, total_next_tick. Qed.
Lemma core_sample rate : keeps core (sample rate).
Proof. by intros []. Qed.

Lemma behind_logProcess m : keeps core (logProcess m).
Proof. unfold logProcess, base_logProcess, global_Logger. walk_keeps. all: apply core_LogStep. Qed.

Lemma behind_mark m : keeps behind_diagnostics (mark m).
Proof. unfold mark. walk_keeps. all: by apply behind_core, behind_logProcess. Qed.

Lemma behind_sampling rates ms keys acc : keeps core (sampling_loop rates ms keys acc).
Proof.
  revert keys acc. induction ms as [|m ms IH]; intros keys acc; simpl; [apply keeps_ret|].
  apply keeps_bind; [apply keeps_lift|]. intros key.
  apply keeps_bind; [|intros; apply IH]. walk_keeps.
  apply keeps_fmap, core_sample.
Qed.
Lemma core_serialize c : keeps core (serializeWithSampling c).
Proof. unfold serializeWithSampling. walk_keeps. apply behind_sampling. Qed.
End diagnostics.

#[export] Hint Resolve total_sample : total.
#[export] Hint Extern 2 (total (mark _)) => (apply total_mark; reflexivity) : total.

#[export] Hint Extern 1 (keeps _ (sample _)) => (intros ?; reflexivity) : preserve.
#[export] Hint Extern 2 (keeps _ (mark _)) => (keeps_from behind_diagnostics behind_mark) : preserve.
#[export] Hint Extern 2 (keeps _ (serializeWithSampling _)) => (keeps_from core core_serialize) : preserve.
#[export] Hint Extern 2 (keeps _ (Log _ _ _)) => (keeps_from core core_Log) : preserve.
#[export] Hint Extern 2 (keeps _ (LogStep _ _ _)) => (keeps_from core core_LogStep) : preserve.
#[export] Hint Extern 2 (keeps _ (LogError _ _)) => (keeps_from core core_LogError) : preserve.
