(* ===== verification/ErrorBoundary.v ===== *)
(** * error_boundary.go

    Reporting of exceptions, each message once, and the wrappers that turn a
    panic of an API call into its zero result. *)
From S2P Require Import Prelude GoFloat GoRuntime Hashing Types Evaluator World Diagnostics.

Definition ErrorBoundaryAPI : string := "https://statsigapi.net/v1".
Definition ErrorBoundaryEndpoint : string := "/sdk_exception".
Definition InvalidSDKKeyError : goError := "Must provide a valid SDK key.".
Definition EmptyUserError : goError :=
  "A non-empty StatsigUser.UserID or StatsigUser.CustomIDs is required. See https://docs.statsig.com/messages/serverRequiredUserID".
Definition EventBatchSizeError : goError :=
  "The max number of events supported in one batch is 500. Please reduce the slice size and try again.".

(** [newErrorBoundary]. *)
Definition newErrorBoundary (sdkKey : string) (options : Options) : errorBoundary :=
  mkErrorBoundary (if String.eqb (API options) "" then ErrorBoundaryAPI else API options)
    ErrorBoundaryEndpoint sdkKey ∅.

Definition add_seen (x : string) (e : errorBoundary) : errorBoundary :=
  mkErrorBoundary (eb_api e) (eb_endpoint e) (eb_sdkKey e) ({[x]} ∪ eb_seen e).

Section error_boundary.
Context `{Outside}.

Definition checkSeen (exceptionString : string) : M bool :=
  e ← gets w_errorBoundary;
  if decide (exceptionString ∈ eb_seen e) then mret true
  else modify (upd_errorBoundary (add_seen exceptionString)) ≫= fun _ => mret false.

(** [logException]; None is the nil error. *)
Definition logException (exception : option goError) : M () :=
  let exceptionString := default "Unknown" exception in
  seen ← checkSeen exceptionString;
  if (seen : bool) then mret ()
  else
    stack ← out_stack <$> next_tick;
    let body := PLogException exceptionString stack in
    match out_marshal body with
    | Some _ => mret ()
    | None =>
        let metadata := getStatsigMetadata in
        e ← gets w_errorBoundary;
        let endpoint := (eb_api e +:+ eb_endpoint e)%string in
        match out_new_request "POST" endpoint with
        | Some _ => mret ()
        | None =>
            time ← now_millis;
            client_Do (mkRequest "POST" endpoint
              [("Content-Type", "application/json"); ("STATSIG-API-KEY", eb_sdkKey e);
               ("STATSIG-CLIENT-TIME", format_int time);
               ("STATSIG-SDK-TYPE", SDKType metadata);
               ("STATSIG-SDK-VERSION", SDKVersion metadata)] (Some body)) ≫= fun _ => mret ()
        end
    end.

(** The deferred [ebRecover], run on a panic. *)
Definition ebRecover (recoverCallback : M ()) (err : goPanic) : M () :=
  logException (Some (toError err)) ≫= fun _ =>
  global_Logger ≫= fun o => LogError o err ≫= fun _ =>
  recoverCallback.

(** [defer e.ebRecover(recoverCallback)] around a body whose results are not
    named: after a panic they are zero. *)
Definition capture {A} (zero : A) (recoverCallback : M ()) (body : M A) : M A :=
  recovering body (fun err => ebRecover recoverCallback err ≫= fun _ => mret zero).

(** The wrappers that time an API call; they differ in the key. *)
Definition capture_api {A} (key : marker → marker) (zero : A) (task : M A) : M A :=
  capture zero (mark (api ▷ key ▷ end_ ▷ success false))
    (mark (api ▷ key ▷ start) ≫= fun _ =>
     res ← task;
     mark (api ▷ key ▷ end_ ▷ success true) ≫= fun _ =>
     mret res).
Definition captureCheckGate : M bool → M bool := capture_api checkGate_key false.
Definition captureGetConfig : M DynamicConfig → M DynamicConfig :=
  capture_api getConfig_key zero_DynamicConfig.
Definition captureGetLayer {F} : M (configBase F) → M (configBase F) :=
  capture_api getLayer_key (mkConfigBase "" None "" None).
Definition captureGetClientInitializeResponse {R} (zero : R) : M R → M R :=
  capture zero (mret ()).
Definition captureVoid : M () → M () := capture () (mret ()).

(** ** Laws *)

Lemma total_checkSeen x : total (checkSeen x).
Proof. unfold checkSeen. walk_total. Qed.
Lemma total_logException x : total (logException x).
Proof. unfold logException. walk_total. all: apply total_checkSeen. Qed.
Lemma total_ebRecover cb err : total cb → total (ebRecover cb err).
Proof. intros. unfold ebRecover, global_Logger. walk_total. all: apply total_logException. Qed.

(** A captured task never panics. *)
Lemma total_capture {A} (zero : A) cb body : fueled body → total cb → total (capture zero cb body).
Proof.
  intros Hb Hcb. apply total_recovering; [done|]. intros err.
  apply total_bind; [by apply total_ebRecover|auto with total].
Qed.

Lemma total_capture_api {A} key (zero : A) task :
  (∀ b, marker_ok (api ▷ key ▷ end_ ▷ success b) = true) →
  marker_ok (api ▷ key ▷ start) = true →
  fueled task → total (capture_api key zero task).
Proof.
  intros Hend Hstart Htask. apply total_capture; [|by apply total_mark].
  apply fueled_bind; [by apply fueled_total, total_mark|]. intros _.
  apply fueled_bind; [done|]. intros r.
  apply fueled_bind; [by apply fueled_total, total_mark|]. intros _.
  apply fueled_total, total_ret.
Qed.

(** What reporting leaves alone. *)
Definition behind_reports (w : World) :=
  (w_diagnostics w, w_store w, w_logger w, w_overrides w, w_outputLogger w, w_goroutines w).
Lemma reports_logException x : keeps behind_reports (logException x).
Proof. unfold logException, checkSeen. walk_keeps. Qed.

Definition behind_capture (w : World) :=
  (w_store w, w_logger w, w_overrides w, w_outputLogger w, w_goroutines w).
Lemma behind_ebRecover cb err : keeps behind_capture cb → keeps behind_capture (ebRecover cb err).
Proof.
  intros Hcb. unfold ebRecover, global_Logger.
  walk_keeps; try done; keeps_from behind_reports reports_logException.
Qed.
End error_boundary.

#[export] Hint Resolve total_logException : total.
#[export] Hint Extern 2 (keeps _ (logException _)) =>
  (keeps_from behind_reports reports_logException) : preserve.
