(* ===== verification/Transport.v ===== *)
(** * transport.go

    Requests to the Statsig server: the headers, the decoding of answers and
    the retry loop with its backoff.

    A request decodes its answer into the caller's [out]; the model returns
    the decoded value, which is [zero] as long as nothing was decoded. *)
From S2P Require Import Prelude GoFloat GoRuntime Hashing Types Evaluator World Diagnostics.

Definition DefaultEndpoint : string := "https://statsigapi.net/v1".
Definition maxRetries : Z := 5.
Definition backoffMultiplier : Z := 10.
Definition time_Second : Z := 1000000000.

Definition shouldRetry (code : Z) : bool :=
  bool_decide (code ∈ [408; 500; 502; 503; 504; 522; 524; 599]).

(** What one attempt of a request gives: [fn] of [retry] with its [out]. *)
Record attempt (A : Type) := mkAttempt {
  at_response : option httpResponse;
  at_retry : bool;
  at_err : option goError;
  at_out : A;
}.
Arguments mkAttempt {A}.
Arguments at_response {A}.
Arguments at_retry {A}.
Arguments at_err {A}.
Arguments at_out {A}.

Section transport.
Context `{Outside}.

Definition getSessionID : M string := out_uuid <$> next_tick.

(** [newTransport]. *)
Definition newTransport (secret : string) (options : Options) : M transport :=
  let api := strings_TrimSuffix (defaultString (API options) DefaultEndpoint) "/" in
  sid ← getSessionID;
  mret (mkTransport api secret getStatsigMetadata (LocalMode options) sid).

(** The headers of [doRequest]. *)
Definition request_headers (t : transport) (time : Z) : list (string * string) :=
  [("STATSIG-API-KEY", tr_sdkKey t); ("Content-Type", "application/json");
   ("STATSIG-CLIENT-TIME", format_int time); ("STATSIG-SERVER-SESSION-ID", tr_sessionID t);
   ("STATSIG-SDK-TYPE", SDKType (tr_metadata t));
   ("STATSIG-SDK-VERSION", SDKVersion (tr_metadata t))].

(** [doRequest] and [get]: a request that cannot be built is a failure without
    a response. *)
Definition doRequest (t : transport) (endpoint : string) (body : payload) : M httpResult :=
  let target := (tr_api t +:+ endpoint)%string in
  match out_new_request "POST" target with
  | Some err => mret (HttpFailed None err)
  | None =>
      time ← now_millis;
      client_Do (mkRequest "POST" target (request_headers t time) (Some body))
  end.

Definition get (target : string) (headers : list (string * string)) : M httpResult :=
  match out_new_request "GET" target with
  | Some err => mret (HttpFailed None err)
  | None => client_Do (mkRequest "GET" target headers None)
  end.

(** [retry]: [n] is the number of retries left. *)
Fixpoint retry_loop {A} (n : nat) (backoff : Z) (fn : M (attempt A)) : M (attempt A) :=
  r ← fn;
  if at_retry r then
    match n with
    | O => mret r
    | S n =>
        sleep backoff ≫= fun _ => retry_loop n (wrap_i64 (backoff * backoffMultiplier)) fn
    end
  else mret r.
Definition retry {A} (retries backoff : Z) (fn : M (attempt A)) : M (attempt A) :=
  retry_loop (Z.to_nat retries) backoff fn.

Section decoding.
Context {A : Type} (decode : string → A * option goError) (zero : A).

(** The decoding of a response body. *)
Definition decode_body (response : httpResponse) : A * option goError :=
  match Body response with
  | inl text => decode text
  | inr err => (zero, Some err)
  end.

Definition http_error (code : Z) : goError := ("http response error code: " +:+ format_int code)%string.

(** One attempt of [postRequestInternal]. *)
Definition judge (result : httpResult) : attempt A :=
  match result with
  | HttpFailed response err => mkAttempt response (bool_decide (is_Some response)) (Some err) zero
  | HttpDone response =>
      if (200 <=? StatusCode response) && (StatusCode response <? 300) then
        let '(out, err) := decode_body response in mkAttempt (Some response) false err out
      else
        mkAttempt (Some response) (shouldRetry (StatusCode response))
          (Some (http_error (StatusCode response))) zero
  end.

Definition postRequestInternal (t : transport) (endpoint : string) (in_ : payload)
    (retries backoff : Z) : M (option httpResponse * option goError * A) :=
  if tr_LocalMode t then mret (None, None, zero)
  else
    match out_marshal in_ with
    | Some err => mret (None, Some err, zero)
    | None =>
        r ← retry retries backoff (judge <$> doRequest t endpoint in_);
        mret (at_response r, at_err r, at_out r)
    end.
Definition postRequest (t : transport) (endpoint : string) (in_ : payload) :=
  postRequestInternal t endpoint in_ 0 0.
Definition retryablePostRequest (t : transport) (endpoint : string) (in_ : payload) (retries : Z) :=
  postRequestInternal t endpoint in_ retries time_Second.
End decoding.

(** ** Laws *)

Lemma total_doRequest t endpoint body : total (doRequest t endpoint body).
Proof. unfold doRequest. walk_total. Qed.
Lemma total_get target headers : total (get target headers).
Proof. unfold get. walk_total. Qed.
Lemma total_retry_loop {A} n backoff (fn : M (attempt A)) : total fn → total (retry_loop n backoff fn).
Proof.
  intros Hfn. revert backoff. induction n as [|n IH]; intros backoff; simpl;
    (apply total_bind; [done|]; intros r; destruct (at_retry r); auto with total).
  apply total_bind; [apply total_emit|]. auto.
Qed.
Lemma total_postRequestInternal {A} decode (zero : A) t endpoint in_ retries backoff :
  total (postRequestInternal decode zero t endpoint in_ retries backoff).
Proof.
  unfold postRequestInternal, retry. walk_total. all: try apply total_retry_loop.
  all: apply total_fmap, total_doRequest.
Qed.

Lemma core_doRequest t endpoint body : keeps core (doRequest t endpoint body).
Proof. unfold doRequest. walk_keeps. Qed.
Lemma core_get target headers : keeps core (get target headers).
Proof. unfold get. walk_keeps. Qed.
Lemma core_retry_loop {A} n backoff (fn : M (attempt A)) :
  keeps core fn → keeps core (retry_loop n backoff fn).
Proof.
  intros Hfn. revert backoff. induction n as [|n IH]; intros backoff; simpl;
    (apply keeps_bind; [done|]; intros r; destruct (at_retry r); auto with preserve).
  apply keeps_bind; [apply core_emit|]. auto.
Qed.
Lemma core_postRequestInternal {A} decode (zero : A) t endpoint in_ retries backoff :
  keeps core (postRequestInternal decode zero t endpoint in_ retries backoff).
Proof.
  unfold postRequestInternal, retry. walk_keeps; try (apply core_retry_loop; walk_keeps).
  all: apply keeps_fmap, core_doRequest.
Qed.
End transport.

#[export] Hint Resolve total_doRequest total_get total_postRequestInternal : total.
#[export] Hint Extern 2 (keeps _ (doRequest _ _ _)) => (keeps_from core core_doRequest) : preserve.
#[export] Hint Extern 2 (keeps _ (get _ _)) => (keeps_from core core_get) : preserve.
#[export] Hint Extern 2 (keeps _ (postRequestInternal _ _ _ _ _ _ _)) =>
  (keeps_from core (@core_postRequestInternal)) : preserve.
#[export] Hint Extern 2 (keeps _ (postRequest _ _ _ _ _)) =>
  (keeps_from core (@core_postRequestInternal)) : preserve.
#[export] Hint Extern 2 (keeps _ (retryablePostRequest _ _ _ _ _ _)) =>
  (keeps_from core (@core_postRequestInternal)) : preserve.
#[export] Hint Extern 2 (total (postRequest _ _ _ _ _)) => (apply total_postRequestInternal) : total.
#[export] Hint Extern 2 (total (retryablePostRequest _ _ _ _ _ _)) =>
  (apply total_postRequestInternal) : total.
