(* ===== verification/Store.v ===== *)
(** * store.go: config specs

    The store's maps and their accessors, the decoding and installation of
    config specs, and where specs come from: the data adapter and the network.
    ID lists are in [IdLists], construction and polling in [Polling]. *)
From S2P Require Import Prelude GoFloat GoRuntime Hashing Types Evaluator World Diagnostics.
From S2P Require Import ErrorBoundary.
From S2P Require Import Transport.

Definition CONFIG_SPECS_KEY : string := "statsig.cache".
Definition time_Millisecond : Z := 1000000.
Definition syncOutdatedMax : Z := 2 * 60 * time_Second.

(** ** Reading the store *)

#[export] Instance store_specs : SpecStore store := {
  getGate s name := st_featureGates s !! name;
  getDynamicConfig s name := st_dynamicConfigs s !! name;
  getLayerConfig s name := st_layerConfigs s !! name;
  getExperimentLayer s name := st_experimentToLayer s !! name;
  getAppIDForSDKKey s key := st_sdkKeysToAppID s !! key;
  getIDList s name := st_idLists s !! name;
  initReason := st_initReason;
  lastSyncTime := st_lastSyncTime;
  initialSyncTime := st_initialSyncTime;
}.

(** ** Assignments to the store's fields *)

Definition set_specs (gates configs layers : gmap string configSpec)
    (experimentToLayer sdkKeysToAppID : gmap string string) (time : Z) (s : store) : store :=
  mkStore gates configs layers experimentToLayer sdkKeysToAppID (st_idLists s) time
    (st_initialSyncTime s) (st_initReason s) (st_initializedIDLists s) (st_transport s)
    (st_configSyncInterval s) (st_idListSyncInterval s) (st_shutdown s)
    (st_rulesUpdatedCallback s) (st_dataAdapter s) (st_syncFailureCount s).
Definition set_idLists (f : gmap string idList → gmap string idList) (s : store) : store :=
  mkStore (st_featureGates s) (st_dynamicConfigs s) (st_layerConfigs s) (st_experimentToLayer s)
    (st_sdkKeysToAppID s) (f (st_idLists s)) (st_lastSyncTime s)
    (st_initialSyncTime s) (st_initReason s) (st_initializedIDLists s) (st_transport s)
    (st_configSyncInterval s) (st_idListSyncInterval s) (st_shutdown s)
    (st_rulesUpdatedCallback s) (st_dataAdapter s) (st_syncFailureCount s).
Definition set_initialSyncTime (t : Z) (s : store) : store :=
  mkStore (st_featureGates s) (st_dynamicConfigs s) (st_layerConfigs s) (st_experimentToLayer s)
    (st_sdkKeysToAppID s) (st_idLists s) (st_lastSyncTime s)
    t (st_initReason s) (st_initializedIDLists s) (st_transport s)
    (st_configSyncInterval s) (st_idListSyncInterval s) (st_shutdown s)
    (st_rulesUpdatedCallback s) (st_dataAdapter s) (st_syncFailureCount s).
Definition set_initReason (r : evaluationReason) (s : store) : store :=
  mkStore (st_featureGates s) (st_dynamicConfigs s) (st_layerConfigs s) (st_experimentToLayer s)
    (st_sdkKeysToAppID s) (st_idLists s) (st_lastSyncTime s)
    (st_initialSyncTime s) r (st_initializedIDLists s) (st_transport s)
    (st_configSyncInterval s) (st_idListSyncInterval s) (st_shutdown s)
    (st_rulesUpdatedCallback s) (st_dataAdapter s) (st_syncFailureCount s).
Definition set_initializedIDLists (b : bool) (s : store) : store :=
  mkStore (st_featureGates s) (st_dynamicConfigs s) (st_layerConfigs s) (st_experimentToLayer s)
    (st_sdkKeysToAppID s) (st_idLists s) (st_lastSyncTime s)
    (st_initialSyncTime s) (st_initReason s) b (st_transport s)
    (st_configSyncInterval s) (st_idListSyncInterval s) (st_shutdown s)
    (st_rulesUpdatedCallback s) (st_dataAdapter s) (st_syncFailureCount s).
Definition set_shutdown (b : bool) (s : store) : store :=
  mkStore (st_featureGates s) (st_dynamicConfigs s) (st_layerConfigs s) (st_experimentToLayer s)
    (st_sdkKeysToAppID s) (st_idLists s) (st_lastSyncTime s)
    (st_initialSyncTime s) (st_initReason s) (st_initializedIDLists s) (st_transport s)
    (st_configSyncInterval s) (st_idListSyncInterval s) b
    (st_rulesUpdatedCallback s) (st_dataAdapter s) (st_syncFailureCount s).
Definition set_syncFailureCount (n : Z) (s : store) : store :=
  mkStore (st_featureGates s) (st_dynamicConfigs s) (st_layerConfigs s) (st_experimentToLayer s)
    (st_sdkKeysToAppID s) (st_idLists s) (st_lastSyncTime s)
    (st_initialSyncTime s) (st_initReason s) (st_initializedIDLists s) (st_transport s)
    (st_configSyncInterval s) (st_idListSyncInterval s) (st_shutdown s)
    (st_rulesUpdatedCallback s) (st_dataAdapter s) n.

Definition zero_specs : downloadConfigSpecResponse :=
  mkSpecs false 0 [] [] [] ∅ ∅ ∅ ∅.

(** The maps [setConfigSpecs] builds. *)
Definition by_name (specs : list configSpec) : gmap string configSpec :=
  insert_all (map (fun spec => (spec_Name spec, spec)) specs) ∅.
Definition experiments_of (layers : list (string * list string)) : list (string * string) :=
  layers ≫= fun l => map (fun experimentName => (experimentName, l.1)) l.2.

(** The argument of [processConfigSpecs]: text, decoded specs, or anything else. *)
Inductive configSpecsArg :=
| SpecsString (text : string)
| SpecsDecoded (specs : downloadConfigSpecResponse)
| SpecsOther.

Section store.
Context `{Outside}.

Definition eprint (text : string) : M () := emit (EStderr (text +:+ newline)%string).

(** [addDiagnostics]. *)
Definition addDiagnostics : M marker :=
  s ← gets w_store;
  mret (if st_initializedIDLists s then configSync else initialize).

(** [setConfigSpecs]. *)
Definition setConfigSpecs (specs : downloadConfigSpecResponse) : M bool :=
  updateSamplingRates InitializeContext (DiagnosticsSampleRates specs) ≫= fun _ =>
  updateSamplingRates ConfigSyncContext (DiagnosticsSampleRates specs) ≫= fun _ =>
  if HasUpdates specs then
    layers ← range_map (Layers specs);
    modify (upd_store (set_specs (by_name (FeatureGates specs)) (by_name (DynamicConfigs specs))
      (by_name (LayerConfigs specs)) (insert_all (experiments_of layers) ∅)
      (SDKKeysToAppID specs) (Time specs))) ≫= fun _ =>
    mret true
  else mret false.

(** [processConfigSpecs]. *)
Definition processConfigSpecs (configSpecs : configSpecsArg) (diagnosticsMarker : marker) : M bool :=
  mark (diagnosticsMarker ▷ process ▷ start) ≫= fun _ =>
  ok ← (match configSpecs with
        | SpecsString specsTyped =>
            match out_unmarshal_specs specsTyped with
            | (specs, None) => setConfigSpecs specs
            | (_, Some _) => mret false
            end
        | SpecsDecoded specsTyped => setConfigSpecs specsTyped
        | SpecsOther => mret false
        end);
  mark (diagnosticsMarker ▷ process ▷ end_ ▷ success ok) ≫= fun _ =>
  mret ok.

Definition set_reason (r : evaluationReason) : M () := modify (upd_store (set_initReason r)).

(** [fetchConfigSpecsFromAdapter]. *)
Definition fetchConfigSpecsFromAdapter : M () :=
  m ← addDiagnostics; mark (m ▷ dataStoreConfigSpecs ▷ fetch ▷ start) ≫= fun _ =>
  recovering
    (specString ← adapter_Get CONFIG_SPECS_KEY;
     m ← addDiagnostics; mark (m ▷ dataStoreConfigSpecs ▷ fetch ▷ end_ ▷ success true) ≫= fun _ =>
     m ← addDiagnostics;
     ok ← processConfigSpecs (SpecsString specString) (m ▷ dataStoreConfigSpecs);
     when ok (set_reason reasonDataAdapter))
    (fun err => eprint ("Error calling data adapter get: " +:+ toError err)).

(** [saveConfigSpecsToAdapter]. *)
Definition saveConfigSpecsToAdapter (specs : downloadConfigSpecResponse) : M () :=
  let '(specString, err) := out_marshal_specs specs in
  recovering
    (match err with
     | None => adapter_Set CONFIG_SPECS_KEY specString
     | Some _ => mret ()
     end)
    (fun err => eprint ("Error calling data adapter set: " +:+ toError err)).

(** [handleSyncError]; durations are int64 nanoseconds. *)
Definition handleSyncError (err : option goError) (isColdStart : bool) : M () :=
  s ← gets w_store;
  let count := wrap_i64 (st_syncFailureCount s + 1) in
  modify (upd_store (set_syncFailureCount count)) ≫= fun _ =>
  let failDuration := wrap_i64 (count * st_configSyncInterval s) in
  if isColdStart then
    eprint ("Failed to initialize from the network. " +:+
      "See https://docs.statsig.com/messages/serverSDKConnection for more information") ≫= fun _ =>
    logException err
  else if syncOutdatedMax <? failDuration then
    eprint ("Syncing the server SDK with Statsig network has failed for " +:+
      format_int (go_quot failDuration time_Millisecond) +:+ "ms. " +:+
      "Your sdk will continue to serve gate/config/experiment definitions as of the last successful sync. " +:+
      "See https://docs.statsig.com/messages/serverSDKConnection for more information") ≫= fun _ =>
    logException err ≫= fun _ =>
    modify (upd_store (set_syncFailureCount 0))
  else mret ().

(** The tags of the end marker of a request with a response. *)
Definition response_tags (res : httpResponse) (m : marker) : marker :=
  m ▷ statusCode (StatusCode res) ▷ sdkRegion (safeGetFirst (header_values res "X-Statsig-Region")).
Definition failure_tags (res : option httpResponse) (m : marker) : marker :=
  match res with Some res => response_tags res m | None => m end.

(** [fetchConfigSpecsFromServer]. *)
Definition fetchConfigSpecsFromServer (isColdStart : bool) : M () :=
  m ← addDiagnostics; mark (m ▷ downloadConfigSpecs ▷ networkRequest ▷ start) ≫= fun _ =>
  s ← gets w_store;
  let input := PDownloadConfigs (st_lastSyncTime s) (tr_metadata (st_transport s)) in
  '(res, err, specs) ← postRequest out_unmarshal_specs zero_specs (st_transport s)
    "/download_config_specs" input;
  match res, err with
  | Some res, None =>
      m ← addDiagnostics;
      mark (m ▷ downloadConfigSpecs ▷ networkRequest ▷ end_ ▷ success true ▷ response_tags res) ≫= fun _ =>
      m ← addDiagnostics;
      ok ← processConfigSpecs (SpecsDecoded specs) (m ▷ downloadConfigSpecs);
      when ok
        (set_reason reasonNetwork ≫= fun _ =>
         when (st_rulesUpdatedCallback s)
           (let '(v, err) := out_marshal_specs specs in
            emit (ERulesUpdated (match err with None => v | Some _ => "" end) (Time specs))) ≫= fun _ =>
         when (st_dataAdapter s) (saveConfigSpecsToAdapter specs))
  | _, _ =>
      m ← addDiagnostics;
      mark (m ▷ downloadConfigSpecs ▷ networkRequest ▷ end_ ▷ success false ▷ failure_tags res) ≫= fun _ =>
      handleSyncError err isColdStart
  end.
End store.

(** ** Laws *)

Section laws.
Context `{Outside}.

Lemma by_name_lookup specs name :
  by_name specs !! name = last (filter (fun spec => spec_Name spec = name) specs).
Proof.
  unfold by_name. induction specs as [|spec specs IH] using rev_ind; [done|].
  rewrite map_app. simpl. rewrite insert_all_snoc, filter_app. simpl.
  destruct (decide (spec_Name spec = name)) as [<-|Hne].
  - rewrite lookup_insert_eq, filter_cons_True, filter_nil by done. by rewrite last_snoc.
  - rewrite lookup_insert_ne, IH by done. rewrite filter_cons_False by done.
    by rewrite filter_nil, app_nil_r.
Qed.

Lemma by_name_keyed specs : map_Forall (fun name spec => spec_Name spec = name) (by_name specs).
Proof.
  intros name spec. rewrite by_name_lookup. intros Hlast.
  apply last_Some in Hlast as [l Hl].
  assert (Hin : spec ∈ filter (fun spec => spec_Name spec = name) specs).
  { rewrite Hl. apply elem_of_app. right. by apply list_elem_of_singleton. }
  by apply list_elem_of_filter in Hin as [??].
Qed.

Lemma experiments_of_elem layers e l :
  (e, l) ∈ experiments_of layers ↔ ∃ es, (l, es) ∈ layers ∧ e ∈ es.
Proof.
  unfold experiments_of. rewrite list_elem_of_bind. split.
  - intros ([l' es] & Hin & Hl). apply list_elem_of_fmap in Hin as (e' & [= -> ->] & He).
    by exists es.
  - intros (es & Hl & He). exists (l, es). split; [|done].
    apply list_elem_of_fmap. by exists e.
Qed.

(** The layer of an experiment, whatever the order of the layers. *)
Lemma insert_all_experiments layers e :
  (∀ l, insert_all (experiments_of layers) ∅ !! e = Some l → (e, l) ∈ experiments_of layers) ∧
  (insert_all (experiments_of layers) ∅ !! e = None → ∀ l, (e, l) ∉ experiments_of layers).
Proof.
  generalize (experiments_of layers). intros l0. rewrite insert_all_lookup.
  destruct (list_find _ _) as [[i [e' l']]|] eqn:E; split; simpl; try done.
  - intros l [= <-]. apply list_find_Some in E as (Hi & <- & _).
    apply elem_of_reverse. by eapply list_elem_of_lookup_2.
  - intros _ l Hin. apply list_find_None in E. rewrite Forall_forall in E.
    by apply (E (e, l)); [apply elem_of_reverse|].
Qed.

Lemma total_addDiagnostics : total addDiagnostics.
Proof. unfold addDiagnostics. walk_total. Qed.
Lemma core_addDiagnostics : keeps core addDiagnostics.
Proof. unfold addDiagnostics. walk_keeps. Qed.
Lemma total_eprint text : total (eprint text).
Proof. apply total_emit. Qed.
Lemma total_setConfigSpecs specs : total (setConfigSpecs specs).
Proof. unfold setConfigSpecs, updateSamplingRates. walk_total. Qed.

(** A marker [processConfigSpecs] can complete. *)
Definition processable (m : marker) : Prop :=
  marker_ok (m ▷ process ▷ start) = true ∧
  ∀ b, marker_ok (m ▷ process ▷ end_ ▷ success b) = true.

Lemma total_processConfigSpecs arg m : processable m → total (processConfigSpecs arg m).
Proof.
  intros [Hs He]. unfold processConfigSpecs.
  apply total_bind; [by apply total_mark|]. intros _. apply total_bind.
  - walk_total. all: apply total_setConfigSpecs.
  - intros ok. apply total_bind; [by apply total_mark|]. auto with total.
Qed.

Lemma fueled_adapter_Get key : fueled (adapter_Get key).
Proof. intros w. unfold adapter_Get, mbind, gom_bind. simpl. by destruct (out_adapter_get _ _). Qed.
Lemma fueled_adapter_Set key v : fueled (adapter_Set key v).
Proof. intros w. unfold adapter_Set, mbind, gom_bind. simpl. by destruct (out_adapter_set _ _ _). Qed.

Lemma total_fetchConfigSpecsFromAdapter : total fetchConfigSpecsFromAdapter.
Proof.
  unfold fetchConfigSpecsFromAdapter. apply total_bind; [apply total_addDiagnostics|]. intros m.
  apply total_bind; [by apply total_mark|]. intros _.
  apply total_recovering; [|intros; apply total_eprint].
  apply fueled_bind; [apply fueled_adapter_Get|]. intros text. apply fueled_total.
  apply total_bind; [apply total_addDiagnostics|]. intros m1.
  apply total_bind; [by apply total_mark|]. intros _.
  apply total_bind; [apply total_addDiagnostics|]. intros m2.
  apply total_bind; [by apply total_processConfigSpecs|]. intros ok.
  apply total_when, total_modify.
Qed.

Lemma total_saveConfigSpecsToAdapter specs : total (saveConfigSpecsToAdapter specs).
Proof.
  unfold saveConfigSpecsToAdapter. destruct (out_marshal_specs specs) as [text [err|]].
  - apply total_recovering; [apply fueled_total, total_ret|intros; apply total_eprint].
  - apply total_recovering; [apply fueled_adapter_Set|intros; apply total_eprint].
Qed.

Lemma total_handleSyncError err cold : total (handleSyncError err cold).
Proof. unfold handleSyncError, eprint. walk_total. Qed.

Lemma failure_tags_ok res m : marker_ok m = true → marker_ok (failure_tags res m) = true.
Proof. by destruct res. Qed.

Lemma total_fetchConfigSpecsFromServer cold : total (fetchConfigSpecsFromServer cold).
Proof.
  unfold fetchConfigSpecsFromServer. apply total_bind; [apply total_addDiagnostics|]. intros m.
  apply total_bind; [by apply total_mark|]. intros _.
  apply total_bind; [apply total_gets|]. intros s.
  apply total_bind; [apply total_postRequestInternal|]. intros [[res err] specs].
  assert (Hfail : total (m ← addDiagnostics;
      mark (m ▷ downloadConfigSpecs ▷ networkRequest ▷ end_ ▷ success false ▷ failure_tags res) ≫= fun _ =>
      handleSyncError err cold)).
  { apply total_bind; [apply total_addDiagnostics|]. intros m1.
    apply total_bind; [by apply total_mark, failure_tags_ok|]. intros _. apply total_handleSyncError. }
  destruct res as [res|]; [|done]. destruct err as [err|]; [done|].
  apply total_bind; [apply total_addDiagnostics|]. intros m1.
  apply total_bind; [by apply total_mark|]. intros _.
  apply total_bind; [apply total_addDiagnostics|]. intros m2.
  apply total_bind; [by apply total_processConfigSpecs|]. intros ok.
  apply total_when. apply total_bind; [apply total_modify|]. intros _.
  apply total_bind; [|intros; by apply total_when, total_saveConfigSpecsToAdapter].
  apply total_when. destruct (out_marshal_specs specs). apply total_emit.
Qed.
End laws.
#[export] Hint Resolve total_addDiagnostics total_fetchConfigSpecsFromAdapter
  total_fetchConfigSpecsFromServer total_eprint : total.
#[export] Hint Extern 2 (keeps _ addDiagnostics) => (keeps_from core core_addDiagnostics) : preserve.
