(* ===== verification/IdLists.v ===== *)
(** * store.go: ID lists

    The lines of an ID list file and what they do to the ids, the
    reconciliation of a local list with the server's description, the download
    of the missing part of a file, and [syncIDLists].

    [syncIDLists] downloads each list in a goroutine of its own.  The model
    runs them one after the other; [IdListFacts] shows that every interleaving of
    their steps ends with the same list for each answer of the network.  A list is shared by pointer between the map and
    its goroutine: the model updates the entry of the map, which holds that
    pointer until the goroutine itself deletes it. *)
From S2P Require Import Prelude Goroutines GoFloat GoRuntime Hashing Types Evaluator World.
From S2P Require Import Diagnostics.
From S2P Require Import ErrorBoundary.
From S2P Require Import Transport Store.

(** ** Lines and ids *)

Inductive idAction := StoreId (id : string) | DeleteId (id : string).

Definition act_on_ids (a : idAction) (ids : gset string) : gset string :=
  match a with
  | StoreId id => {[id]} ∪ ids
  | DeleteId id => ids ∖ {[id]}
  end.

(** [strconv.Atoi] with its error. *)
Definition atoi {O : Outside} (s : string) : Z + goError :=
  let error (what : string) :=
    inr ("strconv.Atoi: parsing " +:+ out_quote s +:+ ": " +:+ what)%string in
  match strconv_ParseInt s with
  | ParseOk n => inl n
  | ParseRange _ => error "value out of range"
  | ParseSyntax => error "invalid syntax"
  end.

Section lines.
Context `{GoRuntime}.

(** The body of the loop over the lines. *)
Definition line_action (line : string) : option idAction :=
  let line := strings_TrimSpace line in
  if (String.length line <=? 1)%nat then None
  else
    match line with
    | String "+" id => Some (StoreId id)
    | String "-" id => Some (DeleteId id)
    | _ => None
    end.

Definition content_lines (content : string) : list string :=
  strings_Split (replace_crlf content) lf.
Definition content_actions (content : string) : list idAction := omap line_action (content_lines content).
End lines.

(** ** One list *)

Definition set_ids (ids : option (gset string)) (l : idList) : idList :=
  mkIDList (idl_Name l) (idl_Size l) (idl_CreationTime l) (idl_URL l) (idl_FileID l) ids.
Definition set_size (size : Z) (l : idList) : idList :=
  mkIDList (idl_Name l) size (idl_CreationTime l) (idl_URL l) (idl_FileID l) (idl_ids l).

(** The step of the loop over the server's lists: the local list it leaves in
    the map, and whether its file is downloaded. *)
Definition reconcile (name : string) (serverList : serverIDList) (local : option idList) :
    idList * bool :=
  let localList := default (mkIDList name 0 0 "" "" None) local in
  if String.eqb (srv_URL serverList) "" || (srv_CreationTime serverList <? idl_CreationTime localList)
     || String.eqb (srv_FileID serverList) ""
  then (localList, false)
  else
    let localList :=
      if negb (String.eqb (srv_FileID serverList) (idl_FileID localList)) &&
         (idl_CreationTime localList <=? srv_CreationTime serverList)
      then mkIDList (idl_Name localList) 0 (srv_CreationTime serverList) (srv_URL serverList)
             (srv_FileID serverList) (Some ∅)
      else localList in
    (localList, negb (srv_Size serverList <=? idl_Size localList)).

(** ** Effects of a goroutine on the map of lists *)

Inductive listEffect :=
| EffAct (name : string) (a : idAction)
| EffAddSize (name : string) (length : Z)
| EffDelete (name : string).

Definition effect_name (e : listEffect) : string :=
  match e with EffAct name _ | EffAddSize name _ | EffDelete name => name end.

Definition apply_effect (e : listEffect) (m : gmap string idList) : gmap string idList :=
  match e with
  | EffAct name a => alter (fun l => set_ids (act_on_ids a <$> idl_ids l) l) name m
  | EffAddSize name length => alter (fun l => set_size (wrap_i64 (idl_Size l + length)) l) name m
  | EffDelete name => delete name m
  end.

Section id_lists.
Context `{Outside} `{GoRuntime}.

Definition setIDList (name : string) (list : idList) : M () :=
  modify (upd_store (set_idLists (<[name := list]>))).
Definition deleteIDList (name : string) : M () :=
  modify (upd_store (set_idLists (apply_effect (EffDelete name)))).

(** [l.ids.Store] and [l.ids.Delete] on the list of a name. *)
Definition update_ids (name : string) (a : idAction) : M () :=
  s ← gets w_store;
  match st_idLists s !! name with
  | Some l =>
      match idl_ids l with
      | Some _ => modify (upd_store (set_idLists (apply_effect (EffAct name a))))
      | None => go_panic nil_dereference
      end
  | None => mret ()
  end.
Definition add_size (name : string) (length : Z) : M () :=
  modify (upd_store (set_idLists (apply_effect (EffAddSize name length)))).

(** [content[0]] is ['-'] or ['+'], and there is more. *)
Definition valid_content (content : string) : bool :=
  negb (String.length content <=? 1)%nat &&
  (strings_HasPrefix content "-" || strings_HasPrefix content "+").

(** The goroutine of one list; [l] is the list when it was started.  It is
    written once, over a monad [T] in which the computations of [M] are
    atomic: in [M] itself it runs without interruption, in [prog] it is the
    sequence of its steps. *)
Section goroutine.
Context {T : Type → Type} `{!MRet T, !MBind T} (step : ∀ A, M A → T A).
Arguments step {A} _.

(** What follows the answer to the range request. *)
Definition finishDownload_in (name : string) (l : idList) (result : httpResult) : T unit :=
  match result with
  | HttpFailed res err =>
      m ← step addDiagnostics;
      step (mark (m ▷ getIdList ▷ networkRequest ▷ end_ ▷ url (idl_URL l) ▷ success false
                  ▷ failure_tags res)) ≫= fun _ =>
      step (logException (Some err))
  | HttpDone res =>
      m ← step addDiagnostics;
      step (mark (m ▷ getIdList ▷ networkRequest ▷ end_ ▷ url (idl_URL l) ▷ success true
                  ▷ response_tags res)) ≫= fun _ =>
      m ← step addDiagnostics;
      step (mark (m ▷ getIdList ▷ process ▷ start ▷ url (idl_URL l))) ≫= fun _ =>
      m ← step addDiagnostics;
      let finished (ok : bool) :=
        step (mark (m ▷ getIdList ▷ process ▷ end_ ▷ url (idl_URL l) ▷ success ok)) in
      match atoi (header_get res "Content-Length") with
      | inr err => finished false ≫= fun _ => step (logException (Some err))
      | inl length =>
          if length <=? 0 then finished false ≫= fun _ => step (logException None)
          else
            match Body res with
            | inr err => finished false ≫= fun _ => step (logException (Some err))
            | inl content =>
                if valid_content content then
                  for_each (content_actions content) (fun a => step (update_ids name a)) ≫= fun _ =>
                  step (add_size name length) ≫= fun _ =>
                  finished true
                else finished false ≫= fun _ => step (deleteIDList name)
            end
      end
  end.

Definition downloadIDList_in (name : string) (l : idList) : T unit :=
  m ← step addDiagnostics;
  step (mark (m ▷ getIdList ▷ networkRequest ▷ start ▷ url (idl_URL l))) ≫= fun _ =>
  result ← step (get (idl_URL l) [("Range", "bytes=" +:+ format_int (idl_Size l) +:+ "-")%string]);
  finishDownload_in name l result.
End goroutine.

Definition finishDownload : string → idList → httpResult → M () := finishDownload_in (fun A (m : M A) => m).
Definition downloadIDList : string → idList → M () := downloadIDList_in (fun A (m : M A) => m).
Definition download_goroutine : string → idList → prog World unit := downloadIDList_in (fun A (m : M A) => atomic m).

(** The loop over the server's lists: the goroutines it starts. *)
Fixpoint reconcileLists (lists : list (string * serverIDList)) (started : list (string * idList)) :
    M (list (string * idList)) :=
  match lists with
  | [] => mret started
  | (name, serverList) :: lists =>
      s ← gets w_store;
      let '(localList, download) := reconcile name serverList (st_idLists s !! name) in
      setIDList name localList ≫= fun _ =>
      reconcileLists lists (if (download : bool) then started ++ [(name, localList)] else started)
  end.

(** [syncIDLists]. *)
Definition syncIDLists : M () :=
  m ← addDiagnostics; mark (m ▷ getIdListSources ▷ networkRequest ▷ start) ≫= fun _ =>
  s ← gets w_store;
  '(res, err, serverLists) ← postRequest out_unmarshal_id_lists ∅ (st_transport s) "/get_id_lists"
    (PGetIDLists (tr_metadata (st_transport s)));
  match res, err with
  | Some res, None =>
      m ← addDiagnostics;
      mark (m ▷ getIdListSources ▷ networkRequest ▷ end_ ▷ success true ▷ response_tags res) ≫= fun _ =>
      m ← addDiagnostics;
      mark (m ▷ getIdListSources ▷ process ▷ start
            ▷ idListCount (Z.of_nat (size serverLists))) ≫= fun _ =>
      lists ← range_map serverLists;
      started ← reconcileLists lists [];
      for_each started (fun '(name, l) => downloadIDList name l) ≫= fun _ =>
      s ← gets w_store;
      names ← range_map (st_idLists s);
      for_each names (fun '(name, _) =>
        when (bool_decide (serverLists !! name = None)) (deleteIDList name)) ≫= fun _ =>
      m ← addDiagnostics;
      mark (m ▷ getIdListSources ▷ process ▷ end_ ▷ success true
            ▷ idListCount (Z.of_nat (size serverLists)))
  | _, _ =>
      m ← addDiagnostics;
      mark (m ▷ getIdListSources ▷ networkRequest ▷ end_ ▷ success false ▷ failure_tags res) ≫= fun _ =>
      logException err
  end.
End id_lists.
