(* ===== verification/Polling.v ===== *)
(** * store.go: construction and polling

    [newStore], the two polling loops and [stopPolling].  A loop sleeps, looks
    at the shutdown flag and syncs; the model has its iteration, which says
    whether the loop goes on. *)
From S2P Require Import Prelude GoFloat GoRuntime Hashing Types Evaluator World Diagnostics.
From S2P Require Import ErrorBoundary Transport Store IdLists.

Section polling.
Context `{Outside} `{GoRuntime}.

(** The store literal of [newStoreInternal]. *)
Definition fresh_store (t : transport) (configSyncInterval idListSyncInterval : Z)
    (rulesUpdatedCallback dataAdapter : bool) : store :=
  mkStore ∅ ∅ ∅ ∅ ∅ ∅ 0 0 reasonUninitialized false t configSyncInterval idListSyncInterval
    false rulesUpdatedCallback dataAdapter 0.

(** The specs the store starts with: the adapter's, else the bootstrap values. *)
Definition loadFirst (bootstrapValues : string) (dataAdapter : bool) : M () :=
  if dataAdapter then adapter_Initialize ≫= fun _ => fetchConfigSpecsFromAdapter
  else
    when (negb (String.eqb bootstrapValues ""))
      (m ← addDiagnostics;
       ok ← processConfigSpecs (SpecsString bootstrapValues) (m ▷ bootstrap);
       when ok (set_reason reasonBootstrap)).

(** [newStoreInternal]. *)
Definition newStoreInternal (t : transport) (configSyncInterval idListSyncInterval : Z)
    (bootstrapValues : string) (rulesUpdatedCallback dataAdapter : bool) : M () :=
  modify (upd_store (fun _ =>
    fresh_store t configSyncInterval idListSyncInterval rulesUpdatedCallback dataAdapter)) ≫= fun _ =>
  let firstAttempt := negb dataAdapter && String.eqb bootstrapValues "" in
  loadFirst bootstrapValues dataAdapter ≫= fun _ =>
  s ← gets w_store;
  when (st_lastSyncTime s =? 0)
    (when (negb firstAttempt) (base_logProcess InitializeContext "Retrying with network...") ≫= fun _ =>
     fetchConfigSpecsFromServer true) ≫= fun _ =>
  modify (upd_store (fun s => set_initialSyncTime (st_lastSyncTime s) s)) ≫= fun _ =>
  syncIDLists ≫= fun _ =>
  modify (upd_store (set_initializedIDLists true)) ≫= fun _ =>
  go GoPollForRulesetChanges ≫= fun _ =>
  go GoPollForIDListChanges.

(** [newStore]. *)
Definition newStore (t : transport) (options : Options) : M () :=
  let configSyncInterval := if 0 <? ConfigSyncInterval options then ConfigSyncInterval options
                            else 10 * time_Second in
  let idListSyncInterval := if 0 <? IDListSyncInterval options then IDListSyncInterval options
                            else 60 * time_Second in
  newStoreInternal t configSyncInterval idListSyncInterval (BootstrapValues options)
    (HasRulesUpdatedCallback options) (HasDataAdapter options).

(** An iteration of [pollForIDListChanges]; false is [break]. *)
Definition pollForIDListChanges : M bool :=
  s ← gets w_store; sleep (st_idListSyncInterval s) ≫= fun _ =>
  s ← gets w_store;
  if st_shutdown s then mret false
  else syncIDLists ≫= fun _ => mret true.

(** An iteration of [pollForRulesetChanges]. *)
Definition pollForRulesetChanges : M bool :=
  s ← gets w_store; sleep (st_configSyncInterval s) ≫= fun _ =>
  s ← gets w_store;
  if st_shutdown s then mret false
  else
    useAdapter ← (if st_dataAdapter s then adapter_ShouldBeUsed CONFIG_SPECS_KEY else mret false);
    (if (useAdapter : bool) then fetchConfigSpecsFromAdapter else fetchConfigSpecsFromServer false)
    ≫= fun _ => mret true.

Definition stopPolling : M () := modify (upd_store (set_shutdown true)).
End polling.
