(* ===== verification/Logger.v ===== *)
(** * logger.go

    The event buffer: custom events, exposures and diagnostics are appended,
    a full buffer is handed to a goroutine that sends it, a flush sends it at
    once or in a goroutine. *)
From S2P Require Import Prelude GoFloat GoRuntime Hashing Types Evaluator World Diagnostics.
From S2P Require Import Transport.

Definition gateExposureEventName : string := "statsig::gate_exposure".
Definition configExposureEventName : string := "statsig::config_exposure".
Definition layerExposureEventName : string := "statsig::layer_exposure".
Definition diagnosticsEventName : string := "statsig::diagnostics".

(** A nil [*logContext] is None. *)
Record logContext := mkLogContext { isManualExposure : bool }.

Definition set_events (events : list loggedEvent) (l : logger) : logger :=
  mkLogger events (lg_transport l) (lg_tickStopped l) (lg_maxEvents l) (lg_options l).
Definition stop_tick (l : logger) : logger :=
  mkLogger (lg_events l) (lg_transport l) true (lg_maxEvents l) (lg_options l).

Definition set_event_user (u : User) (time : Z) (e : Event) : Event :=
  mkEvent (ev_EventName e) u (ev_Value e) (ev_Metadata e) time.
Definition set_exposure_user (u : User) (time : Z) (e : exposureEvent) : exposureEvent :=
  mkExposureEvent (ee_EventName e) u (ee_Value e) (ee_Metadata e) (ee_SecondaryExposures e) time.
Definition set_exposure_metadata (m : gmap string string) (e : exposureEvent) : exposureEvent :=
  mkExposureEvent (ee_EventName e) (ee_User e) (ee_Value e) m (ee_SecondaryExposures e) (ee_Time e).

Section logger.
Context `{Outside}.

(** [newLogger]. *)
Definition newLogger (t : transport) (options : Options) : M () :=
  let maxEvents := if 0 <? LoggingMaxBufferSize options then LoggingMaxBufferSize options else 1000 in
  modify (upd_logger (fun _ => mkLogger [] t false maxEvents (opt_StatsigLoggerOptions options)))
  ≫= fun _ => go GoBackgroundFlush.

(** [sendEvents]: the result of the request is dropped. *)
Definition sendEvents (events : list loggedEvent) : M () :=
  l ← gets w_logger;
  _ ← retryablePostRequest (fun text => ((), out_unmarshal_log text)) () (lg_transport l) "/log_event"
        (PLogEvent events (tr_metadata (lg_transport l))) maxRetries;
  mret ().

(** [flushInternal]. *)
Definition flushInternal (closing : bool) : M () :=
  when closing (modify (upd_logger stop_tick)) ≫= fun _ =>
  l ← gets w_logger;
  match lg_events l with
  | [] => mret ()
  | events =>
      (if closing then sendEvents events else go (GoSendEvents events)) ≫= fun _ =>
      modify (upd_logger (set_events []))
  end.

(** [logInternal]. *)
Definition logInternal (evt : loggedEvent) : M () :=
  modify (upd_logger (fun l => set_events (lg_events l ++ [evt]) l)) ≫= fun _ =>
  l ← gets w_logger;
  when (lg_maxEvents l <=? Z.of_nat (length (lg_events l))) (flushInternal false).

(** The private attributes are dropped and a missing time filled in. *)
Definition event_time (time : Z) : M Z := if time =? 0 then now_millis else mret time.
Definition logCustom (evt : Event) : M () :=
  time ← event_time (ev_Time evt);
  logInternal (LoggedCustom (set_event_user (set_PrivateAttributes ∅ (ev_User evt)) time evt)).
Definition logger_logExposure (evt : exposureEvent) : M () :=
  time ← event_time (ee_Time evt);
  logInternal (LoggedExposure (set_exposure_user (set_PrivateAttributes ∅ (ee_User evt)) time evt)).

Definition details_metadata (d : evaluationDetails) (m : gmap string string) : gmap string string :=
  <["serverTime" := format_int (det_serverTime d)]>
  (<["initTime" := format_int (det_initTime d)]>
  (<["configSyncTime" := format_int (det_configSyncTime d)]>
  (<["reason" := reason_string (det_reason d)]> m))).
Definition logExposureWithEvaluationDetails (evt : exposureEvent)
    (evalDetails : option evaluationDetails) : M () :=
  logger_logExposure
    (match evalDetails with
     | Some d => set_exposure_metadata (details_metadata d (ee_Metadata evt)) evt
     | None => evt
     end).

Definition manual_metadata (context : option logContext) (m : gmap string string) : gmap string string :=
  match context with
  | Some c => if isManualExposure c then <["isManualExposure" := "true"]> m else m
  | None => m
  end.

Definition logGateExposure (user : User) (gateName : string) (value : bool) (ruleID : string)
    (exposures : list exposure) (evalDetails : option evaluationDetails)
    (context : option logContext) : M () :=
  let metadata := <["gate" := gateName]> (<["gateValue" := strconv_FormatBool value]>
    (<["ruleID" := ruleID]> ∅)) in
  logExposureWithEvaluationDetails
    (mkExposureEvent gateExposureEventName user "" (manual_metadata context metadata) exposures 0)
    evalDetails.

Definition logConfigExposure (user : User) (configName : string) (ruleID : string)
    (exposures : list exposure) (evalDetails : option evaluationDetails)
    (context : option logContext) : M () :=
  let metadata := <["config" := configName]> (<["ruleID" := ruleID]> ∅) in
  logExposureWithEvaluationDetails
    (mkExposureEvent configExposureEventName user "" (manual_metadata context metadata) exposures 0)
    evalDetails.

Definition logLayerExposure {F} (user : User) (config : configBase F) (parameterName : string)
    (result : evalResult) (evalDetails : option evaluationDetails)
    (context : option logContext) : M () :=
  let isExplicit := default false (ExplicitParameters result !! parameterName) in
  let allocatedExperiment := if isExplicit then ConfigDelegate result else "" in
  let exposures := if isExplicit then SecondaryExposures result
                   else UndelegatedSecondaryExposures result in
  let metadata := <["config" := cb_Name config]> (<["ruleID" := cb_RuleID config]>
    (<["allocatedExperiment" := allocatedExperiment]> (<["parameterName" := parameterName]>
    (<["isExplicitParameter" := strconv_FormatBool isExplicit]> ∅)))) in
  logExposureWithEvaluationDetails
    (mkExposureEvent layerExposureEventName user "" (manual_metadata context metadata) exposures 0)
    evalDetails.

(** [logDiagnosticsEvent] for the base of a context. *)
Definition diagnostics_disabled (o : StatsigLoggerOptions) (c : DiagnosticsContext) : bool :=
  match c with
  | InitializeContext => slo_DisableInitDiagnostics o
  | ConfigSyncContext => slo_DisableSyncDiagnostics o
  | ApiCallContext => slo_DisableApiDiagnostics o
  end.
Definition logDiagnosticsEvent (c : DiagnosticsContext) : M () :=
  l ← gets w_logger;
  if diagnostics_disabled (lg_options l) c then mret ()
  else
    markers ← serializeWithSampling c;
    match markers with
    | [] => mret ()
    | _ =>
        time ← now_millis;
        clearMarkers c ≫= fun _ =>
        logInternal (LoggedDiagnostics c markers time)
    end.
Definition logDiagnosticsEvents : M () :=
  logDiagnosticsEvent InitializeContext ≫= fun _ =>
  logDiagnosticsEvent ConfigSyncContext ≫= fun _ =>
  logDiagnosticsEvent ApiCallContext.

(** [flush], also the body of the loop of [backgroundFlush]. *)
Definition flush (closing : bool) : M () :=
  logDiagnosticsEvents ≫= fun _ => flushInternal closing.

(** ** Laws *)

Lemma total_sendEvents events : total (sendEvents events).
Proof. unfold sendEvents. walk_total. Qed.
Lemma total_flushInternal closing : total (flushInternal closing).
Proof. unfold flushInternal. walk_total. all: apply total_sendEvents. Qed.
Lemma total_logInternal evt : total (logInternal evt).
Proof. unfold logInternal. walk_total. all: apply total_flushInternal. Qed.
Lemma total_event_time time : total (event_time time).
Proof. unfold event_time. walk_total. Qed.
Lemma total_logCustom evt : total (logCustom evt).
Proof. unfold logCustom. walk_total; [apply total_event_time|apply total_logInternal]. Qed.
Lemma total_logExposureWithEvaluationDetails evt d : total (logExposureWithEvaluationDetails evt d).
Proof.
  unfold logExposureWithEvaluationDetails, logger_logExposure.
  walk_total; (apply total_event_time || apply total_logInternal).
Qed.
End logger.

#[export] Hint Resolve total_logInternal total_logCustom total_logExposureWithEvaluationDetails
  total_event_time total_flushInternal : total.
