(* ===== verification/InitResponse.v ===== *)
(** * client_initialize_response.go

    The values a client SDK is bootstrapped with: every gate, config and
    layer of the store evaluated for one user, under hashed names. *)
From S2P Require Import Prelude GoFloat GoRuntime Hashing Types Evaluator World Store.

Record baseSpecInitializeResponse := mkBase {
  bs_Name : string;
  bs_RuleID : string;
  bs_SecondaryExposures : list exposure;
}.
Record GateInitializeResponse := mkGateInit {
  gi_base : baseSpecInitializeResponse;
  gi_Value : bool;
}.
(** Pointers are options; [ExplicitParameters] points to a slice. *)
Record ConfigInitializeResponse := mkConfigInit {
  ci_base : baseSpecInitializeResponse;
  ci_Value : option GoMap;
  ci_Group : string;
  ci_IsDeviceBased : bool;
  ci_IsExperimentActive : option bool;
  ci_IsUserInExperiment : option bool;
  ci_IsInLayer : option bool;
  ci_ExplicitParameters : option (list string);
}.
Record LayerInitializeResponse := mkLayerInit {
  li_base : baseSpecInitializeResponse;
  li_Value : option GoMap;
  li_Group : string;
  li_IsDeviceBased : bool;
  li_IsExperimentActive : option bool;
  li_IsUserInExperiment : option bool;
  li_ExplicitParameters : option (list string);
  li_AllocatedExperimentName : string;
  li_UndelegatedSecondaryExposures : list exposure;
}.
Record ClientInitializeResponse := mkInitResponse {
  ir_FeatureGates : gmap string GateInitializeResponse;
  ir_DynamicConfigs : gmap string ConfigInitializeResponse;
  ir_LayerConfigs : gmap string LayerInitializeResponse;
  ir_SdkParams : gmap string string;
  ir_HasUpdates : bool;
  ir_Generator : string;
  ir_EvaluatedUserID : string;
  ir_EvaluatedCustomIDs : gmap string string;
  ir_Time : Z;
}.
Definition zero_init_response : ClientInitializeResponse := mkInitResponse ∅ ∅ ∅ ∅ false "" "" ∅ 0.

(** ** Exposures *)

Definition exposure_key (e : exposure) : string :=
  (default "" (e !! "gate") +:+ "|" +:+ default "" (e !! "gateValue") +:+ "|" +:+
   default "" (e !! "ruleID"))%string.

(** [cleanExposures]. *)
Fixpoint cleanExposures_loop (exposures : list exposure) (seen : gset string) (result : list exposure) :
    list exposure :=
  match exposures with
  | [] => result
  | e :: exposures =>
      let key := exposure_key e in
      if decide (key ∈ seen) then cleanExposures_loop exposures seen result
      else cleanExposures_loop exposures ({[key]} ∪ seen) (result ++ [e])
  end.
Definition cleanExposures (exposures : list exposure) : list exposure :=
  cleanExposures_loop exposures ∅ [].

(** [mergeMaps(a, b)]: the map [a] afterwards; a nil map cannot be written. *)
Definition mergeMaps (a b : option GoMap) : outcome (option GoMap) :=
  match a with
  | Some a => Ret (Some (default ∅ b ∪ a))
  | None => if decide (default ∅ b = (∅ : GoMap)) then Ret None else Panic nil_map_write
  end.

(** [p != nil && *p]. *)
Definition is_true_ptr (p : option bool) : bool := default false p.

Section init_response.
Context `{GoRuntime}.
(** The store read, [evalFunc(user, spec, 0)], and the user. *)
Context (s : store) (evalFunc : configSpec → outcome evalResult) (user : User).

Definition evalResultToBaseResponse (name : string) (eval : evalResult) : string * baseSpecInitializeResponse :=
  let hashedName := getHashBase64StringEncoding name in
  (hashedName, mkBase hashedName (Id eval) (cleanExposures (SecondaryExposures eval))).

Definition gateToResponse (gateName : string) (spec : configSpec) : outcome (string * GateInitializeResponse) :=
  result ← evalFunc spec;
  let '(hashedName, base) := evalResultToBaseResponse gateName result in
  Ret (hashedName, mkGateInit base (Pass result)).

Definition is_device_based (spec : configSpec) : bool :=
  String.eqb (strings_ToLower (spec_IDType spec)) "stableid".

(** The value of an experiment that shares the parameters of a layer: the
    layer's defaults with the experiment's own values on top. *)
Definition inLayerValue (spec : configSpec) (value : option GoMap) : outcome (option GoMap) :=
  let layerName := default "" (getExperimentLayer s (spec_Name spec)) in
  match getLayerConfig s layerName with
  | Some layer => mergeMaps (unmarshal_or_empty (spec_DefaultValue layer)) value
  | None => Ret value
  end.

Definition configToResponse (configName : string) (spec : configSpec) :
    outcome (string * ConfigInitializeResponse) :=
  result ← evalFunc spec;
  let '(hashedName, base) := evalResultToBaseResponse configName result in
  let value := cb_Value (ConfigValue result) in
  let plain := mkConfigInit base value (Id result) (is_device_based spec) None None None None in
  if String.eqb (strings_ToLower (spec_Entity spec)) "experiment" then
    let userIn := Some (is_true_ptr (IsExperimentGroup result)) in
    let active := Some (is_true_ptr (spec_IsActive spec)) in
    if is_true_ptr (spec_HasSharedParams spec) then
      value ← inLayerValue spec value;
      Ret (hashedName, mkConfigInit base value (Id result) (is_device_based spec) active userIn
             (Some true) (Some (spec_ExplicitParameters spec)))
    else
      Ret (hashedName, mkConfigInit base value (Id result) (is_device_based spec) active userIn None None)
  else Ret (hashedName, plain).

Definition layerToResponse (layerName : string) (spec : configSpec) :
    outcome (string * LayerInitializeResponse) :=
  result ← evalFunc spec;
  let '(hashedName, base) := evalResultToBaseResponse layerName result in
  let value := cb_Value (ConfigValue result) in
  let undelegated := cleanExposures (UndelegatedSecondaryExposures result) in
  let params := Some (spec_ExplicitParameters spec) in
  let undelegated_response :=
    mkLayerInit base value (Id result) (is_device_based spec) None None params "" undelegated in
  let delegate := ConfigDelegate result in
  if String.eqb delegate "" then Ret (hashedName, undelegated_response)
  else
    let found := getDynamicConfig s delegate in
    delegateResult ← evalFunc (default zero_spec found);
    match found with
    | None => Ret (hashedName, undelegated_response)
    | Some delegateSpec =>
        Ret (hashedName,
          mkLayerInit base value (Id result) (is_device_based spec)
            (Some (is_true_ptr (spec_IsActive delegateSpec)))
            (Some (is_true_ptr (IsExperimentGroup delegateResult)))
            (match spec_ExplicitParameters delegateSpec with
             | [] => params
             | _ => Some (spec_ExplicitParameters delegateSpec)
             end)
            (getHashBase64StringEncoding delegate) undelegated)
    end.

(** A loop over the specs of a map, in some order: the specs that [visible]
    selects, under the names their responses have. *)
Fixpoint respond {R} (visible : configSpec → bool) (toResponse : string → configSpec → outcome (string * R))
    (specs : list (string * configSpec)) (responses : gmap string R) : outcome (gmap string R) :=
  match specs with
  | [] => Ret responses
  | (name, spec) :: specs =>
      if visible spec then
        '(hashedName, res) ← toResponse name spec;
        respond visible toResponse specs (<[hashedName := res]> responses)
      else respond visible toResponse specs responses
  end.

Definition visible_gate (appId : string) (spec : configSpec) : bool :=
  hasTargetAppID spec appId &&
  negb (String.eqb (strings_ToLower (spec_Entity spec)) "segment") &&
  negb (String.eqb (strings_ToLower (spec_Entity spec)) "holdout").
Definition visible_config (appId : string) (spec : configSpec) : bool := hasTargetAppID spec appId.

(** The app id of a client key. *)
Definition appIDForKey (clientKey : string) : string := default "" (getAppIDForSDKKey s clientKey).
End init_response.

(** [getClientInitializeResponse]. *)
Definition getClientInitializeResponse `{Outside} `{GoRuntime} (user : User)
    (evalFunc : configSpec → outcome evalResult) (clientKey : string) : M ClientInitializeResponse :=
  s ← gets w_store;
  let appId := appIDForKey s clientKey in
  gates ← range_map (st_featureGates s);
  featureGates ← lift_outcome (respond (visible_gate appId) (gateToResponse evalFunc) gates ∅);
  configs ← range_map (st_dynamicConfigs s);
  dynamicConfigs ← lift_outcome (respond (visible_config appId) (configToResponse s evalFunc) configs ∅);
  layers ← range_map (st_layerConfigs s);
  layerConfigs ← lift_outcome (respond (visible_config appId) (layerToResponse s evalFunc) layers ∅);
  mret (mkInitResponse featureGates dynamicConfigs layerConfigs ∅ true "statsig-go-sdk"
          (UserID user) (CustomIDs user) 0).
