(* ===== verification/Client.v ===== *)
(** * client.go, and the evaluator's construction and shutdown (evaluator.go)

    The public methods of a client over the world.  A method is the sequence
    of calls its Go body makes, inside the error boundary where the Go method
    is.  The exposure closure of a layer is its record of captured variables. *)
From S2P Require Import Prelude GoFloat GoRuntime Hashing Types Evaluator World Diagnostics.
From S2P Require Import ErrorBoundary Transport Store IdLists Polling Logger InitResponse.

(** ** The client *)

Record Client := mkClient {
  c_sdkKey : string;
  c_options : Options;
  c_transport : transport;
}.

Definition set_API (api : string) (o : Options) : Options :=
  mkOptions api (opt_Environment o) (LocalMode o) (ConfigSyncInterval o) (IDListSyncInterval o)
    (LoggingInterval o) (LoggingMaxBufferSize o) (BootstrapValues o) (HasRulesUpdatedCallback o)
    (InitTimeout o) (HasDataAdapter o) (opt_OutputLoggerOptions o) (opt_StatsigLoggerOptions o).

(** The closure [logFunc] of [getLayerImpl]: what it captures. *)
Record layerClosure := mkLayerClosure {
  lc_user : User;
  lc_result : evalResult;
  lc_logExposure : bool;
}.
Definition Layer : Type := configBase layerClosure.

(** [normalizeUser]: the environment's parameters, its tier, then the user's own. *)
Definition normalizeUser (user : User) (options : Options) : User :=
  let env := Params (opt_Environment options) in
  let env := if String.eqb (Tier (opt_Environment options)) "" then env
             else <["tier" := Tier (opt_Environment options)]> env in
  set_StatsigEnvironment (StatsigEnvironment user ∪ env) user.

Section client.
Context `{Outside} `{GoRuntime}.

(** ** The evaluator in the world *)

(** One evaluation: the store and the overrides it reads, at one clock reading. *)
Definition evaluate {A} (f : store → overrides → Z → outcome A) : M A :=
  s ← gets w_store; ov ← gets w_overrides; now ← now_nanos; lift_outcome (f s ov now).
Definition evaluator_checkGate (user : User) (gate : string) : M evalResult :=
  evaluate (fun s ov now => checkGate s ov now user gate).
Definition evaluator_getConfig (user : User) (config : string) : M evalResult :=
  evaluate (fun s ov now => getConfig s ov now user config).
Definition evaluator_getLayer (user : User) (layer : string) : M evalResult :=
  evaluate (fun s ov now => getLayer s ov now user layer).

(** [evaluator.getClientInitializeResponse]. *)
Definition evaluator_getClientInitializeResponse (user : User) (clientKey : string) :
    M ClientInitializeResponse :=
  s ← gets w_store; ov ← gets w_overrides; now ← now_nanos;
  getClientInitializeResponse user (fun spec => eval s ov now user eval_fuel spec 0) clientKey.

(** [newEvaluator] and [evaluator.shutdown]. *)
Definition newEvaluator (t : transport) (options : Options) : M () :=
  newStore t options ≫= fun _ => modify (upd_overrides (fun _ => no_overrides)).
Definition evaluator_shutdown : M () :=
  s ← gets w_store;
  when (st_dataAdapter s) adapter_Shutdown ≫= fun _ => stopPolling.

(** ** Construction *)

(** [NewClientWithOptions]. *)
Definition NewClientWithOptions (sdkKey : string) (options : Options) : M Client :=
  modify (upd_diagnostics (fun _ => newDiagnostics)) ≫= fun _ =>
  mark (initialize ▷ overall ▷ start) ≫= fun _ =>
  let options := if String.eqb (API options) "" then set_API DefaultEndpoint options else options in
  modify (upd_errorBoundary (fun _ => newErrorBoundary sdkKey options)) ≫= fun _ =>
  if negb (LocalMode options) && negb (strings_HasPrefix sdkKey "secret")
  then go_panic (PanicError InvalidSDKKeyError)
  else
    t ← newTransport sdkKey options;
    newLogger t options ≫= fun _ =>
    newEvaluator t options ≫= fun _ =>
    mark (initialize ▷ overall ▷ end_ ▷ success true) ≫= fun _ =>
    mret (mkClient sdkKey options t).
Definition NewClient (sdkKey : string) : M Client :=
  NewClientWithOptions sdkKey (set_API DefaultEndpoint default_options).

(** ** The methods *)

Context (c : Client).

Definition verifyUser (user : User) : M bool :=
  if String.eqb (UserID user) "" && bool_decide (CustomIDs user = ∅) then
    o ← global_Logger; LogError o (PanicError EmptyUserError) ≫= fun _ => mret false
  else mret true.

(** [fetchGate] and [fetchConfig]: any error gives the default response. *)
Definition fetchGate (user : User) (gateName : string) (t : transport) : M gateResponse :=
  '(_, err, res) ← postRequest out_unmarshal_gate (mkGateResponse "" false "") t "/check_gate"
    (PCheckGate gateName user (tr_metadata t));
  mret (match err with Some _ => mkGateResponse gateName false "" | None => res end).
Definition fetchConfig (user : User) (configName : string) (t : transport) : M configResponse :=
  '(_, err, res) ← postRequest out_unmarshal_config (mkConfigResponse "" None "") t "/get_config"
    (PGetConfig configName user (tr_metadata t));
  mret (match err with Some _ => mkConfigResponse configName None "" | None => res end).

(** [&evalResult{Pass: pass, Id: id}] and [fetchConfigFromServer]. *)
Definition server_gate_result (r : gateResponse) : evalResult :=
  mkResult (gr_Value r) zero_DynamicConfig false (gr_RuleID r) [] [] "" ∅ None None.
Definition fetchConfigFromServer (user : User) (configName : string) : M evalResult :=
  serverRes ← fetchConfig user configName (c_transport c);
  mret (mkResult false (NewConfig configName (cr_Value serverRes) (cr_RuleID serverRes)) false
          (cr_RuleID serverRes) [] [] "" ∅ None None).

Definition automatic : option logContext := Some (mkLogContext false).
Definition manual : option logContext := Some (mkLogContext true).

(** [checkGateImpl], [getConfigImpl] and [getLayerImpl]. *)
Definition checkGateImpl (user : User) (gate : string) (logExposure : bool) : M bool :=
  captureCheckGate
    (ok ← verifyUser user;
     if negb ok then mret false
     else
       let user := normalizeUser user (c_options c) in
       res ← evaluator_checkGate user gate;
       if FetchFromServer res then
         serverRes ← fetchGate user gate (c_transport c);
         mret (Pass (server_gate_result serverRes))
       else
         when logExposure
           (logGateExposure user gate (Pass res) (Id res) (SecondaryExposures res)
              (EvaluationDetails res) automatic) ≫= fun _ =>
         mret (Pass res)).

Definition getConfigImpl (user : User) (config : string) (logExposure : bool) : M DynamicConfig :=
  captureGetConfig
    (ok ← verifyUser user;
     if negb ok then mret (NewConfig config None "")
     else
       let user := normalizeUser user (c_options c) in
       res ← evaluator_getConfig user config;
       if FetchFromServer res then
         res ← fetchConfigFromServer user config;
         mret (ConfigValue res)
       else
         when logExposure
           (logConfigExposure user config (Id res) (SecondaryExposures res)
              (EvaluationDetails res) automatic) ≫= fun _ =>
         mret (ConfigValue res)).

Definition getLayerImpl (user : User) (layer : string) (logExposure : bool) : M Layer :=
  captureGetLayer
    (ok ← verifyUser user;
     if negb ok then mret (NewLayer layer None "" None)
     else
       let user := normalizeUser user (c_options c) in
       res ← evaluator_getLayer user layer;
       res ← (if FetchFromServer res then fetchConfigFromServer user layer else mret res);
       mret (NewLayer layer (cb_Value (ConfigValue res)) (cb_RuleID (ConfigValue res))
               (Some (mkLayerClosure user res logExposure)))).

(** The call of a layer's closure, made by its typed getters. *)
Definition call_layerClosure (call : exposureCall layerClosure) : M () :=
  let f := ec_closure call in
  when (lc_logExposure f)
    (logLayerExposure (lc_user f) (ec_config call) (ec_parameter call) (lc_result f)
       (EvaluationDetails (lc_result f)) automatic).
(** A typed getter of a layer with its exposure. *)
Definition layer_get {T} (select : GoValue → option T) (l : Layer) (key : string) (fallback : T) : M T :=
  let '(v, calls) := getter select l key fallback in
  for_each calls call_layerClosure ≫= fun _ => mret v.

Definition CheckGate (user : User) (gate : string) : M bool := checkGateImpl user gate true.
Definition CheckGateWithExposureLoggingDisabled (user : User) (gate : string) : M bool :=
  checkGateImpl user gate false.
Definition GetConfig (user : User) (config : string) : M DynamicConfig := getConfigImpl user config true.
Definition GetConfigWithExposureLoggingDisabled (user : User) (config : string) : M DynamicConfig :=
  getConfigImpl user config false.
Definition GetLayer (user : User) (layer : string) : M Layer := getLayerImpl user layer true.
Definition GetLayerWithExposureLoggingDisabled (user : User) (layer : string) : M Layer :=
  getLayerImpl user layer false.

(** The experiment methods verify the user twice. *)
Definition experiment_of (get : User → string → M DynamicConfig) (user : User) (experiment : string) :
    M DynamicConfig :=
  ok ← verifyUser user;
  if negb ok then mret (NewConfig experiment None "") else get user experiment.
Definition GetExperiment := experiment_of GetConfig.
Definition GetExperimentWithExposureLoggingDisabled := experiment_of GetConfigWithExposureLoggingDisabled.

(** The manual exposures. *)
Definition for_verified (user : User) (task : User → M ()) : M () :=
  captureVoid
    (ok ← verifyUser user;
     if negb ok then mret () else task (normalizeUser user (c_options c))).
Definition ManuallyLogGateExposure (user : User) (gate : string) : M () :=
  for_verified user (fun user =>
    res ← evaluator_checkGate user gate;
    logGateExposure user gate (Pass res) (Id res) (SecondaryExposures res)
      (EvaluationDetails res) manual).
Definition ManuallyLogConfigExposure (user : User) (config : string) : M () :=
  for_verified user (fun user =>
    res ← evaluator_getConfig user config;
    logConfigExposure user config (Id res) (SecondaryExposures res) (EvaluationDetails res) manual).
Definition ManuallyLogExperimentExposure (user : User) (experiment : string) : M () :=
  ManuallyLogConfigExposure user experiment.
Definition ManuallyLogLayerParameterExposure (user : User) (layer parameter : string) : M () :=
  for_verified user (fun user =>
    res ← evaluator_getLayer user layer;
    let config : Layer :=
      NewLayer layer (cb_Value (ConfigValue res)) (cb_RuleID (ConfigValue res)) None in
    logLayerExposure user config parameter res (EvaluationDetails res) manual).

(** [LogEvent]. *)
Definition LogEvent (event : Event) : M () :=
  captureVoid
    (let event := set_event_user (normalizeUser (ev_User event) (c_options c)) (ev_Time event) event in
     if String.eqb (ev_EventName event) "" then mret () else logCustom event).

(** The overrides. *)
Definition client_OverrideGate (gate : string) (val : bool) : M () :=
  captureVoid (modify (upd_overrides (OverrideGate gate val))).
Definition client_OverrideConfig (config : string) (val : option GoMap) : M () :=
  captureVoid (modify (upd_overrides (OverrideConfig config val))).
Definition client_OverrideLayer (layer : string) (val : option GoMap) : M () :=
  captureVoid (modify (upd_overrides (OverrideLayer layer val))).

(** [LogImmediate]: the request is made outside the error boundary, also in
    local mode. *)
Definition LogImmediate (events : list Event) : M httpResult :=
  if (500 <? Z.of_nat (length events)) then mret (HttpFailed None EventBatchSizeError)
  else
    let events_processed :=
      map (fun event => LoggedCustom
        (set_event_user (normalizeUser (ev_User event) (c_options c)) (ev_Time event) event)) events in
    let input := PLogEvent events_processed (tr_metadata (c_transport c)) in
    match out_marshal input with
    | Some err => mret (HttpFailed None err)
    | None => doRequest (c_transport c) "/log_event" input
    end.

(** [GetClientInitializeResponse]. *)
Definition GetClientInitializeResponse (user : User) (clientKey : string) : M ClientInitializeResponse :=
  captureGetClientInitializeResponse zero_init_response
    (ok ← verifyUser user;
     if negb ok then mret zero_init_response
     else
       let user := normalizeUser user (c_options c) in
       evaluator_getClientInitializeResponse user clientKey).

(** [Shutdown]. *)
Definition Shutdown : M () :=
  captureVoid (flush true ≫= fun _ => evaluator_shutdown).
End client.
