(* ===== verification/Statsig.v ===== *)
(** * statsig.go: the global instance, and the running SDK

    The package-level functions over the global [instance], and the steps of
    the running SDK: the calls an application may make and the turns of the
    goroutines that are running. *)
From S2P Require Import Prelude GoFloat GoRuntime Types Evaluator World Diagnostics ErrorBoundary.
From S2P Require Import Transport Store IdLists Polling Logger InitResponse Client.

(** The state of the package: the world and [instance]. *)
Definition Sdk : Type := World * option Client.
Abbreviation G := (GoM Sdk).

Definition lift_world {A} (m : M A) : G A :=
  fun s => let '(r, w) := m s.1 in (r, (w, s.2)).
Definition get_instance : G (option Client) := gets snd.
Definition set_instance (c : option Client) : G () := modify (fun s => (s.1, c)).

Section statsig.
Context `{Outside} `{GoRuntime}.

Definition IsInitialized : G bool := (fun i => bool_decide (is_Some i)) <$> get_instance.

Definition already_initialized : M () :=
  o ← global_Logger; Log o "Statsig is already initialized." None.

(** [Initialize]. *)
Definition Initialize (sdkKey : string) : G () :=
  lift_world (InitializeGlobalOutputLogger (mkOutputLoggerOptions false false false false)) ≫= fun _ =>
  initialized ← IsInitialized;
  if (initialized : bool) then lift_world already_initialized
  else c ← lift_world (NewClient sdkKey); set_instance (Some c).

(** [InitializeWithOptions].  With a timeout the client is built in a goroutine:
    [in_time] is whether it is received before the timer fires.  If not, the
    goroutine goes on, and the client it builds is dropped. *)
Definition InitializeWithOptions (sdkKey : string) (options : Options) (in_time : bool) : G () :=
  lift_world (InitializeGlobalOutputLogger (opt_OutputLoggerOptions options)) ≫= fun _ =>
  initialized ← IsInitialized;
  if (initialized : bool) then lift_world already_initialized
  else if (0 <? InitTimeout options) && negb in_time then
    lift_world (o ← global_Logger; LogStep o StatsigProcessInitialize "Timed out") ≫= fun _ =>
    _ ← lift_world (NewClientWithOptions sdkKey options); mret ()
  else c ← lift_world (NewClientWithOptions sdkKey options); set_instance (Some c).

(** The guard of the package-level functions. *)
Definition with_instance {A} (function : string) (f : Client → M A) : G A :=
  i ← get_instance;
  match i with
  | Some c => lift_world (f c)
  | None => go_panic (PanicError ("must Initialize() statsig before calling " +:+ function))
  end.

Definition pkg_CheckGate user gate := with_instance "CheckGate" (fun c => CheckGate c user gate).
Definition pkg_CheckGateWithExposureLoggingDisabled user gate :=
  with_instance "CheckGateWithExposureLoggingDisabled"
    (fun c => CheckGateWithExposureLoggingDisabled c user gate).
Definition pkg_ManuallyLogGateExposure user gate :=
  with_instance "ManuallyLogGateExposure" (fun c => ManuallyLogGateExposure c user gate).
Definition pkg_GetConfig user config := with_instance "GetConfig" (fun c => GetConfig c user config).
Definition pkg_GetConfigWithExposureLoggingDisabled user config :=
  with_instance "GetConfigWithExposureLoggingDisabled"
    (fun c => GetConfigWithExposureLoggingDisabled c user config).
Definition pkg_ManuallyLogConfigExposure user config :=
  with_instance "ManuallyLogConfigExposure" (fun c => ManuallyLogConfigExposure c user config).
Definition pkg_OverrideGate gate val :=
  with_instance "OverrideGate" (fun _ => client_OverrideGate gate val).
Definition pkg_OverrideConfig config val :=
  with_instance "OverrideConfig" (fun _ => client_OverrideConfig config val).
Definition pkg_OverrideLayer layer val :=
  with_instance "OverrideLayer" (fun _ => client_OverrideLayer layer val).
Definition pkg_GetExperiment user experiment :=
  with_instance "GetExperiment" (fun c => GetExperiment c user experiment).
Definition pkg_GetExperimentWithExposureLoggingDisabled user experiment :=
  with_instance "GetExperimentWithExposureLoggingDisabled"
    (fun c => GetExperimentWithExposureLoggingDisabled c user experiment).
Definition pkg_ManuallyLogExperimentExposure user experiment :=
  with_instance "ManuallyLogExperimentExposure" (fun c => ManuallyLogExperimentExposure c user experiment).
Definition pkg_GetLayer user layer := with_instance "GetLayer" (fun c => GetLayer c user layer).
Definition pkg_GetLayerWithExposureLoggingDisabled user layer :=
  with_instance "GetLayerWithExposureLoggingDisabled"
    (fun c => GetLayerWithExposureLoggingDisabled c user layer).
Definition pkg_ManuallyLogLayerParameterExposure user layer parameter :=
  with_instance "ManuallyLogLayerParameterExposure"
    (fun c => ManuallyLogLayerParameterExposure c user layer parameter).
Definition pkg_LogEvent event := with_instance "LogEvent" (fun c => LogEvent c event).
Definition pkg_LogImmediate events := with_instance "LogImmediate" (fun c => LogImmediate c events).
Definition pkg_GetClientInitializeResponse user :=
  with_instance "GetClientInitializeResponse" (fun c => GetClientInitializeResponse c user "").
Definition pkg_GetClientInitializeResponseForTargetApp user clientKey :=
  with_instance "GetClientInitializeResponseForTargetApp"
    (fun c => GetClientInitializeResponse c user clientKey).

(** [Shutdown] and [ShutdownAndDangerouslyClearInstance]. *)
Definition pkg_Shutdown : G () :=
  i ← get_instance; match i with Some _ => lift_world Shutdown | None => mret () end.
Definition ShutdownAndDangerouslyClearInstance : G () :=
  pkg_Shutdown ≫= fun _ => set_instance None.

(** ** The running SDK *)

(** The calls an application makes, and the getters of the layers it holds. *)
Inductive sdk_call : G () → Prop :=
| call_Initialize sdkKey : sdk_call (Initialize sdkKey)
| call_InitializeWithOptions sdkKey options in_time :
    sdk_call (InitializeWithOptions sdkKey options in_time)
| call_CheckGate user gate : sdk_call (pkg_CheckGate user gate ≫= fun _ => mret ())
| call_CheckGate_silent user gate :
    sdk_call (pkg_CheckGateWithExposureLoggingDisabled user gate ≫= fun _ => mret ())
| call_manual_gate user gate : sdk_call (pkg_ManuallyLogGateExposure user gate)
| call_GetConfig user config : sdk_call (pkg_GetConfig user config ≫= fun _ => mret ())
| call_GetConfig_silent user config :
    sdk_call (pkg_GetConfigWithExposureLoggingDisabled user config ≫= fun _ => mret ())
| call_manual_config user config : sdk_call (pkg_ManuallyLogConfigExposure user config)
| call_OverrideGate gate val : sdk_call (pkg_OverrideGate gate val)
| call_OverrideConfig config val : sdk_call (pkg_OverrideConfig config val)
| call_OverrideLayer layer val : sdk_call (pkg_OverrideLayer layer val)
| call_GetExperiment user experiment : sdk_call (pkg_GetExperiment user experiment ≫= fun _ => mret ())
| call_GetExperiment_silent user experiment :
    sdk_call (pkg_GetExperimentWithExposureLoggingDisabled user experiment ≫= fun _ => mret ())
| call_manual_experiment user experiment :
    sdk_call (pkg_ManuallyLogExperimentExposure user experiment)
| call_GetLayer user layer : sdk_call (pkg_GetLayer user layer ≫= fun _ => mret ())
| call_GetLayer_silent user layer :
    sdk_call (pkg_GetLayerWithExposureLoggingDisabled user layer ≫= fun _ => mret ())
| call_manual_layer user layer parameter :
    sdk_call (pkg_ManuallyLogLayerParameterExposure user layer parameter)
| call_layer_getter (T : Type) (select : GoValue → option T) (l : Layer) key (fallback : T) :
    sdk_call (lift_world (layer_get select l key fallback) ≫= fun _ => mret ())
| call_LogEvent event : sdk_call (pkg_LogEvent event)
| call_LogImmediate events : sdk_call (pkg_LogImmediate events ≫= fun _ => mret ())
| call_init_response user clientKey :
    sdk_call (pkg_GetClientInitializeResponseForTargetApp user clientKey ≫= fun _ => mret ())
| call_Shutdown : sdk_call pkg_Shutdown
| call_clear : sdk_call ShutdownAndDangerouslyClearInstance.

(** The turn of a goroutine: a send, a flush of the ticker, an iteration of a loop. *)
Definition turn (g : goroutine) : M () :=
  match g with
  | GoSendEvents events => sendEvents events
  | GoBackgroundFlush => flush false
  | GoPollForRulesetChanges => pollForRulesetChanges ≫= fun _ => mret ()
  | GoPollForIDListChanges => pollForIDListChanges ≫= fun _ => mret ()
  end.

Inductive sdk_step : Sdk → Sdk → Prop :=
| step_call m s : sdk_call m → sdk_step s (m s).2
| step_turn w i g : g ∈ w_goroutines w → sdk_step (w, i) ((turn g w).2, i)
| step_goroutine_ends w i g gs gs' :
    w_goroutines w = gs ++ g :: gs' → sdk_step (w, i) (upd_goroutines (fun _ => gs ++ gs') w, i).

(** Before any call: no instance, and components with nothing in them. *)
Definition zero_transport : transport := mkTransport "" "" (mkMetadata "" "" "") false "".
Definition zero_world : World :=
  mkWorld newDiagnostics (mkErrorBoundary "" "" "" ∅)
    (fresh_store zero_transport 0 0 false false)
    (mkLogger [] zero_transport false 1 (mkStatsigLoggerOptions false false false))
    no_overrides None [] 0 [].
Definition initial_sdk (s : Sdk) : Prop := s = (zero_world, None).
Definition reachable_sdk (s : Sdk) : Prop := ∃ s0, initial_sdk s0 ∧ rtc sdk_step s0 s.
End statsig.
