(* ===== verification/WorldExamples.v ===== *)
(** * A concrete outside and worlds

    An outside whose network is a function of the request, and a world with
    the specs of [Examples] in its store: the closed terms on which the
    theorems about the stateful components are applied. *)
From S2P Require Import Prelude GoFloat GoRuntime Hashing Types Evaluator Examples World.
From S2P Require Import Diagnostics.
From S2P Require Import ErrorBoundary Transport Store.

Definition example_specs : downloadConfigSpecResponse :=
  mkSpecs true 1700000000000 [open_gate; dependent_gate] [experiment_spec] [layer_spec]
    {["layer" := ["experiment"]]} ∅ {["overall" := 10000]} ∅.

Definition specs_text : string := "specs".
Definition id_lists_text : string := "lists".
Definition example_server_list : serverIDList := mkServerList 20 1 "https://idlist/ids" "file1".

(** An outside with a given network; the clock advances one second a tick. *)
Definition example_outside (network : nat → httpRequest → httpResult)
    (adapter : nat → string → string + goPanic) : Outside := {|
  out_now i := (1631638014 + Z.of_nat i) * 1000000000;
  out_rfc3339 _ := "2021-09-14T16:46:54Z";
  out_rand _ := 5000;
  out_order _ keys := keys;
  out_order_perm _ _ := reflexivity _;
  out_uuid _ := "6a7b";
  out_stack _ := "goroutine 1 [running]:";
  out_quote s := s;
  out_go_version := "go1.20";
  out_new_request _ target := if String.eqb target "" then Some "empty url" else None;
  out_http := network;
  out_marshal _ := None;
  out_marshal_specs _ := (specs_text, None);
  out_unmarshal_specs text :=
    if String.eqb text specs_text then (example_specs, None) else (zero_specs, Some "invalid JSON");
  out_unmarshal_id_lists text :=
    if String.eqb text id_lists_text then ({["ids" := example_server_list]}, None)
    else (∅, Some "invalid JSON");
  out_unmarshal_gate _ := (mkGateResponse "strange" true "server_rule", None);
  out_unmarshal_config _ := (mkConfigResponse "strange" None "server_rule", None);
  out_unmarshal_log _ := None;
  out_adapter_initialize _ := None;
  out_adapter_get := adapter;
  out_adapter_set _ _ _ := None;
  out_adapter_should_be_used _ _ := inl true;
  out_adapter_shutdown _ := None;
|}.

Definition ok_response (text : string) : httpResult := HttpDone (mkResponse 200 ∅ (inl text)).
Definition error_response (code : Z) : httpResult := HttpDone (mkResponse code ∅ (inl "")).

Definition example_body : string := "+12345678" +:+ newline +:+ "+abcdefgh" +:+ newline.

(** A network that is down, one that always fails, and one that serves specs. *)
Definition down (i : nat) (req : httpRequest) : httpResult := HttpFailed None "no route to host".
Definition overloaded (i : nat) (req : httpRequest) : httpResult := error_response 503.
Definition serving (i : nat) (req : httpRequest) : httpResult :=
  if strings_HasSuffix (req_URL req) "/download_config_specs" then ok_response specs_text
  else if strings_HasSuffix (req_URL req) "/get_id_lists" then ok_response id_lists_text
  else if strings_HasPrefix (req_URL req) "https://idlist/" then
    HttpDone (mkResponse 206 {["Content-Length" := ["20"]]}
      (inl example_body))
  else ok_response "".
Definition broken_adapter (i : nat) (key : string) : string + goPanic :=
  inr (PanicError "invalid get function").

Definition example_transport : transport :=
  mkTransport "https://api" "secret-key" (mkMetadata "go-sdk" "1.12.1" "1.20") false "6a7b".

Definition empty_store : store :=
  mkStore ∅ ∅ ∅ ∅ ∅ ∅ 0 0 reasonUninitialized false example_transport 10000000000 60000000000
    false false false 0.
Definition stocked_store : store :=
  set_initReason reasonNetwork
    (set_specs (by_name [open_gate; dependent_gate; cyclic_gate; strange_gate; segment_gate])
       (by_name [experiment_spec]) (by_name [layer_spec]) {["experiment" := "layer"]} ∅ 1 empty_store).

Definition example_logger (max : Z) : logger :=
  mkLogger [] example_transport false max (mkStatsigLoggerOptions false false false).

Definition example_world (s : store) : World :=
  mkWorld newDiagnostics (newErrorBoundary "secret-key" default_options) s (example_logger 3)
    no_overrides None [] 0 [].

(** A world with a list whose file was not downloaded yet, and the answer. *)
Definition example_download : httpResponse :=
  mkResponse 206 {["Content-Length" := ["20"]]} (inl example_body).
Definition example_list : idList := mkIDList "ids" 0 1 "https://idlist/ids" "file1" (Some ∅).
Definition listed_world : World := example_world (set_idLists (fun _ => {["ids" := example_list]}) stocked_store).


(** A world whose initialize diagnostics hold two markers, with a rate for the
    key of one of them. *)
Definition marked_world `{Outside} : World :=
  (updateSamplingRates InitializeContext {["overall" := 10000]}
     (mark (initialize ▷ bootstrap ▷ process ▷ start)
        (mark (initialize ▷ overall ▷ start) (example_world stocked_store)).2).2).2.

Definition example_event : loggedEvent := LoggedCustom (mkEvent "purchase" alice "9.99" ∅ 1).
