(* ===== verification/ClientExamples.v ===== *)
(** * A concrete client *)
From S2P Require Import Prelude GoFloat GoRuntime Types Evaluator Examples World Diagnostics.
From S2P Require Import Transport Store WorldExamples Logger InitResponse Client.

(** A client in the staging tier whose requests go to the example transport. *)
Definition example_options : Options :=
  mkOptions "https://api" (mkEnvironment "staging" ∅) false 0 0 0 0 "" false 0 false
    (mkOutputLoggerOptions false false false false) (mkStatsigLoggerOptions false false false).
Definition example_client : Client := mkClient "secret-key" example_options example_transport.
