(* ===== verification/TransportFacts.v ===== *)
(** * Theorems about requests

    What a successful request means, how often and after which answers a request
    is tried again, and the pauses between the attempts. *)
From S2P Require Import Prelude GoFloat GoRuntime Hashing Types Evaluator World Diagnostics.
From S2P Require Import Transport.
From S2P Require Import WorldExamples.

Section facts.
Context `{Outside} {A : Type} (decode : string → A * option goError) (zero : A).

(** An answer of the server to a request. *)
Definition answered (t : transport) (endpoint : string) (in_ : payload) (r : httpResult) : Prop :=
  ∃ i time, r = out_http i (mkRequest "POST" (tr_api t +:+ endpoint)%string
                              (request_headers t time) (Some in_)).

Lemma doRequest_run t endpoint in_ w :
  ∃ r w', doRequest t endpoint in_ w = (Ret r, w') ∧
    (answered t endpoint in_ r ∨ ∃ err, r = HttpFailed None err).
Proof.
  unfold doRequest. destruct (out_new_request _ _) as [err|].
  - do 2 eexists. split; [done|]. right. by eexists.
  - do 2 eexists. split; [reflexivity|]. left. by do 2 eexists.
Qed.

(** The attempts of [retry]: every one but the last asked for a retry. *)
Inductive retried (fn : M (attempt A)) : nat → Z → World → attempt A → World → Prop :=
| retried_done n backoff w r w' :
    fn w = (Ret r, w') → at_retry r = false → retried fn n backoff w r w'
| retried_exhausted backoff w r w' :
    fn w = (Ret r, w') → at_retry r = true → retried fn 0 backoff w r w'
| retried_again n backoff w r w1 w2 r' w' :
    fn w = (Ret r, w1) → at_retry r = true → (sleep backoff w1).2 = w2 →
    retried fn n (wrap_i64 (backoff * backoffMultiplier)) w2 r' w' →
    retried fn (S n) backoff w r' w'.

Lemma retry_retried fn n backoff w : total fn →
  ∃ r w', retry_loop n backoff fn w = (Ret r, w') ∧ retried fn n backoff w r w'.
Proof.
  intros Hfn. revert backoff w. induction n as [|n IH]; intros backoff w;
    destruct (total_run fn w Hfn) as [r Hr]; simpl;
    rewrite (run_bind _ _ w r) by (by rewrite Hr); destruct (at_retry r) eqn:Hretry.
  - exists r, (fn w).2. split; [done|]. by apply retried_exhausted.
  - exists r, (fn w).2. split; [done|]. by apply retried_done.
  - rewrite run_unit by apply total_emit.
    destruct (IH (wrap_i64 (backoff * backoffMultiplier)) (sleep backoff (fn w).2).2)
      as (r' & w' & Hrun & Hret).
    exists r', w'. split; [done|]. by eapply retried_again.
  - exists r, (fn w).2. split; [done|]. by apply retried_done.
Qed.

Lemma retried_last fn n backoff w r w' :
  retried fn n backoff w r w' → ∃ w0, fn w0 = (Ret r, w').
Proof. induction 1; eauto. Qed.

(** A request that returns a response and no error was answered by the server
    with a success code and a body that decodes to the result. *)
Lemma postRequestInternal_success t endpoint in_ retries backoff w res out w' :
  postRequestInternal decode zero t endpoint in_ retries backoff w = (Ret (Some res, None, out), w') →
  tr_LocalMode t = false ∧ answered t endpoint in_ (HttpDone res) ∧
  200 ≤ StatusCode res < 300 ∧ decode_body decode zero res = (out, None).
Proof.
  unfold postRequestInternal. destruct (tr_LocalMode t); [done|].
  destruct (out_marshal in_) as [err|]; [done|]. unfold retry.
  destruct (retry_retried (judge decode zero <$> doRequest t endpoint in_) (Z.to_nat retries) backoff w)
    as (r & w1 & Hrun & Hret); [apply total_fmap, total_doRequest|].
  rewrite (run_bind _ _ w r) by (by rewrite Hrun). intros [= Hres Herr Hout _].
  apply retried_last in Hret as (w0 & Hlast). split; [done|].
  destruct (doRequest_run t endpoint in_ w0) as (h & w2 & Hdo & Hh).
  unfold fmap, gom_fmap in Hlast. rewrite Hdo in Hlast. injection Hlast as <- _.
  destruct h as [response|response err]; simpl in *; [|done].
  destruct Hh as [Hh|[? ?]]; [|done].
  destruct (_ && _) eqn:Hcode; [|done].
  destruct (decode_body decode zero response) as [out' err'] eqn:Hbody. simpl in *. simplify_eq.
  apply andb_true_iff in Hcode as [Hlow Hhigh]. split; [done|]. split; [lia|done].
Qed.
End facts.

(** ** The schedule of the attempts *)

Section schedule.
Context `{Outside} {A : Type} (decode : string → A * option goError) (zero : A).

(** The answers that call for another attempt: one of eight status codes, or
    an error that came with a response. *)
Definition asks_retry (r : httpResult) : bool :=
  match r with
  | HttpDone response => bool_decide (StatusCode response ∈ [408; 500; 502; 503; 504; 522; 524; 599])
  | HttpFailed response _ => bool_decide (is_Some response)
  end.

(** What the caller is given for an answer: the response with the decoded body
    and the decoder's error for a success code, otherwise an error and nothing
    decoded. *)
Definition post_result (r : httpResult) : option httpResponse * option goError * A :=
  match r with
  | HttpFailed response err => (response, Some err, zero)
  | HttpDone response =>
      if bool_decide (200 ≤ StatusCode response < 300) then
        match Body response with
        | inl text => (Some response, (decode text).2, (decode text).1)
        | inr err => (Some response, Some err, zero)
        end
      else (Some response, Some ("http response error code: " +:+ format_int (StatusCode response))%string, zero)
  end.

Lemma judge_asks_retry r : at_retry (judge decode zero r) = asks_retry r.
Proof.
  destruct r as [response|response err]; simpl; [|done].
  destruct ((200 <=? _) && _) eqn:Hcode; [|done].
  destruct (decode_body decode zero response). simpl. symmetry. apply bool_decide_eq_false.
  apply andb_true_iff in Hcode as [Hlow Hhigh]. rewrite !elem_of_cons. intros Hin.
  assert (200 ≤ StatusCode response < 300) by lia. destruct Hin as [|[|[|[|[|[|[|[|[]%elem_of_nil]]]]]]]]; lia.
Qed.

Lemma judge_result r :
  (at_response (judge decode zero r), at_err (judge decode zero r), at_out (judge decode zero r)) =
  post_result r.
Proof.
  destruct r as [response|response err]; simpl; [|done].
  replace (bool_decide (200 ≤ StatusCode response < 300)) with
    ((200 <=? StatusCode response) && (StatusCode response <? 300)).
  - destruct (_ && _); [|done]. unfold decode_body.
    destruct (Body response) as [text|err]; [|done]. by destruct (decode text).
  - apply eq_bool_prop_intro. rewrite bool_decide_spec, andb_True, !Is_true_true. lia.
Qed.

Section attempts.
Context (t : transport) (endpoint : string) (in_ : payload).

(** The attempt that finds the outside at tick [i]: it reads the clock, and its
    answer is that of the next tick. *)
Definition attempt_request (i : nat) : httpRequest :=
  mkRequest "POST" (tr_api t +:+ endpoint)%string
    (request_headers t (getUnixMilli (out_now i))) (Some in_).
Definition attempt_answer (i : nat) : httpResult := out_http (S i) (attempt_request i).

(** [k] pauses between [k + 1] attempts, each ten times the one before. *)
Fixpoint attempts (k : nat) (pause : Z) (i : nat) : list effect :=
  match k with
  | O => [EHttp (attempt_request i)]
  | S k => EHttp (attempt_request i) :: ESleep pause :: attempts k (pause * 10) (i + 2)
  end.

Lemma attempt_run w :
  out_new_request "POST" (tr_api t +:+ endpoint)%string = None →
  ∃ w', (judge decode zero <$> doRequest t endpoint in_) w =
      (Ret (judge decode zero (attempt_answer (w_tick w))), w') ∧
    w_tick w' = (w_tick w + 2)%nat ∧
    w_trace w' = w_trace w ++ [EHttp (attempt_request (w_tick w))].
Proof.
  intros Hnew. unfold doRequest. rewrite Hnew. eexists. split; [reflexivity|]. simpl. split; [lia|done].
Qed.

(** [postRequest] asks once. *)
Lemma postRequest_run w :
  tr_LocalMode t = false → out_marshal in_ = None →
  out_new_request "POST" (tr_api t +:+ endpoint)%string = None →
  ∃ w', postRequest decode zero t endpoint in_ w =
      (Ret (post_result (attempt_answer (w_tick w))), w') ∧
    w_trace w' = w_trace w ++ [EHttp (attempt_request (w_tick w))].
Proof.
  intros Hlocal Hmarshal Hnew. destruct (attempt_run w Hnew) as (w' & Hrun & _ & Htrace).
  exists w'. split; [|done]. unfold postRequest, postRequestInternal. rewrite Hlocal, Hmarshal.
  unfold retry. change (Z.to_nat 0) with 0%nat. rewrite <- judge_result.
  set (r := judge decode zero _) in *.
  assert (Hloop : retry_loop 0 0 (judge decode zero <$> doRequest t endpoint in_) w = (Ret r, w')).
  { cbn [retry_loop]. rewrite (run_bind _ _ w r) by (by rewrite Hrun). rewrite Hrun.
    by destruct (at_retry r). }
  rewrite (run_bind _ _ w r) by (by rewrite Hloop). by rewrite Hloop.
Qed.

Lemma attempts_run n pause w :
  out_new_request "POST" (tr_api t +:+ endpoint)%string = None →
  0 < pause → pause * 10 ^ Z.of_nat n < two63 →
  ∃ k w', (k ≤ n)%nat ∧
    retry_loop n pause (judge decode zero <$> doRequest t endpoint in_) w =
      (Ret (judge decode zero (attempt_answer (w_tick w + 2 * k))), w') ∧
    w_trace w' = w_trace w ++ attempts k pause (w_tick w) ∧
    (∀ j, (j < k)%nat → asks_retry (attempt_answer (w_tick w + 2 * j)) = true) ∧
    (k = n ∨ asks_retry (attempt_answer (w_tick w + 2 * k)) = false).
Proof.
  intros Hnew. revert pause w. induction n as [|n IH]; intros pause w Hpos Hmax;
    destruct (attempt_run w Hnew) as (w1 & Hrun & Htick & Htrace); cbn [retry_loop];
    rewrite (run_bind _ _ w _ ltac:(by rewrite Hrun)), Hrun; cbn [snd]; rewrite judge_asks_retry;
    destruct (asks_retry (attempt_answer (w_tick w))) eqn:Hask.
  1, 2, 4: exists 0%nat, w1; rewrite Nat.mul_0_r, Nat.add_0_r;
    repeat split; [lia|done|intros; lia|by auto].
  rewrite Nat2Z.inj_succ, Z.pow_succ_r in Hmax by lia.
  assert (1 ≤ 10 ^ Z.of_nat n) by (apply (Z.pow_le_mono_r 10 0); lia).
  assert (Hwrap : wrap_i64 (pause * backoffMultiplier) = pause * 10).
  { apply wrap_i64_id. unfold in_i64, backoffMultiplier, two63 in *. nia. }
  rewrite run_unit by apply total_emit. rewrite Hwrap.
  destruct (IH (pause * 10) (sleep pause w1).2) as (k & w' & Hk & Hret & Ht & Hasked & Hlast); [lia..|].
  change (w_tick (sleep pause w1).2) with (w_tick w1) in *. rewrite Htick in *.
  assert (Hshift : ∀ j, (w_tick w + 2 * S j = w_tick w + 2 + 2 * j)%nat) by lia.
  exists (S k), w'. rewrite Hshift. split; [lia|]. split; [done|]. split; [|split].
  - rewrite Ht. simpl. by rewrite Htrace, <- !app_assoc.
  - intros [|j] Hj; [by rewrite Nat.mul_0_r, Nat.add_0_r|]. rewrite Hshift. apply Hasked. lia.
  - destruct Hlast as [-> | ?]; auto.
Qed.
End attempts.

(** C29. Retries: posting with up to [retries] retries (at most 9, so that the
    pauses stay in an int64; the logger asks for 5) sends the same body [k + 1]
    times, [k] at most [retries], pausing 1 s, 10 s, 100 s and so on in between, and
    nothing else. Every answer but the last called for a retry - a status code of 408,
    500, 502, 503, 504, 522, 524 or 599, or an error with a response - and the last
    did not unless the retries are used up; the caller is given what the last answer
    says. *)
Theorem retry_schedule t endpoint in_ retries w :
  0 ≤ retries ≤ 9 → tr_LocalMode t = false → out_marshal in_ = None →
  out_new_request "POST" (tr_api t +:+ endpoint)%string = None →
  let answer j := attempt_answer t endpoint in_ (w_tick w + 2 * j) in
  ∃ k w', Z.of_nat k ≤ retries ∧
    retryablePostRequest decode zero t endpoint in_ retries w = (Ret (post_result (answer k)), w') ∧
    w_trace w' = w_trace w ++ attempts t endpoint in_ k time_Second (w_tick w) ∧
    (∀ j, (j < k)%nat → asks_retry (answer j) = true) ∧
    (Z.of_nat k = retries ∨ asks_retry (answer k) = false).
Proof.
  intros Hretries Hlocal Hmarshal Hnew answer.
  destruct (attempts_run t endpoint in_ (Z.to_nat retries) time_Second w Hnew)
    as (k & w' & Hk & Hrun & Ht & Hasked & Hlast); [done| |].
  { rewrite Z2Nat.id by lia. unfold time_Second, two63.
    assert (10 ^ retries ≤ 10 ^ 9) by (apply Z.pow_le_mono_r; lia). lia. }
  exists k, w'. split; [lia|]. split; [|split; [done|split; [done|]]].
  - unfold retryablePostRequest, postRequestInternal. rewrite Hlocal, Hmarshal. unfold retry.
    rewrite (run_bind _ _ w _ ltac:(by rewrite Hrun)), Hrun. cbn [snd]. by rewrite <- judge_result.
  - destruct Hlast as [-> | ?]; [left; lia|by right].
Qed.
End schedule.

(** ** Witness *)

Section witness.
#[local] Instance overloaded_outside : Outside := example_outside overloaded broken_adapter.

(** A server that answers 503 is asked three times when there are two retries. *)
Lemma retry_schedule_witness :
  let batch := PLogEvent [] (tr_metadata example_transport) in
  let w := example_world empty_store in
  ∃ w', retryablePostRequest (fun _ => ((), None)) () example_transport "/log_event" batch 2 w =
      (Ret (post_result (fun _ => ((), None)) () (error_response 503)), w') ∧
    w_trace w' = attempts example_transport "/log_event" batch 2 time_Second 0.
Proof.
  intros batch w.
  destruct (retry_schedule (fun _ => ((), None)) () example_transport "/log_event" batch 2 w)
    as (k & w' & Hk & Hrun & Ht & _ & Hlast); [lia|reflexivity..|].
  assert (Z.of_nat k = 2) by (destruct Hlast as [?|Hno]; [done|discriminate Hno]).
  assert (k = 2%nat) as -> by lia. exists w'. split; [exact Hrun|exact Ht].
Defined.
End witness.
