(* ===== verification/StoreFacts.v ===== *)
(** * Theorems about config specs in the store

    What installing specs does to lookups, and that a sync replaces the specs
    as a whole or not at all. *)
From S2P Require Import Prelude GoFloat GoRuntime Hashing Types Evaluator Examples World.
From S2P Require Import Diagnostics.
From S2P Require Import ErrorBoundary Transport Store WorldExamples TransportFacts.

(** The specification of an installed response: what the accessors answer. *)
Definition last_named (specs : list configSpec) (name : string) : option configSpec :=
  last (filter (fun spec => spec_Name spec = name) specs).

Record installed (specs : downloadConfigSpecResponse) (s : store) : Prop := {
  installed_gate name : getGate s name = last_named (FeatureGates specs) name;
  installed_config name : getDynamicConfig s name = last_named (DynamicConfigs specs) name;
  installed_layer name : getLayerConfig s name = last_named (LayerConfigs specs) name;
  installed_experiment e l :
    getExperimentLayer s e = Some l → ∃ es, Layers specs !! l = Some es ∧ e ∈ es;
  installed_no_experiment e :
    getExperimentLayer s e = None → ∀ l es, Layers specs !! l = Some es → e ∉ es;
  installed_app key : getAppIDForSDKKey s key = SDKKeysToAppID specs !! key;
  installed_time : lastSyncTime s = Time specs;
}.

(** The fields an installation replaces, and the others. *)
Definition rules (s : store) :=
  (st_featureGates s, st_dynamicConfigs s, st_layerConfigs s, st_experimentToLayer s,
   st_sdkKeysToAppID s, st_lastSyncTime s).
Definition rest (s : store) :=
  (st_idLists s, st_initialSyncTime s, st_initializedIDLists s, st_transport s,
   st_configSyncInterval s, st_idListSyncInterval s, st_shutdown s, st_rulesUpdatedCallback s,
   st_dataAdapter s).

Section facts.
Context `{Outside}.

Lemma setConfigSpecs_run specs w :
  ∃ w', setConfigSpecs specs w = (Ret (HasUpdates specs), w') ∧
    (HasUpdates specs = true → installed specs (w_store w')) ∧
    (HasUpdates specs = false → w_store w' = w_store w) ∧
    rest (w_store w') = rest (w_store w) ∧
    st_initReason (w_store w') = st_initReason (w_store w) ∧
    st_syncFailureCount (w_store w') = st_syncFailureCount (w_store w).
Proof.
  unfold setConfigSpecs, updateSamplingRates.
  destruct (HasUpdates specs); eexists; (split; [reflexivity|]).
  2: by split; [|split; [|split; [|split]]].
  split; [|by split; [|split; [|split]]]. intros _.
  set (layers := entries_in_order _ _). destruct (range_entries (w_tick w) (Layers specs)) as [_ Hl].
  fold layers in Hl. destruct (insert_all_experiments layers) with (e := "") as [_ _].
  split; simpl; try (intros; apply by_name_lookup); try done.
  - intros e l He. apply insert_all_experiments, experiments_of_elem in He as (es & Hes & He).
    exists es. split; [by apply Hl|done].
  - intros e He l es Hes Hin. apply (proj2 (insert_all_experiments layers e) He l).
    apply experiments_of_elem. exists es. split; [by apply Hl|done].
Qed.

(** The specs an argument of [processConfigSpecs] holds. *)
Definition arg_specs (arg : configSpecsArg) : option downloadConfigSpecResponse :=
  match arg with
  | SpecsString text =>
      match out_unmarshal_specs text with (specs, None) => Some specs | _ => None end
  | SpecsDecoded specs => Some specs
  | SpecsOther => None
  end.

(** What a step that may install specs does to the store. *)
Record installs (specs : option downloadConfigSpecResponse) (ok : bool) (s s' : store) : Prop := {
  installs_ok : ok = true → ∃ sp, specs = Some sp ∧ HasUpdates sp = true ∧ installed sp s';
  installs_not : ok = false → rules s' = rules s;
  installs_rest : rest s' = rest s;
  installs_reason : st_initReason s' = st_initReason s;
  installs_failures : st_syncFailureCount s' = st_syncFailureCount s;
}.

Lemma processConfigSpecs_run arg m w : processable m →
  ∃ ok w', processConfigSpecs arg m w = (Ret ok, w') ∧
    installs (arg_specs arg) ok (w_store w) (w_store w') ∧
    w_overrides w' = w_overrides w.
Proof.
  intros [Hs He]. unfold processConfigSpecs. rewrite run_unit by by apply total_mark.
  set (w1 := (mark _ w).2).
  assert (Hw1 : behind_diagnostics w1 = behind_diagnostics w) by apply behind_mark.
  set (step := match arg with SpecsString _ => _ | SpecsDecoded _ => _ | SpecsOther => _ end).
  assert (Hstep : ∃ ok w2, step w1 = (Ret ok, w2) ∧
    installs (arg_specs arg) ok (w_store w1) (w_store w2) ∧ w_overrides w2 = w_overrides w1).
  { assert (Hnone : ∃ ok w2, (mret false : M bool) w1 = (Ret ok, w2) ∧
      installs None ok (w_store w1) (w_store w2) ∧ w_overrides w2 = w_overrides w1).
    { exists false, w1. by repeat split. }
    assert (Hset : ∀ specs, ∃ ok w2, setConfigSpecs specs w1 = (Ret ok, w2) ∧
      installs (Some specs) ok (w_store w1) (w_store w2) ∧ w_overrides w2 = w_overrides w1).
    { intros specs. destruct (setConfigSpecs_run specs w1) as (w2 & Hrun & Hi & Hn & Hr & Hre & Hf).
      exists (HasUpdates specs), w2. split; [done|]. split.
      - split; try done; [eauto|]. intros Hno. by rewrite Hn.
      - unfold setConfigSpecs in Hrun. destruct (HasUpdates specs); by injection Hrun as <-. }
    destruct arg as [text|specs|]; simpl in *; [|apply Hset|apply Hnone].
    subst step. destruct (out_unmarshal_specs text) as [specs [err|]]; [apply Hnone|apply Hset]. }
  destruct Hstep as (ok & w2 & Hrun & [Hi Hn Hr Hre Hf] & Hov).
  rewrite (run_bind _ _ w1 ok) by (by rewrite Hrun). rewrite Hrun. simpl.
  rewrite run_unit by by apply total_mark. do 2 eexists. split; [reflexivity|].
  set (w3 := (mark _ w2).2).
  assert (Hw3 : behind_diagnostics w3 = behind_diagnostics w2) by apply behind_mark.
  injection Hw1 as _ Hs1 _ Ho1 _ _. injection Hw3 as _ Hs3 _ Ho3 _ _.
  rewrite Hs3, <- Hs1. split; [by split|congruence].
Qed.

Lemma core_saveConfigSpecsToAdapter specs : keeps core (saveConfigSpecsToAdapter specs).
Proof. unfold saveConfigSpecsToAdapter, eprint. destruct (out_marshal_specs specs). walk_keeps. Qed.

(** The part of the store a failed sync leaves alone. *)
Definition served (w : World) := (rules (w_store w), rest (w_store w), st_initReason (w_store w)).

Lemma served_handleSyncError err cold : keeps served (handleSyncError err cold).
Proof. unfold handleSyncError, eprint. walk_keeps. Qed.

(** A sync from the server that took place: a successful answer to the request
    with the last sync time was decoded and installed. *)
Definition synced (s s' : store) : Prop :=
  ∃ specs res,
    answered (st_transport s) "/download_config_specs"
      (PDownloadConfigs (st_lastSyncTime s) (tr_metadata (st_transport s))) (HttpDone res) ∧
    200 ≤ StatusCode res < 300 ∧
    decode_body out_unmarshal_specs zero_specs res = (specs, None) ∧
    HasUpdates specs = true ∧ installed specs s' ∧ st_initReason s' = reasonNetwork ∧
    st_syncFailureCount s' = st_syncFailureCount s.

Lemma installed_fields specs s s' :
  rules s' = rules s → installed specs s → installed specs s'.
Proof.
  intros Hr [Hg Hc Hl He Hn Ha Ht]. unfold rules in Hr. simpl in *. injection Hr as R1 R2 R3 R4 R5 R6.
  split; simpl; rewrite ?R1, ?R2, ?R3, ?R4, ?R5, ?R6; auto; intros; rewrite ?R1, ?R2, ?R3, ?R5; auto.
Qed.

Lemma fetchConfigSpecsFromServer_run cold w :
  ∃ w', fetchConfigSpecsFromServer cold w = (Ret (), w') ∧
    rest (w_store w') = rest (w_store w) ∧
    ((rules (w_store w') = rules (w_store w) ∧ st_initReason (w_store w') = st_initReason (w_store w))
     ∨ synced (w_store w) (w_store w')).
Proof.
  unfold fetchConfigSpecsFromServer.
  run_step w_store m w1 H1. run_step w_store u w2 H2. rewrite H1 in H2.
  rewrite (run_bind _ _ _ (w_store w2)) by done. simpl (gets _ _).2. rewrite H2.
  set (post := postRequest _ _ _ _ _).
  destruct (total_run post w2) as [[[res err] specs] Hpost]; [apply total_postRequestInternal|].
  rewrite (run_bind _ _ _ (res, err, specs)) by (by rewrite Hpost).
  set (w3 := (post w2).2) in *.
  assert (H3 : w_store w3 = w_store w).
  { rewrite <- H2. subst w3. apply (f_equal (fun x => x.1.1.1.1.2) (core_postRequestInternal _ _ _ _ _ _ _ w2)). }
  assert (Hfail : ∃ w', (m ← addDiagnostics;
      mark (m ▷ downloadConfigSpecs ▷ networkRequest ▷ end_ ▷ success false ▷ failure_tags res) ≫= fun _ =>
      handleSyncError err cold) w3 = (Ret (), w') ∧ served w' = served w).
  { run_step w_store m1 w4 H4. run_step w_store u1 w5 H5.
    { by apply total_mark, failure_tags_ok. }
    destruct (total_run (handleSyncError err cold) w5 (total_handleSyncError _ _)) as [[] Hh].
    eexists. split; [exact Hh|]. rewrite served_handleSyncError. unfold served. congruence. }
  assert (Hfailed : ∃ w', (m ← addDiagnostics;
      mark (m ▷ downloadConfigSpecs ▷ networkRequest ▷ end_ ▷ success false ▷ failure_tags res) ≫= fun _ =>
      handleSyncError err cold) w3 = (Ret (), w') ∧ rest (w_store w') = rest (w_store w) ∧
      ((rules (w_store w') = rules (w_store w) ∧ st_initReason (w_store w') = st_initReason (w_store w))
       ∨ synced (w_store w) (w_store w'))).
  { destruct Hfail as (w' & Hrun & Hs). exists w'. split; [done|]. injection Hs as ???.
    unfold rules, rest. split; [congruence|left; split; congruence]. }
  clear Hfail. destruct res as [res|]; [|done]. destruct err as [err|]; [done|]. clear Hfailed.
  run_step w_store m1 w4 H4. run_step w_store u1 w5 H5. run_step w_store m2 w6 H6.
  assert (Hw6 : w_store w6 = w_store w) by congruence.
  destruct (processConfigSpecs_run (SpecsDecoded specs) (m2 ▷ downloadConfigSpecs) w6 ltac:(done))
    as (ok & w7 & Hrun & [Hi Hn Hr Hre Hf] & _). rewrite Hw6 in *. simpl in Hi.
  rewrite (run_bind _ _ w6 ok) by (by rewrite Hrun). rewrite Hrun. simpl. destruct ok; simpl.
  - destruct (Hi eq_refl) as (sp & [= <-] & Hup & Hinst).
    destruct (total_run (when (st_rulesUpdatedCallback (w_store w))
      (let '(v, err) := out_marshal_specs specs in
       emit (ERulesUpdated match err with Some _ => "" | None => v end (Time specs))) ≫= fun _ =>
      when (st_dataAdapter (w_store w)) (saveConfigSpecsToAdapter specs))
      (upd_store (set_initReason reasonNetwork) w7)) as [[] Htail].
    { apply total_bind; [|intros; by apply total_when, total_saveConfigSpecsToAdapter].
      apply total_when. destruct (out_marshal_specs specs). apply total_emit. }
    eexists. split; [unfold set_reason; rewrite run_unit by apply total_modify; exact Htail|].
    assert (Hstore : ∀ w0, w_store ((when (st_rulesUpdatedCallback (w_store w))
      (let '(v, err) := out_marshal_specs specs in
       emit (ERulesUpdated match err with Some _ => "" | None => v end (Time specs))) ≫= fun _ =>
      when (st_dataAdapter (w_store w)) (saveConfigSpecsToAdapter specs)) w0).2 = w_store w0).
    { intros w0. apply (keeps_bind w_store).
      - apply keeps_when. destruct (out_marshal_specs specs). auto with preserve.
      - intros _. apply keeps_when. keeps_from core core_saveConfigSpecsToAdapter. }
    rewrite Hstore. clear Hstore Htail. split; [done|]. right. exists specs, res.
    apply postRequestInternal_success in Hpost as (_ & Hans & Hcode & Hbody).
    split; [done|]. split; [done|]. split; [done|]. split; [done|].
    split; [by apply (installed_fields _ (w_store w7))|]. split; [done|]. simpl. congruence.
  - exists w7. split; [done|]. split; [done|]. left. split; [auto|done].
Qed.
End facts.

Section claims.
Context `{Outside}.

(** C6. A sync from the server is all or nothing: it always returns, and
    either every rule, the sync time and the reason stay as they were, or one
    successful answer to the request was decoded and installed as a whole, with
    reason Network.  Nothing else of the store changes but the failure count. *)
Theorem sync_all_or_nothing cold w :
  ∃ w', fetchConfigSpecsFromServer cold w = (Ret (), w') ∧
    rest (w_store w') = rest (w_store w) ∧
    ((rules (w_store w') = rules (w_store w) ∧ st_initReason (w_store w') = st_initReason (w_store w))
     ∨ synced (w_store w) (w_store w')).
Proof. apply fetchConfigSpecsFromServer_run. Qed.

(** C14. Installation: specs with updates become what every accessor answers, the
    last spec of a name winning, and the sync time; without updates nothing in
    the store changes.  The other fields never change. *)
Theorem setConfigSpecs_installs specs w :
  ∃ w', setConfigSpecs specs w = (Ret (HasUpdates specs), w') ∧
    (HasUpdates specs = true → installed specs (w_store w')) ∧
    (HasUpdates specs = false → w_store w' = w_store w) ∧
    rest (w_store w') = rest (w_store w) ∧
    st_initReason (w_store w') = st_initReason (w_store w) ∧
    st_syncFailureCount (w_store w') = st_syncFailureCount (w_store w).
Proof. apply setConfigSpecs_run. Qed.
End claims.
