(* ===== verification/IdListFacts.v ===== *)
(** * Theorems about ID lists

    The goroutines of one sync do not disturb each other in any interleaving; a
    sync from well-formed lists returns; and a list follows the append-only file
    it is downloaded from. *)
From S2P Require Import Prelude Goroutines GoFloat GoRuntime Hashing Types Evaluator Examples.
From S2P Require Import World.
From S2P Require Import Diagnostics.
From S2P Require Import ErrorBoundary Transport Store IdLists WorldExamples TransportFacts.
From S2P Require Import StoreFacts.

(** ** Effects on the map of lists *)

Definition apply_all (l : list listEffect) (m : gmap string idList) : gmap string idList :=
  foldl (fun m e => apply_effect e m) m l.

Lemma filter_all {A} (P : A → Prop) `{!∀ x, Decision (P x)} l : Forall P l → filter P l = l.
Proof. induction 1 as [|x l Hx _ IH]; [done|]. by rewrite filter_cons_True, IH. Qed.

(** What an effect does to its own entry. *)
Definition entry_effect (e : listEffect) (entry : option idList) : option idList :=
  match e with
  | EffAct _ a => (fun l => set_ids (act_on_ids a <$> idl_ids l) l) <$> entry
  | EffAddSize _ length => (fun l => set_size (wrap_i64 (idl_Size l + length)) l) <$> entry
  | EffDelete _ => None
  end.

Lemma apply_effect_lookup e m name :
  apply_effect e m !! name = if decide (effect_name e = name) then entry_effect e (m !! name) else m !! name.
Proof.
  destruct e as [n a|n len|n]; simpl; destruct (decide (n = name)) as [->|Hne];
    by rewrite ?lookup_alter_eq, ?lookup_alter_ne, ?lookup_delete_eq, ?lookup_delete_ne.
Qed.

Lemma apply_all_lookup l m name :
  apply_all l m !! name =
  foldl (fun entry e => entry_effect e entry) (m !! name) (filter (fun e => effect_name e = name) l).
Proof.
  revert m. induction l as [|e l IH]; intros m; [done|].
  change (apply_all (e :: l) m) with (apply_all l (apply_effect e m)). rewrite IH.
  rewrite apply_effect_lookup. rewrite filter_cons. by destruct (decide (effect_name e = name)).
Qed.

(** ** What a download does *)

Section downloads.
Context `{Outside} `{GoRuntime}.

(** The effects of the goroutine of a list, given the answer it gets. *)
Definition download_effects (name : string) (result : httpResult) : list listEffect :=
  match result with
  | HttpFailed _ _ => []
  | HttpDone res =>
      match atoi (header_get res "Content-Length"), Body res with
      | inl length, inl content =>
          if length <=? 0 then []
          else if valid_content content
          then map (EffAct name) (content_actions content) ++ [EffAddSize name length]
          else [EffDelete name]
      | _, _ => []
      end
  end.

Lemma download_effects_name name result :
  Forall (fun e => effect_name e = name) (download_effects name result).
Proof.
  unfold download_effects. repeat case_match; repeat constructor.
  apply Forall_app. split; [|by repeat constructor]. by apply Forall_fmap, Forall_forall.
Qed.

(** The lists a world's store holds, and the ids of one of them. *)
Definition lists_of (w : World) : gmap string idList := st_idLists (w_store w).
Definition has_ids (name : string) (m : gmap string idList) : Prop :=
  ∀ l, m !! name = Some l → is_Some (idl_ids l).

Lemma has_ids_apply name e m :
  has_ids name m → has_ids name (apply_effect e m).
Proof.
  intros Hm l. rewrite apply_effect_lookup. destruct (decide _) as [Hn|]; [|apply Hm].
  destruct e as [n a|n len|n]; simpl in *; [..|done]; rewrite fmap_Some; intros (l' & Hl' & ->); simpl;
    destruct (Hm l' Hl') as [ids Hids]; rewrite Hids; by eexists.
Qed.

(** The store with other lists. *)
Definition with_lists (m : gmap string idList) (s : store) : store := set_idLists (fun _ => m) s.

Lemma update_ids_run name a w : has_ids name (lists_of w) →
  ∃ w', update_ids name a w = (Ret (), w') ∧
    w_store w' = with_lists (apply_effect (EffAct name a) (lists_of w)) (w_store w).
Proof.
  intros Hids. unfold update_ids. rewrite (run_bind _ _ w (w_store w)) by done.
  change (st_idLists (w_store w)) with (lists_of w). simpl ((gets _ _).2). destruct (lists_of w !! name) as [l|] eqn:Hl.
  - destruct (Hids l Hl) as [ids ->]. eexists. split; [reflexivity|]. done.
  - exists w. split; [done|].
    assert (apply_effect (EffAct name a) (lists_of w) = lists_of w) as ->.
    { simpl. apply map_eq. intros k. destruct (decide (name = k)) as [<-|].
      - by rewrite lookup_alter_eq, Hl.
      - by rewrite lookup_alter_ne. }
    unfold lists_of. by destruct (w_store w).
Qed.

Lemma update_all_run name actions w : has_ids name (lists_of w) →
  ∃ w', for_each actions (update_ids name) w = (Ret (), w') ∧
    w_store w' = with_lists (apply_all (map (EffAct name) actions) (lists_of w)) (w_store w).
Proof.
  revert w. induction actions as [|a actions IH]; intros w Hids; simpl.
  - exists w. split; [done|]. unfold lists_of. by destruct (w_store w).
  - destruct (update_ids_run name a w Hids) as (w1 & Hrun & Hs).
    rewrite (run_bind _ _ w ()) by (by rewrite Hrun). rewrite Hrun. simpl.
    assert (Hl : lists_of w1 = apply_effect (EffAct name a) (lists_of w)).
    { unfold lists_of at 1. by rewrite Hs. }
    destruct (IH w1) as (w2 & Hrun2 & Hs2).
    { rewrite Hl. by apply has_ids_apply. }
    exists w2. split; [done|]. rewrite Hs2, Hl, Hs. done.
Qed.

(** The answer a goroutine gets: from the server, or a request that could not
    be built. *)
Definition range_request (l : idList) : httpRequest :=
  mkRequest "GET" (idl_URL l) [("Range", "bytes=" +:+ format_int (idl_Size l) +:+ "-")%string] None.
Definition download_answer (l : idList) (r : httpResult) : Prop :=
  (∃ i, r = out_http i (range_request l)) ∨
  (∃ err, out_new_request "GET" (idl_URL l) = Some err ∧ r = HttpFailed None err).

Lemma with_lists_same s : with_lists (st_idLists s) s = s.
Proof. by destruct s. Qed.

Lemma finishDownload_run name l r w : has_ids name (lists_of w) →
  ∃ w', finishDownload name l r w = (Ret (), w') ∧
    w_store w' = with_lists (apply_all (download_effects name r) (lists_of w)) (w_store w).
Proof.
  intros Hids. unfold finishDownload, finishDownload_in.
  assert (Hquiet : ∀ (k : M ()), total k → keeps w_store k → ∀ w4, w_store w4 = w_store w →
    ∃ w', k w4 = (Ret (), w') ∧ w_store w' = with_lists (lists_of w) (w_store w)).
  { intros k Ht Hk w4 H4. destruct (total_run k w4 Ht) as [[] Hk']. eexists. split; [exact Hk'|].
    rewrite Hk, H4. unfold lists_of. by rewrite with_lists_same. }
  destruct r as [res|res err].
  2:{ apply Hquiet; [|walk_keeps|done]. apply total_bind; [apply total_addDiagnostics|]. intros m1.
      apply total_bind; [by apply total_mark, failure_tags_ok|]. intros. apply total_logException. }
  run_step w_store m1 w4 H4. run_step w_store u1 w5 H5. run_step w_store m2 w6 H6.
  run_step w_store u2 w7 H7. run_step w_store m3 w8 H8. simpl download_effects.
  assert (Hw8 : w_store w8 = w_store w) by congruence. clear H4 H5 H6 H7 H8.
  destruct (atoi _) as [len|err]; [|apply Hquiet; [walk_total|walk_keeps|done]].
  destruct (len <=? 0).
  { destruct (Body res); apply Hquiet; try done; [walk_total|walk_keeps|walk_total|walk_keeps]. }
  destruct (Body res) as [content|err]; [|apply Hquiet; [walk_total|walk_keeps|done]].
  destruct (valid_content content).
  - change (fun a => update_ids name a) with (update_ids name).
    destruct (update_all_run name (content_actions content) w8) as (w9 & Hrun9 & H9).
    { unfold lists_of. by rewrite Hw8. }
    rewrite (run_bind _ _ w8 ()) by (by rewrite Hrun9). rewrite Hrun9. simpl ((_, _).2).
    rewrite run_unit by apply total_modify. set (w10 := (add_size _ _ _).2).
    destruct (total_run (mark (m3 ▷ getIdList ▷ process ▷ end_ ▷ url (idl_URL l) ▷ success true)) w10)
      as [[] Hm]; [by apply total_mark|].
    eexists. split; [exact Hm|].
    set (w11 := (mark _ w10).2).
    assert (H11 : w_store w11 = w_store w10) by apply (f_equal (fun x => x.1.1.1.1.2) (behind_mark _ w10)).
    rewrite H11. subst w10. unfold add_size, modify. simpl. rewrite H9. unfold lists_of. rewrite Hw8.
    unfold apply_all. rewrite foldl_app. done.
  - run_step w_store u4 w9 H9. eexists. split; [reflexivity|]. simpl.
    rewrite H9, Hw8. done.
Qed.

Lemma get_run l w :
  ∃ r w', get (idl_URL l) [("Range", "bytes=" +:+ format_int (idl_Size l) +:+ "-")%string] w = (Ret r, w') ∧
    download_answer l r ∧ w_store w' = w_store w.
Proof.
  unfold get. destruct (out_new_request _ _) as [err|] eqn:E.
  - do 2 eexists. split; [reflexivity|]. split; [|done]. right. by exists err.
  - do 2 eexists. split; [reflexivity|]. split; [|done]. left. by eexists.
Qed.

Lemma downloadIDList_run name l w : has_ids name (lists_of w) →
  ∃ r w', downloadIDList name l w = (Ret (), w') ∧ download_answer l r ∧
    w_store w' = with_lists (apply_all (download_effects name r) (lists_of w)) (w_store w).
Proof.
  intros Hids. unfold downloadIDList, downloadIDList_in.
  run_step w_store m0 w1 H1. run_step w_store u0 w2 H2.
  destruct (get_run l w2) as (r & w3 & Hrun & Hr & H3).
  rewrite (run_bind _ _ w2 r) by (by rewrite Hrun). rewrite Hrun. simpl ((_, _).2).
  assert (Hs : w_store w3 = w_store w) by congruence.
  destruct (finishDownload_run name l r w3) as (w' & Hfinish & Hw'); [unfold lists_of; by rewrite Hs|].
  exists r, w'. split; [exact Hfinish|]. split; [done|]. unfold lists_of in *. by rewrite Hw', Hs.
Qed.

(** ** The steps of the goroutine *)

(** What holds while the goroutines of [names] run: their lists have ids, and
    the rest of the store [s0] is not touched. *)
Definition downloading (names : list string) (s0 : store) (w : World) : Prop :=
  (∀ name, name ∈ names → has_ids name (lists_of w)) ∧ with_lists ∅ (w_store w) = with_lists ∅ s0.
Definition list_entry (name : string) (w : World) : option idList := lists_of w !! name.

Section steps.
Context (names : list string) (s0 : store) (name : string).

Lemma confined_quiet {A} (m : M A) : total m → keeps w_store m →
  confined (downloading names s0) list_entry name (atomic m).
Proof.
  intros Ht Hk w [Hids Hs]. destruct (total_run m w Ht) as [x Hrun]. specialize (Hk w).
  exists x, (m w).2. split; [done|]. unfold downloading, list_entry, lists_of in *. by rewrite Hk.
Qed.
(** A step that acts on the map of lists as an effect on the entry does. *)
Definition effect_step (e : listEffect) (m : M ()) : Prop :=
  ∀ w, has_ids name (lists_of w) → ∃ w', m w = (Ret (), w') ∧
    w_store w' = with_lists (apply_effect e (lists_of w)) (w_store w).
Lemma confined_effect e m : effect_name e = name → name ∈ names → effect_step e m →
  confined (downloading names s0) list_entry name (atomic m).
Proof.
  intros He Hn Hm w [Hids Hs]. destruct (Hm w (Hids _ Hn)) as (w' & Hrun & Hw').
  exists (), w'. split; [done|].
  assert (Hl : lists_of w' = apply_effect e (lists_of w)) by (unfold lists_of at 1; by rewrite Hw').
  split; [split|split; [|done]].
  - intros n Hn'. rewrite Hl. apply has_ids_apply. by apply Hids.
  - by rewrite Hw'.
  - intros n Hne. unfold list_entry. rewrite Hl, apply_effect_lookup, decide_False; [done|congruence].
Qed.
Lemma update_step a : effect_step (EffAct name a) (update_ids name a).
Proof. intros w Hids. by apply update_ids_run. Qed.
Lemma add_size_step length : effect_step (EffAddSize name length) (add_size name length).
Proof. intros w _. by eexists. Qed.
Lemma delete_step : effect_step (EffDelete name) (deleteIDList name).
Proof. intros w _. by eexists. Qed.

Lemma leads_effect {A} e m (k : () → prog World A) entry entry' :
  effect_name e = name → name ∈ names → effect_step e m →
  leads (downloading names s0) list_entry name (Act m k) entry entry' →
  leads (downloading names s0) list_entry name (k ()) (entry_effect e entry) entry'.
Proof.
  intros He Hn Hm (w & [] & w' & [Hids _] & <- & Hrun & Hk).
  destruct (Hm w (Hids _ Hn)) as (w'' & Hrun' & Hw'). rewrite Hrun in Hrun'. injection Hrun' as <-.
  assert (Hentry : list_entry name w' = entry_effect e (list_entry name w)).
  { unfold list_entry, lists_of at 1. rewrite Hw'. simpl. by rewrite apply_effect_lookup, decide_True. }
  by rewrite Hentry in Hk.
Qed.

Lemma leads_quiet_step {A X} (m : M X) (k : X → prog World A) entry entry' :
  keeps w_store m → leads (downloading names s0) list_entry name (atomic m ≫= k) entry entry' →
  ∃ x, leads (downloading names s0) list_entry name (k x) entry entry'.
Proof.
  intros Hk. apply (leads_quiet (downloading names s0) list_entry name m k). intros w.
  unfold list_entry, lists_of. by rewrite Hk.
Qed.
Lemma leads_quiet_last (m : M ()) entry entry' :
  keeps w_store m → leads (downloading names s0) list_entry name (atomic m) entry entry' → entry' = entry.
Proof. intros Hk Hl. by apply (leads_quiet_step m mret) in Hl as [[] Hl]. Qed.

Lemma confined_bind_step {X} (m : M X) (k : X → prog World ()) :
  confined (downloading names s0) list_entry name (atomic m) →
  (∀ x, confined (downloading names s0) list_entry name (k x)) →
  confined (downloading names s0) list_entry name (atomic m ≫= k).
Proof. apply confined_bind. Qed.

Lemma leads_updates actions (k : prog World ()) entry entry' :
  name ∈ names →
  leads (downloading names s0) list_entry name
    (for_each actions (fun a => atomic (update_ids name a)) ≫= fun _ => k) entry entry' →
  leads (downloading names s0) list_entry name k
    (foldl (fun en e => entry_effect e en) entry (map (EffAct name) actions)) entry'.
Proof.
  intros Hn. revert entry. induction actions as [|a actions IH]; intros entry Hl; [done|]. simpl.
  apply IH. exact (leads_effect (EffAct name a) (update_ids name a)
    (fun _ => for_each actions (fun a => atomic (update_ids name a)) ≫= fun _ => k)
    entry entry' eq_refl Hn (update_step a) Hl).
Qed.
End steps.

(** The walk through the steps that do not touch the store. *)
Ltac walk_confined :=
  repeat lazymatch goal with
  | |- ∀ _, _ => intros ?
  | |- confined _ _ _ (atomic _ ≫= _) => apply confined_bind_step
  | |- confined _ _ _ (for_each _ _ ≫= _) => apply confined_bind
  | |- confined _ _ _ (for_each _ _) => apply confined_for_each; intros ?; cbv beta
  | |- confined _ _ _ (let _ := _ in _) => cbv zeta
  | |- confined _ _ _ (match _ with _ => _ end) => case_match
  | |- confined _ _ _ (atomic (update_ids _ _)) => by refine (confined_effect _ _ _ _ _ _ _ (update_step _ _))
  | |- confined _ _ _ (atomic (add_size _ _)) => by refine (confined_effect _ _ _ _ _ _ _ (add_size_step _ _))
  | |- confined _ _ _ (atomic (deleteIDList _)) => by refine (confined_effect _ _ _ _ _ _ _ (delete_step _))
  | |- confined _ _ _ (atomic _) => apply confined_quiet; [walk_total|walk_keeps]
  end.
Ltac quiet_step H :=
  let x := fresh "x" in apply leads_quiet_step in H as [x H]; [|walk_keeps].

Section goroutine.
Context (names : list string) (s0 : store).

Lemma confined_goroutine name l : name ∈ names →
  confined (downloading names s0) list_entry name (download_goroutine name l).
Proof.
  intros Hn. unfold download_goroutine, downloadIDList_in, finishDownload_in. walk_confined.
  all: by apply total_mark, failure_tags_ok.
Qed.

Lemma leads_finish name l r entry entry' : name ∈ names →
  leads (downloading names s0) list_entry name (finishDownload_in (fun A (m : M A) => atomic m) name l r)
    entry entry' →
  entry' = foldl (fun en e => entry_effect e en) entry (download_effects name r).
Proof.
  intros Hn Hl. unfold finishDownload_in in Hl. destruct r as [res|res err].
  2:{ do 2 quiet_step Hl. apply leads_quiet_last in Hl; [done|walk_keeps]. }
  do 5 quiet_step Hl. simpl download_effects. destruct (atoi _) as [len|err].
  2:{ quiet_step Hl. apply leads_quiet_last in Hl; [done|walk_keeps]. }
  destruct (len <=? 0).
  { quiet_step Hl. apply leads_quiet_last in Hl; [by destruct (Body res)|walk_keeps]. }
  destruct (Body res) as [content|err].
  2:{ quiet_step Hl. apply leads_quiet_last in Hl; [done|walk_keeps]. }
  destruct (valid_content content).
  - apply leads_updates in Hl; [|done].
    apply (leads_effect _ _ _ (EffAddSize name len) (add_size name len) _ _ _ eq_refl Hn (add_size_step name len)) in Hl.
    apply leads_quiet_last in Hl; [|walk_keeps]. by rewrite Hl, foldl_app.
  - quiet_step Hl.
    exact (leads_effect _ _ _ (EffDelete name) (deleteIDList name) mret _ _ eq_refl Hn (delete_step name) Hl).
Qed.

(** Whatever happens to other lists, a finished goroutine leaves its own list
    as [finishDownload] does on some answer. *)
Lemma leads_goroutine name l entry entry' : name ∈ names →
  leads (downloading names s0) list_entry name (download_goroutine name l) entry entry' →
  ∃ r, download_answer l r ∧ entry' = foldl (fun en e => entry_effect e en) entry (download_effects name r).
Proof.
  intros Hn Hl. unfold download_goroutine, downloadIDList_in in Hl. do 2 quiet_step Hl.
  destruct Hl as (w & r & w' & _ & Hentry & Hrun & Hl).
  destruct (get_run l w) as (r' & w'' & Hrun' & Hr & Hs). rewrite Hrun in Hrun'. injection Hrun' as <- <-.
  exists r. split; [done|]. apply (leads_finish name l r); [done|].
  assert (list_entry name w' = entry) as <-; [|done].
  rewrite <- Hentry. unfold list_entry, lists_of. by rewrite Hs.
Qed.
(** Run without interruption, the steps are the goroutine read in [M]. *)
Lemma run_alone_step {A B} (m : M A) (k : A → prog World B) (k' : A → M B) w :
  (∀ a w, run_alone (k a) w = k' a w) → run_alone (atomic m ≫= k) w = (m ≫= k') w.
Proof. intros Hk. by apply gom_bind_ext. Qed.
Lemma run_alone_atomic (m : M ()) w : run_alone (atomic m) w = m w.
Proof. simpl. unfold mbind, gom_bind. by destruct (m w) as [[[]|e|] w']. Qed.
Lemma run_alone_updates name actions w :
  run_alone (for_each actions (fun a => atomic (update_ids name a))) w =
  for_each actions (fun a => update_ids name a) w.
Proof.
  revert w. induction actions as [|a actions IH]; intros w; [done|]. simpl for_each.
  apply run_alone_step. intros _. exact IH.
Qed.
Lemma run_alone_finish name l r w :
  run_alone (finishDownload_in (fun A (m : M A) => atomic m) name l r) w = finishDownload name l r w.
Proof.
  unfold finishDownload, finishDownload_in. destruct r as [res|res err].
  - do 5 (apply run_alone_step; intros ? ?). cbv zeta.
    destruct (atoi _); [|apply run_alone_step; intros; apply run_alone_atomic].
    destruct (_ <=? 0); [apply run_alone_step; intros; apply run_alone_atomic|].
    destruct (Body res); [|apply run_alone_step; intros; apply run_alone_atomic].
    destruct (valid_content _); [|apply run_alone_step; intros; apply run_alone_atomic].
    rewrite run_alone_bind. apply gom_bind_ext; [apply run_alone_updates|]. intros _ ?.
    apply run_alone_step. intros. apply run_alone_atomic.
  - do 2 (apply run_alone_step; intros ? ?). apply run_alone_atomic.
Qed.
Lemma run_alone_download name l w : run_alone (download_goroutine name l) w = downloadIDList name l w.
Proof.
  unfold download_goroutine, downloadIDList, downloadIDList_in.
  do 3 (apply run_alone_step; intros ? ?). apply run_alone_finish.
Qed.
End goroutine.
End downloads.

(** ** Files of lines *)

Section files.
Context `{Outside} `{GoRuntime}.

(** The ids after the lines of a file, from none. *)
Definition act_all (actions : list idAction) (ids : gset string) : gset string :=
  foldl (fun ids a => act_on_ids a ids) ids actions.
Definition replay (content : string) : gset string := act_all (content_actions content) ∅.

(** A text of whole lines. *)
Definition whole_lines (content : string) : Prop :=
  content = "" ∨ ∃ a, content = (a +:+ String lf "")%string.

Lemma string_app_assoc (a b c : string) : ((a +:+ b) +:+ c = a +:+ (b +:+ c))%string.
Proof. induction a as [|x a IH]; [done|]. exact (f_equal (String x) IH). Qed.

Lemma content_actions_app seen body :
  whole_lines seen → content_actions (seen +:+ body) = content_actions seen ++ content_actions body.
Proof.
  intros [->|[a ->]]; [done|]. unfold content_actions, content_lines.
  rewrite string_app_assoc. change (String lf "" +:+ body)%string with (String lf body).
  destruct (replace_crlf_app_aux (String.length a) a body) as (a' & H1 & H2); [done|].
  rewrite H1, H2, !strings_Split_app_any, !omap_app. simpl. by rewrite app_nil_r.
Qed.

Lemma act_all_app l k ids : act_all (l ++ k) ids = act_all k (act_all l ids).
Proof. unfold act_all. apply foldl_app. Qed.

(** An id is in the list exactly when its last mention in the file adds it. *)
Definition added_last (id : string) (actions : list idAction) : Prop :=
  ∃ l k, actions = l ++ StoreId id :: k ∧ DeleteId id ∉ k.

Lemma act_all_member id actions :
  id ∈ act_all actions ∅ ↔ added_last id actions.
Proof.
  induction actions as [|a actions IH] using rev_ind.
  - split; [by intros ?%elem_of_empty|]. intros (l & k & Hnil & _). by destruct l.
  - rewrite act_all_app. change (act_all [a] ?ids) with (act_on_ids a ids). split.
    + destruct a as [i|i]; simpl; intros Hin.
      * apply elem_of_union in Hin as [Hin|Hin].
        { apply elem_of_singleton in Hin as ->. exists actions, []. split; [done|apply not_elem_of_nil]. }
        apply IH in Hin as (l & k & -> & Hk). exists l, (k ++ [StoreId i]).
        split; [by rewrite <- app_assoc|]. rewrite elem_of_app, list_elem_of_singleton. naive_solver.
      * apply elem_of_difference in Hin as [Hin Hne]. rewrite elem_of_singleton in Hne.
        apply IH in Hin as (l & k & -> & Hk). exists l, (k ++ [DeleteId i]).
        split; [by rewrite <- app_assoc|]. rewrite elem_of_app, list_elem_of_singleton. naive_solver.
    + intros (l & k & Heq & Hk). destruct k as [|b k _] using rev_ind.
      * apply app_inj_tail in Heq as [_ ->]. simpl. set_solver.
      * rewrite app_comm_cons, app_assoc in Heq. apply app_inj_tail in Heq as [-> ->].
        rewrite elem_of_app, list_elem_of_singleton in Hk.
        assert (Hin : id ∈ act_all (l ++ StoreId id :: k) ∅).
        { apply IH. exists l, k. split; [done|]. tauto. }
        destruct b as [i|i]; simpl; set_solver.
Qed.

(** What a line of the file says about an id, and when the last word about it
    adds it: the reference for [content_actions] on raw lines. *)
Definition says `{GoRuntime} (sign : ascii) (id line : string) : Prop :=
  strings_TrimSpace line = String sign id.
Definition listed_last `{GoRuntime} (id : string) (lines : list string) : Prop :=
  id ≠ "" ∧ ∃ before line after, lines = before ++ line :: after ∧ says "+" id line ∧
    Forall (fun l => ¬ says "-" id l) after.

Lemma line_action_says `{GoRuntime} id line :
  (line_action line = Some (StoreId id) ↔ id ≠ "" ∧ says "+" id line) ∧
  (line_action line = Some (DeleteId id) ↔ id ≠ "" ∧ says "-" id line).
Proof.
  unfold line_action, says. destruct (strings_TrimSpace line) as [|c rest]; [naive_solver|].
  destruct rest as [|c' rest]; simpl; [naive_solver|].
  destruct c as [[] [] [] [] [] [] [] []]; naive_solver.
Qed.
Lemma added_last_cons id a acts :
  added_last id (a :: acts) ↔ (a = StoreId id ∧ DeleteId id ∉ acts) ∨ added_last id acts.
Proof.
  split.
  - intros ([|b l] & k & Heq & Hk); simplify_eq/=; [by left|]. right. by exists l, k.
  - intros [[-> Hk]|(l & k & -> & Hk)]; [by exists [], acts|by exists (a :: l), k].
Qed.
Lemma no_deletion `{GoRuntime} id lines :
  id ≠ "" → DeleteId id ∉ omap line_action lines ↔ Forall (fun l => ¬ says "-" id l) lines.
Proof.
  intros Hid. rewrite list_elem_of_omap, Forall_forall. split.
  - intros Hno l Hl Hs. apply Hno. exists l. split; [done|]. by apply line_action_says.
  - intros Hall (l & Hl & Hact). apply line_action_says in Hact as [_ Hs]. by apply (Hall l).
Qed.
Lemma added_last_lines `{GoRuntime} id lines :
  added_last id (omap line_action lines) ↔ listed_last id lines.
Proof.
  induction lines as [|line lines IH].
  { split; [intros (l & k & Hnil & _); by destruct l|].
    intros (_ & before & line & after & Hnil & _). by destruct before. }
  assert (Hcons : listed_last id (line :: lines) ↔
    (id ≠ "" ∧ says "+" id line ∧ Forall (fun l => ¬ says "-" id l) lines) ∨ listed_last id lines).
  { split.
    - intros (Hid & [|b before] & l & after & Heq & Hs & Hall); simplify_eq/=; [by left|right].
      split; [done|]. by exists before, l, after.
    - intros [(Hid & Hs & Hall)|(Hid & before & l & after & -> & Hs & Hall)]; (split; [done|]).
      + by exists [], line, lines.
      + by exists (line :: before), l, after. }
  rewrite Hcons, <- IH. simpl. destruct (line_action_says id line) as [Hadd _].
  destruct (line_action line) as [a|] eqn:Hact; simpl.
  - rewrite added_last_cons. split.
    + intros [[-> Hno]|Hlast]; [left|by right]. destruct Hadd as [Hadd _]. destruct (Hadd eq_refl) as [Hid Hs].
      split; [done|]. split; [done|]. by apply no_deletion.
    + intros [(Hid & Hs & Hall)|Hlast]; [left|by right]. destruct Hadd as [_ Hadd].
      specialize (Hadd (conj Hid Hs)). split; [congruence|]. by apply no_deletion.
  - split; [by right|]. intros [(Hid & Hs & _)|Hlast]; [|done]. by destruct Hadd as [_ Hadd]; specialize (Hadd (conj Hid Hs)).
Qed.

Lemma apply_actions_lookup name actions m l ids :
  m !! name = Some l → idl_ids l = Some ids →
  apply_all (map (EffAct name) actions) m !! name = Some (set_ids (Some (act_all actions ids)) l).
Proof.
  revert m l ids. induction actions as [|a actions IH]; intros m l ids Hl Hids.
  - simpl. rewrite Hl. destruct l; simpl in *; by subst.
  - change (apply_all (map (EffAct name) (a :: actions)) m)
      with (apply_all (map (EffAct name) actions) (apply_effect (EffAct name a) m)).
    rewrite (IH _ (set_ids (Some (act_on_ids a ids)) l) (act_on_ids a ids)); [done| |done].
    simpl. rewrite lookup_alter_eq, Hl. simpl. by rewrite Hids.
Qed.

(** A local list that holds what a file says. *)
Record follows (file : string) (l : idList) : Prop := {
  follows_lines : whole_lines file;
  follows_size : idl_Size l = Z.of_nat (String.length file);
  follows_ids : idl_ids l = Some (replay file);
}.

Lemma string_length_app (a b : string) : String.length (a +:+ b) = (String.length a + String.length b)%nat.
Proof. induction a as [|x a IH]; [done|]. exact (f_equal S IH). Qed.
End files.

(** ** Well-formed lists *)

Section sync.
Context `{Outside} `{GoRuntime}.

(** A list is stored under its name, and has ids exactly when it has a file. *)
Definition entry_ok (name : string) (l : idList) : Prop :=
  idl_Name l = name ∧ (idl_ids l = None ↔ idl_FileID l = "").
Definition lists_wf (m : gmap string idList) : Prop := map_Forall entry_ok m.

Lemma lists_wf_insert name l m : lists_wf m → entry_ok name l → lists_wf (<[name := l]> m).
Proof. intros. by apply map_Forall_insert_2. Qed.

Lemma lists_wf_apply e m : lists_wf m → lists_wf (apply_effect e m).
Proof.
  intros Hm name l. rewrite apply_effect_lookup. destruct (decide _) as [Hn|]; [|apply Hm].
  destruct e as [n a|n len|n]; simpl in *; [..|done]; rewrite fmap_Some; intros (l' & Hl' & ->);
    destruct (Hm name l' Hl') as [Hname Hids]; (split; [done|]); simpl; [|done].
  by rewrite <- Hids, fmap_None.
Qed.

Lemma reconcile_ok name serverList local :
  (∀ l, local = Some l → entry_ok name l) →
  entry_ok name (reconcile name serverList local).1 ∧
  ((reconcile name serverList local).2 = true → is_Some (idl_ids (reconcile name serverList local).1)).
Proof.
  intros Hlocal. unfold reconcile. set (l0 := default _ local).
  assert (Hl0 : entry_ok name l0) by (subst l0; destruct local; [by apply Hlocal|done]).
  destruct (_ || _ || _) eqn:Hskip; [done|].
  apply orb_false_iff in Hskip as [[_ Hcreated]%orb_false_iff Hfile].
  apply String.eqb_neq in Hfile. apply Z.ltb_ge in Hcreated.
  destruct (negb _ && _) eqn:Hreset; simpl.
  - split; [|by eexists]. split; [apply Hl0|]. simpl. naive_solver.
  - split; [done|]. intros _. destruct (idl_ids l0) as [ids|] eqn:Hids; [by eexists|]. exfalso.
    destruct Hl0 as [_ [Hl0 _]]. specialize (Hl0 Hids). rewrite Hl0 in Hreset.
    apply andb_false_iff in Hreset as [Hreset|Hreset]; [|by apply Z.leb_gt in Hreset; lia].
    by apply negb_false_iff, String.eqb_eq in Hreset.
Qed.

(** The state while the goroutines of [names] run. *)
Definition syncing (names : list string) (w : World) : Prop :=
  lists_wf (lists_of w) ∧ ∀ name, name ∈ names → has_ids name (lists_of w).

Lemma syncing_download names name l : name ∈ names → safe (syncing names) (downloadIDList name l).
Proof.
  intros Hname w [Hwf Hids].
  destruct (downloadIDList_run name l w) as (r & w' & Hrun & _ & Hs); [by apply Hids|].
  rewrite Hrun. exists (). split; [done|]. unfold syncing, lists_of in *. simpl. rewrite Hs. simpl.
  clear Hs Hrun. unfold apply_all. revert Hwf Hids.
  generalize (download_effects name r), (st_idLists (w_store w)). intros effects.
  induction effects as [|e effects IH]; intros m Hwf Hids; simpl; [done|].
  apply IH; [by apply lists_wf_apply|]. intros n Hn. apply has_ids_apply. by apply Hids.
Qed.

Lemma reconcileLists_run lists started w :
  NoDup (started.*1 ++ lists.*1) → syncing started.*1 w →
  ∃ started' w', reconcileLists lists started w = (Ret started', w') ∧
    syncing started'.*1 w' ∧ NoDup started'.*1.
Proof.
  revert started w. induction lists as [|[name server] lists IH]; intros started w Hnd [Hwf Hids].
  { exists started, w. split; [done|]. split; [done|]. by rewrite app_nil_r in Hnd. }
  simpl. rewrite (run_bind _ _ w (w_store w)) by done. simpl ((gets _ _).2).
  fold (lists_of w).
  destruct (reconcile_ok name server (lists_of w !! name)) as [Hok Hsome]; [by intros l Hl; apply Hwf|].
  destruct (reconcile name server (lists_of w !! name)) as [l download]. simpl in *.
  rewrite run_unit by apply total_modify.
  assert (Hperm : started.*1 ++ name :: lists.*1 ≡ₚ (name :: started.*1) ++ lists.*1).
  { simpl. by rewrite Permutation_middle. }
  assert (Hnew : name ∉ started.*1).
  { rewrite Hperm in Hnd. simpl in Hnd. apply NoDup_cons in Hnd as [Hn _].
    rewrite elem_of_app in Hn. tauto. }
  apply IH.
  { destruct download.
    - rewrite fmap_app, <- app_assoc. done.
    - rewrite Hperm in Hnd. simpl in Hnd. by apply NoDup_cons in Hnd as [_ ?]. }
  assert (Hl : lists_of (setIDList name l w).2 = <[name := l]> (lists_of w)) by done.
  split; rewrite Hl; [by apply lists_wf_insert|].
  intros n Hn l'. destruct (decide (n = name)) as [->|Hne].
  - rewrite lookup_insert_eq. intros [= <-]. destruct download; [by apply Hsome|done].
  - rewrite lookup_insert_ne by done. intros Hl'. apply (Hids n); [|done].
    destruct download; [|done]. rewrite fmap_app, elem_of_app in Hn. destruct Hn as [|Hn]; [done|].
    simpl in Hn. by apply list_elem_of_singleton in Hn.
Qed.

(** The last loop: the names it visits that the server does not list are deleted. *)
Lemma prune_run {A} (server : gmap string serverIDList) (names : list (string * A)) w :
  ∃ w', for_each names (fun '(name, _) =>
      when (bool_decide (server !! name = None)) (deleteIDList name)) w = (Ret (), w') ∧
    (lists_wf (lists_of w) → lists_wf (lists_of w')) ∧
    ∀ name, is_Some (lists_of w' !! name) →
      is_Some (lists_of w !! name) ∧ (name ∈ names.*1 → is_Some (server !! name)).
Proof.
  revert w. induction names as [|[n a] names IH]; intros w.
  { exists w. split; [done|]. split; [done|]. intros name Hn. split; [done|]. by intros ?%elem_of_nil. }
  simpl. rewrite run_unit by (apply total_when, total_modify).
  set (w1 := (when _ _ w).2).
  assert (Hw1 : lists_of w1 = if bool_decide (server !! n = None) then delete n (lists_of w) else lists_of w).
  { subst w1. by case_bool_decide. }
  destruct (IH w1) as (w' & Hrun & Hwf & Hin). exists w'. split; [done|]. rewrite Hw1 in Hwf, Hin. split.
  - intros Hw. apply Hwf. case_bool_decide; [by apply (lists_wf_apply (EffDelete n))|done].
  - intros name Hname. destruct (Hin name Hname) as [Hs Hserver]. case_bool_decide as Hn.
    + apply lookup_delete_is_Some in Hs as [Hne Hs]. split; [done|].
      rewrite elem_of_cons. naive_solver.
    + split; [done|]. rewrite elem_of_cons. intros [->|?]; [|by apply Hserver].
      by apply not_eq_None_Some.
Qed.

(** The store without its lists is not touched by a sync. *)
Definition but_lists (w : World) : store := with_lists ∅ (w_store w).

Lemma but_reconcile lists started : keeps but_lists (reconcileLists lists started).
Proof.
  revert started. induction lists as [|[name server] lists IH]; intros started; simpl; [apply keeps_ret|].
  apply keeps_bind; [apply keeps_gets|]. intros s. destruct (reconcile _ _ _) as [l download].
  apply keeps_bind; [by apply keeps_modify|]. intros _. apply IH.
Qed.
Lemma but_update name a : keeps but_lists (update_ids name a).
Proof. unfold update_ids. walk_keeps. Qed.
Lemma but_download name l : keeps but_lists (downloadIDList name l).
Proof.
  unfold downloadIDList, downloadIDList_in, finishDownload_in. walk_keeps; try apply but_update; by apply keeps_modify.
Qed.
Lemma but_sync : keeps but_lists syncIDLists.
Proof.
  unfold syncIDLists. walk_keeps; try apply but_reconcile; try apply but_download; by apply keeps_modify.
Qed.

(** A sync that took place: the lists left are on the server's list. *)
Definition id_lists_synced (w w' : World) : Prop :=
  ∃ serverLists res,
    answered (st_transport (w_store w)) "/get_id_lists"
      (PGetIDLists (tr_metadata (st_transport (w_store w)))) (HttpDone res) ∧
    200 ≤ StatusCode res < 300 ∧
    decode_body out_unmarshal_id_lists ∅ res = (serverLists, None) ∧
    ∀ name, is_Some (lists_of w' !! name) → is_Some (serverLists !! name).

Lemma sync_lists_run w (serverLists : gmap string serverIDList) (n : Z) :
  lists_wf (lists_of w) →
  ∃ w',
    (lists ← range_map serverLists;
     started ← reconcileLists lists [];
     for_each started (fun '(name, l) => downloadIDList name l) ≫= fun _ =>
     s ← gets w_store;
     names ← range_map (st_idLists s);
     for_each names (fun '(name, _) =>
       when (bool_decide (serverLists !! name = None)) (deleteIDList name)) ≫= fun _ =>
     m ← addDiagnostics;
     mark (m ▷ getIdListSources ▷ process ▷ end_ ▷ success true ▷ idListCount n)) w = (Ret (), w') ∧
    lists_wf (lists_of w') ∧
    ∀ name, is_Some (lists_of w' !! name) → is_Some (serverLists !! name).
Proof.
  intros Hwf. rewrite (run_bind _ _ w (entries_in_order serverLists (out_order (w_tick w) (map_to_list serverLists).*1))) by done.
  destruct (range_entries (w_tick w) serverLists) as [Hnd _].
  set (lists := entries_in_order _ _) in *. set (w1 := (range_map serverLists w).2).
  destruct (reconcileLists_run lists [] w1) as (started & w2 & Hrun2 & Hsync & _).
  { done. }
  { split; [done|]. by intros name ?%elem_of_nil. }
  rewrite (run_bind _ _ w1 started) by (by rewrite Hrun2). rewrite Hrun2. simpl ((_, _).2).
  destruct (safe_run (syncing started.*1) (for_each started (fun '(name, l) => downloadIDList name l)) w2)
    as ([] & w3 & Hrun3 & Hwf3 & _); [|done|].
  { apply safe_for_each. intros [name l] Hin. apply syncing_download.
    apply list_elem_of_fmap. by exists (name, l). }
  rewrite (run_bind _ _ w2 ()) by (by rewrite Hrun3). rewrite Hrun3. simpl ((_, _).2).
  rewrite (run_bind _ _ w3 (w_store w3)) by done. simpl ((gets _ _).2).
  rewrite (run_bind _ _ w3 (entries_in_order (st_idLists (w_store w3))
    (out_order (w_tick w3) (map_to_list (st_idLists (w_store w3))).*1))) by done.
  destruct (range_entries (w_tick w3) (st_idLists (w_store w3))) as [_ Hnames].
  set (names := entries_in_order (st_idLists (w_store w3)) _) in *. set (w4 := (range_map _ w3).2).
  destruct (prune_run serverLists names w4) as (w5 & Hrun5 & Hwf5 & Hin5).
  rewrite (run_bind _ _ w4 ()) by (by rewrite Hrun5). rewrite Hrun5. simpl ((_, _).2).
  run_step w_store m w6 H6.
  destruct (total_run (mark (m ▷ getIdListSources ▷ process ▷ end_ ▷ success true ▷ idListCount n)) w6)
    as [[] Hm]; [by apply total_mark|].
  eexists. split; [exact Hm|].
  assert (H7 : lists_of (mark (m ▷ getIdListSources ▷ process ▷ end_ ▷ success true ▷ idListCount n) w6).2
    = lists_of w5).
  { unfold lists_of. f_equal. rewrite <- H6. apply (f_equal (fun x => x.1.1.1.1.2) (behind_mark _ w6)). }
  rewrite H7. split; [by apply Hwf5|]. intros name Hname. destruct (Hin5 name Hname) as [[l Hl] Hserver].
  apply Hserver. apply list_elem_of_fmap. exists (name, l). split; [done|]. by apply Hnames.
Qed.
Lemma sync_lists_outcome w :
  lists_wf (lists_of w) →
  ∃ w', syncIDLists w = (Ret (), w') ∧ lists_wf (lists_of w') ∧
    with_lists ∅ (w_store w') = with_lists ∅ (w_store w) ∧
    (lists_of w' = lists_of w ∨ id_lists_synced w w').
Proof.
  intros Hwf.
  cut (∃ w', syncIDLists w = (Ret (), w') ∧ lists_wf (lists_of w') ∧
    (lists_of w' = lists_of w ∨ id_lists_synced w w')).
  { intros (w' & Hrun & Hwf' & Hor). exists w'. split; [done|]. split; [done|]. split; [|done].
    pose proof (but_sync w) as Hbut. by rewrite Hrun in Hbut. }
  unfold syncIDLists. run_step w_store m w1 H1. run_step w_store u w2 H2.
  rewrite (run_bind _ _ _ (w_store w2)) by done. simpl ((gets _ _).2). rewrite H2, H1.
  set (post := postRequest _ _ _ _ _).
  destruct (total_run post w2) as [[[res err] server] Hpost]; [apply total_postRequestInternal|].
  rewrite (run_bind _ _ _ (res, err, server)) by (by rewrite Hpost).
  set (w3 := (post w2).2) in *.
  assert (H3 : w_store w3 = w_store w).
  { rewrite <- H1, <- H2. apply (f_equal (fun x => x.1.1.1.1.2) (core_postRequestInternal _ _ _ _ _ _ _ w2)). }
  assert (Hfail : ∃ w', (m ← addDiagnostics;
      mark (m ▷ getIdListSources ▷ networkRequest ▷ end_ ▷ success false ▷ failure_tags res) ≫= fun _ =>
      logException err) w3 = (Ret (), w') ∧ lists_wf (lists_of w') ∧
      (lists_of w' = lists_of w ∨ id_lists_synced w w')).
  { run_step w_store m1 w4 H4. run_step w_store u1 w5 H5.
    { by apply total_mark, failure_tags_ok. }
    destruct (total_run (logException err) w5 (total_logException _)) as [[] Hh].
    eexists. split; [exact Hh|].
    assert (Hl : lists_of (logException err w5).2 = lists_of w).
    { unfold lists_of. f_equal. rewrite <- H3, <- H4, <- H5.
      apply (f_equal (fun x => x.1.1.1.1.2) (reports_logException err w5)). }
    rewrite Hl. split; [done|by left]. }
  destruct res as [res|]; [|done]. destruct err as [err|]; [done|]. clear Hfail.
  run_step w_store m1 w4 H4. run_step w_store u1 w5 H5. run_step w_store m2 w6 H6.
  run_step w_store u2 w7 H7.
  destruct (sync_lists_run w7 server (Z.of_nat (size server))) as (w' & Hrun & Hwf' & Hin).
  { unfold lists_of. by rewrite H7, H6, H5, H4, H3. }
  exists w'. split; [done|]. split; [done|]. right. exists server, res.
  apply postRequestInternal_success in Hpost as (_ & Hans & Hcode & Hbody). done.
Qed.

Lemma sync_lists_returns w : lists_wf (lists_of w) →
  ∃ w', syncIDLists w = (Ret (), w') ∧ lists_wf (lists_of w') ∧
    with_lists ∅ (w_store w') = with_lists ∅ (w_store w).
Proof. intros Hwf. destruct (sync_lists_outcome w Hwf) as (w' & ? & ? & ? & _). by exists w'. Qed.
End sync.

(** ** Properties *)

Section claims.
Context `{Outside} `{GoRuntime}.

(** C30. Concurrent downloads.  However the steps of the goroutines of one sync
    interleave: none of them is ever stuck or panics, no list but their own and
    nothing else of the store changes, and when all have finished every list is what
    the rest of its own goroutine, run without interruption, makes of the list
    it started from and the answer the network gave it.  One goroutine run alone is
    [downloadIDList]. *)
Theorem downloads_commute (started : list (string * idList)) w w' ps :
  NoDup started.*1 → (∀ name, name ∈ started.*1 → has_ids name (lists_of w)) →
  rtc pool_step (w, map (fun '(name, l) => download_goroutine name l) started) (w', ps) →
  (∀ i p, ps !! i = Some p → p = Done () ∨ ∃ c, acts i (w', ps) c) ∧
  with_lists ∅ (w_store w') = with_lists ∅ (w_store w) ∧
  (∀ name, name ∉ started.*1 → lists_of w' !! name = lists_of w !! name) ∧
  (Forall (fun p => p = Done ()) ps → ∀ name l, (name, l) ∈ started →
     ∃ r, download_answer l r ∧ ∀ w0, lists_of w0 !! name = lists_of w !! name →
       ∃ w1, finishDownload name l r w0 = (Ret (), w1) ∧ lists_of w1 !! name = lists_of w' !! name) ∧
  (∀ name l w0, run_alone (download_goroutine name l) w0 = downloadIDList name l w0).
Proof.
  intros Hnd Hids Hsteps. set (names := started.*1) in *. set (s0 := w_store w).
  assert (Hinv : downloading names s0 w) by done.
  assert (Hconf : Forall2 (confined (downloading names s0) list_entry) names
    (map (fun '(name, l) => download_goroutine name l) started)).
  { apply Forall2_fmap, Forall_Forall2_diag, Forall_forall. intros [name l] Hin.
    apply confined_goroutine. by apply (list_elem_of_fmap_2 fst started (name, l)). }
  destruct (isolation _ list_entry _ _ _ _ _ Hnd Hconf Hinv Hsteps) as (Hinv' & Hconf' & Hothers & Hleads).
  split; [|split; [apply Hinv'|split; [exact Hothers|split; [|exact run_alone_download]]]].
  - intros i p Hp. destruct (Forall2_lookup_r _ _ _ _ _ Hconf' Hp) as (n & _ & Hn).
    by eapply progress.
  - intros Hdone name l Hin.
    apply list_elem_of_lookup in Hin as [i Hi].
    assert (Hname : names !! i = Some name) by (subst names; by rewrite list_lookup_fmap, Hi).
    destruct (Forall2_lookup_l _ _ _ _ _ Hconf' Hname) as (p' & Hp' & _).
    assert (p' = Done ()) as -> by by apply (Forall_lookup_1 _ _ i p') in Hdone.
    destruct (leads_goroutine names s0 name l (lists_of w !! name) (lists_of w' !! name)) as (r & Hr & Hw').
    { by eapply list_elem_of_lookup_2. }
    { apply (Hleads i name _ (Done ())); [done| |done|done]. by rewrite list_lookup_fmap, Hi. }
    exists r. split; [done|]. intros w0 Hw0.
    destruct (finishDownload_run name l r w0) as (w1 & Hrun & Hs).
    { intros l0. rewrite Hw0. apply (Hids name). by eapply list_elem_of_lookup_2. }
    exists w1. split; [done|]. unfold lists_of at 1. rewrite Hs. simpl.
    rewrite apply_all_lookup, Hw0, Hw'. f_equal.
    apply filter_all, download_effects_name.
Qed.

(** C13. A sync of the ID lists from well-formed lists always returns, without a
    nil dereference in any goroutine, and leaves well-formed lists: either the
    lists are as before, or the server's answer was decoded and only lists it
    names are left.  The rest of the store is not touched. *)
Theorem sync_id_lists_safe w :
  lists_wf (lists_of w) →
  ∃ w', syncIDLists w = (Ret (), w') ∧ lists_wf (lists_of w') ∧
    with_lists ∅ (w_store w') = with_lists ∅ (w_store w) ∧
    (lists_of w' = lists_of w ∨ id_lists_synced w w').
Proof. apply sync_lists_outcome. Qed.

(** C9. A list follows its file: when the local list holds what the first
    [Size] bytes of an append-only file say, and the server answers the range
    request for the rest with those bytes, the download leaves a list that
    holds what the whole file says: a nonempty id is in it exactly when some line of the
    file, trimmed, is a plus sign and the id, and no later line is a minus sign
    and the id. *)
Theorem download_follows_file name l file body res w :
  lists_of w !! name = Some l → follows file l →
  out_new_request "GET" (idl_URL l) = None →
  (∀ i, out_http i (range_request l) = HttpDone res) →
  atoi (header_get res "Content-Length") = inl (Z.of_nat (String.length body)) →
  Body res = inl body → valid_content body = true → whole_lines (file +:+ body) →
  Z.of_nat (String.length (file +:+ body)) < two63 →
  ∃ w' l', downloadIDList name l w = (Ret (), w') ∧ lists_of w' !! name = Some l' ∧
    follows (file +:+ body) l' ∧
    ∀ id, (∃ ids, idl_ids l' = Some ids ∧ id ∈ ids) ↔ listed_last id (content_lines (file +:+ body)).
Proof.
  intros Hl [Hlines Hsize Hids] Hnew Hhttp Hlen Hbody Hvalid Hwhole Hmax.
  destruct (downloadIDList_run name l w) as (r & w' & Hrun & Hr & Hs).
  { intros l0. rewrite Hl. intros [= <-]. by rewrite Hids. }
  assert (r = HttpDone res) as ->.
  { destruct Hr as [[i ->]|(err & Herr & _)]; [apply Hhttp|by rewrite Hnew in Herr]. }
  set (l' := set_size (Z.of_nat (String.length (file +:+ body)))
               (set_ids (Some (replay (file +:+ body))) l)).
  assert (Hl' : lists_of w' !! name = Some l').
  { unfold lists_of at 1. rewrite Hs. simpl. rewrite Hlen, Hbody, Hvalid.
    destruct (Z.leb_spec (Z.of_nat (String.length body)) 0) as [Hle|_].
    { destruct body; [done|simpl in Hle; lia]. }
    unfold apply_all. rewrite foldl_app. fold (apply_all (map (EffAct name) (content_actions body)) (lists_of w)).
    cbn [foldl apply_effect]. rewrite lookup_alter_eq, (apply_actions_lookup _ _ _ l (replay file)) by done.
    simpl. f_equal. subst l'. rewrite wrap_i64_id.
    - f_equal.
      + rewrite Hsize, string_length_app. lia.
      + unfold replay. by rewrite content_actions_app, act_all_app.
    - unfold in_i64. rewrite string_length_app in Hmax. simpl. rewrite Hsize. unfold two63 in *. lia. }
  exists w', l'. split; [done|]. split; [done|]. split; [by split|].
  intros id. rewrite <- added_last_lines. fold (content_actions (file +:+ body)).
  rewrite <- act_all_member. split; [by intros (ids & [= <-] & ?)|]. intros Hin.
  by exists (replay (file +:+ body)).
Qed.
End claims.

(** ** Witnesses *)

Section witnesses.
#[local] Existing Instance example_runtime.
#[local] Instance serving_outside : Outside := example_outside serving broken_adapter.

(** Two lists, the second goroutine running between the steps of the first. *)
Definition other_list : idList := mkIDList "other" 0 1 "https://idlist/other" "file2" (Some ∅).
Definition two_lists_world : World :=
  example_world (set_idLists (fun _ => {["ids" := example_list; "other" := other_list]}) stocked_store).
Definition two_goroutines : list (prog World ()) :=
  map (fun '(name, l) => download_goroutine name l) [("ids", example_list); ("other", other_list)].

(** The pool after the goroutines at the given positions have acted. *)
Fixpoint schedule (turns : list nat) (c : World * list (prog World ())) : World * list (prog World ()) :=
  match turns with
  | [] => c
  | i :: turns =>
      match c.2 !! i with
      | Some (Act m k) =>
          match m c.1 with
          | (Ret x, w) => schedule turns (w, <[i := k x]> c.2)
          | _ => schedule turns c
          end
      | _ => schedule turns c
      end
  end.
Lemma schedule_steps turns c : rtc pool_step c (schedule turns c).
Proof.
  revert c. induction turns as [|i turns IH]; intros [w ps]; simpl; [apply rtc_refl|].
  destruct (ps !! i) as [[[]|X m k]|] eqn:Hi; [apply IH| |apply IH].
  destruct (m w) as [[x|e|] w'] eqn:Hm; [|apply IH|apply IH].
  eapply rtc_l; [|apply IH]. exists i. by apply (acts_intro i m k ps w x w').
Qed.
Definition turns : list nat := [0;0;1;1;0;1;0;1;0;1;0;1;0;1;0;1;0;1;1;0;1;0;1;0;1;0]%nat.
Definition finished_pool : World * list (prog World ()) := schedule turns (two_lists_world, two_goroutines).

Lemma downloads_commute_witness :
  finished_pool.2 = [Done (); Done ()] ∧
  ∃ r, download_answer example_list r ∧ ∀ w0, lists_of w0 !! "ids" = Some example_list →
    ∃ w1, finishDownload "ids" example_list r w0 = (Ret (), w1) ∧
      lists_of w1 !! "ids" = lists_of finished_pool.1 !! "ids".
Proof.
  assert (Hdone : finished_pool.2 = [Done (); Done ()]) by (vm_compute; reflexivity).
  split; [exact Hdone|].
  destruct (downloads_commute [("ids", example_list); ("other", other_list)] two_lists_world
    finished_pool.1 finished_pool.2) as (_ & _ & _ & Hall & _).
  - apply NoDup_cons_2; [by intros ?%list_elem_of_singleton|]. apply NoDup_singleton.
  - intros name _ l Hl.
    change (({["ids" := example_list; "other" := other_list]} : gmap string idList) !! name = Some l) in Hl.
    apply lookup_insert_Some in Hl as [[_ <-]|[_ Hl]]; [by eexists|].
    apply lookup_singleton_Some in Hl as [_ <-]. by eexists.
  - change (two_lists_world, _) with (two_lists_world, two_goroutines). rewrite <- surjective_pairing.
    apply schedule_steps.
  - apply (Hall ltac:(rewrite Hdone; by repeat constructor) "ids" example_list). left.
Defined.

Lemma download_follows_file_witness :
  ∃ w' l', downloadIDList "ids" example_list listed_world = (Ret (), w') ∧
    lists_of w' !! "ids" = Some l' ∧ follows example_body l' ∧
    ∀ id, (∃ ids, idl_ids l' = Some ids ∧ id ∈ ids) ↔ listed_last id (content_lines example_body).
Proof.
  apply (download_follows_file "ids" example_list "" example_body example_download listed_world).
  - vm_compute. reflexivity.
  - split; [by left|reflexivity|vm_compute; reflexivity].
  - reflexivity.
  - intros i. vm_compute. reflexivity.
  - vm_compute. reflexivity.
  - reflexivity.
  - vm_compute. reflexivity.
  - right. exists ("+12345678" +:+ newline +:+ "+abcdefgh")%string. vm_compute. reflexivity.
  - vm_compute. reflexivity.
Defined.

Lemma sync_id_lists_safe_witness :
  ∃ w', syncIDLists (example_world empty_store) = (Ret (), w') ∧ lists_wf (lists_of w') ∧
    with_lists ∅ (w_store w') = with_lists ∅ empty_store ∧
    (lists_of w' = lists_of (example_world empty_store) ∨
     id_lists_synced (example_world empty_store) w').
Proof. apply (sync_id_lists_safe (example_world empty_store)). apply map_Forall_empty. Defined.
End witnesses.
