(* ===== verification/PollingFacts.v ===== *)
(** * Theorems about the start of the store and its polling

    What the store serves after construction, and how polling ends. *)
From S2P Require Import Prelude GoFloat GoRuntime Hashing Types Evaluator Examples World.
From S2P Require Import Diagnostics.
From S2P Require Import ErrorBoundary Transport Store IdLists Polling WorldExamples.
From S2P Require Import TransportFacts StoreFacts IdListFacts.

(** A sync that changes nothing, or installs specs that satisfy [P]. *)
Definition unchanged_or (P : downloadConfigSpecResponse → Prop) (r : evaluationReason) (s s' : store) : Prop :=
  (rules s' = rules s ∧ st_initReason s' = st_initReason s) ∨
  (∃ specs, P specs ∧ HasUpdates specs = true ∧ installed specs s' ∧ st_initReason s' = r).

Section facts.
Context `{Outside} `{GoRuntime}.

(** Specs decoded from a text. *)
Definition decoded_from (text : string) (specs : downloadConfigSpecResponse) : Prop :=
  out_unmarshal_specs text = (specs, None).

Lemma arg_specs_text text specs : arg_specs (SpecsString text) = Some specs → decoded_from text specs.
Proof.
  unfold decoded_from. simpl. destruct (out_unmarshal_specs text) as [sp [err|]]; [done|]. by intros [= ->].
Qed.

(** Processing a text and then recording where it came from. *)
Lemma process_text_run text m r w : processable m →
  ∃ w', (ok ← processConfigSpecs (SpecsString text) m; when ok (set_reason r)) w = (Ret (), w') ∧
    rest (w_store w') = rest (w_store w) ∧
    unchanged_or (decoded_from text) r (w_store w) (w_store w').
Proof.
  intros Hm. destruct (processConfigSpecs_run (SpecsString text) m w Hm)
    as (ok & w1 & Hrun & [Hi Hn Hr Hre _] & _).
  rewrite (run_bind _ _ w ok) by (by rewrite Hrun). rewrite Hrun. simpl ((_, _).2). destruct ok.
  - destruct (Hi eq_refl) as (specs & Hspecs & Hup & Hinst).
    eexists. split; [reflexivity|]. split; [done|]. right. exists specs.
    split; [by apply arg_specs_text|]. split; [done|].
    split; [by apply (installed_fields _ (w_store w1))|done].
  - exists w1. split; [done|]. split; [done|]. left. split; [by apply Hn|done].
Qed.

Lemma adapter_Get_run key w :
  ∃ w', adapter_Get key w =
    (match out_adapter_get (w_tick w) key with inl text => Ret text | inr err => Panic err end, w') ∧
    w_store w' = w_store w.
Proof.
  unfold adapter_Get, mbind, gom_bind. simpl. destruct (out_adapter_get _ _); by eexists.
Qed.

Lemma fetchConfigSpecsFromAdapter_run w :
  ∃ w', fetchConfigSpecsFromAdapter w = (Ret (), w') ∧
    rest (w_store w') = rest (w_store w) ∧
    unchanged_or (fun specs => ∃ i text, out_adapter_get i CONFIG_SPECS_KEY = inl text ∧ decoded_from text specs)
      reasonDataAdapter (w_store w) (w_store w').
Proof.
  unfold fetchConfigSpecsFromAdapter. run_step w_store m w1 H1. run_step w_store u w2 H2.
  destruct (adapter_Get_run CONFIG_SPECS_KEY w2) as (w3 & Hget & H3). unfold recovering.
  destruct (out_adapter_get (w_tick w2) CONFIG_SPECS_KEY) as [text|err] eqn:E.
  - rewrite (run_bind _ _ w2 text) by (by rewrite Hget). rewrite Hget. simpl ((_, _).2).
    run_step w_store m1 w4 H4. run_step w_store u1 w5 H5. run_step w_store m2 w6 H6.
    destruct (process_text_run text (m2 ▷ dataStoreConfigSpecs) reasonDataAdapter w6)
      as (w' & Hrun & Hr & Hor); [done|].
    rewrite Hrun. exists w'. split; [done|].
    assert (Hw : w_store w6 = w_store w) by congruence. rewrite Hw in *. split; [done|].
    destruct Hor as [|(specs & Hd & Hup & Hi & Hre)]; [by left|right]. exists specs. eauto 10.
  - rewrite (run_bind_panic _ _ w2 err) by (by rewrite Hget). rewrite Hget. simpl ((_, _).2).
    set (text := ("Error calling data adapter get: " +:+ toError err)%string).
    destruct (total_run (eprint text) w3 (total_eprint _)) as [[] Hp].
    exists (eprint text w3).2. split; [exact Hp|].
    assert (Hs : w_store (eprint text w3).2 = w_store w).
    { change (w_store (eprint text w3).2) with (w_store w3). congruence. }
    rewrite Hs. split; [done|]. by left; split.
Qed.

Lemma loadFirst_run bootstrapValues dataAdapter w :
  (dataAdapter = true → ∀ i, out_adapter_initialize i = None) →
  ∃ w', loadFirst bootstrapValues dataAdapter w = (Ret (), w') ∧
    rest (w_store w') = rest (w_store w) ∧
    if dataAdapter then
      unchanged_or (fun specs => ∃ i text, out_adapter_get i CONFIG_SPECS_KEY = inl text ∧
                                           decoded_from text specs)
        reasonDataAdapter (w_store w) (w_store w')
    else unchanged_or (decoded_from bootstrapValues) reasonBootstrap (w_store w) (w_store w').
Proof.
  intros Hinit. unfold loadFirst. destruct dataAdapter.
  - assert (Hi : (adapter_Initialize w).1 = Ret ()).
    { unfold adapter_Initialize, mbind, gom_bind. simpl. by rewrite Hinit. }
    rewrite (run_bind _ _ w ()) by done.
    assert (Hs : w_store (adapter_Initialize w).2 = w_store w)
      by apply (f_equal (fun x => x.1.1.1.1.2) (core_adapter_Initialize w)).
    destruct (fetchConfigSpecsFromAdapter_run (adapter_Initialize w).2) as (w' & Hrun & Hr & Hor).
    rewrite Hs in *. by exists w'.
  - destruct (negb _); simpl.
    + run_step w_store m w1 H1.
      destruct (process_text_run bootstrapValues (m ▷ bootstrap) reasonBootstrap w1)
        as (w' & Hrun & Hr & Hor); [done|]. rewrite H1 in *. by exists w'.
    + exists w. split; [done|]. split; [done|]. by left.
Qed.

(** Where specs with a given reason come from. *)
Definition came_from (t : transport) (bootstrapValues : string) (dataAdapter : bool)
    (reason : evaluationReason) (specs : downloadConfigSpecResponse) : Prop :=
  match reason with
  | reasonNetwork => ∃ res,
      answered t "/download_config_specs" (PDownloadConfigs 0 (tr_metadata t)) (HttpDone res) ∧
      200 ≤ StatusCode res < 300 ∧ decode_body out_unmarshal_specs zero_specs res = (specs, None)
  | reasonBootstrap => dataAdapter = false ∧ decoded_from bootstrapValues specs
  | reasonDataAdapter => dataAdapter = true ∧
      ∃ i text, out_adapter_get i CONFIG_SPECS_KEY = inl text ∧ decoded_from text specs
  | _ => False
  end.

(** A store that serves nothing yet, or one whole response. *)
Definition serves_one (t : transport) (bootstrapValues : string) (dataAdapter : bool) (s : store) : Prop :=
  (st_initReason s = reasonUninitialized ∧ rules s = (∅, ∅, ∅, ∅, ∅, 0)) ∨
  (∃ specs, came_from t bootstrapValues dataAdapter (st_initReason s) specs ∧
     HasUpdates specs = true ∧ installed specs s).

Lemma serves_one_same t bs da s s' :
  rules s' = rules s → st_initReason s' = st_initReason s →
  serves_one t bs da s → serves_one t bs da s'.
Proof.
  intros Hr Hre [[Hu He]|(specs & Hfrom & Hup & Hi)]; [left|right].
  - by rewrite Hre, Hr.
  - exists specs. rewrite Hre. split; [done|]. split; [done|]. by apply (installed_fields _ s).
Qed.

Lemma first_sync_run t bs da w (quiet : M ()) :
  total quiet → keeps w_store quiet →
  st_transport (w_store w) = t → serves_one t bs da (w_store w) →
  ∃ w', when (st_lastSyncTime (w_store w) =? 0)
      (quiet ≫= fun _ => fetchConfigSpecsFromServer true) w = (Ret (), w') ∧
    rest (w_store w') = rest (w_store w) ∧ serves_one t bs da (w_store w').
Proof.
  intros Hqt Hqk Ht Hserves. destruct (Z.eqb_spec (st_lastSyncTime (w_store w)) 0) as [Hzero|]; simpl.
  2:{ by exists w. }
  rewrite run_unit by done. assert (Hq : w_store (quiet w).2 = w_store w) by apply Hqk.
  destruct (fetchConfigSpecsFromServer_run true (quiet w).2) as (w' & Hrun & Hr & Hor).
  rewrite Hq in *. exists w'. split; [done|]. split; [done|].
  destruct Hor as [[Hru Hre]|(specs & res & Hans & Hcode & Hbody & Hup & Hi & Hre & _)].
  - by apply (serves_one_same _ _ _ (w_store w)).
  - right. exists specs. rewrite Hre. split; [|done]. exists res. by rewrite <- Ht, <- Hzero.
Qed.
End facts.

(** ** Properties *)

Section claims.
Context `{Outside} `{GoRuntime}.

(** A whole construction. *)
Lemma newStoreInternal_run t ci ii bootstrapValues callback dataAdapter w :
  (dataAdapter = true → ∀ i, out_adapter_initialize i = None) →
  ∃ w', newStoreInternal t ci ii bootstrapValues callback dataAdapter w = (Ret (), w') ∧
    serves_one t bootstrapValues dataAdapter (w_store w') ∧
    st_initialSyncTime (w_store w') = st_lastSyncTime (w_store w') ∧
    st_initializedIDLists (w_store w') = true ∧ lists_wf (lists_of w').
Proof.
  intros Hinit. unfold newStoreInternal. rewrite run_unit by apply total_modify. simpl ((modify _ _).2).
  set (w1 := upd_store _ w).
  destruct (loadFirst_run bootstrapValues dataAdapter w1 Hinit) as (w2 & Hrun2 & Hr2 & Hor2).
  rewrite (run_bind _ _ w1 ()) by (by rewrite Hrun2). rewrite Hrun2. simpl ((_, _).2).
  assert (Hserves : serves_one t bootstrapValues dataAdapter (w_store w2)).
  { destruct dataAdapter; (destruct Hor2 as [[Hru Hre]|(specs & Hs & Hup & Hi & Hre)];
      [by left; rewrite Hru, Hre|right; exists specs; by rewrite Hre]). }
  rewrite (run_bind _ _ w2 (w_store w2)) by done. simpl ((gets _ _).2).
  destruct (first_sync_run t bootstrapValues dataAdapter w2
    (when (negb (negb dataAdapter && String.eqb bootstrapValues ""))
       (base_logProcess InitializeContext "Retrying with network..."))) as (w3 & Hrun3 & Hr3 & Hserves3).
  { apply total_when, total_base_logProcess. }
  { apply keeps_when. unfold base_logProcess, global_Logger. walk_keeps. }
  { by injection Hr2. }
  { done. }
  rewrite (run_bind _ _ w2 ()) by (by rewrite Hrun3). rewrite Hrun3. simpl ((_, _).2).
  rewrite run_unit by apply total_modify. simpl ((modify _ _).2). set (w4 := upd_store _ w3).
  assert (Hwf : lists_wf (lists_of w4)).
  { assert (lists_of w4 = ∅) as ->; [|apply map_Forall_empty].
    change (lists_of w4) with (st_idLists (w_store w3)). injection Hr3 as -> _ _ _ _ _ _ _ _.
    by injection Hr2 as -> _ _ _ _ _ _ _ _. }
  destruct (sync_lists_returns w4 Hwf) as (w5 & Hrun5 & Hwf5 & Hbut).
  rewrite (run_bind _ _ w4 ()) by (by rewrite Hrun5). rewrite Hrun5. simpl ((_, _).2).
  eexists. split; [reflexivity|]. simpl. unfold with_lists, set_idLists in Hbut.
  injection Hbut as B1 B2 B3 B4 B5 B6 B7 B8 B9 B10 B11 B12 B13 B14 B15 B16. split; [|split; [|done]].
  - apply (serves_one_same _ _ _ (w_store w3)); [|done|done].
    unfold rules. simpl. by rewrite B1, B2, B3, B4, B5, B6.
  - by rewrite B6, B7.
Qed.

(** C10. A new store serves nothing or one whole response: if the adapter's
    initialisation does not panic, construction returns; the reason of the store
    names the source whose decoded response its accessors answer from (the
    adapter, the bootstrap values only without an adapter, or the network), or
    it is Uninitialized and there are no rules; the initial sync time is the
    last sync time, and the ID lists are well formed. *)
Theorem newStore_initializes t ci ii bootstrapValues callback dataAdapter w :
  (dataAdapter = true → ∀ i, out_adapter_initialize i = None) →
  ∃ w', newStoreInternal t ci ii bootstrapValues callback dataAdapter w = (Ret (), w') ∧
    serves_one t bootstrapValues dataAdapter (w_store w') ∧
    st_initialSyncTime (w_store w') = st_lastSyncTime (w_store w') ∧
    st_initializedIDLists (w_store w') = true ∧ lists_wf (lists_of w').
Proof. apply newStoreInternal_run. Qed.
End claims.

(** ** Witness *)

Section witness.
#[local] Existing Instance example_runtime.
#[local] Instance serving_broken_adapter : Outside := example_outside serving broken_adapter.

Lemma newStore_initializes_witness :
  ∃ w', newStoreInternal example_transport 1 1 "" false true (example_world empty_store) = (Ret (), w') ∧
    serves_one example_transport "" true (w_store w') ∧
    st_initialSyncTime (w_store w') = st_lastSyncTime (w_store w') ∧
    st_initializedIDLists (w_store w') = true ∧ lists_wf (lists_of w').
Proof.
  apply (newStore_initializes example_transport 1 1 "" false true (example_world empty_store)).
  reflexivity.
Defined.
End witness.
