(* ===== verification/LoggerFacts.v ===== *)
(** * Theorems about the logger and the sampling of diagnostics

    Events are neither lost nor duplicated on their way to the goroutines
    that send them, the buffer stays below its bound, and a flush empties it. *)
From S2P Require Import Prelude GoFloat GoRuntime Hashing Types Evaluator Examples World.
From S2P Require Import Diagnostics.
From S2P Require Import ErrorBoundary Transport Store Logger WorldExamples.

(** The batches handed to goroutines, and every event handed over or buffered. *)
Definition batch_of (g : goroutine) : option (list loggedEvent) :=
  match g with GoSendEvents events => Some events | _ => None end.
Definition batches (w : World) : list (list loggedEvent) := omap batch_of (w_goroutines w).
Definition accounted (w : World) : list loggedEvent := concat (batches w) ++ lg_events (w_logger w).
Definition buffered (w : World) : Z := Z.of_nat (length (lg_events (w_logger w))).
Definition max_events (w : World) : Z := lg_maxEvents (w_logger w).

(** The markers whose key is not dropped. *)
Definition kept_by (drop : string → bool) (m : marker) : bool :=
  match m_Key m with Some k => negb (drop (key_string k)) | None => false end.

Lemma filter_ext_Forall {A} (p q : A → bool) l :
  Forall (fun x => p x = q x) l → filter (fun x => p x) l = filter (fun x => q x) l.
Proof. induction 1 as [|x l Hx _ IH]; [done|]. rewrite !filter_cons, Hx, IH. done. Qed.

Section facts.
Context `{Outside}.

(** One event: it is buffered, or completes a batch. *)
Lemma logInternal_run e w :
  buffered w < max_events w →
  ∃ w', logInternal e w = (Ret (), w') ∧
    max_events w' = max_events w ∧ buffered w' < max_events w' ∧
    accounted w' = accounted w ++ [e] ∧
    (batches w' = batches w ∨
     ∃ b, batches w' = batches w ++ [b] ∧ Z.of_nat (length b) = max_events w) ∧
    w_store w' = w_store w ∧ w_diagnostics w' = w_diagnostics w.
Proof.
  intros Hlt. unfold logInternal. rewrite run_unit by apply total_modify. simpl ((modify _ _).2).
  set (w1 := upd_logger _ w). rewrite (run_bind _ _ w1 (w_logger w1)) by done. simpl ((gets _ _).2).
  assert (Hev : lg_events (w_logger w1) = lg_events (w_logger w) ++ [e]) by done.
  destruct (Z.leb_spec (lg_maxEvents (w_logger w1)) (Z.of_nat (length (lg_events (w_logger w1)))))
    as [Hfull|Hroom]; simpl.
  - change (flushInternal false w1) with
      ((l ← gets w_logger;
        match lg_events l with
        | [] => mret ()
        | events => go (GoSendEvents events) ≫= fun _ => modify (upd_logger (set_events []))
        end) w1).
    rewrite (run_bind _ _ w1 (w_logger w1)) by done. simpl ((gets _ _).2).
    rewrite Hev in *. destruct (lg_events (w_logger w) ++ [e]) as [|x xs] eqn:Hx.
    { by destruct (lg_events (w_logger w)). }
    eexists. split; [reflexivity|]. split; [done|]. rewrite <- Hx in *. clear x xs Hx.
    unfold buffered, max_events, accounted, batches in *. simpl in *.
    rewrite length_app in Hfull. simpl in Hfull. rewrite omap_app. simpl.
    split; [lia|]. split; [|split; [|done]].
    + rewrite concat_app. simpl. by rewrite !app_nil_r, app_assoc.
    + right. exists (lg_events (w_logger w) ++ [e]). split; [done|]. rewrite length_app. simpl. lia.
  - exists w1. split; [done|]. split; [done|]. split; [done|]. split; [|split; [by left|done]].
    unfold accounted. rewrite Hev. by rewrite app_assoc.
Qed.

(** ** Sampling *)

(** The markers whose key was not drawn. *)
Definition kept (keys : gmap string bool) (m : marker) : bool :=
  match m_Key m with
  | Some k => bool_decide (keys !! key_string k = Some false)
  | None => false
  end.

Lemma sampling_loop_run rates ms keys acc w :
  Forall (fun m => is_Some (m_Key m)) ms →
  ∃ keys' w', sampling_loop rates ms keys acc w =
      (Ret (acc ++ filter (fun m => kept keys' m) ms), w') ∧
    keys ⊆ keys' ∧
    (∀ k b, keys' !! k = Some b → keys !! k = Some b ∨
       match rates !! k with
       | None => b = false
       | Some rate => ∃ i, b = (out_rand i <? rate)
       end) ∧
    Forall (fun m => ∃ k, m_Key m = Some k ∧ is_Some (keys' !! key_string k)) ms.
Proof.
  intros Hms. revert keys acc w. induction Hms as [|m ms [key Hkey] _ IH]; intros keys acc w; simpl.
  { exists keys, w. rewrite filter_nil, app_nil_r. repeat split; try done. naive_solver. }
  rewrite Hkey. rewrite (run_bind _ _ w key) by done. simpl ((lift_outcome _ _).2).
  set (step := match keys !! key_string key with Some _ => _ | None => _ end).
  assert (Hstep : ∃ b w1, step w = (Ret (<[key_string key := b]> keys), w1) ∧
    (keys !! key_string key = Some b ∨ keys !! key_string key = None ∧
       match rates !! key_string key with
       | None => b = false
       | Some rate => ∃ i, b = (out_rand i <? rate)
       end)).
  { subst step. destruct (keys !! key_string key) as [b|] eqn:E.
    - exists b, w. rewrite insert_id by done. by split; [|left].
    - destruct (rates !! key_string key) as [rate|].
      + do 2 eexists. split; [reflexivity|]. right. split; [done|]. by eexists.
      + exists false, w. by split; [|right]. }
  destruct Hstep as (b & w1 & Hrun & Hb).
  rewrite (run_bind _ _ w (<[key_string key := b]> keys)) by (by rewrite Hrun). rewrite Hrun.
  simpl ((_, _).2). rewrite lookup_insert_eq. simpl (default false _).
  destruct (IH (<[key_string key := b]> keys) (if b then acc else acc ++ [m]) w1)
    as (keys' & w' & Hrun' & Hsub & Hfrom & Hall).
  exists keys', w'. rewrite Hrun'.
  assert (Hb' : keys' !! key_string key = Some b).
  { eapply lookup_weaken; [|exact Hsub]. apply lookup_insert_eq. }
  split.
  { assert (Hkept : kept keys' m = negb b).
    { unfold kept. rewrite Hkey, Hb'. by destruct b. }
    do 2 f_equal. rewrite filter_cons, Hkept. destruct b; simpl.
    - by destruct (decide False).
    - destruct (decide True); [|done]. by rewrite <- app_assoc. }
  split.
  { etransitivity; [|exact Hsub]. destruct Hb as [Hb|[Hb _]].
    - by rewrite insert_id.
    - by apply insert_subseteq. }
  split.
  - intros k b' Hk. destruct (Hfrom k b' Hk) as [Hins|]; [|by right].
    destruct (decide (key_string key = k)) as [<-|Hne].
    + rewrite lookup_insert_eq in Hins. injection Hins as <-. destruct Hb as [|[_ ?]]; [by left|by right].
    + rewrite lookup_insert_ne in Hins by done. by left.
  - constructor; [|done]. exists key. split; [done|]. by eexists.
Qed.

(** Markers that [serializeWithSampling] can read. *)
Definition keyed (b : diagnosticsBase) : Prop := Forall (fun m => is_Some (m_Key m)) (db_markers b).
Definition diagnostics_keyed (w : World) : Prop := ∀ c, keyed (base_of c (w_diagnostics w)).

Definition is_diagnostics (e : loggedEvent) : Prop :=
  match e with LoggedDiagnostics _ _ _ => True | _ => False end.

Lemma serialize_total c w : keyed (base_of c (w_diagnostics w)) →
  ∃ ms w', serializeWithSampling c w = (Ret ms, w') ∧ core w' = core w.
Proof.
  intros Hk. pose proof (core_serialize c w) as Hcore. unfold serializeWithSampling in *.
  rewrite (run_bind _ _ w (base_of c (w_diagnostics w))) in * by done. simpl ((gets _ _).2) in *.
  destruct (sampling_loop_run (db_samplingRates (base_of c (w_diagnostics w)))
    (db_markers (base_of c (w_diagnostics w))) ∅ [] w Hk) as (keys' & w' & Hrun & _).
  rewrite Hrun in *. do 2 eexists. by split.
Qed.

(** One diagnostics event at most; the markers stay readable. *)
Lemma logDiagnosticsEvent_run c w :
  diagnostics_keyed w → buffered w < max_events w →
  ∃ w' ds, logDiagnosticsEvent c w = (Ret (), w') ∧ diagnostics_keyed w' ∧
    buffered w' < max_events w' ∧ Forall is_diagnostics ds ∧
    accounted w' = accounted w ++ ds.
Proof.
  intros Hk Hlt. unfold logDiagnosticsEvent.
  rewrite (run_bind _ _ w (w_logger w)) by done. simpl ((gets _ _).2).
  destruct (diagnostics_disabled _ _).
  { exists w, []. rewrite app_nil_r. by repeat split. }
  destruct (serialize_total c w (Hk c)) as (ms & w1 & Hrun & Hcore).
  rewrite (run_bind _ _ w ms) by (by rewrite Hrun). rewrite Hrun. simpl ((_, _).2).
  injection Hcore as Hd _ _ Hl _ _ Hg.
  assert (Hacc : accounted w1 = accounted w) by (unfold accounted, batches; by rewrite Hg, Hl).
  destruct ms as [|m ms].
  { exists w1, []. rewrite app_nil_r. split; [done|]. unfold diagnostics_keyed, buffered, max_events.
    by rewrite Hd, Hl. }
  rewrite (run_bind _ _ w1 (getUnixMilli (out_now (w_tick w1)))) by done. simpl ((now_millis _).2).
  set (w2 := upd_tick S w1). rewrite run_unit by apply total_modify. simpl ((clearMarkers _ _).2).
  set (w3 := upd_diagnostics _ w2).
  destruct (logInternal_run (LoggedDiagnostics c (m :: ms) (getUnixMilli (out_now (w_tick w1)))) w3)
    as (w' & Hrun' & Hmax & Hlt' & Hacc' & _ & _ & Hd').
  { unfold buffered, max_events in *. simpl. by rewrite Hl. }
  exists w', [LoggedDiagnostics c (m :: ms) (getUnixMilli (out_now (w_tick w1)))].
  split; [done|]. split; [|split; [done|split; [by repeat constructor|]]].
  - intros c'. rewrite Hd'. simpl. rewrite Hd.
    destruct c, c'; simpl; try apply Forall_nil_2;
      solve [exact (Hk InitializeContext)|exact (Hk ConfigSyncContext)|exact (Hk ApiCallContext)].
  - rewrite Hacc', <- Hacc. done.
Qed.

Lemma logDiagnosticsEvents_run w :
  diagnostics_keyed w → buffered w < max_events w →
  ∃ w' ds, logDiagnosticsEvents w = (Ret (), w') ∧ diagnostics_keyed w' ∧
    buffered w' < max_events w' ∧ Forall is_diagnostics ds ∧
    accounted w' = accounted w ++ ds.
Proof.
  intros Hk Hlt. unfold logDiagnosticsEvents.
  destruct (logDiagnosticsEvent_run InitializeContext w) as (w1 & d1 & Hrun1 & Hk1 & Hlt1 & Hd1 & Ha1); [done..|].
  rewrite (run_bind _ _ w ()) by (by rewrite Hrun1). rewrite Hrun1. simpl ((_, _).2).
  destruct (logDiagnosticsEvent_run ConfigSyncContext w1) as (w2 & d2 & Hrun2 & Hk2 & Hlt2 & Hd2 & Ha2); [done..|].
  rewrite (run_bind _ _ w1 ()) by (by rewrite Hrun2). rewrite Hrun2. simpl ((_, _).2).
  destruct (logDiagnosticsEvent_run ApiCallContext w2) as (w3 & d3 & Hrun3 & Hk3 & Hlt3 & Hd3 & Ha3); [done..|].
  exists w3, (d1 ++ d2 ++ d3). split; [done|]. split; [done|]. split; [done|].
  split; [by rewrite !Forall_app|]. by rewrite Ha3, Ha2, Ha1, <- !app_assoc.
Qed.
End facts.

(** ** Properties *)

Section claims.
Context `{Outside}.

(** C8. Events are batched in order: logging any events one after the other
    neither loses nor duplicates nor reorders one: what was handed to sending
    goroutines followed by the buffer grows by exactly these events; the
    buffer stays below its bound and every new batch has exactly the size of the
    bound. *)
Theorem events_batched evts w :
  buffered w < max_events w →
  ∃ w' bs, for_each evts logInternal w = (Ret (), w') ∧
    accounted w' = accounted w ++ evts ∧
    max_events w' = max_events w ∧ buffered w' < max_events w ∧
    batches w' = batches w ++ bs ∧ Forall (fun b => Z.of_nat (length b) = max_events w) bs.
Proof.
  revert w. induction evts as [|e evts IH]; intros w Hlt; simpl.
  { exists w, []. by rewrite !app_nil_r. }
  destruct (logInternal_run e w Hlt) as (w1 & Hrun & Hmax & Hlt1 & Hacc & Hb & _).
  rewrite (run_bind _ _ w ()) by (by rewrite Hrun). rewrite Hrun. simpl ((_, _).2).
  destruct (IH w1) as (w' & bs & Hrun' & Hacc' & Hmax' & Hlt' & Hbs & Hall); [done|].
  rewrite Hmax in *.
  assert (∃ bs', batches w1 = batches w ++ bs' ∧ Forall (fun b => Z.of_nat (length b) = max_events w) bs')
    as (bs' & Hbs' & Hall').
  { destruct Hb as [Hb|(b & Hb & Hlen)]; [exists []; by rewrite app_nil_r|exists [b]; by repeat constructor]. }
  exists w', (bs' ++ bs). split; [done|]. split; [by rewrite Hacc', Hacc, <- app_assoc|].
  split; [done|]. split; [done|]. split; [by rewrite Hbs, Hbs', <- app_assoc|]. by apply Forall_app.
Qed.

(** A whole flush. *)
Lemma flush_run closing w :
  diagnostics_keyed w → buffered w < max_events w →
  ∃ w1 w' ds, logDiagnosticsEvents w = (Ret (), w1) ∧ flush closing w = (Ret (), w') ∧
    Forall is_diagnostics ds ∧ accounted w1 = accounted w ++ ds ∧
    lg_events (w_logger w') = [] ∧
    if closing then lg_tickStopped (w_logger w') = true ∧
      (lg_events (w_logger w1) ≠ [] →
       w' = upd_logger (set_events []) (sendEvents (lg_events (w_logger w1)) (upd_logger stop_tick w1)).2)
    else accounted w' = accounted w ++ ds.
Proof.
  intros Hk Hlt. destruct (logDiagnosticsEvents_run w) as (w1 & ds & Hrun & _ & _ & Hds & Hacc); [done..|].
  assert (Hsend : ∀ evts, keeps w_logger (sendEvents evts)) by (intros; unfold sendEvents; walk_keeps).
  unfold flush. rewrite (run_bind _ _ w ()) by (by rewrite Hrun). rewrite Hrun. simpl ((_, _).2).
  exists w1. destruct (total_run (flushInternal closing) w1 (total_flushInternal closing)) as [[] Hflush].
  exists (flushInternal closing w1).2, ds. split; [done|]. split; [done|]. split; [done|].
  split; [done|]. clear Hflush. destruct closing.
  - set (w2 := upd_logger stop_tick w1).
    assert (Hf : (flushInternal true w1).2 =
      match lg_events (w_logger w1) with
      | [] => w2
      | events => upd_logger (set_events []) (sendEvents events w2).2
      end).
    { unfold flushInternal. rewrite run_unit by apply total_modify. simpl ((when true _ _).2). fold w2.
      rewrite (run_bind _ _ w2 (w_logger w2)) by done. simpl ((gets _ _).2).
      change (lg_events (w_logger w2)) with (lg_events (w_logger w1)).
      destruct (lg_events (w_logger w1)); [done|]. by rewrite run_unit by apply total_sendEvents. }
    rewrite Hf. destruct (lg_events (w_logger w1)) as [|x xs] eqn:E; [done|].
    simpl. rewrite (Hsend (x :: xs) w2). done.
  - assert (Hf : (flushInternal false w1).2 =
      match lg_events (w_logger w1) with
      | [] => w1
      | events => upd_logger (set_events []) (upd_goroutines (fun l => l ++ [GoSendEvents events]) w1)
      end) by (unfold flushInternal, mbind, gom_bind; simpl; by destruct (lg_events (w_logger w1))).
    rewrite Hf. destruct (lg_events (w_logger w1)) as [|x xs] eqn:E; [done|].
    split; [done|]. rewrite <- Hacc. unfold accounted, batches. simpl.
    rewrite omap_app, concat_app. simpl. by rewrite !app_nil_r, E.
Qed.

(** C31. A flush hands everything over: it always returns, adds nothing but
    diagnostics events, and leaves an empty buffer; a background flush gives
    the events to a goroutine, and the flush of a shutdown stops the ticker and
    sends them itself. *)
Theorem flush_hands_over closing w :
  diagnostics_keyed w → buffered w < max_events w →
  ∃ w1 w' ds, logDiagnosticsEvents w = (Ret (), w1) ∧ flush closing w = (Ret (), w') ∧
    Forall is_diagnostics ds ∧ accounted w1 = accounted w ++ ds ∧
    lg_events (w_logger w') = [] ∧
    if closing then lg_tickStopped (w_logger w') = true ∧
      (lg_events (w_logger w1) ≠ [] →
       w' = upd_logger (set_events []) (sendEvents (lg_events (w_logger w1)) (upd_logger stop_tick w1)).2)
    else accounted w' = accounted w ++ ds.
Proof. apply flush_run. Qed.

(** C32. Sampling is by key: all markers of a key are kept together or dropped
    together; a key without a rate is kept, and a key with a rate is dropped
    when its one draw out of 10000 is below the rate. *)
Theorem sampling_by_key c w :
  keyed (base_of c (w_diagnostics w)) →
  ∃ (drop : string → bool) w',
    serializeWithSampling c w =
      (Ret (filter (fun m => kept_by drop m) (db_markers (base_of c (w_diagnostics w)))), w') ∧
    ∀ m k, m ∈ db_markers (base_of c (w_diagnostics w)) → m_Key m = Some k →
      match db_samplingRates (base_of c (w_diagnostics w)) !! key_string k with
      | None => drop (key_string k) = false
      | Some rate => ∃ i, drop (key_string k) = (out_rand i <? rate)
      end.
Proof.
  intros Hk. set (b := base_of c (w_diagnostics w)) in *.
  destruct (sampling_loop_run (db_samplingRates b) (db_markers b) ∅ [] w Hk)
    as (keys & w' & Hrun & _ & Hfrom & Hall).
  exists (fun k => default false (keys !! k)), w'. split.
  - unfold serializeWithSampling. rewrite (run_bind _ _ w b) by done. simpl ((gets _ _).2).
    rewrite Hrun. do 2 f_equal. simpl.
    apply (filter_ext_Forall (kept keys) (kept_by (fun k => default false (keys !! k)))).
    eapply Forall_impl; [exact Hall|]. intros m (k & Hkey & [d Hd]). unfold kept, kept_by. rewrite Hkey, Hd.
    by destruct d.
  - intros m k Hm Hkey. rewrite Forall_forall in Hall.
    destruct (Hall m Hm) as (k' & Hk' & [d Hd]). rewrite Hkey in Hk'. injection Hk' as <-.
    rewrite Hd. simpl. destruct (Hfrom _ _ Hd) as [Hno|Hrate]; [by rewrite lookup_empty in Hno|done].
Qed.
End claims.

(** ** Witnesses *)

Section witnesses.
#[local] Instance logger_outside : Outside := example_outside serving broken_adapter.

Lemma marked_world_keyed : diagnostics_keyed marked_world.
Proof. intros []; vm_compute; repeat constructor; by eexists. Qed.

Lemma events_batched_witness :
  ∃ w' bs, for_each (replicate 4 example_event) logInternal (example_world stocked_store) = (Ret (), w') ∧
    accounted w' = [] ++ replicate 4 example_event ∧
    max_events w' = 3 ∧ buffered w' < 3 ∧
    batches w' = [] ++ bs ∧ Forall (fun b => Z.of_nat (length b) = 3) bs.
Proof. apply (events_batched (replicate 4 example_event) (example_world stocked_store)). reflexivity. Defined.

Lemma flush_hands_over_witness :
  ∃ w1 w' ds, logDiagnosticsEvents marked_world = (Ret (), w1) ∧ flush false marked_world = (Ret (), w') ∧
    Forall is_diagnostics ds ∧ accounted w1 = accounted marked_world ++ ds ∧
    lg_events (w_logger w') = [] ∧ accounted w' = accounted marked_world ++ ds.
Proof. apply (flush_hands_over false marked_world); [apply marked_world_keyed|reflexivity]. Defined.

Lemma sampling_by_key_witness :
  ∃ (drop : string → bool) w',
    serializeWithSampling InitializeContext marked_world =
      (Ret (filter (fun m => kept_by drop m) (db_markers (initDiagnostics (w_diagnostics marked_world)))), w') ∧
    ∀ m k, m ∈ db_markers (initDiagnostics (w_diagnostics marked_world)) → m_Key m = Some k →
      match db_samplingRates (initDiagnostics (w_diagnostics marked_world)) !! key_string k with
      | None => drop (key_string k) = false
      | Some rate => ∃ i, drop (key_string k) = (out_rand i <? rate)
      end.
Proof. apply (sampling_by_key InitializeContext marked_world). apply marked_world_keyed. Defined.
End witnesses.
