(* ===== verification/InitResponseFacts.v ===== *)
(** * Theorems about the client initialize response

    Exposures are deduplicated, and the response holds exactly the entries of
    the target app's specs, each field of which the evaluations determine. *)
From S2P Require Import Prelude GoFloat GoRuntime Hashing Types Conditions Evaluator Examples.
From S2P Require Import World Store.
From S2P Require Import InitResponse WorldExamples Client EvaluatorFacts.

(** ** Exposures *)

(** The reference: an exposure is kept when none before it has its key. *)
Fixpoint first_of_key (exposures : list exposure) (before : list string) : list exposure :=
  match exposures with
  | [] => []
  | e :: exposures =>
      (if decide (exposure_key e ∈ before) then [] else [e]) ++
      first_of_key exposures (exposure_key e :: before)
  end.

Lemma cleanExposures_loop_spec exposures seen before result :
  (∀ k, k ∈ seen ↔ k ∈ before) →
  cleanExposures_loop exposures seen result = result ++ first_of_key exposures before.
Proof.
  revert seen before result. induction exposures as [|e exposures IH]; intros seen before result Hsame;
    simpl; [by rewrite app_nil_r|].
  destruct (decide (exposure_key e ∈ seen)) as [Hin|Hout].
  - rewrite decide_True by by apply Hsame. simpl. apply IH. intros k. rewrite elem_of_cons, Hsame.
    split; [by right|]. intros [->|]; [by apply Hsame|done].
  - rewrite decide_False by by rewrite <- Hsame. rewrite (IH _ (exposure_key e :: before)).
    + by rewrite <- app_assoc.
    + intros k. rewrite elem_of_union, elem_of_singleton, elem_of_cons, Hsame. done.
Qed.

Lemma cleanExposures_first exposures : cleanExposures exposures = first_of_key exposures [].
Proof.
  unfold cleanExposures. rewrite (cleanExposures_loop_spec _ _ []); [done|].
  intros k. split; [by intros ?%elem_of_empty|by intros ?%elem_of_nil].
Qed.

Lemma first_of_key_keys exposures before k :
  k ∈ map exposure_key (first_of_key exposures before) ↔
  k ∈ map exposure_key exposures ∧ k ∉ before.
Proof.
  revert before. induction exposures as [|e exposures IH]; intros before; simpl.
  { split; [by intros ?%elem_of_nil|by intros [?%elem_of_nil _]]. }
  rewrite map_app, elem_of_app, IH, !elem_of_cons.
  destruct (decide (exposure_key e ∈ before)) as [Hin|Hout]; simpl.
  - rewrite elem_of_nil. destruct (decide (k = exposure_key e)) as [->|]; naive_solver.
  - rewrite list_elem_of_singleton. destruct (decide (k = exposure_key e)) as [->|]; naive_solver.
Qed.

Lemma first_of_key_NoDup exposures before : NoDup (map exposure_key (first_of_key exposures before)).
Proof.
  revert before. induction exposures as [|e exposures IH]; intros before; simpl; [by apply NoDup_nil|].
  rewrite map_app. destruct (decide _); simpl; [apply IH|].
  constructor; [|apply IH]. rewrite first_of_key_keys. intros [_ Hno]. apply Hno. left.
Qed.

Lemma first_of_key_sublist exposures before : sublist (first_of_key exposures before) exposures.
Proof.
  revert before. induction exposures as [|e exposures IH]; intros before; simpl; [constructor|].
  destruct (decide _); simpl; constructor; apply IH.
Qed.

Lemma first_of_key_distinct exposures before :
  NoDup (map exposure_key exposures) → (∀ k, k ∈ map exposure_key exposures → k ∉ before) →
  first_of_key exposures before = exposures.
Proof.
  revert before. induction exposures as [|e exposures IH]; intros before Hnd Hout; simpl; [done|].
  simpl in *. apply NoDup_cons in Hnd as [He Hnd].
  rewrite decide_False by (apply Hout; left). simpl. f_equal. apply IH; [done|].
  intros k Hk. rewrite elem_of_cons. intros [->|Hb]; [done|]. apply (Hout k); [by right|done].
Qed.

(** ** Responses *)

Section responses.
Context {R : Type} (visible : configSpec → bool)
  (toResponse : string → configSpec → outcome (string * R)).

(** Where an entry of the responses comes from. *)
Definition responds (specs : list (string * configSpec)) (hashedName : string) (res : R) : Prop :=
  ∃ name spec, (name, spec) ∈ specs ∧ visible spec = true ∧ toResponse name spec = Ret (hashedName, res).

Lemma respond_sound specs start out :
  respond visible toResponse specs start = Ret out →
  ∀ h res, out !! h = Some res → start !! h = Some res ∨ responds specs h res.
Proof.
  revert start. induction specs as [|[name spec] specs IH]; intros start Hrun h res Hres; simpl in Hrun.
  { injection Hrun as ->. by left. }
  assert (Hlater : ∀ st, respond visible toResponse specs st = Ret out →
    st !! h = Some res ∨ responds ((name, spec) :: specs) h res).
  { intros st Hst. destruct (IH st Hst h res Hres) as [?|(n & sp & Hin & Hv & Ht)]; [by left|right].
    exists n, sp. split; [by right|done]. }
  destruct (visible spec) eqn:Hv; [|by apply Hlater].
  apply outcome_bind_Ret_inv in Hrun as ([h' res'] & Ht & Hrun).
  destruct (Hlater _ Hrun) as [Hins|]; [|by right].
  destruct (decide (h' = h)) as [->|Hne].
  - rewrite lookup_insert_eq in Hins. injection Hins as ->. right. exists name, spec.
    split; [left|done].
  - rewrite lookup_insert_ne in Hins by done. by left.
Qed.

Lemma respond_complete specs start out :
  respond visible toResponse specs start = Ret out →
  (∀ h, is_Some (start !! h) → is_Some (out !! h)) ∧
  ∀ name spec, (name, spec) ∈ specs → visible spec = true →
    ∃ h res, toResponse name spec = Ret (h, res) ∧ is_Some (out !! h).
Proof.
  revert start. induction specs as [|[name spec] specs IH]; intros start Hrun; simpl in Hrun.
  { injection Hrun as ->. split; [done|]. by intros ?? ?%elem_of_nil. }
  destruct (visible spec) eqn:Hv.
  - apply outcome_bind_Ret_inv in Hrun as ([h' res'] & Ht & Hrun).
    destruct (IH _ Hrun) as [Hstart Hin]. split.
    + intros h Hh. apply Hstart. destruct (decide (h' = h)) as [->|Hne].
      * rewrite lookup_insert_eq. by eexists.
      * by rewrite lookup_insert_ne.
    + intros n sp Hns Hvis. apply elem_of_cons in Hns as [[= -> ->]|Hns]; [|by apply Hin].
      exists h', res'. split; [done|]. apply Hstart. rewrite lookup_insert_eq. by eexists.
  - destruct (IH _ Hrun) as [Hstart Hin]. split; [done|].
    intros n sp Hns Hvis. apply elem_of_cons in Hns as [[= -> ->]|Hns]; [|by apply Hin].
    by rewrite Hv in Hvis.
Qed.

(** A map of responses to the visible specs of a map, and to no others. *)
Definition responses_to (specs : gmap string configSpec) (out : gmap string R) : Prop :=
  (∀ h res, out !! h = Some res → ∃ name spec,
     specs !! name = Some spec ∧ visible spec = true ∧ toResponse name spec = Ret (h, res)) ∧
  (∀ name spec, specs !! name = Some spec → visible spec = true →
     ∃ h res, toResponse name spec = Ret (h, res) ∧ is_Some (out !! h)).

Lemma respond_map `{Outside} i (specs : gmap string configSpec) out :
  respond visible toResponse (entries_in_order specs (out_order i (map_to_list specs).*1)) ∅ = Ret out →
  responses_to specs out.
Proof.
  intros Hrun. destruct (range_entries i specs) as [_ Hin]. split.
  - intros h res Hres. destruct (respond_sound _ _ _ Hrun h res Hres) as [Hno|(n & sp & Hns & Hv & Ht)].
    + by rewrite lookup_empty in Hno.
    + exists n, sp. split; [by apply Hin|done].
  - intros n sp Hns Hv. destruct (respond_complete _ _ _ Hrun) as [_ Hc]. apply (Hc n sp); [|done].
    by apply Hin.
Qed.
(** A loop over a map: the responses to its visible specs, or the panic of one of them. *)
Lemma respond_panics specs start e :
  respond visible toResponse specs start = Panic e →
  ∃ name spec, (name, spec) ∈ specs ∧ visible spec = true ∧ toResponse name spec = Panic e.
Proof.
  revert start. induction specs as [|[name spec] specs IH]; intros start Hrun; simpl in Hrun; [done|].
  assert (Hlater : ∀ st, respond visible toResponse specs st = Panic e →
    ∃ n sp, (n, sp) ∈ (name, spec) :: specs ∧ visible sp = true ∧ toResponse n sp = Panic e).
  { intros st Hst. destruct (IH st Hst) as (n & sp & Hin & Hv & Ht). exists n, sp. split; [by right|done]. }
  destruct (visible spec) eqn:Hv; [|by eapply Hlater].
  destruct (toResponse name spec) as [[h r]|e'|] eqn:Ht; simpl in Hrun; [by eapply Hlater| |done].
  injection Hrun as ->. exists name, spec. split; [left|done].
Qed.
Definition panics_on (specs : gmap string configSpec) (e : goPanic) : Prop :=
  ∃ name spec, specs !! name = Some spec ∧ visible spec = true ∧ toResponse name spec = Panic e.
Lemma respond_map_panics `{Outside} i (specs : gmap string configSpec) e :
  respond visible toResponse (entries_in_order specs (out_order i (map_to_list specs).*1)) ∅ = Panic e →
  panics_on specs e.
Proof.
  intros Hrun. destruct (range_entries i specs) as [_ Hin].
  destruct (respond_panics _ _ _ Hrun) as (n & sp & Hns & Hv & Ht). exists n, sp. split; [by apply Hin|done].
Qed.
End responses.

Lemma respond_defined {R} visible (toResponse : string → configSpec → outcome (string * R)) specs start :
  (∀ name spec, toResponse name spec ≠ OutOfFuel) → respond visible toResponse specs start ≠ OutOfFuel.
Proof.
  intros Ht. revert start. induction specs as [|[name spec] specs IH]; intros start; simpl; [done|].
  destruct (visible spec); [|apply IH]. specialize (Ht name spec).
  destruct (toResponse name spec) as [[h r]|e|]; [apply IH|done|done].
Qed.

Section fuel.
Context `{Outside} `{GoRuntime}.

Lemma fueled_init_response user clientKey : fueled (evaluator_getClientInitializeResponse user clientKey).
Proof.
  unfold evaluator_getClientInitializeResponse, getClientInitializeResponse.
  apply fueled_bind; [apply fueled_total, total_gets|]. intros s.
  apply fueled_bind; [apply fueled_total, total_gets|]. intros ov.
  apply fueled_bind; [apply fueled_total, total_now_nanos|]. intros now.
  apply fueled_bind; [apply fueled_total, total_gets|]. intros s'.
  assert (Hev : ∀ spec, eval s ov now user eval_fuel spec 0 ≠ OutOfFuel) by (intros; apply eval_entry_defined).
  apply fueled_bind; [apply fueled_total, total_range_map|]. intros gates.
  apply fueled_bind.
  { apply fueled_lift, respond_defined. intros name spec. unfold gateToResponse. specialize (Hev spec).
    by destruct (eval _ _ _ _ _ _ _). }
  intros fg. apply fueled_bind; [apply fueled_total, total_range_map|]. intros configs.
  apply fueled_bind.
  { apply fueled_lift, respond_defined. intros name spec. unfold configToResponse. specialize (Hev spec).
    destruct (eval _ _ _ _ _ _ _) as [r|e|]; [|done|done]. simpl.
    unfold inLayerValue, mergeMaps. repeat case_match; simpl; repeat case_match; done. }
  intros dc. apply fueled_bind; [apply fueled_total, total_range_map|]. intros layers.
  apply fueled_bind; [|intros; apply fueled_total, total_ret].
  apply fueled_lift, respond_defined. intros name spec. unfold layerToResponse.
  apply outcome_bind_defined; [apply Hev|]. intros r. simpl. case_match; [done|].
  apply outcome_bind_defined; [apply Hev|]. intros r'. by case_match.
Qed.
End fuel.

(** The run of the three loops for any evaluation of a spec. *)
Lemma init_response_run `{Outside} `{GoRuntime} user evalFunc clientKey w :
  let s := w_store w in let appId := appIDForKey s clientKey in
  match getClientInitializeResponse user evalFunc clientKey w with
  | (Ret resp, w') =>
      responses_to (visible_gate appId) (gateToResponse evalFunc) (st_featureGates s) (ir_FeatureGates resp) ∧
      responses_to (visible_config appId) (configToResponse s evalFunc) (st_dynamicConfigs s)
        (ir_DynamicConfigs resp) ∧
      responses_to (visible_config appId) (layerToResponse s evalFunc) (st_layerConfigs s)
        (ir_LayerConfigs resp) ∧
      resp = mkInitResponse (ir_FeatureGates resp) (ir_DynamicConfigs resp) (ir_LayerConfigs resp)
        ∅ true "statsig-go-sdk" (UserID user) (CustomIDs user) 0 ∧ core w' = core w
  | (Panic e, w') =>
      (panics_on (visible_gate appId) (gateToResponse evalFunc) (st_featureGates s) e ∨
       panics_on (visible_config appId) (configToResponse s evalFunc) (st_dynamicConfigs s) e ∨
       panics_on (visible_config appId) (layerToResponse s evalFunc) (st_layerConfigs s) e) ∧
      core w' = core w
  | (OutOfFuel, _) => True
  end.
Proof.
  intros s appId. unfold getClientInitializeResponse, range_map, mbind, gom_bind, fmap, gom_fmap, lift_outcome.
  simpl. fold s. change (default "" (st_sdkKeysToAppID s !! clientKey)) with appId.
  destruct (respond _ (gateToResponse evalFunc) _ _) as [fg|e|] eqn:Hfg; [| |done].
  2:{ split; [left; by eapply respond_map_panics|done]. }
  simpl. fold s. destruct (respond _ (configToResponse s evalFunc) _ _) as [dc|e|] eqn:Hdc; [| |done].
  2:{ split; [right; left; by eapply respond_map_panics|done]. }
  simpl. fold s. destruct (respond _ (layerToResponse s evalFunc) _ _) as [lc|e|] eqn:Hlc; [| |done].
  2:{ split; [right; right; by eapply respond_map_panics|done]. }
  split; [by eapply respond_map|]. split; [by eapply respond_map|]. split; [by eapply respond_map|]. done.
Qed.

(** ** What the response is

    The entries of the response in terms of the evaluations of the specs alone. *)

Section specification.
Context `{GoRuntime} (s : store) (evalFunc : configSpec → outcome evalResult) (appId : string).

Definition entity (spec : configSpec) : string := strings_ToLower (spec_Entity spec).
Definition targeted (spec : configSpec) : Prop := appId = "" ∨ appId ∈ spec_TargetAppIDs spec.
Definition listed_gate (spec : configSpec) : Prop :=
  targeted spec ∧ entity spec ≠ "segment" ∧ entity spec ≠ "holdout".
Definition shares_layer (spec : configSpec) : Prop :=
  entity spec = "experiment" ∧ spec_HasSharedParams spec = Some true.
Definition hashed : string → string := getHashBase64StringEncoding.

(** The part all entries share: the hashed name, the rule, the exposures
    without repetitions. *)
Definition base_of (name : string) (r : evalResult) : baseSpecInitializeResponse :=
  mkBase (hashed name) (Id r) (first_of_key (SecondaryExposures r) []).

Definition gate_entry (name : string) (spec : configSpec) (res : GateInitializeResponse) : Prop :=
  ∃ r, evalFunc spec = Ret r ∧ gi_base res = base_of name r ∧ gi_Value res = Pass r.

(** The value of an experiment that shares a layer's parameters: the layer's
    defaults under the experiment's own. *)
Definition over_layer (spec : configSpec) (own value : option GoMap) : Prop :=
  match getLayerConfig s (default "" (getExperimentLayer s (spec_Name spec))) with
  | None => value = own
  | Some layer =>
      match unmarshal_or_empty (spec_DefaultValue layer) with
      | None => default ∅ own = ∅ ∧ value = None
      | Some defaults => ∃ merged, value = Some merged ∧ ∀ key, merged !! key =
          match default ∅ own !! key with Some v => Some v | None => defaults !! key end
      end
  end.

Definition config_entry (name : string) (spec : configSpec) (res : ConfigInitializeResponse) : Prop :=
  ∃ r, evalFunc spec = Ret r ∧ ci_base res = base_of name r ∧ ci_Group res = Id r ∧
    ci_IsDeviceBased res = bool_decide (strings_ToLower (spec_IDType spec) = "stableid") ∧
    (if decide (entity spec = "experiment")
     then ci_IsUserInExperiment res = Some (default false (IsExperimentGroup r)) ∧
          ci_IsExperimentActive res = Some (default false (spec_IsActive spec))
     else ci_IsUserInExperiment res = None ∧ ci_IsExperimentActive res = None) ∧
    (if decide (shares_layer spec)
     then ci_IsInLayer res = Some true ∧
          ci_ExplicitParameters res = Some (spec_ExplicitParameters spec) ∧
          over_layer spec (cb_Value (ConfigValue r)) (ci_Value res)
     else ci_IsInLayer res = None ∧ ci_ExplicitParameters res = None ∧
          ci_Value res = cb_Value (ConfigValue r)).

(** The config a layer's evaluation was delegated to, if it is in the store. *)
Definition delegate_of (r : evalResult) : option configSpec :=
  if decide (ConfigDelegate r = "") then None else getDynamicConfig s (ConfigDelegate r).

Definition layer_entry (name : string) (spec : configSpec) (res : LayerInitializeResponse) : Prop :=
  ∃ r, evalFunc spec = Ret r ∧ li_base res = base_of name r ∧
    li_Value res = cb_Value (ConfigValue r) ∧ li_Group res = Id r ∧
    li_IsDeviceBased res = bool_decide (strings_ToLower (spec_IDType spec) = "stableid") ∧
    li_UndelegatedSecondaryExposures res = first_of_key (UndelegatedSecondaryExposures r) [] ∧
    match delegate_of r with
    | None =>
        li_AllocatedExperimentName res = "" ∧ li_IsUserInExperiment res = None ∧
        li_IsExperimentActive res = None ∧
        li_ExplicitParameters res = Some (spec_ExplicitParameters spec)
    | Some delegate => ∃ rd, evalFunc delegate = Ret rd ∧
        li_AllocatedExperimentName res = hashed (ConfigDelegate r) ∧
        li_IsUserInExperiment res = Some (default false (IsExperimentGroup rd)) ∧
        li_IsExperimentActive res = Some (default false (spec_IsActive delegate)) ∧
        li_ExplicitParameters res = Some (if decide (spec_ExplicitParameters delegate = [])
          then spec_ExplicitParameters spec else spec_ExplicitParameters delegate)
    end.

(** A map of entries: those of the listed specs under their hashed names, every
    listed spec having one there. *)
Definition exactly {R} (listed : configSpec → Prop) (entry : string → configSpec → R → Prop)
    (specs : gmap string configSpec) (out : gmap string R) : Prop :=
  (∀ h res, out !! h = Some res → ∃ name spec,
     specs !! name = Some spec ∧ listed spec ∧ h = hashed name ∧ entry name spec res) ∧
  (∀ name spec, specs !! name = Some spec → listed spec → is_Some (out !! hashed name)).

(** The panics: an evaluation of a listed spec or of the config a listed layer
    is delegated to, or a write to the default of a layer that is the JSON null. *)
Definition config_panics (spec : configSpec) (e : goPanic) : Prop :=
  evalFunc spec = Panic e ∨
  e = nil_map_write ∧ shares_layer spec ∧
    ∃ layer, getLayerConfig s (default "" (getExperimentLayer s (spec_Name spec))) = Some layer ∧
      unmarshal_or_empty (spec_DefaultValue layer) = None.
Definition layer_panics (spec : configSpec) (e : goPanic) : Prop :=
  evalFunc spec = Panic e ∨
  ∃ r delegate, evalFunc spec = Ret r ∧ delegate_of r = Some delegate ∧ evalFunc delegate = Panic e.

(** ** The code's responses are these *)

Lemma targeted_spec spec : hasTargetAppID spec appId = true ↔ targeted spec.
Proof.
  unfold hasTargetAppID, targeted. destruct (String.eqb_spec appId "") as [->|Hne]; [by split; [left|]|].
  rewrite hasTargetAppID_loop_elem. naive_solver.
Qed.
Lemma visible_gate_spec spec : visible_gate appId spec = true ↔ listed_gate spec.
Proof.
  unfold visible_gate, listed_gate, entity. rewrite !andb_true_iff, !negb_true_iff, targeted_spec.
  rewrite !String.eqb_neq. naive_solver.
Qed.

Lemma base_response name r : evalResultToBaseResponse name r = (hashed name, base_of name r).
Proof. unfold evalResultToBaseResponse. by rewrite cleanExposures_first. Qed.

Lemma eqb_bool_decide (a b : string) : String.eqb a b = bool_decide (a = b).
Proof. destruct (String.eqb_spec a b); [by rewrite bool_decide_true|by rewrite bool_decide_false]. Qed.

Lemma gateToResponse_entry name spec h res :
  gateToResponse evalFunc name spec = Ret (h, res) → h = hashed name ∧ gate_entry name spec res.
Proof.
  unfold gateToResponse. intros (r & Hr & Hret)%outcome_bind_Ret_inv. rewrite base_response in Hret.
  injection Hret as <- <-. split; [done|]. by exists r.
Qed.

Lemma inLayerValue_over spec own value :
  inLayerValue s spec own = Ret value → over_layer spec own value.
Proof.
  unfold inLayerValue, over_layer. destruct (getLayerConfig _ _) as [layer|]; [|by intros [= ->]].
  unfold mergeMaps. destruct (unmarshal_or_empty _) as [defaults|].
  - intros [= <-]. eexists. split; [done|]. intros key. rewrite lookup_union.
    by destruct (default ∅ own !! key), (defaults !! key).
  - destruct (decide _); [|done]. by intros [= <-].
Qed.

Lemma is_true_ptr_spec p : is_true_ptr p = bool_decide (p = Some true).
Proof. by destruct p as [[]|]. Qed.

Lemma configToResponse_entry name spec h res :
  configToResponse s evalFunc name spec = Ret (h, res) → h = hashed name ∧ config_entry name spec res.
Proof.
  unfold configToResponse. intros (r & Hr & Hret)%outcome_bind_Ret_inv. rewrite base_response in Hret.
  unfold is_device_based in Hret. rewrite !eqb_bool_decide in Hret. fold (entity spec) in Hret.
  unfold config_entry, shares_layer.
  destruct (bool_decide_reflect (entity spec = "experiment")) as [He|He].
  - rewrite (is_true_ptr_spec (spec_HasSharedParams spec)) in Hret.
    destruct (bool_decide_reflect (spec_HasSharedParams spec = Some true)) as [Hs|Hs].
    + apply outcome_bind_Ret_inv in Hret as (value & Hvalue & Hret). injection Hret as <- <-.
      split; [done|]. exists r. rewrite !decide_True by done. simpl.
      split_and!; auto using inLayerValue_over.
    + injection Hret as <- <-. split; [done|]. exists r.
      rewrite decide_True by done. rewrite decide_False by tauto. by split_and!.
  - injection Hret as <- <-. split; [done|]. exists r. rewrite !decide_False by tauto. by split_and!.
Qed.

Lemma layerToResponse_entry name spec h res :
  layerToResponse s evalFunc name spec = Ret (h, res) → h = hashed name ∧ layer_entry name spec res.
Proof.
  unfold layerToResponse. intros (r & Hr & Hret)%outcome_bind_Ret_inv. rewrite base_response in Hret.
  unfold is_device_based in Hret. rewrite !eqb_bool_decide, cleanExposures_first in Hret.
  unfold layer_entry, delegate_of.
  destruct (bool_decide_reflect (ConfigDelegate r = "")) as [Hd|Hd].
  - injection Hret as <- <-. split; [done|]. exists r. rewrite decide_True by done. simpl.
    by split_and!.
  - apply outcome_bind_Ret_inv in Hret as (rd & Hrd & Hret).
    destruct (getDynamicConfig s (ConfigDelegate r)) as [delegate|] eqn:Hg; injection Hret as <- <-;
      (split; [done|]); exists r; rewrite decide_False, Hg by done; split_and!; try done.
    exists rd. split_and!; try done. simpl. by destruct (spec_ExplicitParameters delegate).
Qed.

Lemma configToResponse_panics name spec e :
  configToResponse s evalFunc name spec = Panic e → config_panics spec e.
Proof.
  unfold configToResponse, config_panics, shares_layer. destruct (evalFunc spec) as [r|e'|]; [|intros [= ->]; by left|done].
  simpl. rewrite !eqb_bool_decide. fold (entity spec).
  destruct (bool_decide_reflect (entity spec = "experiment")) as [He|He]; [|done].
  rewrite (is_true_ptr_spec (spec_HasSharedParams spec)).
  destruct (bool_decide_reflect (spec_HasSharedParams spec = Some true)) as [Hs|Hs]; [|done].
  unfold inLayerValue. destruct (getLayerConfig _ _) as [layer|] eqn:Hlayer; [|done].
  unfold mergeMaps. destruct (unmarshal_or_empty _) as [defaults|] eqn:Hdef; [done|].
  destruct (decide _); [done|]. intros [= <-]. right. split; [done|]. split; [done|]. by exists layer.
Qed.

Lemma layerToResponse_panics name spec e :
  (∃ r, evalFunc zero_spec = Ret r) →
  layerToResponse s evalFunc name spec = Panic e → layer_panics spec e.
Proof.
  intros [r0 Hzero]. unfold layerToResponse, layer_panics, delegate_of.
  destruct (evalFunc spec) as [r|e'|]; [|intros [= ->]; by left|done]. simpl. rewrite !eqb_bool_decide.
  destruct (bool_decide_reflect (ConfigDelegate r = "")) as [Hd|Hd]; [done|].
  destruct (st_dynamicConfigs s !! ConfigDelegate r) as [delegate|] eqn:Hg; simpl; [|by rewrite Hzero].
  destruct (evalFunc delegate) as [rd|e'|] eqn:Hrd; simpl; [done| |done]. intros [= <-]. right.
  exists r, delegate. by rewrite decide_False.
Qed.
End specification.

Lemma responses_exactly {R} visible (toResponse : string → configSpec → outcome (string * R))
    (listed : configSpec → Prop) entry specs out :
  (∀ spec, visible spec = true ↔ listed spec) →
  (∀ name spec h res, toResponse name spec = Ret (h, res) → h = hashed name ∧ entry name spec res) →
  responses_to visible toResponse specs out → exactly listed entry specs out.
Proof.
  intros Hv He [Hsound Hcomplete]. split.
  - intros h res Hres. destruct (Hsound h res Hres) as (name & spec & Hin & Hvis & Ht).
    apply He in Ht as [-> Ht]. exists name, spec. by rewrite <- Hv.
  - intros name spec Hin Hl. destruct (Hcomplete name spec Hin) as (h & res & Ht & Hsome); [by apply Hv|].
    by apply He in Ht as [-> _].
Qed.

(** The zero spec, which a missing delegate is evaluated as, is disabled. *)
Lemma eval_zero_spec `{GoRuntime} (s : store) ov now user :
  ∃ r, eval s ov now user eval_fuel zero_spec 0 = Ret r.
Proof. by eexists. Qed.

(** ** Properties *)

Section claims.
Context `{Outside} `{GoRuntime}.

(** C33. [cleanExposures] keeps, in order, exactly the first exposure of every
    gate, value and rule: the result is a sublist with distinct keys and the same
    keys, and cleaning twice changes nothing. *)
Theorem cleanExposures_dedup exposures :
  cleanExposures exposures = first_of_key exposures [] ∧
  sublist (cleanExposures exposures) exposures ∧
  NoDup (map exposure_key (cleanExposures exposures)) ∧
  (∀ k, k ∈ map exposure_key (cleanExposures exposures) ↔ k ∈ map exposure_key exposures) ∧
  cleanExposures (cleanExposures exposures) = cleanExposures exposures.
Proof.
  rewrite !cleanExposures_first. split; [done|]. split; [apply first_of_key_sublist|].
  split; [apply first_of_key_NoDup|]. split.
  - intros k. rewrite first_of_key_keys. split; [by intros [??]|]. intros Hk. split; [done|apply not_elem_of_nil].
  - apply first_of_key_distinct; [apply first_of_key_NoDup|]. intros ? _. apply not_elem_of_nil.
Qed.

(** C16. The response holds exactly the specs of the target app.  Asking for
    it returns a gate for every gate of the store that has the client key's app
    id, segments and holdouts left out, a config for every config and a layer for
    every layer with that app id, and nothing else, under hashed names.  Each entry
    is what the evaluation of its spec says: the value, the rule and the exposures
    without repetitions; for an experiment also the user's membership, its activity
    and, if it shares a layer's parameters, its value over the layer's defaults;
    for a layer also the undelegated exposures and the experiment it is delegated
    to.  Or it panics, as an evaluation of one of these specs or of a delegate
    does, or because the default of a shared layer is null.  It never runs out
    of fuel and changes no component. *)
Theorem init_response_complete user clientKey w :
  let s := w_store w in
  let appId := default "" (getAppIDForSDKKey s clientKey) in
  let evalFunc := fun spec => eval s (w_overrides w) (out_now (w_tick w)) user eval_fuel spec 0 in
  match evaluator_getClientInitializeResponse user clientKey w with
  | (Ret resp, w') =>
      exactly (listed_gate appId) (gate_entry evalFunc) (st_featureGates s) (ir_FeatureGates resp) ∧
      exactly (targeted appId) (config_entry s evalFunc) (st_dynamicConfigs s) (ir_DynamicConfigs resp) ∧
      exactly (targeted appId) (layer_entry s evalFunc) (st_layerConfigs s) (ir_LayerConfigs resp) ∧
      resp = mkInitResponse (ir_FeatureGates resp) (ir_DynamicConfigs resp) (ir_LayerConfigs resp)
        ∅ true "statsig-go-sdk" (UserID user) (CustomIDs user) 0 ∧ core w' = core w
  | (Panic e, w') =>
      ((∃ name spec, st_featureGates s !! name = Some spec ∧ listed_gate appId spec ∧
          evalFunc spec = Panic e) ∨
       (∃ name spec, st_dynamicConfigs s !! name = Some spec ∧ targeted appId spec ∧
          config_panics s evalFunc spec e) ∨
       (∃ name spec, st_layerConfigs s !! name = Some spec ∧ targeted appId spec ∧
          layer_panics s evalFunc spec e)) ∧
      core w' = core w
  | (OutOfFuel, _) => False
  end.
Proof.
  intros s appId evalFunc. pose proof (fueled_init_response user clientKey w) as Hfuel.
  pose proof (init_response_run user evalFunc clientKey (upd_tick S w)) as Hrun.
  change (evaluator_getClientInitializeResponse user clientKey w) with
    (getClientInitializeResponse user evalFunc clientKey (upd_tick S w)) in Hfuel |- *.
  change (appIDForKey _ _) with appId in Hrun. change (w_store (upd_tick S w)) with s in Hrun.
  change (core (upd_tick S w)) with (core w) in Hrun. cbv zeta in Hrun.
  destruct (getClientInitializeResponse _ _ _ _) as [[resp|e|] w']; [| |done].
  - destruct Hrun as (Hg & Hc & Hl & Hrest). split; [|split; [|split; [|exact Hrest]]].
    + by eapply responses_exactly; [apply visible_gate_spec|apply gateToResponse_entry|].
    + by eapply responses_exactly; [apply targeted_spec|apply configToResponse_entry|].
    + by eapply responses_exactly; [apply targeted_spec|apply layerToResponse_entry|].
  - destruct Hrun as [Hp Hcore]. split; [|done].
    destruct Hp as [(n & sp & Hin & Hv & Ht)|[(n & sp & Hin & Hv & Ht)|(n & sp & Hin & Hv & Ht)]].
    + left. exists n, sp. split; [done|]. split; [by apply visible_gate_spec|].
      unfold gateToResponse in Ht. by destruct (evalFunc sp) as [r|e'|]; [|injection Ht as ->|].
    + right; left. exists n, sp. split; [done|]. split; [by apply targeted_spec|].
      by eapply configToResponse_panics.
    + right; right. exists n, sp. split; [done|]. split; [by apply targeted_spec|].
      by eapply layerToResponse_panics; [apply eval_zero_spec|].
Qed.

(** C34. An experiment that shares the parameters of a layer answers with the
    layer's default values overlaid by its own: every parameter of the
    experiment has the experiment's value and every other parameter the layer's.
    Without its layer in the store it answers with its own values alone; and if
    the layer's default is the JSON null it panics as soon as the experiment has
    a value. *)
Theorem shared_experiment_value s evalFunc name spec result :
  evalFunc spec = Ret result →
  strings_ToLower (spec_Entity spec) = "experiment" → spec_HasSharedParams spec = Some true →
  let own := cb_Value (ConfigValue result) in
  let response value := Ret (getHashBase64StringEncoding name,
    mkConfigInit (evalResultToBaseResponse name result).2 value (Id result) (is_device_based spec)
      (Some (default false (spec_IsActive spec))) (Some (default false (IsExperimentGroup result)))
      (Some true) (Some (spec_ExplicitParameters spec))) in
  match getExperimentLayer s (spec_Name spec) ≫= getLayerConfig s with
  | None => getLayerConfig s "" = None → configToResponse s evalFunc name spec = response own
  | Some layer =>
      match unmarshal_or_empty (spec_DefaultValue layer) with
      | Some defaults => ∃ merged, configToResponse s evalFunc name spec = response (Some merged) ∧
          ∀ key, merged !! key =
            match default ∅ own !! key with Some v => Some v | None => defaults !! key end
      | None => configToResponse s evalFunc name spec =
          if decide (default ∅ own = ∅) then response None else Panic nil_map_write
      end
  end.
Proof.
  intros Heval Hentity Hshared own response. unfold configToResponse.
  rewrite Heval. simpl. rewrite Hentity, Hshared. simpl. fold own. unfold inLayerValue. simpl.
  assert (Hmissing : getLayerConfig s "" = None →
    (value ← (match getLayerConfig s "" with
              | Some layer => mergeMaps (unmarshal_or_empty (spec_DefaultValue layer)) own
              | None => Ret own end); response value) = response own) by by intros ->.
  destruct (st_experimentToLayer s !! spec_Name spec) as [layerName|]; simpl in *; [|exact Hmissing].
  destruct (st_layerConfigs s !! layerName) as [layer|]; simpl; [|done].
  unfold mergeMaps. destruct (unmarshal_or_empty _) as [defaults|]; simpl.
  - exists (default ∅ own ∪ defaults). split; [done|]. intros key. rewrite lookup_union.
    by destruct (default ∅ own !! key), (defaults !! key).
  - by destruct (decide _).
Qed.
End claims.

(** ** Witness *)

Section witness.
#[local] Existing Instance example_runtime.

(** An experiment in a layer with the defaults size 1 and color blue. *)
Definition shared_spec : configSpec :=
  mkSpec "experiment" "dynamic_config" "salt" true
    [value_rule "test" {["size" := VFloat64 (f64_of_Z 20)]} [public]]
    (RawJson (VMap ∅)) "userID" ["size"] "experiment" (Some true) (Some true) [].
Definition shared_layer : configSpec :=
  config_spec "layer" {["size" := VFloat64 (f64_of_Z 1); "color" := VString "blue"]} [] [].
Definition shared_store : store :=
  set_specs ∅ (by_name [shared_spec]) (by_name [shared_layer]) {["experiment" := "layer"]} ∅ 1 empty_store.
Definition evaluated (spec : configSpec) : outcome evalResult :=
  eval shared_store no_overrides example_now alice eval_fuel spec 0.

Lemma shared_experiment_value_witness :
  ∃ result merged, evaluated shared_spec = Ret result ∧
    configToResponse shared_store evaluated "experiment" shared_spec =
      Ret (getHashBase64StringEncoding "experiment",
        mkConfigInit (evalResultToBaseResponse "experiment" result).2 (Some merged) "test" false
          (Some true) (Some true) (Some true) (Some ["size"])) ∧
    merged !! "size" = Some (VFloat64 (f64_of_Z 20)) ∧ merged !! "color" = Some (VString "blue").
Proof.
  destruct (shared_experiment_value shared_store evaluated "experiment" shared_spec
    (result_of (evaluated shared_spec)) ltac:(vm_compute; reflexivity) eq_refl eq_refl) as (merged & Hrun & Hmerged).
  exists (result_of (evaluated shared_spec)), merged. split; [vm_compute; reflexivity|].
  split; [|split].
  - rewrite Hrun. vm_compute. reflexivity.
  - rewrite Hmerged. vm_compute. reflexivity.
  - rewrite Hmerged. vm_compute. reflexivity.
Defined.
End witness.
