(* ===== verification/ClientFacts.v ===== *)
(** * Theorems about the client

    No method inside the error boundary panics; what a gate check returns, asks
    the server and logs; private attributes stay out of the event buffer. *)
From S2P Require Import Prelude GoFloat GoRuntime Hashing Types Conditions Evaluator Examples.
From S2P Require Import EvaluatorFacts World Diagnostics ErrorBoundary Transport Store.
From S2P Require Import IdLists.
From S2P Require Import Polling Logger InitResponse Client WorldExamples TransportFacts.
From S2P Require Import LoggerFacts ClientExamples.
From S2P Require Import InitResponseFacts.

Section total.
Context `{Outside} `{GoRuntime}.

Lemma fueled_evaluate {A} (f : store → overrides → Z → outcome A) :
  (∀ s ov now, f s ov now ≠ OutOfFuel) → fueled (evaluate f).
Proof.
  intros Hf. unfold evaluate.
  apply fueled_bind; [apply fueled_total, total_gets|]. intros s.
  apply fueled_bind; [apply fueled_total, total_gets|]. intros ov.
  apply fueled_bind; [apply fueled_total, total_now_nanos|]. intros now. by apply fueled_lift.
Qed.
Lemma fueled_checkGate user gate : fueled (evaluator_checkGate user gate).
Proof. apply fueled_evaluate. intros s ov now. apply (entry_defined s ov now user EGate). Qed.
Lemma fueled_getConfig user config : fueled (evaluator_getConfig user config).
Proof. apply fueled_evaluate. intros s ov now. apply (entry_defined s ov now user EConfig). Qed.
Lemma fueled_getLayer user layer : fueled (evaluator_getLayer user layer).
Proof. apply fueled_evaluate. intros s ov now. apply (entry_defined s ov now user ELayer). Qed.

Lemma total_verifyUser user : total (verifyUser user).
Proof. unfold verifyUser, global_Logger. walk_total. Qed.
Lemma total_fetchGate user gate t : total (fetchGate user gate t).
Proof. unfold fetchGate. walk_total. Qed.
Lemma total_fetchConfigFromServer c user config : total (fetchConfigFromServer c user config).
Proof. unfold fetchConfigFromServer, fetchConfig. walk_total. Qed.

(** Walk through a computation that does not exhaust its fuel. *)
Ltac walk_fueled :=
  repeat lazymatch goal with
  | |- ∀ _, _ => intros ?
  | |- fueled (evaluator_checkGate _ _) => apply fueled_checkGate
  | |- fueled (evaluator_getConfig _ _) => apply fueled_getConfig
  | |- fueled (evaluator_getLayer _ _) => apply fueled_getLayer
  | |- fueled (verifyUser _) => apply fueled_total, total_verifyUser
  | |- fueled (fetchGate _ _ _) => apply fueled_total, total_fetchGate
  | |- fueled (fetchConfigFromServer _ _ _) => apply fueled_total, total_fetchConfigFromServer
  | |- fueled (mret _) => apply fueled_total, total_ret
  | |- fueled (when _ _) => apply fueled_total, total_when, total_logExposureWithEvaluationDetails
  | |- fueled (_ ≫= _) => apply fueled_bind
  | |- fueled (logExposureWithEvaluationDetails _ _) =>
      apply fueled_total, total_logExposureWithEvaluationDetails
  | |- fueled (let _ := _ in _) => cbv zeta
  | |- fueled (if _ then _ else _) => case_match
  end.

Lemma total_checkGateImpl c user gate b : total (checkGateImpl c user gate b).
Proof.
  unfold checkGateImpl, captureCheckGate. apply total_capture_api; [intros []; reflexivity|reflexivity|]. walk_fueled.
Qed.
Lemma total_getConfigImpl c user config b : total (getConfigImpl c user config b).
Proof.
  unfold getConfigImpl, captureGetConfig. apply total_capture_api; [intros []; reflexivity|reflexivity|]. walk_fueled.
Qed.
Lemma total_getLayerImpl c user layer b : total (getLayerImpl c user layer b).
Proof. unfold getLayerImpl, captureGetLayer. apply total_capture_api; [intros []; reflexivity|reflexivity|]. walk_fueled. Qed.

Lemma total_for_verified c user task : (∀ u, fueled (task u)) → total (for_verified c user task).
Proof.
  intros Htask. apply total_capture; [|apply total_ret].
  apply fueled_bind; [apply fueled_total, total_verifyUser|]. intros []; [apply Htask|].
  apply fueled_total, total_ret.
Qed.

Lemma fueled_gate_task c user gate b :
  fueled (ok ← verifyUser user;
    if negb ok then mret false
    else
      let user := normalizeUser user (c_options c) in
      res ← evaluator_checkGate user gate;
      if FetchFromServer res then
        serverRes ← fetchGate user gate (c_transport c);
        mret (Pass (server_gate_result serverRes))
      else
        when b (logGateExposure user gate (Pass res) (Id res) (SecondaryExposures res)
                  (EvaluationDetails res) automatic) ≫= fun _ =>
        mret (Pass res)).
Proof. walk_fueled. Qed.

Lemma total_manual_gate c user gate : total (ManuallyLogGateExposure c user gate).
Proof. apply total_for_verified. intros u. unfold logGateExposure. walk_fueled. Qed.
Lemma total_manual_config c user config : total (ManuallyLogConfigExposure c user config).
Proof. apply total_for_verified. intros u. unfold logConfigExposure. walk_fueled. Qed.
Lemma total_manual_layer c user layer parameter :
  total (ManuallyLogLayerParameterExposure c user layer parameter).
Proof. apply total_for_verified. intros u. unfold logLayerExposure. walk_fueled. Qed.

Lemma fueled_sampling rates ms keys acc : fueled (sampling_loop rates ms keys acc).
Proof.
  revert keys acc. induction ms as [|m ms IH]; intros keys acc; simpl; [apply fueled_total, total_ret|].
  apply fueled_bind; [apply fueled_lift; by destruct (m_Key m)|]. intros key.
  apply fueled_bind; [|intros; apply IH]. apply fueled_total.
  walk_total. all: apply total_fmap, total_sample.
Qed.
Lemma fueled_logDiagnosticsEvent d : fueled (logDiagnosticsEvent d).
Proof.
  unfold logDiagnosticsEvent. apply fueled_bind; [apply fueled_total, total_gets|]. intros l.
  destruct (diagnostics_disabled _ _); [apply fueled_total, total_ret|].
  apply fueled_bind.
  { unfold serializeWithSampling. apply fueled_bind; [apply fueled_total, total_gets|].
    intros. apply fueled_sampling. }
  intros ms. apply fueled_total. destruct ms; [apply total_ret|].
  apply total_bind; [apply total_now_millis|]. intros time.
  apply total_bind; [apply total_modify|]. intros _. apply total_logInternal.
Qed.
Lemma fueled_shutdown : fueled (flush true ≫= fun _ => evaluator_shutdown).
Proof.
  apply fueled_bind; [|intros _].
  - unfold flush, logDiagnosticsEvents. apply fueled_bind; [|intros; apply fueled_total, total_flushInternal].
    do 2 (apply fueled_bind; [apply fueled_logDiagnosticsEvent|intros _]). apply fueled_logDiagnosticsEvent.
  - unfold evaluator_shutdown. apply fueled_bind; [apply fueled_total, total_gets|]. intros s.
    apply fueled_bind; [|intros; apply fueled_total, total_modify].
    destruct (st_dataAdapter s); simpl; [|apply fueled_total, total_ret].
    intros w. unfold adapter_Shutdown, mbind, gom_bind. simpl. by destruct (out_adapter_shutdown _).
Qed.
End total.

(** ** The requests of a call *)

Section requests.
Context `{Outside}.

(** The requests of a trace, among its other effects. *)
Definition requests (w : World) : list httpRequest :=
  omap (fun e => match e with EHttp r => Some r | _ => None end) (w_trace w).

Lemma requests_emit e :
  match e with EHttp _ => False | _ => True end → keeps requests (emit e).
Proof.
  intros He w. unfold requests, emit. simpl. rewrite omap_app. by destruct e; simpl; rewrite ?app_nil_r.
Qed.
#[local] Hint Extern 1 (keeps requests (emit _)) => (apply requests_emit; exact I) : preserve.

Lemma requests_Log o msg err : keeps requests (Log o msg err).
Proof. unfold Log. walk_keeps. Qed.
Lemma requests_LogStep o p msg : keeps requests (LogStep o p msg).
Proof. unfold LogStep. walk_keeps; apply requests_Log. Qed.
Lemma requests_LogError o err : keeps requests (LogError o err).
Proof. destruct err; simpl; [apply requests_Log..|apply requests_emit, I]. Qed.
Lemma requests_mark m : keeps requests (mark m).
Proof. unfold mark, logProcess, base_logProcess, global_Logger. walk_keeps; apply requests_LogStep. Qed.
Lemma requests_logInternal e : keeps requests (logInternal e).
Proof. unfold logInternal, flushInternal, sendEvents. walk_keeps. Qed.
Lemma requests_logExposure evt d : keeps requests (logExposureWithEvaluationDetails evt d).
Proof.
  unfold logExposureWithEvaluationDetails, logger_logExposure, event_time. walk_keeps; apply requests_logInternal.
Qed.
Lemma requests_verifyUser user : keeps requests (verifyUser user).
Proof. unfold verifyUser, global_Logger. walk_keeps; apply requests_LogError. Qed.
End requests.

(** ** What a call does to the world *)

Section runs.
Context `{Outside} `{GoRuntime}.

Definition behind_logger (w : World) :=
  (w_diagnostics w, w_errorBoundary w, w_store w, w_overrides w, w_outputLogger w).
Lemma behind_logger_logInternal e : keeps behind_logger (logInternal e).
Proof. unfold logInternal, flushInternal, sendEvents. walk_keeps. Qed.

(** A logged exposure: the user without private attributes, at some time. *)
Definition exposure_logged (evt : exposureEvent) (d : option evaluationDetails) (time : Z) : loggedEvent :=
  LoggedExposure (set_exposure_user (set_PrivateAttributes ∅ (ee_User evt)) time
    (match d with
     | Some d => set_exposure_metadata (details_metadata d (ee_Metadata evt)) evt
     | None => evt
     end)).

Lemma logExposure_run evt d w :
  buffered w < max_events w →
  ∃ time w', logExposureWithEvaluationDetails evt d w = (Ret (), w') ∧
    accounted w' = accounted w ++ [exposure_logged evt d time] ∧
    buffered w' < max_events w' ∧ behind_logger w' = behind_logger w.
Proof.
  intros Hlt. unfold logExposureWithEvaluationDetails, logger_logExposure.
  set (evt' := match d with Some _ => _ | None => evt end).
  assert (Hu : ee_User evt' = ee_User evt) by (subst evt'; by destruct d).
  assert (Htime : ∃ time w1, event_time (ee_Time evt') w = (Ret time, w1) ∧ core w1 = core w).
  { unfold event_time. destruct (_ =? 0); do 2 eexists; (split; [reflexivity|done]). }
  destruct Htime as (time & w1 & Hrun & Hcore). rewrite (run_bind _ _ w time) by (by rewrite Hrun).
  rewrite Hrun. simpl ((_, _).2). injection Hcore as Hd Heb Hst Hlg Hov Hol Hgo.
  set (e := LoggedExposure _).
  destruct (logInternal_run e w1) as (w' & Hrun' & _ & Hlt' & Hacc & _).
  { unfold buffered, max_events in *. by rewrite Hlg. }
  exists time, w'. split; [done|]. split; [|split; [done|]].
  - rewrite Hacc. unfold accounted at 1, batches. rewrite Hlg, Hgo. subst e. by rewrite Hu.
  - pose proof (behind_logger_logInternal e w1) as Hb. rewrite Hrun' in Hb.
    etransitivity; [exact Hb|]. unfold behind_logger. congruence.
Qed.

(** The error boundary around an API call. *)
Lemma capture_api_run {A} key (zero : A) task w :
  (∀ b, marker_ok (api ▷ key ▷ end_ ▷ success b) = true) →
  marker_ok (api ▷ key ▷ start) = true → fueled task →
  ∃ w1 w', behind_diagnostics w1 = behind_diagnostics w ∧ requests w1 = requests w ∧
    match task w1 with
    | (Ret r, w2) => capture_api key zero task w = (Ret r, w') ∧ behind_capture w' = behind_capture w2 ∧
        requests w' = requests w2
    | (_, w2) => capture_api key zero task w = (Ret zero, w') ∧ behind_capture w' = behind_capture w2
    end.
Proof.
  intros Hend Hstart Hfuel. exists (mark (api ▷ key ▷ start) w).2.
  assert (Hw1 := behind_mark (api ▷ key ▷ start) w).
  assert (Hq1 := requests_mark (api ▷ key ▷ start) w).
  assert (Hmark : ∀ m w0, marker_ok m = true →
    ∃ w0', mark m w0 = (Ret (), w0') ∧ behind_capture w0' = behind_capture w0 ∧
      requests w0' = requests w0).
  { intros m w0 Hm. destruct (total_run (mark m) w0 (total_mark m Hm)) as [[] Hrun].
    eexists. split; [exact Hrun|]. split; [|apply requests_mark]. pose proof (behind_mark m w0) as Hb.
    unfold behind_diagnostics, behind_capture in *. congruence. }
  unfold capture_api, capture, recovering.
  rewrite run_unit by by apply total_mark. set (w1 := (mark (api ▷ key ▷ start) w).2) in *.
  specialize (Hfuel w1). destruct (task w1) as [[r|e|] w2] eqn:Htask; [| |done].
  - rewrite (run_bind _ _ w1 r) by (by rewrite Htask). rewrite Htask. simpl ((_, _).2).
    destruct (Hmark (api ▷ key ▷ end_ ▷ success true) w2) as (w' & Hrun & Hb); [done|].
    rewrite (run_bind _ _ w2 ()) by (by rewrite Hrun). rewrite Hrun. simpl ((_, _).2).
    exists w'. split; [done|]. by split.
  - rewrite (run_bind_panic _ _ w1 e) by (by rewrite Htask). rewrite Htask. simpl ((_, _).2).
    destruct (total_run (ebRecover (mark (api ▷ key ▷ end_ ▷ success false)) e) w2) as [[] Hrun].
    { apply total_ebRecover. by apply total_mark. }
    rewrite (run_bind _ _ w2 ()) by (by rewrite Hrun).
    eexists. split; [done|]. split; [done|]. split; [reflexivity|].
    apply behind_ebRecover. intros w0. destruct (Hmark (api ▷ key ▷ end_ ▷ success false) w0) as (? & -> & Hb & _); done.
Qed.

Lemma evaluate_run {A} (f : store → overrides → Z → outcome A) w :
  evaluate f w = (f (w_store w) (w_overrides w) (out_now (w_tick w)), upd_tick S w).
Proof. reflexivity. Qed.

(** A user [verifyUser] accepts. *)
Definition verified (user : User) : bool :=
  negb (String.eqb (UserID user) "" && bool_decide (CustomIDs user = ∅)).
Lemma verifyUser_run user w :
  ∃ w', verifyUser user w = (Ret (verified user), w') ∧ core w' = core w.
Proof.
  unfold verifyUser, verified. destruct (_ && _); [|by exists w].
  assert (Hk : keeps core (o ← global_Logger; LogError o (PanicError EmptyUserError) ≫= fun _ => mret false)).
  { unfold global_Logger. walk_keeps. }
  assert (Ht : total (global_Logger ≫= fun o => LogError o (PanicError EmptyUserError))).
  { unfold global_Logger. walk_total. }
  specialize (Hk w). rewrite (run_bind _ _ w (w_outputLogger w)) in * by done.
  rewrite (run_unit (LogError _ _)) in * by apply total_LogError. eexists. split; [reflexivity|done].
Qed.

Lemma accounted_same w w' :
  w_logger w' = w_logger w → w_goroutines w' = w_goroutines w →
  accounted w' = accounted w ∧ buffered w' = buffered w ∧ max_events w' = max_events w.
Proof. unfold accounted, batches, buffered, max_events. by intros -> ->. Qed.

(** The request of a gate check to the server, made at some tick of the
    outside, the answer to it, and the value an answer gives: that of a decoded
    success, otherwise false. *)
Definition gate_request (t : transport) (user : User) (gate : string) (i : nat) : httpRequest :=
  attempt_request t "/check_gate" (PCheckGate gate user (tr_metadata t)) i.
Definition gate_answer (t : transport) (user : User) (gate : string) (i : nat) : httpResult :=
  out_http (S i) (gate_request t user gate i).
Definition served_value (r : httpResult) : bool :=
  match r with
  | HttpDone response =>
      if bool_decide (200 ≤ StatusCode response < 300) then
        match Body response with
        | inl text =>
            match out_unmarshal_gate text with
            | (g, None) => gr_Value g
            | (_, Some _) => false
            end
        | inr _ => false
        end
      else false
  | HttpFailed _ _ => false
  end.

(** The server's part in a gate check: in local mode, or when the input has no
    JSON text or the URL is bad, nothing is asked and the value is false;
    otherwise one request is made and its answer is the value. *)
Definition server_answer (t : transport) (user : User) (gate : string) (w w' : World) (v : bool) : Prop :=
  if tr_LocalMode t || bool_decide (is_Some (out_marshal (PCheckGate gate user (tr_metadata t))))
     || bool_decide (is_Some (out_new_request "POST" (tr_api t +:+ "/check_gate")%string))
  then v = false ∧ requests w' = requests w
  else ∃ i, requests w' = requests w ++ [gate_request t user gate i] ∧
            v = served_value (gate_answer t user gate i).

Lemma server_answer_requests t user gate w1 w1' w w' v :
  requests w1 = requests w → requests w1' = requests w' →
  server_answer t user gate w1 w1' v → server_answer t user gate w w' v.
Proof. unfold server_answer. by intros -> ->. Qed.

Lemma fetchGate_run user gate t w :
  ∃ r w', fetchGate user gate t w = (Ret r, w') ∧ core w' = core w ∧
    server_answer t user gate w w' (gr_Value r).
Proof.
  unfold fetchGate, server_answer. set (input := PCheckGate _ _ _).
  set (post := postRequest _ _ _ _ _).
  assert (Hcore : core (post w).2 = core w) by apply core_postRequestInternal.
  assert (Hfail : ∀ err, post w = (Ret (None, Some err, mkGateResponse "" false ""), (post w).2) →
    requests (post w).2 = requests w →
    ∃ r w', ('(_, err, res) ← post;
        mret (match err with Some _ => mkGateResponse gate false "" | None => res end)) w = (Ret r, w') ∧
      core w' = core w ∧ gr_Value r = false ∧ requests w' = requests w).
  { intros err Hpost Hreq. rewrite (run_bind _ _ w _ ltac:(by rewrite Hpost)). do 2 eexists.
    split; [reflexivity|]. done. }
  destruct (tr_LocalMode t) eqn:Hlocal; simpl.
  { subst post. unfold postRequest, postRequestInternal. rewrite Hlocal. by do 2 eexists. }
  destruct (out_marshal input) as [err|] eqn:Hmarshal; simpl.
  { apply (Hfail err); subst post; unfold postRequest, postRequestInternal; by rewrite Hlocal, Hmarshal. }
  destruct (out_new_request _ _) as [err|] eqn:Hnew; simpl.
  { apply (Hfail err); subst post; unfold postRequest, postRequestInternal, retry, doRequest;
      rewrite Hlocal, Hmarshal, Hnew; done. }
  destruct (postRequest_run out_unmarshal_gate (mkGateResponse "" false "") t "/check_gate" input w
    Hlocal Hmarshal Hnew) as (w' & Hrun & Htrace). fold post in Hrun. rewrite Hrun in Hcore.
  set (answer := attempt_answer t "/check_gate" input (w_tick w)) in *.
  destruct (post_result out_unmarshal_gate (mkGateResponse "" false "") answer) as [[res err] out] eqn:Hres.
  rewrite (run_bind _ _ w _ ltac:(by rewrite Hrun)), Hrun. do 2 eexists. split; [reflexivity|].
  split; [done|]. exists (w_tick w). split.
  { simpl. unfold requests. rewrite Htrace, omap_app. reflexivity. }
  change (gate_answer t user gate (w_tick w)) with answer.
  destruct answer as [response|response err']; simpl in *; [|by injection Hres as <- <- <-].
  destruct (bool_decide _); [|by injection Hres as <- <- <-].
  destruct (Body response) as [text|err']; [|by injection Hres as <- <- <-].
  destruct (out_unmarshal_gate text) as [g [err'|]]; by injection Hres as <- <- <-.
Qed.

(** The exposure of a gate check. *)
Definition gate_event (user : User) (gate : string) (r : evalResult) (context : option logContext) :
    exposureEvent :=
  mkExposureEvent gateExposureEventName user ""
    (manual_metadata context (<["gate" := gate]> (<["gateValue" := strconv_FormatBool (Pass r)]>
      (<["ruleID" := Id r]> ∅)))) (SecondaryExposures r) 0.

(** The outcome of a gate check, before the error boundary. *)
Definition gate_task (c : Client) (user : User) (gate : string) (b : bool) : M bool :=
  ok ← verifyUser user;
  if negb ok then mret false
  else
    let user := normalizeUser user (c_options c) in
    res ← evaluator_checkGate user gate;
    if FetchFromServer res then
      serverRes ← fetchGate user gate (c_transport c);
      mret (Pass (server_gate_result serverRes))
    else
      when b (logGateExposure user gate (Pass res) (Id res) (SecondaryExposures res)
                (EvaluationDetails res) automatic) ≫= fun _ =>
      mret (Pass res).

Definition gate_outcome (c : Client) (user : User) (gate : string) (b : bool) (w w' : World) (v : bool) :
    Prop :=
  if verified user then
    let u := normalizeUser user (c_options c) in
    ∃ now, match checkGate (w_store w) (w_overrides w) now u gate with
    | Ret r =>
        if FetchFromServer r then
          accounted w' = accounted w ∧ server_answer (c_transport c) u gate w w' v
        else v = Pass r ∧ requests w' = requests w ∧ ∃ time, accounted w' = accounted w ++
               (if b then [exposure_logged (gate_event u gate r automatic) (EvaluationDetails r) time] else [])
    | _ => v = false ∧ accounted w' = accounted w
    end
  else v = false ∧ accounted w' = accounted w ∧ requests w' = requests w.

Lemma gate_outcome_same c user gate b w w1 w' w1' v :
  w_store w1 = w_store w → w_overrides w1 = w_overrides w →
  accounted w1 = accounted w → requests w1 = requests w →
  accounted w1' = accounted w' → requests w1' = requests w' →
  gate_outcome c user gate b w1 w1' v → gate_outcome c user gate b w w' v.
Proof. unfold gate_outcome, server_answer. by intros -> -> -> -> -> ->. Qed.

(** The task returns its value, or the evaluation panics; then reports may follow. *)
Lemma gate_task_run c user gate b w :
  buffered w < max_events w →
  ∃ v w', ((gate_task c user gate b w = (Ret v, w') ∧ gate_outcome c user gate b w w' v) ∨
           (∃ e, gate_task c user gate b w = (Panic e, w')) ∧ v = false ∧
           ∀ w'', accounted w'' = accounted w' → gate_outcome c user gate b w w'' false) ∧
    w_store w' = w_store w ∧ w_overrides w' = w_overrides w ∧ buffered w' < max_events w'.
Proof.
  intros Hlt. unfold gate_task, gate_outcome.
  destruct (verifyUser_run user w) as (w1 & Hrun1 & Hcore1).
  rewrite (run_bind _ _ w (verified user)) by (by rewrite Hrun1). rewrite Hrun1. simpl ((_, _).2).
  injection Hcore1 as _ _ Hst1 Hlg1 Hov1 _ Hgo1.
  destruct (accounted_same w w1 Hlg1 Hgo1) as (Hacc1 & Hbuf1 & Hmax1).
  assert (Hreq1 := requests_verifyUser user w). rewrite Hrun1 in Hreq1. simpl in Hreq1.
  destruct (verified user); simpl.
  2:{ exists false, w1. rewrite Hbuf1, Hmax1. auto 6. }
  set (u := normalizeUser user (c_options c)). unfold evaluator_checkGate.
  set (now := out_now (w_tick w1)).
  assert (Hev : evaluate (fun s ov now => checkGate s ov now u gate) w1 =
    (checkGate (w_store w) (w_overrides w) now u gate, upd_tick S w1)).
  { rewrite evaluate_run. by rewrite Hst1, Hov1. }
  pose proof (entry_defined (w_store w) (w_overrides w) now u EGate gate) as Hdef.
  change (run_entry _ _ _ _ EGate eval_fuel gate) with (checkGate (w_store w) (w_overrides w) now u gate) in Hdef.
  set (w2 := upd_tick S w1) in *.
  assert (Hlt2 : buffered w2 < max_events w2) by (unfold buffered, max_events in *; simpl; lia).
  destruct (checkGate (w_store w) (w_overrides w) now u gate) as [r|e|] eqn:Hcg; [| |done].
  2:{ rewrite (run_bind_panic _ _ w1 e) by (by rewrite Hev). rewrite Hev. simpl ((_, _).2).
      exists false, w2. split; [right|done]. split; [by eexists|]. split; [done|].
      intros w'' ->. exists now. by rewrite Hcg. }
  rewrite (run_bind _ _ w1 r) by (by rewrite Hev). rewrite Hev. simpl ((_, _).2).
  destruct (FetchFromServer r) eqn:Hfetch; [|destruct b; simpl (when _ _)].
  - destruct (fetchGate_run u gate (c_transport c) w2) as (g & w3 & Hrun3 & Hcore3 & Hanswer).
    rewrite (run_bind _ _ w2 g) by (by rewrite Hrun3). rewrite Hrun3. simpl ((_, _).2).
    injection Hcore3 as _ _ Hst3 Hlg3 Hov3 _ Hgo3.
    destruct (accounted_same w2 w3 Hlg3 Hgo3) as (Hacc3 & Hbuf3 & Hmax3).
    exists (gr_Value g), w3. rewrite Hst3, Hov3, Hbuf3, Hmax3. split; [left|done].
    split; [done|]. exists now. rewrite Hcg, Hfetch. split; [by rewrite Hacc3|].
    by apply (server_answer_requests _ _ _ w2 w3).
  - destruct (logExposure_run (gate_event u gate r automatic) (EvaluationDetails r) w2 Hlt2)
      as (time & w3 & Hrun3 & Hacc3 & Hlt3 & Hbl3).
    assert (Hreq3 := requests_logExposure (gate_event u gate r automatic) (EvaluationDetails r) w2).
    change (logGateExposure u gate (Pass r) (Id r) (SecondaryExposures r) (EvaluationDetails r) automatic)
      with (logExposureWithEvaluationDetails (gate_event u gate r automatic) (EvaluationDetails r)).
    rewrite (run_bind _ _ w2 ()) by (by rewrite Hrun3). rewrite Hrun3 in *. simpl ((_, _).2) in *.
    injection Hbl3 as _ _ Hst3 Hov3 _.
    exists (Pass r), w3. rewrite Hst3, Hov3. split; [left|done].
    split; [done|]. exists now. rewrite Hcg, Hfetch. split; [done|]. split; [by rewrite Hreq3|].
    exists time. by rewrite Hacc3, <- Hacc1.
  - exists (Pass r), w2. split; [left|done]. split; [done|].
    exists now. rewrite Hcg, Hfetch. split; [done|]. split; [done|].
    exists 0. rewrite app_nil_r. by rewrite <- Hacc1.
Qed.

Lemma checkGateImpl_run c user gate b w :
  buffered w < max_events w →
  ∃ v w', checkGateImpl c user gate b w = (Ret v, w') ∧
    w_store w' = w_store w ∧ w_overrides w' = w_overrides w ∧ buffered w' < max_events w' ∧
    gate_outcome c user gate b w w' v.
Proof.
  intros Hlt.
  destruct (capture_api_run checkGate_key false (gate_task c user gate b) w)
    as (w1 & w' & Hw1 & Hreq1 & Hrun); [by intros []|done|apply fueled_gate_task|].
  injection Hw1 as _ Hst1 Hlg1 Hov1 _ Hgo1.
  destruct (accounted_same w w1 Hlg1 Hgo1) as (Hacc1 & Hbuf1 & Hmax1).
  destruct (gate_task_run c user gate b w1) as (v & w2 & Htask & Hst2 & Hov2 & Hlt2).
  { by rewrite Hbuf1, Hmax1. }
  assert (Hall : checkGateImpl c user gate b w = (Ret v, w') ∧ behind_capture w' = behind_capture w2 ∧
    (accounted w' = accounted w2 → gate_outcome c user gate b w1 w' v)).
  { destruct Htask as [[Htask Hout]|([e Htask] & -> & Hout)]; rewrite Htask in Hrun.
    - destruct Hrun as (Hrun & Hb & Hreq). split; [done|]. split; [done|]. intros Hacc.
      by apply (gate_outcome_same _ _ _ _ w1 w1 w' w2).
    - destruct Hrun as (Hrun & Hb). auto. }
  destruct Hall as (Hcall & Hb & Hout). injection Hb as Hst3 Hlg3 Hov3 _ Hgo3.
  destruct (accounted_same w2 w' Hlg3 Hgo3) as (Hacc3 & Hbuf3 & Hmax3).
  exists v, w'. split; [done|]. split; [congruence|]. split; [congruence|].
  split; [by rewrite Hbuf3, Hmax3|].
  apply (gate_outcome_same _ _ _ _ w w1 w' w'); auto.
Qed.

(** The events of [LogImmediate]: the environment is added, nothing else changes. *)
Definition immediate_event (c : Client) (event : Event) : Event :=
  set_event_user (normalizeUser (ev_User event) (c_options c)) (ev_Time event) event.
End runs.

(** ** Properties *)

Section claims.
Context `{Outside} `{GoRuntime}.

(** C1. What a gate check returns and logs.  From any world whose buffer is below
    its bound, as it is in every reachable state, the call returns.
    An unverified user gets false; otherwise the evaluation of the normalized
    user decides.  A panic gives false.  A result that asks for the server is answered
    by it: one request, with the user and the gate, and its decoded answer is returned,
    false when that is no success or does not decode; nothing is asked in local mode and
    nothing is logged.  Any other result is returned without a request and logged as
    exactly one gate exposure (none with logging disabled), without private attributes.
    The specs and overrides are not touched. *)
Theorem check_gate_outcome c user gate b w :
  buffered w < max_events w →
  ∃ v w', checkGateImpl c user gate b w = (Ret v, w') ∧
    w_store w' = w_store w ∧ w_overrides w' = w_overrides w ∧ buffered w' < max_events w' ∧
    gate_outcome c user gate b w w' v.
Proof. apply checkGateImpl_run. Qed.

(** C4. The methods of a client that run inside the error boundary return from
    every world, whatever the specs, the user and the network: no panic of an
    evaluation, of the logger or of the adapter's shutdown gets out. *)
Theorem api_never_panics c :
  (∀ user gate, total (CheckGate c user gate)) ∧
  (∀ user gate, total (CheckGateWithExposureLoggingDisabled c user gate)) ∧
  (∀ user config, total (GetConfig c user config)) ∧
  (∀ user config, total (GetConfigWithExposureLoggingDisabled c user config)) ∧
  (∀ user experiment, total (GetExperiment c user experiment)) ∧
  (∀ user experiment, total (GetExperimentWithExposureLoggingDisabled c user experiment)) ∧
  (∀ user layer, total (GetLayer c user layer)) ∧
  (∀ user layer, total (GetLayerWithExposureLoggingDisabled c user layer)) ∧
  (∀ user gate, total (ManuallyLogGateExposure c user gate)) ∧
  (∀ user config, total (ManuallyLogConfigExposure c user config)) ∧
  (∀ user experiment, total (ManuallyLogExperimentExposure c user experiment)) ∧
  (∀ user layer parameter, total (ManuallyLogLayerParameterExposure c user layer parameter)) ∧
  (∀ event, total (LogEvent c event)) ∧
  (∀ user clientKey, total (GetClientInitializeResponse c user clientKey)) ∧
  total Shutdown.
Proof.
  assert (Hexp : ∀ get user e, (∀ u n, total (get u n)) → total (experiment_of get user e)).
  { intros get user e Hget. unfold experiment_of. apply total_bind; [apply total_verifyUser|].
    intros []; [apply Hget|apply total_ret]. }
  do 2 (split; [intros; apply total_checkGateImpl|]).
  do 2 (split; [intros; apply total_getConfigImpl|]).
  do 2 (split; [intros; apply Hexp; intros; apply total_getConfigImpl|]).
  do 2 (split; [intros; apply total_getLayerImpl|]).
  split; [intros; apply total_manual_gate|]. do 2 (split; [intros; apply total_manual_config|]).
  split; [intros; apply total_manual_layer|]. split; [|split].
  - intros event. apply total_capture; [|apply total_ret]. apply fueled_total.
    cbv zeta. destruct (String.eqb _ _); [apply total_ret|apply total_logCustom].
  - intros user clientKey. apply total_capture; [|apply total_ret].
    apply fueled_bind; [apply fueled_total, total_verifyUser|].
    intros []; [apply fueled_init_response|apply fueled_total, total_ret].
  - apply total_capture; [|apply total_ret]. apply fueled_shutdown.
Qed.

(** C35. An override is what the next check of any verified user returns,
    whatever the specs say, and its exposure has the rule ID override. *)
Theorem override_then_check c gate v user b w :
  buffered w < max_events w → verified user = true →
  ∃ w1 w2, client_OverrideGate gate v w = (Ret (), w1) ∧ w_store w1 = w_store w ∧
    checkGateImpl c user gate b w1 = (Ret v, w2) ∧ w_overrides w2 = w_overrides w1 ∧
    ∃ es, accounted w2 = accounted w ++ es ∧ length es = (if b then 1 else 0)%nat ∧
      Forall (fun e => match e with
                       | LoggedExposure evt => ee_Metadata evt !! "ruleID" = Some "override" ∧
                           ee_Metadata evt !! "gateValue" = Some (strconv_FormatBool v)
                       | _ => False
                       end) es.
Proof.
  intros Hlt Hver. set (w1 := upd_overrides (OverrideGate gate v) w).
  exists w1. destruct (checkGateImpl_run c user gate b w1) as (v' & w2 & Hrun & _ & Hov & _ & Hout); [done|].
  unfold gate_outcome in Hout. rewrite Hver in Hout. destruct Hout as (now & Hout).
  assert (Hcg : ∃ d, checkGate (w_store w1) (w_overrides w1) now (normalizeUser user (c_options c)) gate =
    Ret (mkResult v zero_DynamicConfig false "override" [] [] "" ∅ (Some d) None)).
  { eexists. unfold checkGate, evalGate, getGateOverride. simpl. by rewrite lookup_insert_eq. }
  destruct Hcg as [d Hcg]. rewrite Hcg in Hout. simpl in Hout. destruct Hout as (-> & _ & time & Hacc).
  exists w2. split; [done|]. split; [done|]. split; [done|]. split; [done|].
  eexists. split; [exact Hacc|]. destruct b; (split; [done|]); repeat constructor.
Qed.

(** C36. [LogImmediate] sends its events at once, in one request, also in local
    mode, and with the users' private attributes, which no other way of
    logging sends. *)
Theorem log_immediate_sends_everything c events w :
  (Z.of_nat (length events) ≤ 500) →
  let input := PLogEvent (map (fun e => LoggedCustom (immediate_event c e)) events) (tr_metadata (c_transport c)) in
  let target := (tr_api (c_transport c) +:+ "/log_event")%string in
  out_marshal input = None → out_new_request "POST" target = None →
  ∃ r w' time, LogImmediate c events w = (Ret r, w') ∧
    w_trace w' = w_trace w ++
      [EHttp (mkRequest "POST" target (request_headers (c_transport c) time) (Some input))] ∧
    Forall2 (fun e e' => PrivateAttributes (ev_User e') = PrivateAttributes (ev_User e))
      events (map (immediate_event c) events) ∧
    core w' = core w.
Proof.
  intros Hlen input target Hm Hn. unfold LogImmediate.
  destruct (Z.ltb_spec 500 (Z.of_nat (length events))); [lia|].
  change (PLogEvent _ _) with input. rewrite Hm. unfold doRequest. fold target. rewrite Hn.
  do 3 eexists. split; [reflexivity|]. split; [reflexivity|]. split; [|done].
  clear. induction events as [|e events IH]; [constructor|]. by constructor.
Qed.
End claims.

(** ** Witnesses *)

Section witnesses.
#[local] Existing Instance example_runtime.
#[local] Instance client_outside : Outside := example_outside serving broken_adapter.

Lemma check_gate_outcome_witness :
  ∃ v w', checkGateImpl example_client alice "open" true (example_world stocked_store) = (Ret v, w') ∧
    w_store w' = stocked_store ∧ w_overrides w' = no_overrides ∧ buffered w' < max_events w' ∧
    gate_outcome example_client alice "open" true (example_world stocked_store) w' v.
Proof. apply (check_gate_outcome example_client alice "open" true (example_world stocked_store)). reflexivity. Defined.

Lemma override_then_check_witness :
  ∃ w1 w2, client_OverrideGate "closed" true (example_world stocked_store) = (Ret (), w1) ∧
    w_store w1 = stocked_store ∧
    checkGateImpl example_client alice "closed" false w1 = (Ret true, w2) ∧ w_overrides w2 = w_overrides w1 ∧
    ∃ es, accounted w2 = [] ++ es ∧ length es = 0%nat ∧
      Forall (fun e => match e with
                       | LoggedExposure evt => ee_Metadata evt !! "ruleID" = Some "override" ∧
                           ee_Metadata evt !! "gateValue" = Some (strconv_FormatBool true)
                       | _ => False
                       end) es.
Proof.
  apply (override_then_check example_client "closed" true alice false (example_world stocked_store));
    reflexivity.
Defined.

Lemma log_immediate_sends_everything_witness :
  let events := [mkEvent "purchase" (set_PrivateAttributes {["plan" := VString "gold"]} alice) "9.99" ∅ 1] in
  ∃ r w' time, LogImmediate example_client events (example_world stocked_store) = (Ret r, w') ∧
    w_trace w' = [] ++
      [EHttp (mkRequest "POST" "https://api/log_event" (request_headers example_transport time)
         (Some (PLogEvent (map (fun e => LoggedCustom (immediate_event example_client e)) events)
                  (tr_metadata example_transport))))] ∧
    Forall2 (fun e e' => PrivateAttributes (ev_User e') = PrivateAttributes (ev_User e))
      events (map (immediate_event example_client) events) ∧
    core w' = core (example_world stocked_store).
Proof.
  intros events.
  apply (log_immediate_sends_everything example_client events (example_world stocked_store));
    [simpl; lia|reflexivity..].
Defined.
End witnesses.
