(* ===== verification/SdkFacts.v ===== *)
(** * Theorems about the running SDK

    Invariants of every reachable state, by induction on the steps: the
    buffer stays below its bound, diagnostics can be serialized, ID lists are well
    formed, and no private attribute is waiting to be sent. *)
From S2P Require Import Prelude GoFloat GoRuntime Hashing Types Conditions Evaluator Examples.
From S2P Require Import World.
From S2P Require Import Diagnostics ErrorBoundary Transport Store IdLists Polling Logger.
From S2P Require Import InitResponse Client Statsig WorldExamples ClientExamples TransportFacts.
From S2P Require Import StoreFacts IdListFacts PollingFacts LoggerFacts ClientFacts.

(** An event without private attributes. *)
Definition clean (e : loggedEvent) : Prop :=
  match e with
  | LoggedCustom evt => PrivateAttributes (ev_User evt) = ∅
  | LoggedExposure evt => PrivateAttributes (ee_User evt) = ∅
  | LoggedDiagnostics _ _ _ => True
  end.

(** The logger's and diagnostics' part of the invariant. *)
Record log_ok (w : World) : Prop := {
  log_keyed : diagnostics_keyed w;
  log_bound : buffered w < max_events w;
  log_clean : Forall clean (accounted w);
}.

Section log_ok.
Context `{Outside} `{GoRuntime}.

Definition log_view (w : World) := (w_diagnostics w, w_logger w, w_goroutines w).
Lemma log_ok_view {A} (m : M A) : keeps log_view m → preserves log_ok m.
Proof.
  intros Hm w [Hk Hb Hc]. specialize (Hm w). unfold log_view in Hm. injection Hm as Hd Hl Hg.
  split; unfold diagnostics_keyed, buffered, max_events, accounted, batches in *; by rewrite ?Hd, ?Hl, ?Hg.
Qed.

Lemma keyed_append m b : is_Some (m_Key m) → keyed b → keyed (append_marker m b).
Proof. intros Hm Hb. unfold keyed. apply Forall_app. by repeat constructor. Qed.

Lemma log_ok_upd_base c f :
  (∀ b, keyed b → keyed (f b)) → preserves log_ok (modify (upd_diagnostics (upd_base c f))).
Proof.
  intros Hf w [Hk Hb Hc]. split; [|done|done].
  intros c'. pose proof (Hk c') as Hc'. simpl. destruct c, c'; simpl in *; auto.
Qed.

Lemma log_ok_mark m : is_Some (m_Key m) → preserves log_ok (mark m).
Proof.
  intros Hm. unfold mark. apply preserves_bind; [apply log_ok_view; auto with preserve|]. intros t.
  apply preserves_bind.
  - apply log_ok_upd_base. intros b. by apply keyed_append.
  - intros _. apply log_ok_view. keeps_from core behind_logProcess.
Qed.

Lemma log_ok_logInternal e : clean e → preserves log_ok (logInternal e).
Proof.
  intros He w [Hk Hb Hc].
  destruct (logInternal_run e w Hb) as (w' & Hrun & _ & Hb' & Hacc & _ & _ & Hd). rewrite Hrun.
  split; simpl; [|done|].
  - intros c. rewrite Hd. apply Hk.
  - rewrite Hacc. apply Forall_app. by repeat constructor.
Qed.

Lemma log_ok_sendEvents events : preserves log_ok (sendEvents events).
Proof. apply log_ok_view. unfold sendEvents. walk_keeps. Qed.

Lemma log_ok_flushInternal closing : preserves log_ok (flushInternal closing).
Proof.
  unfold flushInternal. apply preserves_bind.
  { destruct closing; simpl; [|apply preserves_ret]. intros w [Hk Hb Hc]. by split. }
  intros _ w Hw. rewrite (run_bind _ _ w (w_logger w)) by done. simpl ((gets _ _).2).
  destruct Hw as [Hk Hb Hc]. unfold accounted in Hc. apply Forall_app in Hc as [Hc Hev].
  destruct (lg_events (w_logger w)) as [|x xs] eqn:E.
  { split; [done|done|]. simpl. apply Forall_app. by rewrite E. }
  assert (Hpos : 0 < max_events w) by (unfold buffered in Hb; lia).
  destruct closing.
  - rewrite run_unit by apply total_sendEvents.
    assert (Hv : log_view (sendEvents (x :: xs) w).2 = log_view w).
    { assert (Hk' : keeps log_view (sendEvents (x :: xs))) by (unfold sendEvents; walk_keeps). apply Hk'. }
    set (w1 := (sendEvents (x :: xs) w).2) in *. unfold log_view in Hv. injection Hv as Hd Hl Hg.
    split; unfold diagnostics_keyed, buffered, max_events, accounted, batches in *; simpl; rewrite ?Hd, ?Hl, ?Hg; try done.
    by rewrite app_nil_r.
  - rewrite run_unit by apply total_go. split; simpl; [done|exact Hpos|].
    unfold accounted, batches in *. simpl. rewrite omap_app, concat_app, !Forall_app. simpl.
    rewrite app_nil_r. done.
Qed.

Lemma log_ok_logDiagnosticsEvent c : preserves log_ok (logDiagnosticsEvent c).
Proof.
  intros w [Hk Hb Hc]. destruct (logDiagnosticsEvent_run c w Hk Hb) as (w' & ds & Hrun & Hk' & Hb' & Hds & Hacc).
  rewrite Hrun. split; [done|done|]. simpl. rewrite Hacc. apply Forall_app. split; [done|].
  eapply Forall_impl; [exact Hds|]. by intros [].
Qed.

Lemma log_ok_flush closing : preserves log_ok (flush closing).
Proof.
  unfold flush, logDiagnosticsEvents. apply preserves_bind; [|intros; apply log_ok_flushInternal].
  do 2 (apply preserves_bind; [apply log_ok_logDiagnosticsEvent|intros _]). apply log_ok_logDiagnosticsEvent.
Qed.

Lemma log_ok_logCustom evt : preserves log_ok (logCustom evt).
Proof.
  unfold logCustom. apply preserves_bind; [|intros; by apply log_ok_logInternal].
  apply log_ok_view. unfold event_time. walk_keeps.
Qed.

Lemma log_ok_exposure evt d : preserves log_ok (logExposureWithEvaluationDetails evt d).
Proof.
  unfold logExposureWithEvaluationDetails, logger_logExposure.
  apply preserves_bind; [|intros; by apply log_ok_logInternal].
  apply log_ok_view. unfold event_time. walk_keeps.
Qed.

Lemma log_ok_updateSamplingRates c rates : preserves log_ok (updateSamplingRates c rates).
Proof. by apply log_ok_upd_base. Qed.
End log_ok.

Lemma failure_tags_key res m : is_Some (m_Key m) → is_Some (m_Key (failure_tags res m)).
Proof. by destruct res. Qed.

(** Walks through a computation to show that it preserves [log_ok]. *)
Ltac walk_log :=
  repeat lazymatch goal with
  | |- ∀ _, _ => intros ?
  | |- preserves log_ok (mark _) =>
      apply log_ok_mark; first [by eexists|apply failure_tags_key; by eexists]
  | |- preserves log_ok (logExposureWithEvaluationDetails _ _) => apply log_ok_exposure
  | |- preserves log_ok (logCustom _) => apply log_ok_logCustom
  | |- preserves log_ok (flush _) => apply log_ok_flush
  | |- preserves log_ok (updateSamplingRates _ _) => apply log_ok_updateSamplingRates
  | |- preserves log_ok (go_panic _) => apply preserves_panic
  | |- preserves log_ok (_ ≫= _) => apply preserves_bind
  | |- preserves log_ok (recovering _ _) => apply preserves_recovering
  | |- preserves log_ok (when _ _) => apply preserves_when
  | |- preserves log_ok (for_each _ _) => apply preserves_for_each
  | |- preserves log_ok (let _ := _ in _) => cbv zeta
  | |- preserves log_ok (match _ with _ => _ end) => case_match
  | |- preserves log_ok _ => apply log_ok_view; solve [eauto 3 with preserve nocore]
  end.

Section components.
Context `{Outside} `{GoRuntime}.

Lemma log_ok_processConfigSpecs arg m :
  is_Some (m_Key m) → preserves log_ok (processConfigSpecs arg m).
Proof.
  intros Hm. unfold processConfigSpecs, setConfigSpecs.
  apply preserves_bind; [by apply log_ok_mark|]. intros _.
  apply preserves_bind; [walk_log|]. intros ok.
  apply preserves_bind; [by apply log_ok_mark|]. intros _. apply preserves_ret.
Qed.

Lemma log_ok_adapter : preserves log_ok fetchConfigSpecsFromAdapter.
Proof.
  unfold fetchConfigSpecsFromAdapter, eprint, set_reason, addDiagnostics.
  repeat (walk_log; try (apply log_ok_processConfigSpecs; by eexists)).
Qed.
Lemma log_ok_server cold : preserves log_ok (fetchConfigSpecsFromServer cold).
Proof.
  unfold fetchConfigSpecsFromServer, handleSyncError, saveConfigSpecsToAdapter, eprint, set_reason, addDiagnostics.
  repeat (walk_log; try (apply log_ok_processConfigSpecs; by eexists)).
Qed.
Lemma log_ok_download name l : preserves log_ok (downloadIDList name l).
Proof.
  unfold downloadIDList, downloadIDList_in, finishDownload_in, update_ids, add_size, deleteIDList, addDiagnostics. walk_log.
Qed.
Lemma log_ok_reconcile lists started : preserves log_ok (reconcileLists lists started).
Proof.
  apply log_ok_view. revert started. induction lists as [|[name server] lists IH]; intros started; simpl.
  - apply keeps_ret.
  - apply keeps_bind; [apply keeps_gets|]. intros s. destruct (reconcile _ _ _) as [l download].
    apply keeps_bind; [by apply keeps_modify|]. intros _. apply IH.
Qed.
Lemma log_ok_syncIDLists : preserves log_ok syncIDLists.
Proof.
  unfold syncIDLists, deleteIDList, addDiagnostics.
  repeat lazymatch goal with
  | |- preserves log_ok (reconcileLists _ _) => apply log_ok_reconcile
  | |- preserves log_ok (downloadIDList _ _) => apply log_ok_download
  | |- preserves log_ok (_ ≫= _) => apply preserves_bind
  | |- preserves log_ok (for_each _ _) => apply preserves_for_each
  | |- preserves log_ok (match _ with _ => _ end) => case_match
  | |- ∀ _, _ => intros ?
  | |- _ => walk_log
  end.
Qed.

Lemma log_ok_loadFirst bs da : preserves log_ok (loadFirst bs da).
Proof.
  unfold loadFirst, set_reason, addDiagnostics. destruct da.
  - apply preserves_bind; [walk_log|intros; apply log_ok_adapter].
  - walk_log. all: apply log_ok_processConfigSpecs; by eexists.
Qed.

Lemma log_ok_go g : batch_of g = None → preserves log_ok (go g).
Proof.
  intros Hg w [Hk Hb Hc]. split; [done|done|]. unfold accounted, batches in *. simpl.
  rewrite omap_app, concat_app. simpl. by rewrite Hg, app_nil_r.
Qed.

Lemma log_ok_newStoreInternal t ci ii bs cb da : preserves log_ok (newStoreInternal t ci ii bs cb da).
Proof.
  unfold newStoreInternal, base_logProcess, global_Logger.
  repeat lazymatch goal with
  | |- preserves log_ok (loadFirst _ _) => apply log_ok_loadFirst
  | |- preserves log_ok (fetchConfigSpecsFromServer _) => apply log_ok_server
  | |- preserves log_ok syncIDLists => apply log_ok_syncIDLists
  | |- preserves log_ok (go _) => by apply log_ok_go
  | |- preserves log_ok (_ ≫= _) => apply preserves_bind
  | |- preserves log_ok (when _ _) => apply preserves_when
  | |- ∀ _, _ => intros ?
  | |- _ => progress walk_log
  end.
Qed.

Lemma log_ok_polls : preserves log_ok pollForRulesetChanges ∧ preserves log_ok pollForIDListChanges.
Proof.
  unfold pollForRulesetChanges, pollForIDListChanges, sleep. split.
  - walk_log; [apply log_ok_adapter|apply log_ok_server].
  - walk_log. apply log_ok_syncIDLists.
Qed.

(** ** The client's methods *)

Lemma log_ok_evaluate {A} (f : store → overrides → Z → outcome A) : preserves log_ok (evaluate f).
Proof. apply log_ok_view. by intros w. Qed.

Lemma log_ok_capture {A} (zero : A) cb body :
  preserves log_ok body → preserves log_ok cb → preserves log_ok (capture zero cb body).
Proof.
  intros Hb Hcb. unfold capture, ebRecover, global_Logger. apply preserves_recovering; [done|].
  intros err. apply preserves_bind; [|intros; apply preserves_ret].
  apply preserves_bind; [walk_log|]. intros _. apply preserves_bind; [walk_log|]. intros o.
  apply preserves_bind; [walk_log|]. by intros _.
Qed.

Lemma log_ok_verifyUser user : preserves log_ok (verifyUser user).
Proof. unfold verifyUser, global_Logger. walk_log. Qed.

(** The same walk for the methods of a client. *)
Ltac walk_client :=
  repeat lazymatch goal with
  | |- ∀ _, _ => intros ?
  | |- preserves log_ok (capture _ _ _) => apply log_ok_capture
  | |- preserves log_ok (capture_api _ _ _) => unfold capture_api
  | |- preserves log_ok (verifyUser _) => apply log_ok_verifyUser
  | |- preserves log_ok (evaluate _) => apply log_ok_evaluate
  | |- preserves log_ok (_ ≫= _) => apply preserves_bind
  | |- preserves log_ok (when _ _) => apply preserves_when
  | |- preserves log_ok (let _ := _ in _) => cbv zeta
  | |- preserves log_ok (match _ with _ => _ end) => case_match
  | |- _ => progress walk_log
  end.

Lemma log_ok_checkGateImpl c user gate b : preserves log_ok (checkGateImpl c user gate b).
Proof.
  unfold checkGateImpl, captureCheckGate, evaluator_checkGate, fetchGate, logGateExposure. walk_client.
Qed.
Lemma log_ok_getConfigImpl c user config b : preserves log_ok (getConfigImpl c user config b).
Proof.
  unfold getConfigImpl, captureGetConfig, evaluator_getConfig, fetchConfigFromServer, fetchConfig,
    logConfigExposure. walk_client.
Qed.
Lemma log_ok_getLayerImpl c user layer b : preserves log_ok (getLayerImpl c user layer b).
Proof.
  unfold getLayerImpl, captureGetLayer, evaluator_getLayer, fetchConfigFromServer, fetchConfig.
  walk_client.
Qed.
Lemma log_ok_manual c user name parameter :
  preserves log_ok (ManuallyLogGateExposure c user name) ∧
  preserves log_ok (ManuallyLogConfigExposure c user name) ∧
  preserves log_ok (ManuallyLogLayerParameterExposure c user name parameter).
Proof.
  unfold ManuallyLogGateExposure, ManuallyLogConfigExposure, ManuallyLogLayerParameterExposure,
    for_verified, captureVoid, evaluator_checkGate, evaluator_getConfig, evaluator_getLayer,
    logGateExposure, logConfigExposure, logLayerExposure.
  split; [|split]; walk_client.
Qed.
Lemma log_ok_experiment get user e :
  (∀ u n, preserves log_ok (get u n)) → preserves log_ok (experiment_of get user e).
Proof.
  intros Hget. unfold experiment_of. apply preserves_bind; [apply log_ok_verifyUser|].
  intros []; [apply Hget|apply preserves_ret].
Qed.
Lemma log_ok_LogEvent c event : preserves log_ok (LogEvent c event).
Proof. unfold LogEvent, captureVoid. walk_client. Qed.
Lemma log_ok_overrides gate config layer v m k :
  preserves log_ok (client_OverrideGate gate v) ∧ preserves log_ok (client_OverrideConfig config m) ∧
  preserves log_ok (client_OverrideLayer layer k).
Proof.
  unfold client_OverrideGate, client_OverrideConfig, client_OverrideLayer, captureVoid.
  split; [|split]; walk_client.
Qed.
Lemma log_ok_LogImmediate c events : preserves log_ok (LogImmediate c events).
Proof. unfold LogImmediate. walk_client. Qed.
Lemma log_ok_init_response c user key : preserves log_ok (GetClientInitializeResponse c user key).
Proof.
  unfold GetClientInitializeResponse, captureGetClientInitializeResponse,
    evaluator_getClientInitializeResponse, getClientInitializeResponse. walk_client.
Qed.
Lemma log_ok_Shutdown : preserves log_ok Shutdown.
Proof. unfold Shutdown, captureVoid, evaluator_shutdown, stopPolling. walk_client. Qed.
Lemma log_ok_layer_get {T} (select : GoValue → option T) l key fallback :
  preserves log_ok (layer_get select l key fallback).
Proof.
  unfold layer_get, call_layerClosure, logLayerExposure. destruct (getter _ _ _ _) as [v calls].
  apply preserves_bind; [apply preserves_for_each; walk_client|walk_client].
Qed.

Lemma log_ok_newLogger t options : preserves log_ok (newLogger t options).
Proof.
  unfold newLogger. apply preserves_bind; [|intros _; by apply log_ok_go].
  intros w [Hk Hb Hc]. unfold accounted in Hc. apply Forall_app in Hc as [Hc _].
  split; [done| |].
  - unfold buffered, max_events. simpl. destruct (Z.ltb_spec 0 (LoggingMaxBufferSize options)); lia.
  - unfold accounted, batches in *. simpl. by rewrite app_nil_r.
Qed.
Lemma log_ok_NewClient sdkKey options : preserves log_ok (NewClientWithOptions sdkKey options).
Proof.
  unfold NewClientWithOptions. apply preserves_bind.
  { intros w [Hk Hb Hc]. split; [|done|done]. intros []; apply Forall_nil_2. }
  intros _. apply preserves_bind; [walk_log|]. intros _. cbv zeta.
  apply preserves_bind; [walk_log|]. intros _. destruct (_ && _); [apply preserves_panic|].
  unfold newTransport, getSessionID, newEvaluator, newStore.
  apply preserves_bind; [walk_log|]. intros t.
  apply preserves_bind; [apply log_ok_newLogger|]. intros _.
  apply preserves_bind; [|intros _; walk_log].
  apply preserves_bind; [apply log_ok_newStoreInternal|]. intros _. walk_log.
Qed.
End components.

(** ** The store's part of the invariant *)

(** Every spec is stored under its name, and the ID lists are well formed. *)
Definition specs_keyed (s : store) : Prop :=
  (∀ name spec, getGate s name = Some spec → spec_Name spec = name) ∧
  (∀ name spec, getDynamicConfig s name = Some spec → spec_Name spec = name) ∧
  (∀ name spec, getLayerConfig s name = Some spec → spec_Name spec = name).
Record store_ok (w : World) : Prop := {
  store_lists : lists_wf (lists_of w);
  store_specs_keyed : specs_keyed (w_store w);
}.

Section store_ok.
Context `{Outside} `{GoRuntime}.

Lemma last_named_keyed specs name spec : last_named specs name = Some spec → spec_Name spec = name.
Proof.
  unfold last_named. rewrite <- by_name_lookup. intros Hl. by apply (by_name_keyed specs name spec).
Qed.
Lemma installed_keyed specs s : installed specs s → specs_keyed s.
Proof.
  intros [Hg Hc Hl _ _ _ _].
  split; [|split]; intros name spec; rewrite ?Hg, ?Hc, ?Hl; apply last_named_keyed.
Qed.
Lemma rules_keyed s s' : rules s' = rules s → specs_keyed s → specs_keyed s'.
Proof. unfold rules, specs_keyed. simpl. by intros [= -> -> -> _ _ _]. Qed.

Lemma store_ok_view {A} (m : M A) : keeps w_store m → preserves store_ok m.
Proof. intros Hm w [Hl Hs]. specialize (Hm w). split; unfold lists_of in *; by rewrite Hm. Qed.

Lemma store_ok_synced w w' P r :
  rest (w_store w') = rest (w_store w) → unchanged_or P r (w_store w) (w_store w') →
  store_ok w → store_ok w'.
Proof.
  intros Hr Hor [Hl Hs]. unfold rest in Hr. injection Hr as Hlists _.
  split; [unfold lists_of in *; by rewrite Hlists|].
  destruct Hor as [[Hru _]|(specs & _ & _ & Hi & _)]; [by apply (rules_keyed (w_store w))|].
  by apply (installed_keyed specs).
Qed.

Lemma store_ok_adapter : preserves store_ok fetchConfigSpecsFromAdapter.
Proof.
  intros w Hw. destruct (fetchConfigSpecsFromAdapter_run w) as (w' & Hrun & Hr & Hor). rewrite Hrun.
  by eapply store_ok_synced.
Qed.
Lemma store_ok_server cold : preserves store_ok (fetchConfigSpecsFromServer cold).
Proof.
  intros w Hw. destruct (fetchConfigSpecsFromServer_run cold w) as (w' & Hrun & Hr & Hor). rewrite Hrun.
  eapply (store_ok_synced w w' (fun _ => True) reasonNetwork); [done| |done].
  destruct Hor as [|(specs & res & _ & _ & _ & Hup & Hi & Hre & _)]; [by left|right]. by exists specs.
Qed.
Lemma store_ok_syncIDLists : preserves store_ok syncIDLists.
Proof.
  intros w [Hl Hs]. destruct (sync_lists_returns w Hl) as (w' & Hrun & Hl' & Hbut). rewrite Hrun.
  split; [done|]. simpl. apply (rules_keyed (w_store w)); [|done].
  unfold with_lists, set_idLists in Hbut. unfold rules. injection Hbut as -> -> -> -> -> -> _. done.
Qed.
Lemma store_ok_loadFirst bs da : preserves store_ok (loadFirst bs da).
Proof.
  unfold loadFirst. destruct da.
  - apply preserves_bind; [apply store_ok_view; auto with preserve|intros; apply store_ok_adapter].
  - apply preserves_when. apply preserves_bind; [apply store_ok_view; auto with preserve|]. intros m w Hw.
    destruct (process_text_run bs (m ▷ bootstrap) reasonBootstrap w) as (w' & Hrun & Hr & Hor); [done|].
    rewrite Hrun. by eapply store_ok_synced.
Qed.

Lemma store_ok_newStoreInternal t ci ii bs cb da : preserves store_ok (newStoreInternal t ci ii bs cb da).
Proof.
  unfold newStoreInternal, base_logProcess, global_Logger. apply preserves_bind.
  { intros w _. split; [apply map_Forall_empty|]. split; [|split]; intros name spec; simpl;
      by rewrite lookup_empty. }
  intros _. apply preserves_bind; [apply store_ok_loadFirst|]. intros _.
  apply preserves_bind; [apply preserves_gets|]. intros s. apply preserves_bind.
  { apply preserves_when, preserves_bind; [|intros; apply store_ok_server].
    apply store_ok_view. walk_keeps. }
  intros _. apply preserves_bind; [by intros w [? ?]|]. intros _.
  apply preserves_bind; [apply store_ok_syncIDLists|]. intros _.
  apply preserves_bind; [by intros w [? ?]|]. intros _. apply store_ok_view. walk_keeps.
Qed.

Lemma store_ok_polls : preserves store_ok pollForRulesetChanges ∧ preserves store_ok pollForIDListChanges.
Proof.
  unfold pollForRulesetChanges, pollForIDListChanges, sleep. split.
  - apply preserves_bind; [apply preserves_gets|]. intros s.
    apply preserves_bind; [apply store_ok_view; auto with preserve|]. intros _.
    apply preserves_bind; [apply preserves_gets|]. intros s'. case_match; [apply preserves_ret|].
    apply preserves_bind; [apply store_ok_view; walk_keeps|]. intros use.
    apply preserves_bind; [|intros; apply preserves_ret].
    case_match; [apply store_ok_adapter|apply store_ok_server].
  - apply preserves_bind; [apply preserves_gets|]. intros s.
    apply preserves_bind; [apply store_ok_view; auto with preserve|]. intros _.
    apply preserves_bind; [apply preserves_gets|]. intros s'. case_match; [apply preserves_ret|].
    apply preserves_bind; [apply store_ok_syncIDLists|intros; apply preserves_ret].
Qed.

Lemma store_logInternal e : keeps w_store (logInternal e).
Proof. unfold logInternal, flushInternal, sendEvents. walk_keeps. Qed.
Lemma store_exposure evt d : keeps w_store (logExposureWithEvaluationDetails evt d).
Proof.
  unfold logExposureWithEvaluationDetails, logger_logExposure, event_time. walk_keeps.
  all: apply store_logInternal.
Qed.
Lemma store_flush closing : keeps w_store (flush closing).
Proof.
  unfold flush, logDiagnosticsEvents, logDiagnosticsEvent, flushInternal, sendEvents, clearMarkers.
  walk_keeps. all: apply store_logInternal.
Qed.
Lemma store_capture {A} (zero : A) cb body :
  keeps w_store body → keeps w_store cb → keeps w_store (capture zero cb body).
Proof. intros Hb Hcb. unfold capture, ebRecover, global_Logger. walk_keeps; done. Qed.
Lemma store_verifyUser user : keeps w_store (verifyUser user).
Proof. unfold verifyUser, global_Logger. walk_keeps. Qed.
Lemma store_evaluate {A} (f : store → overrides → Z → outcome A) : keeps w_store (evaluate f).
Proof. by intros w. Qed.
Lemma store_fetchConfigFromServer c user config : keeps w_store (fetchConfigFromServer c user config).
Proof. unfold fetchConfigFromServer, fetchConfig. walk_keeps. Qed.
End store_ok.

(** Walks through a method that does not touch the store. *)
Ltac walk_store :=
  repeat lazymatch goal with
  | |- ∀ _, _ => intros ?
  | |- keeps _ (capture _ _ _) => apply store_capture
  | |- keeps _ (capture_api _ _ _) => unfold capture_api
  | |- keeps _ (captureVoid _) => unfold captureVoid
  | |- keeps _ (fetchConfigFromServer _ _ _) => apply store_fetchConfigFromServer
  | |- keeps _ (verifyUser _) => apply store_verifyUser
  | |- keeps _ (evaluate _) => apply store_evaluate
  | |- keeps _ (logExposureWithEvaluationDetails _ _) => apply store_exposure
  | |- keeps _ (logInternal _) => apply store_logInternal
  | |- keeps _ (flush _) => apply store_flush
  | |- keeps _ (_ ≫= _) => apply keeps_bind
  | |- keeps _ (when _ _) => apply keeps_when
  | |- keeps _ (for_each _ _) => apply keeps_for_each
  | |- keeps _ (let _ := _ in _) => cbv zeta
  | |- keeps _ (match _ with _ => _ end) => case_match
  | |- _ => solve [eauto 3 with preserve nocore]
  end.

Section store_methods.
Context `{Outside} `{GoRuntime}.

Lemma store_methods c :
  (∀ user gate b, keeps w_store (checkGateImpl c user gate b)) ∧
  (∀ user config b, keeps w_store (getConfigImpl c user config b)) ∧
  (∀ user layer b, keeps w_store (getLayerImpl c user layer b)) ∧
  (∀ user gate, keeps w_store (ManuallyLogGateExposure c user gate)) ∧
  (∀ user config, keeps w_store (ManuallyLogConfigExposure c user config)) ∧
  (∀ user layer parameter, keeps w_store (ManuallyLogLayerParameterExposure c user layer parameter)) ∧
  (∀ event, keeps w_store (LogEvent c event)) ∧
  (∀ events, keeps w_store (LogImmediate c events)) ∧
  (∀ user key, keeps w_store (GetClientInitializeResponse c user key)).
Proof.
  unfold checkGateImpl, captureCheckGate, evaluator_checkGate, fetchGate, logGateExposure, getConfigImpl,
    captureGetConfig, evaluator_getConfig, fetchConfigFromServer, fetchConfig, logConfigExposure,
    getLayerImpl, captureGetLayer, evaluator_getLayer, ManuallyLogGateExposure,
    ManuallyLogConfigExposure, ManuallyLogLayerParameterExposure, for_verified, captureVoid,
    evaluator_checkGate, evaluator_getConfig, evaluator_getLayer, logGateExposure, logConfigExposure,
    logLayerExposure, LogEvent, logCustom, event_time, LogImmediate, GetClientInitializeResponse,
    captureGetClientInitializeResponse, evaluator_getClientInitializeResponse, getClientInitializeResponse.
  repeat (match goal with |- _ ∧ _ => split end); walk_store.
Qed.
Lemma store_overrides gate config layer v m k :
  keeps w_store (client_OverrideGate gate v) ∧ keeps w_store (client_OverrideConfig config m) ∧
  keeps w_store (client_OverrideLayer layer k).
Proof. unfold client_OverrideGate, client_OverrideConfig, client_OverrideLayer. split; [|split]; walk_store. Qed.
Lemma store_experiment get user e :
  (∀ u n, keeps w_store (get u n)) → keeps w_store (experiment_of get user e).
Proof. intros Hget. unfold experiment_of. walk_store. Qed.
Lemma store_layer_get {T} (select : GoValue → option T) l key fallback :
  keeps w_store (layer_get select l key fallback).
Proof.
  unfold layer_get, call_layerClosure, logLayerExposure. destruct (getter _ _ _ _) as [v calls]. walk_store.
Qed.

Lemma store_ok_capture {A} (zero : A) cb body :
  preserves store_ok body → preserves store_ok cb → preserves store_ok (capture zero cb body).
Proof.
  intros Hb Hcb. unfold capture, ebRecover, global_Logger. apply preserves_recovering; [done|].
  intros err. apply preserves_bind; [|intros; apply preserves_ret].
  apply preserves_bind; [apply store_ok_view; walk_keeps|]. intros _. apply preserves_bind; [apply preserves_gets|].
  intros o. apply preserves_bind; [apply store_ok_view; walk_keeps|]. by intros _.
Qed.
Lemma store_ok_Shutdown : preserves store_ok Shutdown.
Proof.
  unfold Shutdown, captureVoid. apply store_ok_capture; [|apply store_ok_view; walk_store].
  apply preserves_bind; [apply store_ok_view, store_flush|]. intros _. unfold evaluator_shutdown.
  apply preserves_bind; [apply preserves_gets|]. intros s.
  apply preserves_bind; [apply store_ok_view; walk_keeps|]. intros _. by intros w [? ?].
Qed.
Lemma store_ok_NewClient sdkKey options : preserves store_ok (NewClientWithOptions sdkKey options).
Proof.
  unfold NewClientWithOptions. do 2 (apply preserves_bind; [apply store_ok_view; walk_keeps|]; intros _).
  cbv zeta. apply preserves_bind; [apply store_ok_view; walk_keeps|]. intros _.
  destruct (_ && _); [apply preserves_panic|]. unfold newTransport, getSessionID, newEvaluator, newStore, newLogger.
  apply preserves_bind; [apply store_ok_view; walk_keeps|]. intros t.
  apply preserves_bind; [apply store_ok_view; walk_keeps|]. intros _.
  apply preserves_bind; [|intros _; apply store_ok_view; walk_keeps].
  apply preserves_bind; [apply store_ok_newStoreInternal|]. intros _. apply store_ok_view. walk_keeps.
Qed.
End store_methods.

(** ** The invariant of the running SDK *)

Definition world_ok (w : World) : Prop := log_ok w ∧ store_ok w.
Definition sdk_ok (s : Sdk) : Prop := world_ok s.1.

Section running.
Context `{Outside} `{GoRuntime}.

Lemma world_ok_split {A} (m : M A) : preserves log_ok m → preserves store_ok m → preserves world_ok m.
Proof. intros Hl Hs w [? ?]. split; auto. Qed.
Lemma world_ok_view {A} (m : M A) : preserves log_ok m → keeps w_store m → preserves world_ok m.
Proof. intros ? ?. apply world_ok_split; [done|]. by apply store_ok_view. Qed.

Lemma sdk_ok_lift {A} (m : M A) : preserves world_ok m → preserves sdk_ok (lift_world m).
Proof.
  intros Hm [w i] Hw. specialize (Hm w Hw). unfold lift_world. simpl. by destruct (m w).
Qed.
Lemma sdk_ok_instance {A} name (f : Client → M A) :
  (∀ c, preserves world_ok (f c)) → preserves sdk_ok (with_instance name f).
Proof.
  intros Hf. unfold with_instance, get_instance. apply preserves_bind; [apply preserves_gets|].
  intros [c|]; [apply sdk_ok_lift, Hf|apply preserves_panic].
Qed.
Lemma sdk_ok_ignore {A} (m : G A) : preserves sdk_ok m → preserves sdk_ok (m ≫= fun _ => mret ()).
Proof. intros Hm. apply preserves_bind; [done|]. intros _. apply preserves_ret. Qed.

Lemma world_ok_NewClient sdkKey options : preserves world_ok (NewClientWithOptions sdkKey options).
Proof. apply world_ok_split; [apply log_ok_NewClient|apply store_ok_NewClient]. Qed.
Lemma world_ok_Shutdown : preserves world_ok Shutdown.
Proof. apply world_ok_split; [apply log_ok_Shutdown|apply store_ok_Shutdown]. Qed.
Lemma world_ok_output options : preserves world_ok (InitializeGlobalOutputLogger options).
Proof. apply world_ok_view; [apply log_ok_view|]; by intros w. Qed.
Lemma world_ok_already : preserves world_ok already_initialized.
Proof. unfold already_initialized, global_Logger. apply world_ok_view; [walk_log|walk_keeps]. Qed.
Lemma world_ok_timed_out :
  preserves world_ok (o ← global_Logger; LogStep o StatsigProcessInitialize "Timed out").
Proof. unfold global_Logger. apply world_ok_view; [walk_log|walk_keeps]. Qed.

Lemma sdk_ok_set_instance c : preserves sdk_ok (set_instance c).
Proof. by intros [w i] Hw. Qed.
Lemma sdk_ok_pkg_Shutdown : preserves sdk_ok pkg_Shutdown.
Proof.
  unfold pkg_Shutdown, get_instance. apply preserves_bind; [apply preserves_gets|].
  intros [c|]; [apply sdk_ok_lift, world_ok_Shutdown|apply preserves_ret].
Qed.
Lemma sdk_ok_Initialize sdkKey : preserves sdk_ok (Initialize sdkKey).
Proof.
  unfold Initialize, IsInitialized, get_instance.
  apply preserves_bind; [apply sdk_ok_lift, world_ok_output|]. intros _.
  apply preserves_bind; [by intros [? ?]|]. intros [].
  - apply sdk_ok_lift, world_ok_already.
  - apply preserves_bind; [apply sdk_ok_lift, world_ok_NewClient|]. intros c. apply sdk_ok_set_instance.
Qed.
Lemma sdk_ok_InitializeWithOptions sdkKey options in_time :
  preserves sdk_ok (InitializeWithOptions sdkKey options in_time).
Proof.
  unfold InitializeWithOptions, IsInitialized, get_instance.
  apply preserves_bind; [apply sdk_ok_lift, world_ok_output|]. intros _.
  apply preserves_bind; [by intros [? ?]|]. intros [].
  { apply sdk_ok_lift, world_ok_already. }
  destruct (_ && _).
  - apply preserves_bind; [apply sdk_ok_lift, world_ok_timed_out|]. intros _.
    apply sdk_ok_ignore, sdk_ok_lift, world_ok_NewClient.
  - apply preserves_bind; [apply sdk_ok_lift, world_ok_NewClient|]. intros c. apply sdk_ok_set_instance.
Qed.

(** The methods of a client, by what they log and that they leave the store. *)
Lemma world_ok_methods c :
  (∀ user gate b, preserves world_ok (checkGateImpl c user gate b)) ∧
  (∀ user config b, preserves world_ok (getConfigImpl c user config b)) ∧
  (∀ user layer b, preserves world_ok (getLayerImpl c user layer b)) ∧
  (∀ user gate, preserves world_ok (ManuallyLogGateExposure c user gate)) ∧
  (∀ user config, preserves world_ok (ManuallyLogConfigExposure c user config)) ∧
  (∀ user layer parameter, preserves world_ok (ManuallyLogLayerParameterExposure c user layer parameter)) ∧
  (∀ event, preserves world_ok (LogEvent c event)) ∧
  (∀ events, preserves world_ok (LogImmediate c events)) ∧
  (∀ user key, preserves world_ok (GetClientInitializeResponse c user key)).
Proof.
  destruct (store_methods c) as (S1 & S2 & S3 & S4 & S5 & S6 & S7 & S8 & S9).
  repeat (match goal with |- _ ∧ _ => split end); intros; apply world_ok_view; auto.
  - apply log_ok_checkGateImpl.
  - apply log_ok_getConfigImpl.
  - apply log_ok_getLayerImpl.
  - by destruct (log_ok_manual c user gate "") as (? & _ & _).
  - by destruct (log_ok_manual c user config "") as (_ & ? & _).
  - by destruct (log_ok_manual c user layer parameter) as (_ & _ & ?).
  - apply log_ok_LogEvent.
  - apply log_ok_LogImmediate.
  - apply log_ok_init_response.
Qed.
Lemma world_ok_experiment c user e b :
  preserves world_ok (experiment_of (fun u n => getConfigImpl c u n b) user e).
Proof.
  apply world_ok_view.
  - apply log_ok_experiment. intros. apply log_ok_getConfigImpl.
  - apply store_experiment. intros. by destruct (store_methods c) as (_ & ? & _).
Qed.
Lemma world_ok_overrides gate config layer v m k :
  preserves world_ok (client_OverrideGate gate v) ∧ preserves world_ok (client_OverrideConfig config m) ∧
  preserves world_ok (client_OverrideLayer layer k).
Proof.
  destruct (log_ok_overrides gate config layer v m k) as (? & ? & ?).
  destruct (store_overrides gate config layer v m k) as (? & ? & ?).
  split; [|split]; by apply world_ok_view.
Qed.

Lemma sdk_ok_call m : sdk_call m → preserves sdk_ok m.
Proof.
  assert (Hm := world_ok_methods).
  intros Hcall; destruct Hcall; try apply sdk_ok_ignore;
    try (apply sdk_ok_instance; intros c; destruct (Hm c) as (M1 & M2 & M3 & M4 & M5 & M6 & M7 & M8 & M9);
      unfold CheckGate, CheckGateWithExposureLoggingDisabled, GetConfig,
        GetConfigWithExposureLoggingDisabled, GetLayer, GetLayerWithExposureLoggingDisabled; auto).
  all: try by (destruct (world_ok_overrides gate "" "" val None None) as (? & _)).
  all: try by (destruct (world_ok_overrides "" config "" false val None) as (_ & ? & _)).
  all: try by (destruct (world_ok_overrides "" "" layer false None val) as (_ & _ & ?)).
  - apply sdk_ok_Initialize.
  - apply sdk_ok_InitializeWithOptions.
  - apply (world_ok_experiment c user experiment true).
  - apply (world_ok_experiment c user experiment false).
  - apply sdk_ok_lift, world_ok_view; [apply log_ok_layer_get|apply store_layer_get].
  - apply sdk_ok_pkg_Shutdown.
  - apply preserves_bind; [apply sdk_ok_pkg_Shutdown|]. intros _. apply sdk_ok_set_instance.
Qed.

Lemma world_ok_turn g : preserves world_ok (turn g).
Proof.
  destruct g; simpl.
  - apply world_ok_view; [apply log_ok_sendEvents|]. unfold sendEvents. walk_keeps.
  - apply world_ok_view; [apply log_ok_flush|apply store_flush].
  - apply preserves_bind; [|intros; apply preserves_ret].
    apply world_ok_split; [apply log_ok_polls|apply store_ok_polls].
  - apply preserves_bind; [|intros; apply preserves_ret].
    apply world_ok_split; [apply log_ok_polls|apply store_ok_polls].
Qed.

Lemma sdk_ok_ends w i g gs gs' :
  w_goroutines w = gs ++ g :: gs' → sdk_ok (w, i) → sdk_ok (upd_goroutines (fun _ => gs ++ gs') w, i).
Proof.
  intros Hg [[Hk Hb Hc] Hs]. split; [|by destruct Hs]. split; [done|done|].
  unfold accounted, batches in *. simpl in *. rewrite Hg in Hc.
  rewrite !omap_app, !concat_app, !Forall_app in *. simpl in Hc.
  destruct (batch_of g); simpl in Hc; rewrite ?Forall_app in Hc; naive_solver.
Qed.

Lemma sdk_ok_initial s : initial_sdk s → sdk_ok s.
Proof.
  intros ->. split; split; try done; intros []; apply Forall_nil_2.
Qed.
Lemma sdk_ok_step s s' : sdk_step s s' → sdk_ok s → sdk_ok s'.
Proof.
  intros [m s0 Hm|w i g Hg|w i g gs gs' Hg] Hok.
  - by apply sdk_ok_call.
  - by apply world_ok_turn.
  - by eapply sdk_ok_ends.
Qed.
End running.

(** The end of a shutdown: the adapter, then the polling. *)
Lemma shutdown_store_run `{Outside} `{GoRuntime} w :
  ∃ w', recovering evaluator_shutdown (fun err => ebRecover (mret ()) err ≫= fun _ => mret ()) w = (Ret (), w') ∧
    w_logger w' = w_logger w ∧
    (w_store w' = set_shutdown true (w_store w) ∨
     st_dataAdapter (w_store w) = true ∧ w_store w' = w_store w ∧ ∃ i e, out_adapter_shutdown i = Some e).
Proof.
  unfold evaluator_shutdown, recovering. rewrite (run_bind _ _ w (w_store w)) by done. simpl ((gets _ _).2).
  destruct (st_dataAdapter (w_store w)) eqn:Hda; [|by exists (upd_store (set_shutdown true) w); auto].
  unfold when, adapter_Shutdown. unfold mbind at 1 2 3 4, gom_bind at 1 2 3 4. simpl.
  destruct (out_adapter_shutdown (w_tick w)) as [e|] eqn:He; simpl.
  2:{ eexists. split; [reflexivity|]. split; [done|]. by left. }
  set (w1 := upd_tick S _).
  destruct (total_run (ebRecover (mret ()) e) w1) as [[] Hrun]; [apply total_ebRecover, total_ret|].
  pose proof (behind_ebRecover (mret ()) e (keeps_ret _ _) w1) as Hb. rewrite Hrun in *.
  eexists. split; [reflexivity|]. unfold behind_capture in Hb. simpl in *. injection Hb as -> -> _ _ _.
  split; [done|]. right. eauto.
Qed.

(** A client that was built, and the world it was built in. *)
Definition started_client `{Outside} (sdkKey : string) (options : Options) (c : Client) (w : World) : Prop :=
  c_sdkKey c = sdkKey ∧ tr_sdkKey (c_transport c) = sdkKey ∧
  tr_LocalMode (c_transport c) = LocalMode options ∧
  API (c_options c) = (if String.eqb (API options) "" then DefaultEndpoint else API options) ∧
  w_overrides w = no_overrides ∧ st_initializedIDLists (w_store w) = true ∧ lists_wf (lists_of w) ∧
  serves_one (c_transport c) (BootstrapValues options) (HasDataAdapter options) (w_store w).

Lemma NewClientWithOptions_run `{Outside} `{GoRuntime} sdkKey options w :
  (HasDataAdapter options = true → ∀ i, out_adapter_initialize i = None) →
  ∃ w', 
    if LocalMode options || strings_HasPrefix sdkKey "secret"
    then ∃ c, NewClientWithOptions sdkKey options w = (Ret c, w') ∧ started_client sdkKey options c w'
    else NewClientWithOptions sdkKey options w = (Panic (PanicError InvalidSDKKeyError), w').
Proof.
  intros Hada. unfold NewClientWithOptions. rewrite run_unit by apply total_modify. simpl ((modify _ _).2).
  rewrite run_unit by by apply total_mark. set (w1 := (mark _ _).2). cbv zeta.
  set (options' := if String.eqb (API options) "" then set_API DefaultEndpoint options else options).
  assert (Hopt : LocalMode options' = LocalMode options ∧ HasDataAdapter options' = HasDataAdapter options ∧
    BootstrapValues options' = BootstrapValues options ∧
    API options' = if String.eqb (API options) "" then DefaultEndpoint else API options).
  { subst options'. by destruct (String.eqb (API options) ""). }
  destruct Hopt as (Hl & Hd & Hb & Ha). clearbody options'. rewrite Hl.
  rewrite run_unit by apply total_modify. simpl ((modify _ _).2). set (w2 := upd_errorBoundary _ w1).
  rewrite <- negb_orb. destruct (LocalMode options || strings_HasPrefix sdkKey "secret"); simpl.
  2:{ by eexists. }
  assert (Ht : ∃ t, newTransport sdkKey options' w2 = (Ret t, upd_tick S w2) ∧
    tr_sdkKey t = sdkKey ∧ tr_LocalMode t = LocalMode options').
  { eexists. split; [reflexivity|]. done. }
  destruct Ht as (t & Hrun & Hkey & Hlocal).
  rewrite (run_bind _ _ w2 t) by (by rewrite Hrun). rewrite Hrun. simpl ((_, _).2). set (w3 := upd_tick S w2).
  rewrite run_unit by (unfold newLogger; walk_total). set (w4 := (newLogger t options' w3).2).
  unfold newEvaluator, newStore.
  destruct (newStoreInternal_run t (if 0 <? ConfigSyncInterval options' then ConfigSyncInterval options'
      else 10 * time_Second) (if 0 <? IDListSyncInterval options' then IDListSyncInterval options'
      else 60 * time_Second) (BootstrapValues options') (HasRulesUpdatedCallback options')
      (HasDataAdapter options') w4) as (w5 & Hstore & Hserves & _ & Hinit & Hwf); [by rewrite Hd|].
  set (w6 := upd_overrides (fun _ => no_overrides) w5).
  set (ev := newStoreInternal _ _ _ _ _ _ ≫= _).
  assert (Hev : ev w4 = (Ret (), w6)).
  { unfold ev, mbind, gom_bind. by rewrite Hstore. }
  rewrite (run_bind _ _ w4 ()) by (by rewrite Hev). rewrite Hev. simpl ((_, _).2).
  rewrite run_unit by by apply total_mark. eexists. exists (mkClient sdkKey options' t).
  split; [reflexivity|]. unfold started_client, lists_of in *. simpl.
  pose proof (behind_mark (initialize ▷ overall ▷ end_ ▷ success true) w6) as Hm.
  injection Hm as _ -> _ -> _. split; [done|]. split; [done|]. split; [congruence|]. split; [done|].
  split; [done|]. split; [done|]. split; [done|]. by rewrite <- Hb, <- Hd.
Qed.

(** ** Properties *)

(** A package function over the instance: without one it panics with its
    name and changes nothing, with one it is the method of the client. *)
Definition guarded `{Outside} `{GoRuntime} {A} (function : string) (f : G A) (method : Client → M A) : Prop :=
  (∀ w, f (w, None) =
     (Panic (PanicError ("must Initialize() statsig before calling " +:+ function)), (w, None))) ∧
  (∀ w c, f (w, Some c) = ((method c w).1, ((method c w).2, Some c))).
Lemma with_instance_guarded `{Outside} `{GoRuntime} {A} function (method : Client → M A) :
  guarded function (with_instance function method) method.
Proof.
  split; [done|]. intros w c. unfold with_instance, lift_world, get_instance, mbind, gom_bind. simpl.
  by destruct (method c w).
Qed.

Section claims.
Context `{Outside} `{GoRuntime}.

(** C3. In every state the running SDK can reach, by any sequence of calls of the
    application and turns of its goroutines, whatever the network answers: the
    buffer is below its bound, the diagnostics can be serialized without a panic,
    no event in the buffer or in a batch being sent carries a private
    attribute, every spec of the store is under its name and every ID list is
    well formed. *)
Theorem reachable_sdk_invariant s :
  reachable_sdk s →
  buffered s.1 < max_events s.1 ∧ diagnostics_keyed s.1 ∧ Forall clean (accounted s.1) ∧
  specs_keyed (w_store s.1) ∧ lists_wf (lists_of s.1).
Proof.
  intros (s0 & Hinit & Hsteps).
  assert (Hok : sdk_ok s).
  { apply sdk_ok_initial in Hinit. induction Hsteps; [done|]. eauto using sdk_ok_step. }
  by destruct Hok as [[? ? ?] [? ?]].
Qed.

(** C38. A shutdown of a client in a good state returns with an empty buffer and
    a stopped ticker, and sets the shutdown flag, after which the next turn of
    either polling loop ends it without a request and without touching any
    component; only an adapter whose own shutdown panics leaves the flag, and
    with it the polling, as it was. *)
Theorem shutdown_stops_polling w :
  diagnostics_keyed w → buffered w < max_events w →
  ∃ w', Shutdown w = (Ret (), w') ∧
    lg_events (w_logger w') = [] ∧ lg_tickStopped (w_logger w') = true ∧
    (w_store w' = set_shutdown true (w_store w) ∨
     st_dataAdapter (w_store w) = true ∧ w_store w' = w_store w ∧
       ∃ i e, out_adapter_shutdown i = Some e) ∧
    ∀ w2, st_shutdown (w_store w2) = true →
      pollForRulesetChanges w2 = (Ret false, upd_trace (fun l => l ++ [ESleep (st_configSyncInterval (w_store w2))]) w2) ∧
      pollForIDListChanges w2 = (Ret false, upd_trace (fun l => l ++ [ESleep (st_idListSyncInterval (w_store w2))]) w2).
Proof.
  intros Hk Hlt. destruct (flush_run true w Hk Hlt) as (w1 & wf & ds & _ & Hflush & _ & _ & Hev & Htick & _).
  assert (Hstore : w_store wf = w_store w) by (pose proof (store_flush true w) as Hs; by rewrite Hflush in Hs).
  destruct (shutdown_store_run wf) as (w' & Hrun & Hlog & Hst).
  exists w'. split.
  { unfold Shutdown, captureVoid, capture, recovering. rewrite (run_bind _ _ w ()) by (by rewrite Hflush).
    rewrite Hflush. exact Hrun. }
  rewrite Hlog, <- Hstore. split; [done|]. split; [done|]. split; [done|].
  intros w2 Hdown. unfold pollForRulesetChanges, pollForIDListChanges, mbind, gom_bind. simpl.
  by rewrite Hdown.
Qed.

(** C17. The first initialisation: a key that is no secret key panics outside
    local mode and leaves no instance; otherwise, unless the adapter's
    initialisation panics, the call returns, with the client as the instance if it
    was built in time and with none if it was not. The new store serves
    nothing or one whole response of its sources, and nothing is overridden. *)
Theorem first_initialization w sdkKey options in_time :
  (HasDataAdapter options = true → ∀ i, out_adapter_initialize i = None) →
  let valid := LocalMode options || strings_HasPrefix sdkKey "secret" in
  let late := (0 <? InitTimeout options) && negb in_time in
  ∃ w', 
    if valid then
      ∃ c, InitializeWithOptions sdkKey options in_time (w, None) =
          (Ret (), (w', if late then None else Some c)) ∧
        started_client sdkKey options c w'
    else InitializeWithOptions sdkKey options in_time (w, None) =
      (Panic (PanicError InvalidSDKKeyError), (w', None)).
Proof.
  intros Hada valid late. unfold InitializeWithOptions, IsInitialized, get_instance, lift_world.
  unfold mbind at 1 2 3 4 6 7 8, gom_bind at 1 2 3 4 6 7 8. simpl. set (w1 := upd_outputLogger _ w).
  fold late. destruct late.
  - set (quiet := o ← global_Logger; LogStep o StatsigProcessInitialize "Timed out").
    assert (Hq : total quiet) by (unfold quiet, global_Logger; walk_total).
    unfold mbind, gom_bind. simpl. destruct (total_run quiet w1 Hq) as [[] Hrun]. rewrite Hrun. simpl.
    destruct (NewClientWithOptions_run sdkKey options (quiet w1).2 Hada) as [w' Hw']. fold valid in Hw'.
    exists w'. destruct valid; [|by rewrite Hw']. destruct Hw' as (c & Hnew & Hc). exists c. by rewrite Hnew.
  - destruct (NewClientWithOptions_run sdkKey options w1 Hada) as [w' Hw']. fold valid in Hw'.
    unfold mbind, gom_bind. simpl.
    exists w'. destruct valid; [|by rewrite Hw']. destruct Hw' as (c & Hnew & Hc). exists c. by rewrite Hnew.
Qed.

(** C37. Initialising again never replaces the instance: it returns, every
    component but the output logger is left as it is, and the output logger
    takes the options of this call. *)
Theorem initialize_again w c sdkKey options in_time :
  ∃ w1 w2, Initialize sdkKey (w, Some c) = (Ret (), (w1, Some c)) ∧
    InitializeWithOptions sdkKey options in_time (w, Some c) = (Ret (), (w2, Some c)) ∧
    w_outputLogger w2 = Some (opt_OutputLoggerOptions options) ∧
    core (upd_outputLogger (fun _ => w_outputLogger w) w1) = core w ∧
    core (upd_outputLogger (fun _ => w_outputLogger w) w2) = core w.
Proof.
  assert (Hrun : ∀ o, ∃ w', (InitializeGlobalOutputLogger o ≫= fun _ => already_initialized) w = (Ret (), w') ∧
    w_outputLogger w' = Some o ∧ core (upd_outputLogger (fun _ => w_outputLogger w) w') = core w).
  { intros o. unfold already_initialized, Log, mbind, gom_bind. simpl.
    destruct (LogCallback o); eexists; (split; [reflexivity|]); by destruct w. }
  assert (Hlift : ∀ (m m' : M ()) w', (m ≫= fun _ => m') w = (Ret (), w') →
    (lift_world m ≫= fun _ => lift_world m') (w, Some c) = (Ret (), (w', Some c))).
  { intros m m' w'. unfold lift_world, mbind, gom_bind. simpl. destruct (m w) as [[[]|e|] w0]; [|done|done].
    simpl. destruct (m' w0) as [r w0']. by intros [= -> ->]. }
  destruct (Hrun (mkOutputLoggerOptions false false false false)) as (w1 & Hrun1 & _ & Hc1).
  destruct (Hrun (opt_OutputLoggerOptions options)) as (w2 & Hrun2 & Ho2 & Hc2).
  exists w1, w2. split; [exact (Hlift _ _ _ Hrun1)|]. split; [exact (Hlift _ _ _ Hrun2)|]. done.
Qed.

(** C39. Clearing the instance always returns and leaves none, whatever the
    shutdown of the client met, and another shutdown then does nothing.  Without an
    instance each of the 19 package functions over it panics with the message that
    names it and changes nothing; with one it is the method of that client. *)
Theorem clear_instance s :
  (∃ w', ShutdownAndDangerouslyClearInstance s = (Ret (), (w', None)) ∧
     IsInitialized (w', None) = (Ret false, (w', None)) ∧ pkg_Shutdown (w', None) = (Ret (), (w', None))) ∧
  (∀ user gate,
     guarded "CheckGate" (pkg_CheckGate user gate) (fun c => CheckGate c user gate) ∧
     guarded "CheckGateWithExposureLoggingDisabled" (pkg_CheckGateWithExposureLoggingDisabled user gate)
       (fun c => CheckGateWithExposureLoggingDisabled c user gate) ∧
     guarded "ManuallyLogGateExposure" (pkg_ManuallyLogGateExposure user gate)
       (fun c => ManuallyLogGateExposure c user gate)) ∧
  (∀ user config,
     guarded "GetConfig" (pkg_GetConfig user config) (fun c => GetConfig c user config) ∧
     guarded "GetConfigWithExposureLoggingDisabled" (pkg_GetConfigWithExposureLoggingDisabled user config)
       (fun c => GetConfigWithExposureLoggingDisabled c user config) ∧
     guarded "ManuallyLogConfigExposure" (pkg_ManuallyLogConfigExposure user config)
       (fun c => ManuallyLogConfigExposure c user config)) ∧
  (∀ user experiment,
     guarded "GetExperiment" (pkg_GetExperiment user experiment) (fun c => GetExperiment c user experiment) ∧
     guarded "GetExperimentWithExposureLoggingDisabled"
       (pkg_GetExperimentWithExposureLoggingDisabled user experiment)
       (fun c => GetExperimentWithExposureLoggingDisabled c user experiment) ∧
     guarded "ManuallyLogExperimentExposure" (pkg_ManuallyLogExperimentExposure user experiment)
       (fun c => ManuallyLogExperimentExposure c user experiment)) ∧
  (∀ user layer,
     guarded "GetLayer" (pkg_GetLayer user layer) (fun c => GetLayer c user layer) ∧
     guarded "GetLayerWithExposureLoggingDisabled" (pkg_GetLayerWithExposureLoggingDisabled user layer)
       (fun c => GetLayerWithExposureLoggingDisabled c user layer) ∧
     ∀ parameter, guarded "ManuallyLogLayerParameterExposure"
       (pkg_ManuallyLogLayerParameterExposure user layer parameter)
       (fun c => ManuallyLogLayerParameterExposure c user layer parameter)) ∧
  (∀ name b (v : option GoMap),
     guarded "OverrideGate" (pkg_OverrideGate name b) (fun _ => client_OverrideGate name b) ∧
     guarded "OverrideConfig" (pkg_OverrideConfig name v) (fun _ => client_OverrideConfig name v) ∧
     guarded "OverrideLayer" (pkg_OverrideLayer name v) (fun _ => client_OverrideLayer name v)) ∧
  (∀ event events,
     guarded "LogEvent" (pkg_LogEvent event) (fun c => LogEvent c event) ∧
     guarded "LogImmediate" (pkg_LogImmediate events) (fun c => LogImmediate c events)) ∧
  (∀ user clientKey,
     guarded "GetClientInitializeResponse" (pkg_GetClientInitializeResponse user)
       (fun c => GetClientInitializeResponse c user "") ∧
     guarded "GetClientInitializeResponseForTargetApp"
       (pkg_GetClientInitializeResponseForTargetApp user clientKey)
       (fun c => GetClientInitializeResponse c user clientKey)).
Proof.
  split; [|split_and!; intros; split_and!; intros; apply with_instance_guarded].
  assert (Hs : total Shutdown).
  { unfold Shutdown, captureVoid. apply total_capture; [apply fueled_shutdown|apply total_ret]. }
  destruct s as [w [c|]]; [|by exists w].
  destruct (Hs w) as [[] Hw]. exists (Shutdown w).2. split; [|done].
  unfold ShutdownAndDangerouslyClearInstance, pkg_Shutdown, get_instance, mbind, gom_bind, lift_world. simpl.
  destruct (Shutdown w) as [r w']. simpl in Hw. by subst r.
Qed.
End claims.

(** ** Witnesses *)

Section witnesses.
#[local] Existing Instance example_runtime.
#[local] Instance sdk_outside : Outside := example_outside serving broken_adapter.

(** The state after a start and a check of a gate. *)
Definition started_sdk : Sdk :=
  ((pkg_CheckGate alice "open" ≫= fun _ => mret ())
     (InitializeWithOptions "secret-key" example_options true (zero_world, None)).2).2.

Lemma reachable_sdk_invariant_witness :
  buffered started_sdk.1 < max_events started_sdk.1 ∧ diagnostics_keyed started_sdk.1 ∧
  Forall clean (accounted started_sdk.1) ∧
  specs_keyed (w_store started_sdk.1) ∧ lists_wf (lists_of started_sdk.1).
Proof.
  apply (reachable_sdk_invariant started_sdk). exists (zero_world, None). split; [reflexivity|].
  unfold started_sdk. set (s1 := (InitializeWithOptions _ _ _ _).2).
  apply (rtc_l sdk_step _ s1); [apply (step_call _ _ (call_InitializeWithOptions _ _ _))|].
  clearbody s1. apply rtc_once. apply (step_call _ s1 (call_CheckGate _ _)).
Defined.

Lemma shutdown_stops_polling_witness :
  ∃ w', Shutdown (example_world stocked_store) = (Ret (), w') ∧
    lg_events (w_logger w') = [] ∧ lg_tickStopped (w_logger w') = true ∧
    (w_store w' = set_shutdown true stocked_store ∨
     false = true ∧ w_store w' = stocked_store ∧ ∃ i e, out_adapter_shutdown i = Some e) ∧
    ∀ w2, st_shutdown (w_store w2) = true →
      pollForRulesetChanges w2 = (Ret false, upd_trace (fun l => l ++ [ESleep (st_configSyncInterval (w_store w2))]) w2) ∧
      pollForIDListChanges w2 = (Ret false, upd_trace (fun l => l ++ [ESleep (st_idListSyncInterval (w_store w2))]) w2).
Proof.
  apply (shutdown_stops_polling (example_world stocked_store)); [|reflexivity].
  intros []; apply Forall_nil_2.
Defined.

Lemma first_initialization_witness :
  ∃ w' c, InitializeWithOptions "secret-key" example_options true (zero_world, None) =
      (Ret (), (w', Some c)) ∧ started_client "secret-key" example_options c w'.
Proof.
  destruct (first_initialization zero_world "secret-key" example_options true) as (w' & c & Hrun & Hc);
    [reflexivity|]. exists w', c. split; [exact Hrun|exact Hc].
Defined.
End witnesses.
